(* ===== verification/_CoqProject ===== *)
-Q . S2P
Prelude.v
GoStrings.v
Crypto.v
Json.v
Errors.v
Config.v
DeepCopy.v
Trace.v
Kube.v
Policy.v
Capability.v
PlanStore.v
Admission.v
Regex.v
Redaction.v
SafeWrite.v
Confinement.v
Auth.v
Upstream.v
Remote.v
Operations.v
AuditTrail.v
Catalog.v
ReadOutput.v
Reads.v
Schema.v
Manual.v
Server.v
OperatorClient.v
Certificates.v
Operator.v
Lifecycle.v
ToolList.v
Session.v
CommandLine.v
Manager.v
Composition.v
