(* ===== verification/Prelude.v ===== *)
(** * supek8smcp: a verification development

    supek8smcp gives MCP clients controlled access to a Kubernetes cluster.  It
    is two Go programs in one binary (src/cmd/supek8smcp).  The server (src/internal/server) offers the tools
    [k8s.help], [k8s.search], [k8s.describe], [k8s.read], [k8s.plan] and
    [k8s.commit] over HTTP and acts in the cluster with the credential of the
    caller.  The operator (src/internal/operator) runs one such server for
    every KubernetesMCPServer resource: it writes its configuration, its
    certificates, its network policy, its Deployment and its Service.  The two
    share the resource type (src/api/v1alpha1) and the configuration file
    (src/internal/runtimeconfig).

    ** How the parts interact

    An HTTP request passes the middleware (browser origin, bearer token,
    TokenReview, rate limits, slots), the size and batch checks on its body,
    and the MCP SDK, which makes a tool call of it.  [k8s.search] reads the
    catalogue made from API discovery and hands out signed capability handles;
    the other tools decode them.  Every access is checked against the policy
    and then with a SelfSubjectAccessReview made as the caller.  A write is
    first planned ([k8s.plan]: a dry run, kept in the plan store under a random
    ID with a six-digit code) and then committed ([k8s.commit]: the plan is
    consumed, everything is checked again, and one request is sent).  Results
    are redacted, shaped and bounded, and every call leaves an audit record.

    ** Files

    - Prelude.v: results, machine integers, durations, lists and tactics.
      GoStrings.v, Crypto.v, Json.v, Regex.v: what the code uses of Go's
      standard library (strings and UTF-8; SHA-256, HMAC, hexadecimal, base64;
      dynamic values and JSON text; regular expressions), executable.
    - Errors.v: errors.go and the outcome part of audit.go.  AuditTrail.v: the
      counters and log records of audit.go.
    - Config.v: the resource types with their defaults, validation and the
      configuration file (kubernetesmcpserver_types.go, runtimeconfig/config.go).
      DeepCopy.v: the same types in memory and their generated copy functions
      (zz_generated.deepcopy.go).
    - Trace.v: the monad [K] of request sequences; Kube.v: the requests of the
      server; OperatorClient.v: the requests and objects of the operator.
    - Policy.v: policy.go.  Capability.v: capability.go.  PlanStore.v:
      planstore.go.  Admission.v: admission.go, ratelimit.go, timeouts.go.
      Redaction.v: redaction.go.  SafeWrite.v: safe_write.go, and Confinement.v: what
      its checks mean for the workloads of Kubernetes.  Auth.v: auth.go.
      Upstream.v: upstream.go.  Remote.v: remote.go.  Operations.v: operations.go.  Catalog.v:
      catalog.go.  ReadOutput.v: read_output.go.  Reads.v: reads.go.
      Schema.v: schema.go, schema_cache.go.  Manual.v: manual.go.
    - Server.v: run.go and http.go: the state of a server ([App]), its start,
      every tool handler ([call_tool]) and the path of an HTTP request ([serve]).
      ToolList.v: the tools as a client sees them ([newMCPServer]).  Session.v:
      many calls to one server.  Lifecycle.v: listeners and shutdown ([Serve]).
    - Certificates.v: certificates.go.  Operator.v: reconciler.go.  Manager.v:
      operator/run.go, [SetupWithManager] and groupversion_info.go.
    - CommandLine.v: main.go with Go's flag parsing.
    - Composition.v: operator and server together.

    Definitions keep the names of the code; a method [M] of type [T] is [T_M],
    and a field or method whose name several types have carries a short prefix.
    The examples that show that hypotheses can hold are in a module
    [<File>Witness] at the end of each file.

    ** How code is modelled

    - A function with an error result returns a [result]; the errors keep their
      chains ([go_error]).
    - State under a mutex is a record, and a method is a function from state to
      state.  The clock and random draws are arguments.  Where goroutines interleave, as
      in Admission.v, PlanStore.v, Schema.v, Upstream.v and Lifecycle.v, the
      critical sections are the steps of a relation and the invariants hold in
      all reachable states.
    - Where sharing of memory matters it is there: the variables the hints of tools
      point to are a store (ToolList.v), slices and pointers lie in a heap
      (DeepCopy.v).
    - A handler that talks to Kubernetes is a computation in [K]: an environment,
      which knows all that happened before, answers each request.  Nothing is
      assumed of it, so the theorems cover failures, cancellation, and whatever
      others do to the cluster in between.
    - A Go map is the list of its entries in the order one iteration visits
      them where that order can be seen, and a [gmap] elsewhere.
    - Integers have the width they have in the code: [wrap64], [wrap32] and the
      saturating [time_Sub] are written out where a result can leave the range.

    ** Parameters

    Code of other projects is a class without a definition, and what is relied
    on is a class of laws named after it: [GoLib] (Unicode tables above
    U+007F, [strconv.Quote], text of floats; no laws), [QuantityLib]
    (resource.Quantity), [ConfigText] (JSON text of a configuration),
    [UnstructuredLib] (accessors of unstructured objects: a name that was set is read back,
    or none when the metadata are no map), [RateLib]
    (golang.org/x/time/rate; no laws), [GroupVersionLib], [SortLib] (sort.Slice
    returns a permutation), [FieldsLib] (field selectors), [TimeLib] (RFC 3339
    times; no laws), [X509Lib] (crypto/x509, encoding/pem), [ControllerLib]
    (owner references and conditions), [JsonSchemaLib] (the schema of a struct),
    [MetaTypes] and [MetaCopies] (structs of apimachinery inside the resource and
    their copy functions) and [McpSdk] (the tool call made of a request body; no
    laws).  Each class with laws has an instance that
    satisfies them, in a [Witness] module.

    ** What the theorems show

    - Writes (the one request that can change the cluster is [planned_request] of the
      planned operation: its kind, target, body and preconditions):
      [committed_write_was_approved], [planned_operation_is_checked],
      [planned_operation_is_committed] (Operations.v); for a whole server
      [changes_are_audited], [read_only_server_never_writes],
      [malformed_code_costs_nothing], [answers_are_audited] (Server.v); and over
      all the calls it serves [every_change_was_planned] (Session.v).
    - Callers: [requests_act_for_the_reviewed_caller] (Server.v),
      [accepted_operation_is_authorized], [Policy_Check_iff_permitted]
      (Policy.v), [read_is_authorized] (Reads.v), [search_results_are_usable]
      (Catalog.v), [decoded_handle_is_signed] (Capability.v).
    - What clients are shown: [tool_hints_are_true] (ToolList.v),
      [help_matches_registration] (Server.v).
    - Secrets and output: [secret_reads_do_not_leak], [followed_logs_are_a_prefix],
      [watch_is_bounded], [progress_repeats_the_answer] (Reads.v),
      [annotations_are_redacted] (Redaction.v), [accepted_options_are_valid],
      [projection_is_exact] (ReadOutput.v), [response_body_is_limited] (Auth.v).
    - Shared state: [plan_store_refines] against the abstract store of PlanStore.v,
      [slots_are_shared] (Admission.v), [schema_cache_isolates] (Schema.v), and
      [server_state_is_sound] for all of it (Server.v).
    - Time and connections: [call_end_cancels_requests], [stage_is_discovery_iff],
      [discovery_request_is_tied] (Upstream.v), [shutdown_is_orderly],
      [writes_outlast_calls] (Lifecycle.v).
    - SafeWrite: [accepted_workload_is_confined], [accepted_update_keeps_controls]
      (Confinement.v), for Pods, controllers with a Pod template and CronJobs.
    - Catalogue and schemas: [pages_cover_the_catalog],
      [catalog_offers_discovered] (Catalog.v), [field_found_iff_declared],
      [expansion_terminates] (Schema.v).
    - Operator: [operator_respects_ownership], [reconcile_opens_or_closes],
      [service_follows_policy], [token_review_is_confined] (Operator.v),
      [serving_certificate_is_checked] (Certificates.v),
      [operator_watches_its_objects], [operator_starts_as_told] (Manager.v),
      [deep_copies_are_separate] (DeepCopy.v).
    - Both: [operator_objects_are_protected],
      [written_configuration_is_accepted], [deployed_server_finds_its_files]
      (Composition.v), [options_round_trip] (CommandLine.v),
      [Validate_iff_valid] (Config.v).
    - Where the code does other than it means to, which the theorems above leave out or
      state as a condition: [plan_is_listed_as_destructive]
      (ToolList.v), [truncated_watch_skips_event] (Reads.v),
      [safewrite_denies_logs] (Policy.v), [template_spec_is_not_inspected]
      (SafeWrite.v), [subject_key_confuses_groups_and_extra] (Auth.v),
      [remote_timeout_wraps] (Remote.v), [restart_applies_any_patch]
      (Operations.v); and the managed certificate, which is read again after it was
      verified ([provenance], Certificates.v).

    ** Fuel

    Recursion that is not structural runs on fuel that is proved enough.
    [normalizeClientError] unfolds at most the depth of the error chain
    ([normalize_fuel_enough]).  [schemaProperty] enters a reference once, so
    the number of references and the depth of the document bound it
    ([property_fuel_returns]); [expandSchema] also stops at its depth and its
    budget of nodes ([expand_fuel_returns]); more fuel gives the same answer
    ([property_fuel_mono], [expand_fuel_mono]).  The padded SHA-256 message has
    as many blocks as its fuel.  The loop of the catalogue's [list] is a list
    of attempts, one for each time it waits for another request's refresh: how
    many there are is up to the other requests, so it is an argument.

    ** Not modelled

    - The insides of client-go, controller-runtime, the MCP SDK and net/http: they
      are environments, parameters or steps; of the manager and of a Pod, only what
      they are told is stated.  That covers registering collectors
      with Prometheus and the texts of log and usage messages, which keep no
      state of the program.
    - The order in which the two outputs of a remote command announce progress; each
      output keeps its own (Remote.v).
    - The field manager, the same constant in every write.
    - The operator gives one map of labels to several objects; labels are values here.

    Calls that overlap in time are covered by Session.v in the order of their
    critical sections on the plan store, with any change to the rest of the
    server's state in between.  Left for later: the shared map of labels. *)

From stdpp Require Export base tactics option list numbers strings gmap fin_maps.
From stdpp Require Import pretty.
From Stdlib Require Export ZArith Lia.
From Stdlib Require Import Ascii.

#[global] Set Default Goal Selector "!".

(** ** Fallible computations

    Go's [(T, error)] pairs: a function that returns a non-nil error returns
    no usable value, so the pair is a sum. *)
Inductive result (E A : Type) : Type :=
| Ok (a : A)
| Err (e : E).
Arguments Ok {E A} a.
Arguments Err {E A} e.

#[global] Instance result_ret E : MRet (result E) := fun A a => Ok a.
#[global] Instance result_bind E : MBind (result E) :=
  fun A B k m => match m with Ok a => k a | Err e => Err e end.
#[global] Instance result_fmap E : FMap (result E) :=
  fun A B f m => match m with Ok a => Ok (f a) | Err e => Err e end.

Definition is_ok {E A} (r : result E A) : bool :=
  match r with Ok _ => true | Err _ => false end.

(** [if err := check(); err != nil { return err }] over a loop: the first
    element whose check fails ends the loop with that error. *)
Fixpoint first_error {E A} (check : A -> result E unit) (l : list A) : result E unit :=
  match l with
  | [] => Ok ()
  | x :: l' => match check x with Ok _ => first_error check l' | Err e => Err e end
  end.

(** ** Machine integers and durations *)

Definition int64_max : Z := 2 ^ 63 - 1.
Definition int64_min : Z := - 2 ^ 63.

(** Two's-complement wrap-around of an [int64] operation. *)
Definition wrap64 (z : Z) : Z := (z + 2 ^ 63) mod 2 ^ 64 - 2 ^ 63.

(** Two's-complement wrap-around of an [int32] operation. *)
Definition wrap32 (z : Z) : Z := (z + 2 ^ 31) mod 2 ^ 32 - 2 ^ 31.

Definition int64_ok (z : Z) : Prop := (int64_min <= z <= int64_max)%Z.

(** [time.Time] as nanoseconds after the zero [time.Time]; [time.Duration] as
    an [int64] number of nanoseconds. *)
Definition nanosecond : Z := 1.
Definition second : Z := 1000000000.
Definition minute : Z := 60 * second.

(** [t.Sub(u)] saturates at the ends of the [Duration] range. *)
Definition time_Sub (t u : Z) : Z := Z.max int64_min (Z.min int64_max (t - u)).

(** [time.Time{}.IsZero()]. *)
Definition time_IsZero (t : Z) : bool := (t =? 0)%Z.

(** ** Tactics *)

(** Case analysis on every [match] and [if] of the goal and the context,
    closing the contradictory branches. *)
Ltac split_matches :=
  repeat (case_match; simplify_eq/=; try done).

(** The same, for one hypothesis that computes a [result]. *)
Ltac split_result H :=
  repeat (match type of H with
          | context [match ?x with _ => _ end] => destruct x eqn:?; simplify_eq/=
          end).

(** Turns boolean tests of the code into the propositions they decide. *)
Ltac reflect_bools :=
  repeat match goal with
  | H : (_ && _)%bool = true |- _ => apply andb_true_iff in H as [? ?]
  | H : (_ || _)%bool = false |- _ => apply orb_false_iff in H as [? ?]
  | H : negb _ = true |- _ => apply negb_true_iff in H
  | H : negb _ = false |- _ => apply negb_false_iff in H
  | H : bool_decide _ = true |- _ => apply bool_decide_eq_true in H
  | H : bool_decide _ = false |- _ => apply bool_decide_eq_false in H
  | H : (_ =? _)%Z = true |- _ => apply Z.eqb_eq in H
  | H : (_ =? _)%Z = false |- _ => apply Z.eqb_neq in H
  | H : (_ <? _)%Z = true |- _ => apply Z.ltb_lt in H
  | H : (_ <? _)%Z = false |- _ => apply Z.ltb_ge in H
  | H : (_ <=? _)%Z = true |- _ => apply Z.leb_le in H
  | H : (_ <=? _)%Z = false |- _ => apply Z.leb_gt in H
  end.

(** Evaluates the closed decisions of the goal. *)
Ltac decide_closed :=
  repeat match goal with
  | |- context [@bool_decide ?P ?D] =>
    let b := eval vm_compute in (@bool_decide P D) in
    lazymatch b with true => idtac | false => idtac end;
    change (@bool_decide P D) with b
  end; cbn [andb orb negb].

Create HintDb supek8s.

(** ** Shared lemmas *)

Lemma wrap64_id z : int64_ok z -> wrap64 z = z.
Proof.
  unfold int64_ok, int64_min, int64_max, wrap64. intros ?.
  rewrite Z.mod_small; lia.
Qed.

Lemma wrap64_range z : int64_ok (wrap64 z).
Proof.
  unfold int64_ok, int64_min, int64_max, wrap64.
  pose proof (Z.mod_pos_bound (z + 2 ^ 63) (2 ^ 64)). lia.
Qed.

Lemma wrap32_id z : (- 2 ^ 31 <= z < 2 ^ 31)%Z -> wrap32 z = z.
Proof. unfold wrap32. intros ?. rewrite Z.mod_small; lia. Qed.

Lemma bind_ok {E A B} (m : result E A) (k : A -> result E B) b :
  (m ≫= k) = Ok b <-> exists a, m = Ok a /\ k a = Ok b.
Proof. destruct m; cbn; naive_solver. Qed.

Lemma bind_unit_ok {E B} (m : result E unit) (k : unit -> result E B) b :
  (m ≫= k) = Ok b <-> m = Ok () /\ k () = Ok b.
Proof. destruct m as [[]|]; cbn; naive_solver. Qed.

Lemma first_error_ok {E A} (check : A -> result E unit) l :
  first_error check l = Ok () <-> Forall (fun x => check x = Ok ()) l.
Proof.
  induction l as [|x l IH]; simpl.
  { split; [constructor | done]. }
  rewrite Forall_cons, <- IH. destruct (check x) as [[]|e]; naive_solver.
Qed.

Lemma first_error_err {E A} (check : A -> result E unit) l e :
  first_error check l = Err e -> exists x, x ∈ l /\ check x = Err e.
Proof.
  induction l as [|x l IH]; simpl; [done|].
  destruct (check x) eqn:Hx; intros ?; simplify_eq/=.
  - destruct IH as (y & ? & ?); [done|]. exists y. set_solver.
  - exists x. set_solver.
Qed.

Lemma forallb_impl {A} (p q : A -> bool) l :
  (forall x, p x = true -> q x = true) -> forallb p l = true -> forallb q l = true.
Proof. rewrite !forallb_forall. auto. Qed.

(** *** Sums over a finite map *)

Definition map_sum {A} `{Countable K} (f : A -> Z) (m : gmap K A) : Z :=
  map_fold (fun _ x acc => (f x + acc)%Z) 0%Z m.

Section map_sum.
Context `{Countable K} {A : Type}.
Implicit Types (f g : A -> Z) (m : gmap K A).

Lemma map_sum_empty f : map_sum f (∅ : gmap K A) = 0%Z.
Proof. unfold map_sum. by rewrite map_fold_empty. Qed.

Lemma map_sum_insert f m i x : m !! i = None -> map_sum f (<[i := x]> m) = (f x + map_sum f m)%Z.
Proof. intros Hi. unfold map_sum. rewrite map_fold_insert_L; [done|intros; lia|done]. Qed.

Lemma map_sum_delete f m i x : m !! i = Some x -> map_sum f m = (f x + map_sum f (delete i m))%Z.
Proof. intros Hi. unfold map_sum. rewrite (map_fold_delete_L _ _ i x m); [done|intros; lia|done]. Qed.

Lemma map_sum_update f m i x y :
  m !! i = Some x -> map_sum f (<[i := y]> m) = (map_sum f m - f x + f y)%Z.
Proof.
  intros Hi. rewrite <- insert_delete_eq, map_sum_insert by apply lookup_delete_eq.
  rewrite (map_sum_delete f m i x Hi). lia.
Qed.

(** Pointwise bounds add up. *)
Lemma map_sum_le f g m :
  map_Forall (fun _ x => (f x <= g x)%Z) m -> (map_sum f m <= map_sum g m)%Z.
Proof.
  induction m as [|i x m Hi IH] using map_ind; intros Hm; [by rewrite !map_sum_empty|].
  rewrite map_Forall_insert in Hm by done. destruct Hm as [Hx Hm].
  rewrite !map_sum_insert by done. specialize (IH Hm). lia.
Qed.

Lemma map_sum_nonneg f m : map_Forall (fun _ x => (0 <= f x)%Z) m -> (0 <= map_sum f m)%Z.
Proof.
  induction m as [|i x m Hi IH] using map_ind; intros Hm; [by rewrite map_sum_empty|].
  rewrite map_Forall_insert in Hm by done. destruct Hm as [Hx Hm].
  rewrite map_sum_insert by done. specialize (IH Hm). lia.
Qed.

Lemma map_sum_lookup_le f m i x :
  map_Forall (fun _ y => (0 <= f y)%Z) m -> m !! i = Some x -> (f x <= map_sum f m)%Z.
Proof.
  intros Hm Hi. rewrite (map_sum_delete f m i x Hi).
  pose proof (map_sum_nonneg f (delete i m) (map_Forall_delete _ _ _ Hm)). lia.
Qed.

Lemma map_sum_one m : map_sum (fun _ => 1%Z) m = Z.of_nat (size m).
Proof.
  induction m as [|i x m Hi IH] using map_ind; [by rewrite map_sum_empty, map_size_empty|].
  rewrite map_sum_insert, IH, map_size_insert_None by done. lia.
Qed.
End map_sum.

#[export] Hint Resolve wrap64_range : supek8s.
