(* ===== verification/GoStrings.v ===== *)
(** * The parts of Go's [strings], [strconv], [unicode/utf8] and [fmt] the server uses

    A Go string is a byte sequence: [string], whose characters are bytes.
    Case mapping and white space work on runes, so the UTF-8 decoder of
    [unicode/utf8] (with U+FFFD, one byte wide, for an invalid byte) is
    written out.  The Unicode tables for runes above U+007F and the
    formatting of floating-point numbers are fields of the class [GoLib]:
    the theorems hold for all of them. *)

From stdpp Require Import pretty.
From Stdlib Require Import Ascii String.
From Stdlib Require Export SpecFloat.
From S2P Require Import Prelude.

Local Open Scope N_scope.

(** ** Tables of the standard library that are not written out *)

(** [lower_high], [fold_high]: [unicode.ToLower] and the canonical member of
    the [unicode.SimpleFold] orbit, for runes of at least U+0080.
    [Quote]: [strconv.Quote].  [format_float]: [fmt.Sprint] of a [float64].
    [json_float]: the [encoding/json] text of a finite [float64].
    [ParseFloat]: the value [strconv.ParseFloat] returns, also on error. *)
Class GoLib := {
  lower_high : N -> N;
  fold_high : N -> N;
  Quote : string -> string;
  format_float : spec_float -> string;
  json_float : spec_float -> string;
  ParseFloat : string -> spec_float
}.

(** A concrete instance for closed examples: no case mapping above U+007F and
    no float text. *)
Definition plain_GoLib : GoLib := {|
  lower_high := fun r => r;
  fold_high := fun r => r;
  Quote := fun s => String (ascii_of_N 34) (s +:+ String (ascii_of_N 34) EmptyString);
  format_float := fun _ => "0"%string;
  json_float := fun _ => "0"%string;
  ParseFloat := fun _ => S754_zero false
|}.

(** ** Bytes *)

Definition byte_of (c : ascii) : N := N_of_ascii c.
Definition char_of (n : N) : ascii := ascii_of_N n.

Definition between (lo x hi : N) : bool := (lo <=? x) && (x <=? hi).

(** ** UTF-8 *)

Definition RuneError : N := 0xFFFD.

Definition cont (b : N) : bool := between 0x80 b 0xBF.

(** [utf8.DecodeRuneInString]: the first rune and its width in bytes. *)
Definition DecodeRune (s : string) : N * nat :=
  match s with
  | EmptyString => (RuneError, 0%nat)
  | String c0 s1 =>
    let b0 := byte_of c0 in
    if b0 <? 0x80 then (b0, 1%nat) else
    match s1 with
    | EmptyString => (RuneError, 1%nat)
    | String c1 s2 =>
      let b1 := byte_of c1 in
      if between 0xC2 b0 0xDF && cont b1 then
        ((b0 - 0xC0) * 64 + (b1 - 0x80), 2%nat)
      else match s2 with
      | EmptyString => (RuneError, 1%nat)
      | String c2 s3 =>
        let b2 := byte_of c2 in
        let lo := if b0 =? 0xE0 then 0xA0 else 0x80 in
        let hi := if b0 =? 0xED then 0x9F else 0xBF in
        if between 0xE0 b0 0xEF && between lo b1 hi && cont b2 then
          ((b0 - 0xE0) * 4096 + (b1 - 0x80) * 64 + (b2 - 0x80), 3%nat)
        else match s3 with
        | EmptyString => (RuneError, 1%nat)
        | String c3 _ =>
          let b3 := byte_of c3 in
          let lo4 := if b0 =? 0xF0 then 0x90 else 0x80 in
          let hi4 := if b0 =? 0xF4 then 0x8F else 0xBF in
          if between 0xF0 b0 0xF4 && between lo4 b1 hi4 && cont b2 && cont b3 then
            ((b0 - 0xF0) * 262144 + (b1 - 0x80) * 4096 + (b2 - 0x80) * 64 + (b3 - 0x80), 4%nat)
          else (RuneError, 1%nat)
        end
      end
    end
  end.

(** [utf8.EncodeRune], with U+FFFD for a value that is no code point. *)
Definition EncodeRune (r : N) : string :=
  if r <? 0x80 then String (char_of r) EmptyString
  else if r <? 0x800 then
    String (char_of (0xC0 + r / 64)) (String (char_of (0x80 + r mod 64)) EmptyString)
  else if between 0xD800 r 0xDFFF || (0x10FFFF <? r) then
    String (char_of 0xEF) (String (char_of 0xBF) (String (char_of 0xBD) EmptyString))
  else if r <? 0x10000 then
    String (char_of (0xE0 + r / 4096)) (String (char_of (0x80 + (r / 64) mod 64))
      (String (char_of (0x80 + r mod 64)) EmptyString))
  else
    String (char_of (0xF0 + r / 262144)) (String (char_of (0x80 + (r / 4096) mod 64))
      (String (char_of (0x80 + (r / 64) mod 64)) (String (char_of (0x80 + r mod 64)) EmptyString))).

(** [for _, r := range s], each rune with its bytes.  [skip] counts the bytes
    of the current rune still to be passed over. *)
Fixpoint chunks_from (skip : nat) (s : string) : list (N * string) :=
  match s with
  | EmptyString => []
  | String c s' =>
    match skip with
    | S k => chunks_from k s'
    | O => let '(r, w) := DecodeRune (String c s') in
           (r, substring 0 w (String c s')) :: chunks_from (w - 1) s'
    end
  end.
Definition chunks (s : string) : list (N * string) := chunks_from 0 s.
Definition runes (s : string) : list N := (chunks s).*1.

Definition concat_strings (l : list string) : string := foldr String.append EmptyString l.

(** ** Case *)

Definition is_upper (r : N) : bool := between 65 r 90.
Definition is_lower (r : N) : bool := between 97 r 122.
Definition is_digit (r : N) : bool := between 48 r 57.

Section golib.
Context {G : GoLib}.

(** [unicode.ToLower].  The two runes above ASCII whose lower case is an
    ASCII letter are U+0130 and the Kelvin sign U+212A. *)
Definition rune_ToLower (r : N) : N :=
  if r <? 0x80 then (if is_upper r then r + 32 else r)
  else if r =? 0x130 then 0x69
  else if r =? 0x212A then 0x6B
  else lower_high r.

(** A representative of the [unicode.SimpleFold] orbit.  The orbits of the
    ASCII letters are pairs, except that U+017F folds with s and U+212A
    with k. *)
Definition rune_Fold (r : N) : N :=
  if r <? 0x80 then (if is_upper r then r + 32 else r)
  else if r =? 0x17F then 0x73
  else if r =? 0x212A then 0x6B
  else 0x80 + fold_high r.

(** [strings.ToLower]. *)
Definition ToLower (s : string) : string :=
  concat_strings ((fun r => EncodeRune (rune_ToLower r)) <$> runes s).

(** [strings.EqualFold]. *)
Definition EqualFold (s t : string) : bool :=
  bool_decide (rune_Fold <$> runes s = rune_Fold <$> runes t).
End golib.

(** ** Searching and cutting *)

(** [strings.HasPrefix(s, p)]. *)
Definition HasPrefix (s p : string) : bool := String.prefix p s.

(** [strings.TrimPrefix(s, p)]. *)
Definition drop_bytes (n : nat) (s : string) : string := substring n (String.length s - n) s.
Definition TrimPrefix (s p : string) : string :=
  if HasPrefix s p then drop_bytes (String.length p) s else s.

(** [strings.HasSuffix(s, p)] and [strings.TrimSuffix(s, p)]. *)
Definition HasSuffix (s p : string) : bool :=
  (String.length p <=? String.length s)%nat &&
  (substring (String.length s - String.length p) (String.length p) s =? p)%string.
Definition TrimSuffix (s p : string) : string :=
  if HasSuffix s p then substring 0 (String.length s - String.length p) s else s.

(** [strings.Contains(s, sub)]. *)
Fixpoint Contains (s sub : string) : bool :=
  HasPrefix s sub ||
  match s with EmptyString => false | String _ s' => Contains s' sub end.

Fixpoint has_char (c : ascii) (s : string) : bool :=
  match s with EmptyString => false | String d s' => bool_decide (c = d) || has_char c s' end.

(** [strings.ContainsAny(s, chars)] for ASCII [chars]. *)
Fixpoint ContainsAny (s chars : string) : bool :=
  match s with EmptyString => false | String c s' => has_char c chars || ContainsAny s' chars end.

(** [strings.Count(s, c)] for a one-byte separator. *)
Fixpoint CountByte (s : string) (c : ascii) : nat :=
  match s with
  | EmptyString => 0%nat
  | String d s' => ((if bool_decide (c = d) then 1 else 0) + CountByte s' c)%nat
  end.

(** [strings.Split(s, sep)] for a one-byte separator. *)
Fixpoint Split (s : string) (sep : ascii) : list string :=
  match s with
  | EmptyString => [EmptyString]
  | String c s' =>
    if bool_decide (c = sep) then EmptyString :: Split s' sep
    else match Split s' sep with
         | part :: parts => String c part :: parts
         | [] => [String c EmptyString]
         end
  end.

(** [strings.SplitN(s, sep, 2)]: the part before the first separator and,
    when there is one, all that follows it. *)
Fixpoint SplitN2 (s : string) (sep : ascii) : string * option string :=
  match s with
  | EmptyString => (EmptyString, None)
  | String c s' =>
    if bool_decide (c = sep) then (EmptyString, Some s')
    else let '(a, rest) := SplitN2 s' sep in (String c a, rest)
  end.

(** [strings.Join(parts, sep)]. *)
Fixpoint Join (parts : list string) (sep : string) : string :=
  match parts with
  | [] => EmptyString
  | [p] => p
  | p :: rest => (p ++ sep ++ Join rest sep)%string
  end.

Fixpoint map_bytes (f : ascii -> ascii) (s : string) : string :=
  match s with EmptyString => EmptyString | String c s' => String (f c) (map_bytes f s') end.

(** [unicode.IsSpace]. *)
Definition IsSpace (r : N) : bool :=
  between 9 r 13 || (r =? 32) || (r =? 0x85) || (r =? 0xA0) || (r =? 0x1680)
  || between 0x2000 r 0x200a || (r =? 0x2028) || (r =? 0x2029) || (r =? 0x202f)
  || (r =? 0x205f) || (r =? 0x3000).

Fixpoint drop_while {A} (p : A -> bool) (l : list A) : list A :=
  match l with [] => [] | x :: l' => if p x then drop_while p l' else l end.

(** [strings.TrimSpace]. *)
Definition TrimSpace (s : string) : string :=
  let space := fun '(r, _) => IsSpace r in
  concat_strings (reverse (drop_while space (reverse (drop_while space (chunks s))))).*2.

(** [bytes.TrimLeft(s, cutset)] and [strings.Trim(s, cutset)] for ASCII cutsets. *)
Fixpoint TrimLeft (s cutset : string) : string :=
  match s with
  | EmptyString => EmptyString
  | String c s' => if has_char c cutset then TrimLeft s' cutset else s
  end.
Fixpoint TrimRight (s cutset : string) : string :=
  match s with
  | EmptyString => EmptyString
  | String c s' =>
    match TrimRight s' cutset with
    | EmptyString => if has_char c cutset then EmptyString else String c EmptyString
    | t => String c t
    end
  end.
Definition Trim (s cutset : string) : string := TrimRight (TrimLeft s cutset) cutset.

(** ** Decimal numbers *)

(** [strconv.Itoa], [strconv.FormatInt(_, 10)]. *)
Definition Itoa (z : Z) : string := pretty z.

Definition digit_value (c : ascii) : option N :=
  if is_digit (byte_of c) then Some (byte_of c - 48) else None.

Fixpoint parse_digits (acc : N) (s : string) : option N :=
  match s with
  | EmptyString => Some acc
  | String c s' =>
    match digit_value c with
    | Some d => parse_digits (acc * 10 + d) s'
    | None => None
    end
  end.

Definition parse_unsigned (s : string) : option N :=
  match s with EmptyString => None | _ => parse_digits 0 s end.

(** [strconv.Atoi] on a 64-bit platform: an optional sign, at least one
    digit, and the range check of [int64]. *)
Definition Atoi (s : string) : option Z :=
  let '(neg, digits) :=
    match s with
    | String c s' =>
      if bool_decide (c = "-"%char) then (true, s')
      else if bool_decide (c = "+"%char) then (false, s') else (false, s)
    | EmptyString => (false, s)
    end in
  match parse_unsigned digits with
  | Some n =>
    let z := if neg : bool then (- Z.of_N n)%Z else Z.of_N n in
    if ((int64_min <=? z) && (z <=? int64_max))%Z then Some z else None
  | None => None
  end.

(** ** Lemmas *)

Local Close Scope N_scope.

Lemma append_cons c (s t : string) : (String c s +:+ t) = String c (s +:+ t).
Proof. done. Qed.

Lemma append_nil_r (s : string) : (s +:+ "") = s.
Proof. induction s as [|c s IH]; [done|]. by rewrite append_cons, IH. Qed.

Lemma append_assoc (s t u : string) : ((s +:+ t) +:+ u) = (s +:+ (t +:+ u)).
Proof. induction s as [|c s IH]; [done|]. by rewrite !append_cons, IH. Qed.

Lemma length_append (s t : string) :
  String.length (s +:+ t) = String.length s + String.length t.
Proof. induction s as [|c s IH]; [done|]. rewrite append_cons. cbn. by rewrite IH. Qed.

Lemma append_inj_l (s t u : string) : (s +:+ t) = (s +:+ u) -> t = u.
Proof. induction s as [|c s IH]; [done|]. rewrite !append_cons. intros [=]. auto. Qed.

(** Two strings with a common tail-free split: the parts agree when the heads
    have the same length. *)
Lemma append_inj_length (s s' t t' : string) :
  String.length s = String.length s' -> (s +:+ t) = (s' +:+ t') -> s = s' /\ t = t'.
Proof.
  revert s'. induction s as [|c s IH]; intros [|c' s'] Hlen; try done.
  rewrite !append_cons. intros [= -> H]. cbn in Hlen. apply IH in H as [-> ->]; [done | lia].
Qed.

Lemma append_inj_r (s t u : string) : (s +:+ u) = (t +:+ u) -> s = t.
Proof.
  intros H. assert (String.length s = String.length t) as Hlen.
  { pose proof (length_append s u). pose proof (length_append t u). rewrite H in *. lia. }
  by apply append_inj_length in H as [-> _].
Qed.

Lemma HasPrefix_spec (s p : string) : HasPrefix s p = true <-> exists t, s = p +:+ t.
Proof.
  unfold HasPrefix. revert s. induction p as [|c p IH]; intros s.
  { split; [by exists s | by destruct s]. }
  destruct s as [|d s]; [split; [done | by intros [? ?]]|].
  cbn [String.prefix]. destruct (ascii_dec c d) as [->|Hne].
  - rewrite IH. split; intros [t Ht]; exists t; [by rewrite Ht | by injection Ht].
  - split; [done | intros [t [= ? ?]]; congruence].
Qed.

Lemma HasPrefix_append (p t : string) : HasPrefix (p +:+ t) p = true.
Proof. apply HasPrefix_spec. by exists t. Qed.

Lemma Contains_spec (s sub : string) :
  Contains s sub = true <-> exists a b, s = a +:+ (sub +:+ b).
Proof.
  induction s as [|c s IH].
  - cbn [Contains]. rewrite orb_false_r, HasPrefix_spec. split.
    + intros [t Ht]. by exists "", t.
    + intros (a & b & H). destruct a; [|done]. by exists b.
  - cbn [Contains]. rewrite orb_true_iff, HasPrefix_spec, IH. split.
    + intros [[t ->]|(a & b & ->)]; [by exists "", t | by exists (String c a), b].
    + intros ([|d a] & b & H); [left; by exists b|].
      right. rewrite append_cons in H. injection H as -> ->. by exists a, b.
Qed.

Lemma Contains_refl_append (a sub b : string) : Contains (a +:+ (sub +:+ b)) sub = true.
Proof. apply Contains_spec. by exists a, b. Qed.

Lemma Split_nonempty (s : string) sep : Split s sep <> [].
Proof. destruct s; cbn; [done|]. repeat case_match; done. Qed.

Lemma Join_Split (s : string) sep : Join (Split s sep) (String sep "") = s.
Proof.
  induction s as [|c s IH]; [done|]. cbn [Split].
  pose proof (Split_nonempty s sep) as Hne.
  destruct (bool_decide (c = sep)) eqn:E; reflect_bools; subst;
    destruct (Split s sep) as [|p ps] eqn:Es; try done.
  - change (String sep (Join (p :: ps) (String sep "")) = String sep s). by rewrite IH.
  - rewrite <- IH. destruct ps; reflexivity.
Qed.

Lemma Split_no_sep (s : string) sep p : p ∈ Split s sep -> has_char sep p = false.
Proof.
  revert p. induction s as [|c s IH]; intros p; cbn.
  { rewrite list_elem_of_singleton. by intros ->. }
  case_bool_decide as E; subst.
  - rewrite elem_of_cons. intros [->|Hp]; auto.
  - destruct (Split s sep) as [|q qs] eqn:Es.
    { rewrite list_elem_of_singleton. intros ->. cbn. rewrite bool_decide_eq_false_2 by congruence. done. }
    rewrite elem_of_cons. intros [->|Hp].
    + cbn. rewrite bool_decide_eq_false_2 by congruence. apply IH. left.
    + apply IH. by right.
Qed.

(** *** ASCII strings *)

Fixpoint is_ascii (s : string) : bool :=
  match s with EmptyString => true | String c s' => (byte_of c <? 0x80)%N && is_ascii s' end.

Fixpoint bytes_of (s : string) : list N :=
  match s with EmptyString => [] | String c s' => byte_of c :: bytes_of s' end.

Lemma runes_ascii_cons c (s : string) :
  (byte_of c <? 0x80)%N = true -> runes (String c s) = byte_of c :: runes s.
Proof.
  intros H. unfold runes, chunks. cbn [chunks_from]. unfold DecodeRune. rewrite H. done.
Qed.

Lemma runes_ascii (s : string) : is_ascii s = true -> runes s = bytes_of s.
Proof.
  induction s as [|c s IH]; [done|]. cbn [is_ascii bytes_of]. intros [Hc Hs]%andb_true_iff.
  rewrite runes_ascii_cons by done. by rewrite IH.
Qed.

Lemma bytes_of_inj (s t : string) : bytes_of s = bytes_of t -> s = t.
Proof.
  revert t. induction s as [|c s IH]; intros [|d t]; cbn; try done.
  intros [= Hc Hs]. f_equal; [|auto].
  unfold byte_of in Hc. by rewrite <- (ascii_N_embedding c), <- (ascii_N_embedding d), Hc.
Qed.

Lemma EqualFold_refl `{GoLib} (s : string) : EqualFold s s = true.
Proof. by apply bool_decide_eq_true. Qed.

Lemma EqualFold_sym `{GoLib} (s t : string) : EqualFold s t = EqualFold t s.
Proof. unfold EqualFold. apply bool_decide_ext. split; congruence. Qed.

(** *** Decimal round trip *)

Lemma digit_value_char x : (x < 10)%N -> digit_value (pretty_N_char x) = Some x.
Proof.
  intros Hx.
  assert (x = 0 \/ x = 1 \/ x = 2 \/ x = 3 \/ x = 4 \/ x = 5 \/ x = 6 \/ x = 7 \/ x = 8 \/ x = 9)%N
    as Hc by lia.
  repeat destruct Hc as [->|Hc]; try done. by subst.
Qed.

Lemma parse_digits_pretty x (s : string) :
  parse_digits 0 (pretty_N_go x s) = parse_digits x s.
Proof.
  revert s. induction (N.lt_wf_0 x) as [x _ IH]; intros s.
  destruct (decide (x = 0)%N) as [->|Hx]; [done|].
  rewrite pretty_N_go_step by lia. rewrite IH by (apply N.div_lt; lia).
  cbn [parse_digits]. rewrite digit_value_char by (apply N.mod_lt; lia).
  f_equal. pose proof (N.div_mod x 10). lia.
Qed.

Lemma pretty_N_go_nonempty x c (s : string) : pretty_N_go x (String c s) <> "".
Proof.
  revert c s. induction (N.lt_wf_0 x) as [x _ IH]; intros c s.
  destruct (decide (x = 0)%N) as [->|Hx]; [done|].
  rewrite pretty_N_go_step by lia. apply IH. apply N.div_lt; lia.
Qed.

Lemma parse_unsigned_pretty (n : N) : parse_unsigned (pretty n) = Some n.
Proof.
  unfold pretty, pretty_N. case_decide; [by subst|].
  unfold parse_unsigned.
  rewrite pretty_N_go_step by lia.
  pose proof (pretty_N_go_nonempty (n / 10) (pretty_N_char (n mod 10)) "") as Hne.
  assert (parse_digits 0 (pretty_N_go n "") = Some n) as Hp by apply parse_digits_pretty.
  rewrite pretty_N_go_step in Hp by lia.
  destruct (pretty_N_go (n / 10) _); done.
Qed.

(** The first byte of a decimal numeral is a digit. *)
Lemma pretty_N_head (n : N) : exists c s, pretty n = String c s /\ is_digit (byte_of c) = true.
Proof.
  pose proof (parse_unsigned_pretty n) as H. unfold parse_unsigned in H.
  destruct (pretty n) as [|c s]; [done|]. exists c, s. split; [done|].
  cbn in H. unfold digit_value in H. by destruct (is_digit (byte_of c)).
Qed.

Lemma Atoi_Itoa (z : Z) : (0 <= z <= int64_max)%Z -> Atoi (Itoa z) = Some z.
Proof.
  intros Hz. unfold Itoa. destruct z as [|p|p]; [done| |lia].
  change (pretty (Z.pos p)) with (pretty (N.pos p)). unfold Atoi.
  destruct (pretty_N_head (N.pos p)) as (c & s & Hcs & Hd).
  pose proof (parse_unsigned_pretty (N.pos p)) as Hp. rewrite Hcs in *.
  assert (c <> "-"%char /\ c <> "+"%char) as [Hm Hpl] by (split; intros ->; done).
  rewrite !bool_decide_eq_false_2 by done. rewrite Hp.
  unfold int64_min, int64_max in *. cbn [Z.of_N].
  rewrite (proj2 (Z.leb_le _ _)), (proj2 (Z.leb_le _ _)) by lia. done.
Qed.

(** *** Shape of a decimal numeral *)

Definition all_digits (s : string) : bool := forallb is_digit (bytes_of s).

Lemma pretty_N_char_digit x : (x < 10)%N -> is_digit (byte_of (pretty_N_char x)) = true.
Proof.
  intros Hx%digit_value_char. unfold digit_value in Hx. by destruct (is_digit _).
Qed.

Lemma all_digits_pretty_N_go x (s : string) : all_digits s = true -> all_digits (pretty_N_go x s) = true.
Proof.
  revert s. induction (N.lt_wf_0 x) as [x _ IH]; intros s Hs.
  destruct (decide (x = 0)%N) as [->|Hx]; [done|].
  rewrite pretty_N_go_step by lia. apply IH; [apply N.div_lt; lia|].
  cbn -[pretty_N_char]. rewrite pretty_N_char_digit by (apply N.mod_lt; lia). done.
Qed.

Lemma length_pretty_N_go k x (s : string) :
  (10 ^ N.of_nat k <= x < 10 ^ N.of_nat (S k))%N ->
  String.length (pretty_N_go x s) = S k + String.length s.
Proof.
  revert x s. induction k as [|k IH]; intros x s Hx; rewrite pretty_N_go_step by (cbn in Hx; lia).
  - rewrite N.div_small by (cbn in Hx; lia). done.
  - rewrite IH; [cbn; lia|].
    rewrite !Nat2N.inj_succ, !N.pow_succ_r' in Hx. rewrite Nat2N.inj_succ, N.pow_succ_r'.
    split; [apply N.div_le_lower_bound; lia|apply N.Div0.div_lt_upper_bound; lia].
Qed.

Lemma all_digits_ascii (s : string) : all_digits s = true -> is_ascii s = true.
Proof.
  induction s as [|c s IH]; [done|]. unfold all_digits in *. cbn. intros [Hc Hs]%andb_true_iff.
  rewrite (IH Hs), andb_true_r. unfold is_digit, between in Hc.
  apply andb_true_iff in Hc as [_ Hc%N.leb_le]. apply N.ltb_lt. lia.
Qed.

Lemma length_pretty_N_go_le k x (s : string) :
  (x < 10 ^ N.of_nat k)%N -> String.length (pretty_N_go x s) <= k + String.length s.
Proof.
  revert x s. induction k as [|k IH]; intros x s Hx.
  { replace x with 0%N by (cbn in Hx; lia). by rewrite pretty_N_go_0. }
  destruct (decide (x = 0)%N) as [->|Hne]; [rewrite pretty_N_go_0; lia|].
  rewrite pretty_N_go_step by lia. rewrite Nat2N.inj_succ, N.pow_succ_r' in Hx.
  etransitivity; [apply IH, N.Div0.div_lt_upper_bound; lia|]. cbn. lia.
Qed.

(** A non-negative [int64] has at most 19 digits. *)
Lemma length_Itoa (z : Z) : (0 <= z <= int64_max)%Z -> String.length (Itoa z) <= 19.
Proof.
  intros Hz. unfold Itoa, int64_max in *. destruct z as [|p|p]; [cbn; lia| |lia].
  change (pretty (Z.pos p)) with (pretty_N_go (N.pos p) "").
  etransitivity; [apply (length_pretty_N_go_le 19)|cbn; lia].
  assert (10 ^ N.of_nat 19 = 10000000000000000000)%N as -> by reflexivity. lia.
Qed.

Lemma chunks_ascii_cons c (s : string) :
  (byte_of c <? 0x80)%N = true -> chunks (String c s) = (byte_of c, String c EmptyString) :: chunks s.
Proof.
  intros Hc. unfold chunks. cbn [chunks_from]. unfold DecodeRune at 1. rewrite Hc.
  cbn [Nat.sub]. f_equal. f_equal. cbn. by destruct s.
Qed.

(** Splitting undoes joining parts that hold no separator. *)
Lemma Split_app_sep (p s : string) sep :
  has_char sep p = false -> Split (p +:+ String sep s) sep = p :: Split s sep.
Proof.
  induction p as [|c p IH]; intros Hp.
  - change ("" +:+ String sep s) with (String sep s). cbn. by rewrite bool_decide_eq_true_2.
  - rewrite append_cons. cbn [has_char] in Hp. apply orb_false_iff in Hp as [Hc Hp].
    cbn [Split]. apply bool_decide_eq_false in Hc. rewrite bool_decide_eq_false_2 by congruence.
    by rewrite (IH Hp).
Qed.

Lemma Split_single (p : string) sep : has_char sep p = false -> Split p sep = [p].
Proof.
  induction p as [|c p IH]; intros Hp; [done|]. cbn [has_char] in Hp. apply orb_false_iff in Hp as [Hc Hp].
  cbn [Split]. apply bool_decide_eq_false in Hc. rewrite bool_decide_eq_false_2 by congruence. by rewrite (IH Hp).
Qed.

Lemma Split_Join (parts : list string) sep :
  parts <> [] -> Forall (fun p => has_char sep p = false) parts -> Split (Join parts (String sep "")) sep = parts.
Proof.
  intros Hne Hf. induction Hf as [|p parts Hp Hf IH]; [done|]. destruct parts as [|q parts].
  - by apply Split_single.
  - change (Join (p :: q :: parts) (String sep "")) with (p +:+ String sep (Join (q :: parts) (String sep ""))).
    rewrite Split_app_sep by done. by rewrite IH.
Qed.

Lemma TrimPrefix_append (p s : string) : TrimPrefix (p +:+ s) p = s.
Proof.
  unfold TrimPrefix. rewrite HasPrefix_append. unfold drop_bytes. rewrite length_append.
  induction p as [|c p IH]; cbn [String.length].
  - rewrite Nat.sub_0_r. change ("" +:+ s) with s. cbn [Nat.add]. induction s as [|c s IH]; [done|]. cbn. by f_equal.
  - rewrite append_cons. exact IH.
Qed.

Lemma HasSuffix_append (s t : string) : HasSuffix (s +:+ t) t = true.
Proof.
  unfold HasSuffix. rewrite length_append. apply andb_true_iff. split; [apply Nat.leb_le; lia|].
  replace (String.length s + String.length t - String.length t) with (String.length s) by lia.
  apply String.eqb_eq. induction s as [|c s IH].
  - change ("" +:+ t) with t. cbn [String.length]. induction t as [|c t IH]; [done|]. cbn. by f_equal.
  - rewrite append_cons. exact IH.
Qed.

(** Lower case starts over after an ASCII prefix. *)
Lemma ToLower_append `{GoLib} (s t : string) : is_ascii s = true -> ToLower (s +:+ t) = ToLower s +:+ ToLower t.
Proof.
  intros Hs. induction s as [|c s IH]; [done|]. rewrite append_cons. cbn [is_ascii] in Hs.
  apply andb_true_iff in Hs as [Hc Hs]. unfold ToLower, runes in *.
  rewrite !chunks_ascii_cons by done. cbn [fmap list_fmap concat_strings foldr].
  etransitivity; [|symmetry; apply append_assoc]. f_equal. by apply IH.
Qed.
