(* ===== verification/Crypto.v ===== *)
(** * Hashes and encodings of the Go standard library the server uses

    SHA-256 ([crypto/sha256]), HMAC ([crypto/hmac]), hexadecimal
    ([encoding/hex]) and the unpadded base64 alphabets
    ([encoding/base64]), all executable. *)

From Stdlib Require Import Ascii String.
From S2P Require Import Prelude GoStrings.

Local Open Scope N_scope.

Fixpoint string_of_bytes (l : list N) : string :=
  match l with [] => EmptyString | b :: l' => String (char_of b) (string_of_bytes l') end.

(** ** SHA-256 *)

Module sha256.
Definition w32 (x : N) : N := x mod 4294967296.
Definition rotr (n x : N) : N :=
  N.lor (N.shiftr x n) (w32 (N.shiftl x (32 - n))).
Definition Ch (x y z : N) : N := N.lxor (N.land x y) (N.land (N.lxor x 0xFFFFFFFF) z).
Definition Maj (x y z : N) : N := N.lxor (N.lxor (N.land x y) (N.land x z)) (N.land y z).
Definition S0 x := N.lxor (N.lxor (rotr 2 x) (rotr 13 x)) (rotr 22 x).
Definition S1 x := N.lxor (N.lxor (rotr 6 x) (rotr 11 x)) (rotr 25 x).
Definition s0 x := N.lxor (N.lxor (rotr 7 x) (rotr 18 x)) (N.shiftr x 3).
Definition s1 x := N.lxor (N.lxor (rotr 17 x) (rotr 19 x)) (N.shiftr x 10).

(** The constants are digits of irrational roots: the first 32 bits after the
    point of the cube roots of the first 64 primes, and of the square roots of
    the first eight.  [root p n] is the largest [r] with [p r <= n], found bit by bit. *)
Fixpoint root_from (power : N -> N) (bits : nat) (n r : N) : N :=
  match bits with
  | O => r
  | S b =>
    let r' := N.lor r (N.shiftl 1 (N.of_nat b)) in
    root_from power b n (if power r' <=? n then r' else r)
  end.
Definition root (power : N -> N) (n : N) : N := root_from power 40 n 0.

Definition is_prime (n : N) : bool :=
  (1 <? n) && forallb (fun d => negb (n mod N.of_nat d =? 0)) (seq 2 (N.to_nat n - 2)).
Definition primes : list N := Eval vm_compute in List.filter is_prime (N.of_nat <$> seq 0 312).

Definition K : list N :=
  Eval vm_compute in (fun p => w32 (root (fun r => r * r * r) (N.shiftl p 96))) <$> primes.
Definition H0 : list N :=
  Eval vm_compute in (fun p => w32 (root (fun r => r * r) (N.shiftl p 64))) <$> take 8 primes.

(** The message schedule, newest word first. *)
Fixpoint schedule (n : nat) (w : list N) : list N :=
  match n with
  | O => w
  | S n' =>
    let at_ i := nth i w 0 in
    schedule n' (w32 (s1 (at_ 1%nat) + at_ 6%nat + s0 (at_ 14%nat) + at_ 15%nat) :: w)
  end.

Definition round (st : list N) (kw : N * N) : list N :=
  match st with
  | [a; b; c; d; e; f; g; h] =>
    let t1 := w32 (h + S1 e + Ch e f g + kw.1 + kw.2) in
    let t2 := w32 (S0 a + Maj a b c) in
    [w32 (t1 + t2); a; b; c; w32 (d + t1); e; f; g]
  | _ => st
  end.

Fixpoint words (l : list N) : list N :=
  match l with
  | a :: b :: c :: d :: l' => (((a * 256 + b) * 256 + c) * 256 + d) :: words l'
  | _ => []
  end.

Definition block (st : list N) (blk : list N) : list N :=
  let w := reverse (schedule 48 (reverse (words blk))) in
  zip_with (fun x y => w32 (x + y)) st (foldl round st (zip K w)).

Definition be_bytes (n : nat) (x : N) : list N :=
  (fun i => (N.shiftr x (8 * N.of_nat i)) mod 256) <$> reverse (seq 0 n).

Definition pad (msg : list N) : list N :=
  let len := length msg in
  let zeros := ((64 - (len + 9) mod 64) mod 64)%nat in
  msg ++ [0x80] ++ replicate zeros 0 ++ be_bytes 8 (8 * N.of_nat len).

Fixpoint blocks (fuel : nat) (st msg : list N) : list N :=
  match fuel with
  | O => st
  | S k => match msg with
           | [] => st
           | _ => blocks k (block st (take 64 msg)) (drop 64 msg)
           end
  end.

(** One block of fuel per 64 bytes of the padded message, and one over. *)
Definition sum (msg : list N) : list N :=
  let p := pad msg in
  mjoin (be_bytes 4 <$> blocks (S (length p / 64)) H0 p).
End sha256.

(** [sha256.Sum256([]byte(s))], as its 32 bytes. *)
Definition Sum256 (s : string) : list N := sha256.sum (bytes_of s).

(** The digest of the test message of FIPS 180-4. *)
Example Sum256_abc :
  Sum256 "abc" = sha256.be_bytes 32 0xba7816bf8f01cfea414140de5dae2223b00361a396177a9cb410ff61f20015ad.
Proof. vm_compute. reflexivity. Qed.

(** [hmac.New(sha256.New, key)] for a key of at most 64 bytes. *)
Definition hmac_sha256 (key msg : list N) : list N :=
  let k := key ++ replicate (64 - length key) 0 in
  sha256.sum ((N.lxor 0x5c <$> k) ++ sha256.sum ((N.lxor 0x36 <$> k) ++ msg)).

(** ** Hexadecimal *)

Definition hex_digit (n : N) : ascii :=
  if n <? 10 then char_of (48 + n) else char_of (87 + n).

(** [hex.EncodeToString]. *)
Fixpoint hex_EncodeToString (l : list N) : string :=
  match l with
  | [] => EmptyString
  | b :: l' => String (hex_digit (b / 16)) (String (hex_digit (b mod 16)) (hex_EncodeToString l'))
  end.

(** ** Base64 without padding *)

(** [c62], [c63]: the last two letters of the alphabet. *)
Record alphabet := { c62 : ascii; c63 : ascii }.
Definition RawURLEncoding : alphabet := {| c62 := "-"; c63 := "_" |}%char.
Definition RawStdEncoding : alphabet := {| c62 := "+"; c63 := "/" |}%char.

Definition b64_char (a : alphabet) (n : N) : ascii :=
  if n <? 26 then char_of (65 + n)
  else if n <? 52 then char_of (71 + n)
  else if n <? 62 then char_of (n - 4)
  else if n =? 62 then c62 a else c63 a.

Definition b64_value (a : alphabet) (c : ascii) : option N :=
  let b := byte_of c in
  if between 65 b 90 then Some (b - 65)
  else if between 97 b 122 then Some (b - 71)
  else if between 48 b 57 then Some (b + 4)
  else if bool_decide (c = c62 a) then Some 62
  else if bool_decide (c = c63 a) then Some 63
  else None.

(** [enc.EncodeToString]. *)
Fixpoint base64_Encode (a : alphabet) (l : list N) : string :=
  match l with
  | x :: y :: z :: l' =>
    String (b64_char a (x / 4)) (String (b64_char a (x mod 4 * 16 + y / 16))
      (String (b64_char a (y mod 16 * 4 + z / 64)) (String (b64_char a (z mod 64)) (base64_Encode a l'))))
  | [x; y] =>
    String (b64_char a (x / 4)) (String (b64_char a (x mod 4 * 16 + y / 16))
      (String (b64_char a (y mod 16 * 4)) EmptyString))
  | [x] => String (b64_char a (x / 4)) (String (b64_char a (x mod 4 * 16)) EmptyString)
  | [] => EmptyString
  end.

Fixpoint sextets (a : alphabet) (s : string) : option (list N) :=
  match s with
  | EmptyString => Some []
  | String c s' =>
    if bool_decide (c = "010"%char) || bool_decide (c = "013"%char) then sextets a s'
    else match b64_value a c, sextets a s' with
         | Some v, Some l => Some (v :: l)
         | _, _ => None
         end
  end.

Fixpoint join_sextets (l : list N) : option (list N) :=
  match l with
  | p :: q :: r :: s :: l' =>
    match join_sextets l' with
    | Some bs => Some ((p * 4 + q / 16) :: (q mod 16 * 16 + r / 4) :: (r mod 4 * 64 + s) :: bs)
    | None => None
    end
  | [p; q; r] => Some [p * 4 + q / 16; q mod 16 * 16 + r / 4]
  | [p; q] => Some [p * 4 + q / 16]
  | [_] => None
  | [] => Some []
  end.

(** [enc.DecodeString] of an unpadded encoding: line breaks are skipped and
    the unused bits of the last letter are not checked. *)
Definition base64_Decode (a : alphabet) (s : string) : option (list N) :=
  match sextets a s with Some l => join_sextets l | None => None end.

(** ** Lemmas *)

(** Lists three elements at a time, the step of the base64 encoder. *)
Lemma list_ind3 {A} (P : list A -> Prop) :
  P [] -> (forall x, P [x]) -> (forall x y, P [x; y]) ->
  (forall x y z l, P l -> P (x :: y :: z :: l)) -> forall l, P l.
Proof.
  intros H0 H1 H2 H3.
  assert (forall n l, (length l <= n)%nat -> P l) as H; [|intros l; exact (H _ l (Nat.le_refl _))].
  induction n as [|n IH]; intros [|x [|y [|z l]]]; cbn; try (done || lia).
  intros ?. apply H3, IH. lia.
Qed.

Definition is_bytes (l : list N) : Prop := Forall (fun b => b < 256) l.

Lemma bytes_of_is_bytes s : is_bytes (bytes_of s).
Proof.
  induction s as [|c s IH]; constructor; [|done].
  unfold byte_of. apply N_ascii_bounded.
Qed.

Lemma string_of_bytes_of s : string_of_bytes (bytes_of s) = s.
Proof.
  induction s as [|c s IH]; [done|]. cbn. unfold char_of, byte_of.
  by rewrite ascii_N_embedding, IH.
Qed.

Lemma below_64 (P : N -> bool) :
  forallb P (N.of_nat <$> seq 0 64) = true -> forall n, n < 64 -> P n = true.
Proof.
  intros H n Hn. rewrite forallb_forall in H. apply H.
  rewrite <- list_elem_of_In, list_elem_of_fmap. exists (N.to_nat n).
  split; [lia|]. rewrite elem_of_seq. lia.
Qed.

Definition letter_ok (a : alphabet) (n : N) : bool :=
  bool_decide (b64_value a (b64_char a n) = Some n)
  && negb (bool_decide (b64_char a n = "010"%char) || bool_decide (b64_char a n = "013"%char)).

(** An alphabet whose 64 letters are told apart and are no line breaks. *)
Definition good_alphabet (a : alphabet) : Prop := forall n, n < 64 -> letter_ok a n = true.

Lemma good_URL : good_alphabet RawURLEncoding.
Proof. unfold good_alphabet. apply below_64. by vm_compute. Qed.
Lemma good_Std : good_alphabet RawStdEncoding.
Proof. unfold good_alphabet. apply below_64. by vm_compute. Qed.

Lemma sextets_cons a n s :
  good_alphabet a -> n < 64 ->
  sextets a (String (b64_char a n) s) = (l ← sextets a s; Some (n :: l)).
Proof.
  intros Ha Hn. specialize (Ha n Hn). unfold letter_ok in Ha.
  apply andb_true_iff in Ha as [Hv Hb]. apply bool_decide_eq_true in Hv.
  cbn [sextets]. apply negb_true_iff in Hb. rewrite Hb, Hv. by destruct (sextets a s).
Qed.

Lemma byte_div_4 x : x < 256 -> x / 4 < 64.
Proof. intros. apply N.Div0.div_lt_upper_bound. lia. Qed.
Lemma byte_mid x y : y < 256 -> x mod 4 * 16 + y / 16 < 64.
Proof. intros. pose proof (N.mod_lt x 4). pose proof (N.Div0.div_lt_upper_bound y 16 16). lia. Qed.
Lemma byte_mid2 y z : z < 256 -> y mod 16 * 4 + z / 64 < 64.
Proof. intros. pose proof (N.mod_lt y 16). pose proof (N.Div0.div_lt_upper_bound z 64 4). lia. Qed.


Lemma join_1 x y : y / 16 < 16 -> x / 4 * 4 + (x mod 4 * 16 + y / 16) / 16 = x.
Proof.
  intros H. rewrite N.add_comm, N.div_add_l by lia.
  rewrite (N.div_small (y / 16) 16) by done. pose proof (N.div_mod x 4). lia.
Qed.
Lemma join_2 x y z : y < 256 -> z / 64 < 4 ->
  (x mod 4 * 16 + y / 16) mod 16 * 16 + (y mod 16 * 4 + z / 64) / 4 = y.
Proof.
  intros Hy Hz. pose proof (N.Div0.div_lt_upper_bound y 16 16).
  rewrite (N.add_comm (x mod 4 * 16)), N.Div0.mod_add, (N.mod_small (y / 16)) by lia.
  rewrite N.div_add_l, (N.div_small (z / 64)) by lia. pose proof (N.div_mod y 16). lia.
Qed.
Lemma join_3 y z : z < 256 -> (y mod 16 * 4 + z / 64) mod 4 * 64 + z mod 64 = z.
Proof.
  intros Hz. pose proof (N.Div0.div_lt_upper_bound z 64 4).
  rewrite (N.add_comm (y mod 16 * 4)), N.Div0.mod_add, (N.mod_small (z / 64)) by lia.
  pose proof (N.div_mod z 64). lia.
Qed.

(** Decoding undoes encoding, for either alphabet. *)
Lemma base64_round_trip a l :
  good_alphabet a -> is_bytes l -> base64_Decode a (base64_Encode a l) = Some l.
Proof.
  intros Ha. unfold base64_Decode.
  assert (forall l, is_bytes l -> exists ss, sextets a (base64_Encode a l) = Some ss /\ join_sextets ss = Some l)
    as H; [|intros Hl; by destruct (H l Hl) as (ss & -> & ?)].
  clear l. intros l. induction l as [|x|x y|x y z l IH] using list_ind3;
    intros Hl; unfold is_bytes in Hl; rewrite ?Forall_cons in Hl; destruct_and?; cbn [base64_Encode].
  - by exists [].
  - rewrite !sextets_cons by (try done; try apply byte_div_4; try done;
      pose proof (N.mod_lt x 4); lia).
    eexists; split; [done|]. cbn. f_equal. f_equal.
    rewrite <- (join_1 x 0) at 3; [|done]. by rewrite N.Div0.div_0_l, N.add_0_r.
  - rewrite !sextets_cons by (try done; try apply byte_div_4; try apply byte_mid; try done;
      pose proof (N.mod_lt y 16); lia).
    eexists; split; [done|]. cbn. f_equal.
    pose proof (N.Div0.div_lt_upper_bound y 16 16).
    rewrite join_1 by lia. f_equal. f_equal.
    rewrite <- (join_2 x y 0) at 3 by done. by rewrite N.Div0.div_0_l, N.add_0_r.
  - destruct IH as (ss & Hs & Hj); [done|].
    pose proof (N.mod_lt z 64 ltac:(lia)).
    rewrite !sextets_cons by (done || by apply byte_div_4 || by apply byte_mid || by apply byte_mid2).
    rewrite Hs. eexists; split; [done|]. cbn. rewrite Hj. do 2 f_equal.
    + apply join_1. pose proof (N.Div0.div_lt_upper_bound y 16 16). lia.
    + rewrite join_2, join_3; [done|done|done|]. pose proof (N.Div0.div_lt_upper_bound z 64 4). lia.
Qed.

(** Four letters for three bytes, rounded up. *)
Lemma length_base64_Encode a l :
  String.length (base64_Encode a l) = ((4 * length l + 2) / 3)%nat.
Proof.
  induction l as [|x|x y|x y z l IH] using list_ind3; try done.
  cbn [base64_Encode String.length length]. rewrite IH.
  replace (4 * S (S (S (length l))) + 2)%nat with (4 * length l + 2 + 4 * 3)%nat by lia.
  rewrite Nat.div_add by lia. lia.
Qed.

Lemma length_hex_EncodeToString l : String.length (hex_EncodeToString l) = (2 * length l)%nat.
Proof. induction l as [|b l IH]; [done|]. cbn [hex_EncodeToString String.length length]. lia. Qed.

Lemma length_sha256_round st kw : length st = 8%nat -> length (sha256.round st kw) = 8%nat.
Proof. intros H. do 9 (destruct st as [|? st]; try done). Qed.

Lemma length_sha256_blocks fuel st msg :
  length st = 8%nat -> length (sha256.blocks fuel st msg) = 8%nat.
Proof.
  revert st msg. induction fuel as [|k IH]; intros st msg Hst; [done|].
  cbn [sha256.blocks]. destruct msg as [|b msg]; [done|]. apply IH. unfold sha256.block.
  rewrite length_zip_with, Hst.
  generalize (zip sha256.K (reverse (sha256.schedule 48 (reverse (sha256.words (take 64 (b :: msg))))))).
  intros l. assert (length (foldl sha256.round st l) = 8%nat) as ->; [|done].
  revert st Hst. induction l as [|x l IHl]; intros st Hst; [done|]. cbn [foldl].
  by apply IHl, length_sha256_round.
Qed.

(** A SHA-256 digest has 32 bytes. *)
Lemma length_sha256_sum msg : length (sha256.sum msg) = 32%nat.
Proof.
  unfold sha256.sum.
  pose proof (length_sha256_blocks (S (length (sha256.pad msg) / 64)) sha256.H0 (sha256.pad msg) eq_refl) as H.
  revert H. generalize (sha256.blocks (S (length (sha256.pad msg) / 64)) sha256.H0 (sha256.pad msg)).
  intros l Hl. do 9 (destruct l as [|? l]; try done).
Qed.

Lemma length_Sum256 s : length (Sum256 s) = 32%nat.
Proof. apply length_sha256_sum. Qed.

Lemma sha256_sum_is_bytes msg : is_bytes (sha256.sum msg).
Proof.
  unfold sha256.sum, is_bytes. generalize (sha256.blocks (S (length (sha256.pad msg) / 64)) sha256.H0 (sha256.pad msg)).
  intros l. apply Forall_forall. intros b (bs & Hb & Hbs)%list_elem_of_join.
  apply list_elem_of_fmap in Hbs as (x & -> & _). unfold sha256.be_bytes in Hb.
  apply list_elem_of_fmap in Hb as (i & -> & _). apply N.mod_lt. lia.
Qed.

(** Equal encodings come from equal byte strings. *)
Lemma base64_Encode_inj a l1 l2 :
  good_alphabet a -> is_bytes l1 -> is_bytes l2 -> base64_Encode a l1 = base64_Encode a l2 -> l1 = l2.
Proof.
  intros Ha H1 H2 H. pose proof (base64_round_trip a l1 Ha H1) as E1.
  rewrite H, (base64_round_trip a l2 Ha H2) in E1. by injection E1.
Qed.
