(* ===== verification/Json.v ===== *)
(** * Dynamic values: Go's [any] as [encoding/json] and client-go produce it

    Kubernetes objects travel through the server as [map[string]any].  A map
    is the list of its entries in the order in which one [range] statement
    visits them: Go leaves that order open, so a theorem about all lists
    covers every order.  [wf_value] says that no map has a key twice. *)

From stdpp Require Import sorting.
From Stdlib Require Import Ascii String.
From S2P Require Import Prelude GoStrings.

(** [VInt] stands for the integer types, [VFloat] for [float64], [VStrings]
    for a [[]string] held in an [any]. *)
Inductive value :=
| VNull
| VBool (b : bool)
| VInt (z : Z)
| VFloat (f : spec_float)
| VStr (s : string)
| VStrings (l : list string)
| VList (l : list value)
| VMap (m : list (string * value)).

Abbreviation object := (list (string * value)).

(** ** Type assertions and map access *)

Definition as_map (v : value) : option object := match v with VMap m => Some m | _ => None end.
Definition as_list (v : value) : option (list value) := match v with VList l => Some l | _ => None end.
Definition as_string (v : value) : option string := match v with VStr s => Some s | _ => None end.
Definition as_bool (v : value) : option bool := match v with VBool b => Some b | _ => None end.

(** [value, _ := v.(string)] and [v, _ := v.(map[string]any)]: the zero value
    when the assertion fails.  Reading a nil map finds no key, so a nil map
    is the empty list here. *)
Definition string_or_zero (v : value) : string := default "" (as_string v).
Definition map_or_nil (v : value) : object := default [] (as_map v).
Definition list_or_nil (v : value) : list value := default [] (as_list v).
Definition bool_or_zero (v : value) : bool := default false (as_bool v).

(** [v, exists := m[k]]. *)
Fixpoint obj_get {A} (m : list (string * A)) (k : string) : option A :=
  match m with
  | [] => None
  | (k', v) :: m' => if bool_decide (k = k') then Some v else obj_get m' k
  end.

(** [m[k]]: nil when the key is missing. *)
Definition obj_index (m : object) (k : string) : value := default VNull (obj_get m k).

(** [m[k] = v]. *)
Fixpoint obj_set {A} (m : list (string * A)) (k : string) (v : A) : list (string * A) :=
  match m with
  | [] => [(k, v)]
  | (k', v') :: m' => if bool_decide (k = k') then (k, v) :: m' else (k', v') :: obj_set m' k v
  end.

Definition keys {A} (m : list (string * A)) : list string := m.*1.

(** [maps] with values mapped under their key. *)
Definition map_entries (f : string -> value -> value) (m : object) : object :=
  (fun '(k, v) => (k, f k v)) <$> m.

(** ** Induction *)

Section value_induction.
Context (P : value -> Prop).
Context (Pnull : P VNull) (Pbool : forall b, P (VBool b)) (Pint : forall z, P (VInt z))
        (Pfloat : forall f, P (VFloat f)) (Pstr : forall s, P (VStr s))
        (Pstrings : forall l, P (VStrings l))
        (Plist : forall l, Forall P l -> P (VList l))
        (Pmap : forall m, Forall (fun kv => P kv.2) m -> P (VMap m)).

Fixpoint value_ind' (v : value) : P v :=
  match v with
  | VNull => Pnull
  | VBool b => Pbool b
  | VInt z => Pint z
  | VFloat f => Pfloat f
  | VStr s => Pstr s
  | VStrings l => Pstrings l
  | VList l => Plist l
      ((fix go (l : list value) : Forall P l :=
          match l with
          | [] => List.Forall_nil _
          | x :: l' => List.Forall_cons _ _ _ (value_ind' x) (go l')
          end) l)
  | VMap m => Pmap m
      ((fix go (m : object) : Forall (fun kv => P kv.2) m :=
          match m with
          | [] => List.Forall_nil _
          | x :: m' => List.Forall_cons _ _ _ (value_ind' x.2) (go m')
          end) m)
  end.
End value_induction.

(** ** Well-formed values: no map has a key twice *)

Fixpoint wf_value (v : value) : Prop :=
  match v with
  | VList l => (fix go l := match l with [] => True | x :: l' => wf_value x /\ go l' end) l
  | VMap m =>
    NoDup (keys m) /\
    (fix go (m : object) := match m with [] => True | kv :: m' => wf_value kv.2 /\ go m' end) m
  | _ => True
  end.

(** ** [encoding/json] *)

Definition quote_char : ascii := "034".

(** The escape of one rune of a string, with HTML escaping on. *)
Definition hex4 (r : N) : string :=
  let d i := let n := (N.shiftr r (4 * i) mod 16)%N in
             ascii_of_N (if (n <? 10)%N then 48 + n else 87 + n) in
  String (d 3%N) (String (d 2%N) (String (d 1%N) (String (d 0%N) EmptyString))).

Definition json_escape (chunk : N * string) : string :=
  let '(r, bytes) := chunk in
  if (r <? 0x80)%N then
    if (r =? 34)%N || (r =? 92)%N then String "\"%char bytes
    else if (r =? 8)%N then "\b" else if (r =? 12)%N then "\f"
    else if (r =? 10)%N then "\n" else if (r =? 13)%N then "\r"
    else if (r =? 9)%N then "\t"
    else if (r <? 32)%N || (r =? 60)%N || (r =? 62)%N || (r =? 38)%N then ("\u" +:+ hex4 r)
    else bytes
  else if (r =? RuneError)%N && Nat.eqb (String.length bytes) 1 then "\ufffd"
  else if (r =? 0x2028)%N || (r =? 0x2029)%N then ("\u" +:+ hex4 r)
  else bytes.

Definition json_string (s : string) : string :=
  String quote_char (concat_strings (json_escape <$> chunks s) +:+ String quote_char EmptyString).

(** The encoding of struct fields: in declaration order, a field marked
    [omitempty] left out when it is the zero value. *)
Definition json_field (key value : string) : string := json_string key +:+ (":" +:+ value).
Definition omit_if (zero : bool) (field : string) : list string := if zero then [] else [field].
Definition omitempty (s : string) (field : string) : list string := omit_if (bool_decide (s = "")) field.
Definition json_bool (b : bool) : string := if b then "true" else "false".

Definition key_le (a b : string * string) : Prop := String.le a.1 b.1.
#[global] Instance key_le_dec : RelDecision key_le.
Proof. intros a b. unfold key_le. apply _. Defined.

Definition is_finite (f : spec_float) : bool :=
  match f with S754_zero _ | S754_finite _ _ _ => true | _ => false end.

Definition sort_keys (l : list (string * string)) : list (string * string) := merge_sort key_le l.

Section golib.
Context {G : GoLib}.

Definition json_member (kv : string * string) : string := (json_string kv.1 +:+ (":" +:+ kv.2)).

(** [json.Marshal]: map keys sorted, an error for NaN and the infinities. *)
Fixpoint Marshal (v : value) : option string :=
  match v with
  | VNull => Some "null"
  | VBool b => Some (if b then "true" else "false")
  | VInt z => Some (Itoa z)
  | VFloat f => if is_finite f then Some (json_float f) else None
  | VStr s => Some (json_string s)
  | VStrings l => Some ("[" +:+ (Join (json_string <$> l) "," +:+ "]"))
  | VList l =>
    parts ← (fix go (l : list value) : option (list string) :=
               match l with
               | [] => Some []
               | x :: l' => s ← Marshal x; rest ← go l'; Some (s :: rest)
               end) l;
    Some ("[" +:+ (Join parts "," +:+ "]"))
  | VMap m =>
    parts ← (fix go (m : object) : option (list (string * string)) :=
               match m with
               | [] => Some []
               | kv :: m' => s ← Marshal kv.2; rest ← go m'; Some ((kv.1, s) :: rest)
               end) m;
    Some ("{" +:+ (Join (json_member <$> sort_keys parts) "," +:+ "}"))
  end.

(** [fmt.Sprint]. *)
Fixpoint Sprint (v : value) : string :=
  match v with
  | VNull => "<nil>"
  | VBool b => if b then "true" else "false"
  | VInt z => Itoa z
  | VFloat f => format_float f
  | VStr s => s
  | VStrings l => "[" +:+ (Join l " " +:+ "]")
  | VList l =>
    "[" +:+ (Join ((fix go (l : list value) : list string :=
      match l with [] => [] | x :: l' => Sprint x :: go l' end) l) " " +:+ "]")
  | VMap m =>
    "map[" +:+ (Join ((fun kv => kv.1 +:+ (":" +:+ kv.2)) <$>
      sort_keys ((fix go (m : object) : list (string * string) :=
        match m with [] => [] | kv :: m' => (kv.1, Sprint kv.2) :: go m' end) m)) " " +:+ "]")
  end.
End golib.

(** ** [reflect.DeepEqual]

    Maps are equal when they have as many keys and agree on each key; floats
    are compared as numbers, so a NaN differs from itself. *)
Fixpoint DeepEqual (v w : value) {struct v} : bool :=
  match v, w with
  | VNull, VNull => true
  | VBool a, VBool b => Bool.eqb a b
  | VInt a, VInt b => (a =? b)%Z
  | VFloat a, VFloat b => SFeqb a b
  | VStr a, VStr b => bool_decide (a = b)
  | VStrings a, VStrings b => bool_decide (a = b)
  | VList a, VList b =>
    (fix go (a b : list value) : bool :=
       match a, b with
       | [], [] => true
       | x :: a', y :: b' => DeepEqual x y && go a' b'
       | _, _ => false
       end) a b
  | VMap a, VMap b =>
    Nat.eqb (length a) (length b) &&
    (fix go (a : object) : bool :=
       match a with
       | [] => true
       | kv :: a' =>
         match obj_get b kv.1 with Some y => DeepEqual kv.2 y | None => false end && go a'
       end) a
  | _, _ => false
  end.

(** ** Copies through JSON

    [json.Unmarshal(json.Marshal(v))] into an [any]: numbers become [float64],
    a [[]string] becomes a [[]any], a byte that is no UTF-8 becomes U+FFFD.
    The shortest decimal text of a [float64] reads back as that number, so a
    float is kept.  [None] when marshalling fails. *)

Definition float_of_Z (z : Z) : spec_float := binary_normalize 53 1024 z 0 false.

Definition coerce_utf8 (s : string) : string :=
  concat_strings ((fun '(r, bytes) =>
    if (r =? RuneError)%N && Nat.eqb (String.length bytes) 1 then EncodeRune RuneError else bytes) <$> chunks s).

Definition value_key_le (a b : string * value) : Prop := String.le a.1 b.1.
#[global] Instance value_key_le_dec : RelDecision value_key_le.
Proof. intros a b. unfold value_key_le. apply _. Defined.

(** The decoder assigns the members in the order of the text, which is sorted. *)
Definition read_members (m : object) : object :=
  foldl (fun acc kv => obj_set acc (coerce_utf8 kv.1) kv.2) [] (merge_sort value_key_le m).

Fixpoint json_copy (v : value) : option value :=
  match v with
  | VNull | VBool _ => Some v
  | VInt z => Some (VFloat (float_of_Z z))
  | VFloat f => if is_finite f then Some v else None
  | VStr s => Some (VStr (coerce_utf8 s))
  | VStrings l => Some (VList (VStr ∘ coerce_utf8 <$> l))
  | VList l =>
    items ← (fix go (l : list value) : option (list value) :=
               match l with
               | [] => Some []
               | x :: l' => y ← json_copy x; rest ← go l'; Some (y :: rest)
               end) l;
    Some (VList items)
  | VMap m =>
    members ← (fix go (m : object) : option object :=
                 match m with
                 | [] => Some []
                 | kv :: m' => y ← json_copy kv.2; rest ← go m'; Some ((kv.1, y) :: rest)
                 end) m;
    Some (VMap (read_members members))
  end.

(** ** Numbers

    [numeric] of safe_write.go returns the number as a [float64].  Its results are
    compared with zero only, and the conversion of an integer to [float64]
    preserves its sign and maps nothing but 0 to 0, so integers stay exact. *)
Inductive number := NInt (z : Z) | NFloat (f : spec_float).

Definition number_pos (n : number) : bool :=
  match n with NInt z => (0 <? z)%Z | NFloat f => SFltb (S754_zero false) f end.
Definition number_zero (n : number) : bool :=
  match n with NInt z => (z =? 0)%Z | NFloat f => SFeqb (S754_zero false) f end.

(** ** Lemmas *)

Lemma wf_VList l : wf_value (VList l) <-> Forall wf_value l.
Proof.
  cbn. induction l as [|x l IH]; [split; [constructor | done]|].
  by rewrite Forall_cons, <- IH.
Qed.

Lemma wf_VMap m : wf_value (VMap m) <-> NoDup (keys m) /\ Forall (fun kv => wf_value kv.2) m.
Proof.
  cbn. apply and_iff_compat_l. induction m as [|x m IH]; [split; [constructor | done]|].
  by rewrite Forall_cons, <- IH.
Qed.

Lemma obj_get_Some_elem {A} (m : list (string * A)) k v : obj_get m k = Some v -> (k, v) ∈ m.
Proof.
  induction m as [|[k' v'] m IH]; [done|]. cbn.
  case_bool_decide as E; intros ?; simplify_eq/=; set_solver.
Qed.

Lemma obj_get_elem {A} (m : list (string * A)) k v : NoDup (keys m) -> (k, v) ∈ m -> obj_get m k = Some v.
Proof.
  unfold keys. induction m as [|[k' v'] m IH]; [set_solver|]. cbn.
  rewrite NoDup_cons. intros [Hk Hm] Hin. case_bool_decide as E; subst.
  - apply elem_of_cons in Hin as [[= ->]|Hin]; [done|].
    destruct Hk. apply list_elem_of_fmap. by exists (k', v).
  - apply elem_of_cons in Hin as [[= -> ->]|Hin]; [done|]. auto.
Qed.

Lemma obj_get_None {A} (m : list (string * A)) k : obj_get m k = None <-> k ∉ keys m.
Proof.
  unfold keys. induction m as [|[k' v'] m IH]; cbn; [set_solver|].
  case_bool_decide as E; subst; set_solver.
Qed.

Lemma obj_get_set_eq {A} (m : list (string * A)) k v : obj_get (obj_set m k v) k = Some v.
Proof.
  induction m as [|[k' v'] m IH]; cbn; [by rewrite bool_decide_eq_true_2|].
  case_bool_decide as E; cbn.
  - by rewrite bool_decide_eq_true_2.
  - by rewrite bool_decide_eq_false_2.
Qed.

Lemma obj_get_set_ne {A} (m : list (string * A)) k k' v : k <> k' -> obj_get (obj_set m k v) k' = obj_get m k'.
Proof.
  intros Hne. induction m as [|[j w] m IH]; cbn.
  - by rewrite bool_decide_eq_false_2 by congruence.
  - case_bool_decide as E; subst; cbn; [|by rewrite IH].
    by rewrite !bool_decide_eq_false_2 by congruence.
Qed.

Lemma elem_of_keys_obj_set {A} (m : list (string * A)) k v j : j ∈ keys (obj_set m k v) <-> j = k \/ j ∈ keys m.
Proof.
  unfold keys. induction m as [|[k' v'] m IH]; cbn; [set_solver|].
  case_bool_decide as E; subst; set_solver.
Qed.

Lemma NoDup_obj_set {A} (m : list (string * A)) k v : NoDup (keys m) -> NoDup (keys (obj_set m k v)).
Proof.
  unfold keys. induction m as [|[k' v'] m IH]; cbn; intros H.
  - apply NoDup_singleton.
  - apply NoDup_cons in H as [H1 H2]. case_bool_decide as E; subst; cbn; apply NoDup_cons.
    + done.
    + split; [|auto]. pose proof (elem_of_keys_obj_set m k v k') as Hk. unfold keys in Hk.
      rewrite Hk. naive_solver.
Qed.

Lemma keys_map_entries f m : keys (map_entries f m) = keys m.
Proof. unfold keys, map_entries. induction m as [|[k v] m IH]; [done|]. cbn. by f_equal. Qed.

Lemma obj_get_map_entries f m k : obj_get (map_entries f m) k = f k <$> obj_get m k.
Proof.
  unfold map_entries. induction m as [|[k' v] m IH]; [done|]. cbn.
  case_bool_decide as E; subst; done.
Qed.

Lemma sort_keys_perm l : sort_keys l ≡ₚ l.
Proof. apply merge_sort_Permutation. Qed.

Lemma obj_set_set {A} (m : list (string * A)) k v w : obj_set (obj_set m k v) k w = obj_set m k w.
Proof.
  induction m as [|[k' v'] m IH]; cbn; [by rewrite bool_decide_eq_true_2|].
  case_bool_decide as E; cbn.
  - by rewrite bool_decide_eq_true_2.
  - by rewrite bool_decide_eq_false_2, IH.
Qed.

Lemma obj_index_set (m : object) k v : obj_index (obj_set m k v) k = v.
Proof. unfold obj_index. by rewrite obj_get_set_eq. Qed.

Lemma map_entries_compose f g (m : object) :
  map_entries f (map_entries g m) = map_entries (fun k v => f k (g k v)) m.
Proof. unfold map_entries. rewrite <- list_fmap_compose. apply list_fmap_ext. by intros _ [k v] _. Qed.

Lemma map_entries_id f (m : object) : (forall k v, (k, v) ∈ m -> f k v = v) -> map_entries f m = m.
Proof.
  intros Hf. unfold map_entries. rewrite <- (list_fmap_id m) at 2. apply list_fmap_ext.
  intros i [k v] Hi. cbn. f_equal. apply Hf. by eapply list_elem_of_lookup_2.
Qed.

Lemma map_entries_ext f g (m : object) :
  (forall k v, (k, v) ∈ m -> f k v = g k v) -> map_entries f m = map_entries g m.
Proof.
  intros Hf. unfold map_entries. apply list_fmap_ext.
  intros i [k v] Hi. f_equal. apply Hf. by eapply list_elem_of_lookup_2.
Qed.

(** Updating the value of a key that is there changes that entry only. *)
Lemma obj_set_entries (m : object) k v0 v :
  NoDup (keys m) -> obj_get m k = Some v0 ->
  obj_set m k v = map_entries (fun k' v' => if bool_decide (k' = k) then v else v') m.
Proof.
  unfold keys. induction m as [|[k' v'] m IH]; [done|]. rewrite fmap_cons, NoDup_cons. intros [Hk Hm]. cbn.
  case_bool_decide as E; subst.
  - intros _. rewrite bool_decide_true by done. f_equal. symmetry. apply map_entries_id.
    intros j w Hj. rewrite bool_decide_false; [done|]. intros ->. apply Hk. cbn.
    apply list_elem_of_fmap. by exists (k', w).
  - intros Hg. rewrite bool_decide_false by done. f_equal. by apply IH.
Qed.

(** *** Strings that need no escape *)

Definition plain_byte (b : N) : bool :=
  (32 <=? b)%N && (b <? 0x80)%N && negb (bool_decide (b ∈ [34; 92; 60; 62; 38]%N)).

Lemma json_escape_plain c : plain_byte (byte_of c) = true -> json_escape (byte_of c, String c EmptyString) = String c EmptyString.
Proof.
  unfold plain_byte. intros [[H1%N.leb_le H2]%andb_true_iff H3%negb_true_iff]%andb_true_iff.
  apply bool_decide_eq_false in H3. unfold json_escape. rewrite H2.
  assert (forall k, k ∈ [34; 92; 60; 62; 38; 8; 12; 10; 13; 9]%N -> (byte_of c =? k)%N = false) as Hne.
  { intros k Hk. apply N.eqb_neq. intros E. rewrite !elem_of_cons, elem_of_nil in Hk.
    apply N.ltb_lt in H2. rewrite !elem_of_cons, elem_of_nil in H3. lia. }
  rewrite !Hne by set_solver. rewrite (proj2 (N.ltb_ge _ _)) by lia. done.
Qed.

Lemma length_json_plain s :
  forallb plain_byte (bytes_of s) = true -> String.length (json_string s) = String.length s + 2.
Proof.
  intros Hp. unfold json_string. cbn [String.length]. rewrite length_append. cbn [String.length].
  assert (concat_strings (json_escape <$> chunks s) = s) as ->; [|lia].
  induction s as [|c s IH]; [done|]. cbn [bytes_of forallb] in Hp. apply andb_true_iff in Hp as [Hc Hs].
  rewrite chunks_ascii_cons by (unfold plain_byte in Hc; by rewrite !andb_true_iff in Hc; destruct Hc as [[_ ?] _]).
  rewrite fmap_cons, json_escape_plain by done. cbn [concat_strings foldr].
  fold (concat_strings (json_escape <$> chunks s)). by rewrite (IH Hs).
Qed.

#[export] Hint Resolve obj_get_set_eq NoDup_obj_set : supek8s.
