(* ===== verification/Errors.v ===== *)
(** * Errors (src/internal/server/errors.go) and their audit outcome (audit.go)

    A Go [error] is a value of [go_error]: the server's own error types, the
    API status errors of client-go, the context errors, a wrapper made by
    [fmt.Errorf] with %w, and any other error, of which only the text
    matters. *)

From Stdlib Require Import String.
From S2P Require Import Prelude GoStrings Json.

(** The [metav1.StatusReason] an [apierrors.StatusError] carries, as far as
    the predicates of [auditOutcome] tell them apart.  [IsTimeout] and
    [IsServerTimeout] are reported alike. *)
Inductive status_reason :=
| Forbidden | Unauthorized | Conflict | NotFound | TooManyRequests | Timeout
| ServiceUnavailable | AlreadyExists | OtherReason.

#[global] Instance status_reason_eq_dec : EqDecision status_reason.
Proof. solve_decision. Defined.

Inductive go_error :=
| ToolError (Reason Message : string)
| ToolErrorWithDetails (cause : go_error) (details : value)
| AuthenticationError (reason : string) (cause : option go_error)
| StatusError (reason : status_reason) (message : string)
| DeadlineExceeded
| Canceled
| ResponseTooLarge
| Wrapped (prefix : string) (cause : go_error)
| OtherError (message : string).

(** [policyError]. *)
Definition policyError (reason message : string) : go_error := ToolError reason message.

(** The [Error()] method of every error. *)
Fixpoint error_string (err : go_error) : string :=
  match err with
  | ToolError reason message => reason +:+ (": " +:+ message)
  | ToolErrorWithDetails cause _ => error_string cause
  | AuthenticationError reason None => reason
  | AuthenticationError reason (Some cause) => reason +:+ (": " +:+ error_string cause)
  | StatusError _ message => message
  | DeadlineExceeded => "context deadline exceeded"
  | Canceled => "context canceled"
  | ResponseTooLarge => "delegated Kubernetes API response exceeds the configured limit"
  | Wrapped prefix cause => prefix +:+ (": " +:+ error_string cause)
  | OtherError message => message
  end.

(** [errors.Unwrap]. *)
Definition unwrap (err : go_error) : option go_error :=
  match err with
  | ToolErrorWithDetails cause _ => Some cause
  | AuthenticationError _ cause => cause
  | Wrapped _ cause => Some cause
  | _ => None
  end.

(** [errors.As(err, &target)]: the first error of the chain with the wanted
    type, for the three types the server looks for. *)
Fixpoint as_toolError (err : go_error) : option (string * string) :=
  match err with
  | ToolError reason message => Some (reason, message)
  | ToolErrorWithDetails cause _ => as_toolError cause
  | AuthenticationError _ (Some cause) => as_toolError cause
  | Wrapped _ cause => as_toolError cause
  | _ => None
  end.

Fixpoint as_details (err : go_error) : option (go_error * value) :=
  match err with
  | ToolErrorWithDetails cause details => Some (cause, details)
  | AuthenticationError _ (Some cause) => as_details cause
  | Wrapped _ cause => as_details cause
  | _ => None
  end.

Fixpoint as_status (err : go_error) : option status_reason :=
  match err with
  | StatusError reason _ => Some reason
  | ToolErrorWithDetails cause _ => as_status cause
  | AuthenticationError _ (Some cause) => as_status cause
  | Wrapped _ cause => as_status cause
  | _ => None
  end.

(** [errors.Is(err, context.DeadlineExceeded)] and [errors.Is(err, context.Canceled)]. *)
Fixpoint is_deadline (err : go_error) : bool :=
  match err with
  | DeadlineExceeded => true
  | ToolErrorWithDetails cause _ => is_deadline cause
  | AuthenticationError _ (Some cause) => is_deadline cause
  | Wrapped _ cause => is_deadline cause
  | _ => false
  end.
Fixpoint is_canceled (err : go_error) : bool :=
  match err with
  | Canceled => true
  | ToolErrorWithDetails cause _ => is_canceled cause
  | AuthenticationError _ (Some cause) => is_canceled cause
  | Wrapped _ cause => is_canceled cause
  | _ => false
  end.

(** [apierrors.IsNotFound], [apierrors.IsAlreadyExists]. *)
Definition IsNotFound (err : go_error) : bool := bool_decide (as_status err = Some NotFound).
Definition IsAlreadyExists (err : go_error) : bool := bool_decide (as_status err = Some AlreadyExists).

(** [errorWithDetails]; a nil [details] is [VNull]. *)
Definition errorWithDetails (err : option go_error) (details : value) : option go_error :=
  match err, details with
  | None, _ => None
  | Some e, VNull => Some e
  | Some e, _ => Some (ToolErrorWithDetails e details)
  end.

(** ** [auditOutcome] *)

Inductive decision := Allow | Deny | Fail_.
#[global] Instance decision_eq_dec : EqDecision decision.
Proof. solve_decision. Defined.

Definition decision_string (d : decision) : string :=
  match d with Allow => "allow" | Deny => "deny" | Fail_ => "error" end.

Definition auditOutcome (err : option go_error) : decision * string :=
  match err with
  | None => (Allow, "success")
  | Some e =>
    match as_toolError e with
    | Some (reason, _) =>
      if bool_decide (reason ∈ ["stream_capacity"; "plan_capacity"; "unsupported_operation"])
      then (Fail_, reason) else (Deny, reason)
    | None =>
      match as_status e with
      | Some Forbidden => (Deny, "kubernetes_forbidden")
      | Some Unauthorized => (Deny, "kubernetes_unauthorized")
      | Some Conflict => (Fail_, "kubernetes_conflict")
      | Some NotFound => (Fail_, "kubernetes_not_found")
      | Some TooManyRequests => (Fail_, "kubernetes_throttled")
      | Some Timeout => (Fail_, "kubernetes_timeout")
      | Some ServiceUnavailable => (Fail_, "kubernetes_unavailable")
      | _ =>
        if is_deadline e then (Fail_, "deadline_exceeded")
        else if is_canceled e then (Fail_, "canceled")
        else (Fail_, "internal_error")
      end
    end
  end.

(** The result label [recordTool] counts the call under. *)
Definition tool_result (err : option go_error) : string :=
  match auditOutcome err with
  | (Deny, _) => "denied"
  | _ => match err with None => "ok" | Some _ => "error" end
  end.

(** ** [normalizeToolError] *)

Record toolErrorOutput := {
  Code : string;
  Message_ : string;
  Retryable : bool;
  Details : value
}.

Definition retryableErrorCode (code : string) : bool :=
  bool_decide (code ∈ ["stream_capacity"; "kubernetes_conflict"; "kubernetes_throttled";
                       "kubernetes_timeout"; "kubernetes_unavailable"; "deadline_exceeded"]).

(** The size of an error: [normalizeToolError] recurses on the cause that
    [errors.As] finds inside it. *)
Fixpoint error_depth (err : go_error) : nat :=
  match err with
  | ToolErrorWithDetails cause _ => S (error_depth cause)
  | AuthenticationError _ (Some cause) => S (error_depth cause)
  | Wrapped _ cause => S (error_depth cause)
  | _ => 1
  end.

Fixpoint normalize_fuel (fuel : nat) (err : option go_error) : option toolErrorOutput :=
  match fuel with
  | O => None
  | S fuel' =>
    match err with
    | None => Some {| Code := "tool_error"; Message_ := "tool call failed"; Retryable := false; Details := VNull |}
    | Some e =>
      match as_details e with
      | Some (cause, details) =>
        match normalize_fuel fuel' (Some cause) with
        | Some output =>
          Some {| Code := Code output; Message_ := Message_ output;
                  Retryable := Retryable output; Details := details |}
        | None => None
        end
      | None =>
        match as_toolError e with
        | Some (reason, message) =>
          Some {| Code := reason; Message_ := message;
                  Retryable := retryableErrorCode reason; Details := VNull |}
        | None =>
          let message := error_string e in
          if HasPrefix message ("validating " +:+ (String (Ascii.ascii_of_nat 34) "arguments" +:+ (String (Ascii.ascii_of_nat 34) ":")))
             || HasPrefix message "json: cannot unmarshal"
          then Some {| Code := "invalid_input"; Message_ := message; Retryable := false; Details := VNull |}
          else
            let code := snd (auditOutcome (Some e)) in
            Some {| Code := code; Message_ := message;
                    Retryable := retryableErrorCode code; Details := VNull |}
        end
      end
    end
  end.

Definition normalizeToolError (err : option go_error) : option toolErrorOutput :=
  normalize_fuel (S (match err with Some e => error_depth e | None => 0 end)) err.

(** ** Lemmas *)

Lemma as_details_depth e cause d : as_details e = Some (cause, d) -> error_depth cause < error_depth e.
Proof.
  revert e cause d. fix IH 1. intros e cause d.
  destruct e as [| |? [c|]| | | | | |]; cbn [as_details error_depth]; intros H; try done.
  - injection H as -> _. lia.
  - apply IH in H. lia.
  - apply IH in H. lia.
Qed.

Lemma normalize_fuel_enough fuel e :
  error_depth e < fuel -> exists o, normalize_fuel fuel (Some e) = Some o.
Proof.
  revert e. induction fuel as [|fuel IH]; intros e Hf; [lia|]. cbn [normalize_fuel].
  destruct (as_details e) as [[cause d]|] eqn:Hd.
  - apply as_details_depth in Hd. destruct (IH cause) as [o ->]; [lia|]. eauto.
  - destruct (as_toolError e) as [[]|]; [eauto|]. destruct (_ || _); eauto.
Qed.

(** [normalizeToolError] always returns. *)
Lemma normalizeToolError_total err : is_Some (normalizeToolError err).
Proof.
  unfold normalizeToolError. destruct err as [e|]; [|by eexists].
  destruct (normalize_fuel_enough (S (error_depth e)) e) as [o ->]; [lia|]. by eexists.
Qed.

(** The details of an error leave its classification alone. *)
Lemma as_details_outcome e cause d :
  as_details e = Some (cause, d) -> auditOutcome (Some e) = auditOutcome (Some cause).
Proof.
  intros H.
  assert (as_toolError e = as_toolError cause /\ as_status e = as_status cause /\
          is_deadline e = is_deadline cause /\ is_canceled e = is_canceled cause) as (E1 & E2 & E3 & E4).
  { revert e cause d H. fix IH 1. intros e cause d.
    destruct e as [| |? [c|]| | | | | |]; cbn; intros H; try done; [by injection H as -> _|exact (IH _ _ _ H)..]. }
  unfold auditOutcome. by rewrite E1, E2, E3, E4.
Qed.

(** The message of a failed decoding: of the arguments against the schema of the
    tool, or of any JSON text into a Go type. *)
Definition decoding_message (m : string) : Prop :=
  exists rest, m = "validating " +:+ (String (Ascii.ascii_of_nat 34) "arguments" +:+ (String (Ascii.ascii_of_nat 34) ":")) +:+ rest \/
    m = "json: cannot unmarshal" +:+ rest.

Lemma decoding_message_intro m :
  HasPrefix m ("validating " +:+ (String (Ascii.ascii_of_nat 34) "arguments" +:+ (String (Ascii.ascii_of_nat 34) ":")))
    || HasPrefix m "json: cannot unmarshal" = true -> decoding_message m.
Proof. intros [[rest H]%HasPrefix_spec|[rest H]%HasPrefix_spec]%orb_prop; exists rest; auto. Qed.

(** The client is told the audited reason, or that its input was invalid, for an
    error whose message is that of a failed decoding. *)
Definition code_is_audited (o : toolErrorOutput) (reason : string) : Prop :=
  Code o = reason \/ Code o = "invalid_input" /\ decoding_message (Message_ o).

Lemma normalize_fuel_code fuel e o :
  normalize_fuel fuel (Some e) = Some o ->
  code_is_audited o (auditOutcome (Some e)).2 /\ Retryable o = retryableErrorCode (Code o).
Proof.
  revert e o. induction fuel as [|fuel IH]; intros e o; [done|]. cbn [normalize_fuel].
  destruct (as_details e) as [[cause d]|] eqn:Hd.
  - rewrite (as_details_outcome _ _ _ Hd).
    destruct (normalize_fuel fuel (Some cause)) as [o'|] eqn:E; [|done]. intros [= <-]. exact (IH _ _ E).
  - destruct (as_toolError e) as [[reason message]|] eqn:Et.
    + intros [= <-]. cbn. rewrite Et. split; [left|done]. by case_bool_decide.
    + destruct (_ || _) eqn:Hm; intros [= <-]; (split; [|done]); [right|by left]. split; [done|]. by apply decoding_message_intro.
Qed.

(** ** Property *)

(** What the client is told is what the audit log says: [normalizeToolError]
    returns for every error, however it is wrapped, with the reason that
    [auditOutcome] records as its code (or invalid_input for an error with the
    message of a failed decoding), and it is retryable exactly when that code is. *)
Theorem client_error_code_is_audited e :
  exists o, normalizeToolError (Some e) = Some o /\
    code_is_audited o (auditOutcome (Some e)).2 /\ Retryable o = retryableErrorCode (Code o).
Proof.
  destruct (normalizeToolError_total (Some e)) as [o Ho]. exists o. split; [done|].
  by eapply normalize_fuel_code.
Qed.
