(* ===== verification/Config.v ===== *)
(** * The custom resource and the server configuration

    [KubernetesMCPServer] with its defaults (src/api/v1alpha1/kubernetesmcpserver_types.go)
    and the configuration a server starts from, with its validation
    (src/internal/runtimeconfig/config.go).  [resource.Quantity] of
    apimachinery is the class [QuantityLib]. *)

From Stdlib Require Import String.
From S2P Require Import Prelude GoStrings Json Errors.

Local Open Scope Z_scope.

(** ** [resource.Quantity] *)

Class QuantityLib := {
  Quantity : Type;
  MustParse : string -> Quantity;
  q_zero : Quantity;
  q_Sign : Quantity -> Z;
  q_Cmp : Quantity -> Quantity -> Z;
  q_Value : Quantity -> Z
}.

(** What the code relies on: the documented meaning of the four literals of
    [ServerResources].  [Cmp] is negative, zero or positive as its receiver is
    less than, equal to or greater than its argument; [q_zero] is the zero
    [Quantity] a missing map key reads as. *)
Class QuantityLaws (Q : QuantityLib) := {
  literal_requests_positive : forall s, s ∈ ["50m"; "64Mi"; "500m"; "256Mi"] -> 0 < q_Sign (MustParse s);
  literal_cpu_order : q_Cmp (MustParse "50m") (MustParse "500m") <= 0;
  literal_memory_order : q_Cmp (MustParse "64Mi") (MustParse "256Mi") <= 0;
  literal_memory_value : q_Value (MustParse "256Mi") = 268435456
}.

(** ** Access modes and policies: string types *)

Definition ModeReadOnly : string := "ReadOnly".
Definition ModeSafeWrite : string := "SafeWrite".
Definition ModeDangerous : string := "Dangerous".

Definition SensitiveReadRedact : string := "Redact".
Definition SensitiveReadDeny : string := "Deny".
Definition SensitiveReadAllow : string := "Allow".

Record ScopeSpec := {
  Namespaces : list string;
  AllowClusterScopedRead : bool;
  AllowClusterScopedWrite : bool
}.

Record CapabilityRule := {
  APIGroups : list string;
  Resources_ : list string;
  Verbs : list string
}.

Record PolicySpec := {
  Rules : list CapabilityRule;
  SensitiveReads : string
}.

(** Durations in nanoseconds. *)
Record LimitsSpec := {
  RequestTimeout : Z;
  StreamTimeout : Z;
  ExecTimeout : Z;
  MaxInputBytes : Z;
  MaxOutputBytes : Z;
  MaxListItems : Z;
  MaxConcurrent : Z;
  RequestsPerMinute : Z;
  Burst : Z
}.

(** Label selectors are passed on unread: they are kept as JSON values. *)
Record NetworkPolicySpec := {
  Enabled : option bool;
  AllowedNamespaceSelector : option value;
  AllowedPodSelector : option value
}.

Section config.
Context {G : GoLib} {Q : QuantityLib}.

(** A nil [ResourceList] reads like an empty one. *)
Record ResourceRequirements := {
  Requests : list (string * Quantity);
  Limits_ : list (string * Quantity)
}.

Record KubernetesMCPServerSpec := {
  Resources : ResourceRequirements;
  Mode : string;
  Scope : ScopeSpec;
  PolicyS : PolicySpec;
  TLS_SecretName : string;
  Limits : LimitsSpec;
  NetworkPolicy : NetworkPolicySpec
}.

(** The metadata of the resource the code reads, and its spec. *)
Record KubernetesMCPServer := {
  Name : string;
  Namespace : string;
  UID : string;
  Generation : Z;
  Spec : KubernetesMCPServerSpec
}.

(** ** [Default] *)

Definition or_string (s d : string) : string := if bool_decide (s = "") then d else s.
Definition or_zero (z d : Z) : Z := if z =? 0 then d else z.

Definition default_limits (l : LimitsSpec) : LimitsSpec := {|
  RequestTimeout := or_zero (RequestTimeout l) (30 * second);
  StreamTimeout := or_zero (StreamTimeout l) (60 * second);
  ExecTimeout := or_zero (ExecTimeout l) (30 * second);
  MaxInputBytes := or_zero (MaxInputBytes l) (Z.shiftl 256 10);
  MaxOutputBytes := or_zero (MaxOutputBytes l) (Z.shiftl 1 20);
  MaxListItems := or_zero (MaxListItems l) 100;
  MaxConcurrent := or_zero (MaxConcurrent l) 4;
  RequestsPerMinute := or_zero (RequestsPerMinute l) 120;
  Burst := or_zero (Burst l) 20
|}.

Definition default_spec (namespace : string) (s : KubernetesMCPServerSpec) : KubernetesMCPServerSpec := {|
  Resources := Resources s;
  Mode := or_string (Mode s) ModeReadOnly;
  Scope := {| Namespaces := match Namespaces (Scope s) with [] => [namespace] | ns => ns end;
              AllowClusterScopedRead := AllowClusterScopedRead (Scope s);
              AllowClusterScopedWrite := AllowClusterScopedWrite (Scope s) |};
  PolicyS := {| Rules := Rules (PolicyS s);
                SensitiveReads := or_string (SensitiveReads (PolicyS s)) SensitiveReadRedact |};
  TLS_SecretName := TLS_SecretName s;
  Limits := default_limits (Limits s);
  NetworkPolicy := {| Enabled := Some (default true (Enabled (NetworkPolicy s)));
                      AllowedNamespaceSelector := AllowedNamespaceSelector (NetworkPolicy s);
                      AllowedPodSelector := AllowedPodSelector (NetworkPolicy s) |}
|}.

Definition Default (s : KubernetesMCPServer) : KubernetesMCPServer := {|
  Name := Name s; Namespace := Namespace s; UID := UID s; Generation := Generation s;
  Spec := default_spec (Namespace s) (Spec s)
|}.

Definition TLSSecretName (s : KubernetesMCPServer) : string :=
  if bool_decide (TLS_SecretName (Spec s) <> "") then TLS_SecretName (Spec s)
  else Name s +:+ "-tls".

Definition ServerLabels (s : KubernetesMCPServer) : list (string * string) :=
  [("app.kubernetes.io/name", "supek8smcp-server");
   ("app.kubernetes.io/instance", Name s);
   ("app.kubernetes.io/managed-by", "supek8smcp-operator")].

(** [if _, ok := m[name]; !ok { m[name] = resource.MustParse(value) }]. *)
Definition set_missing (m : list (string * Quantity)) (entry : string * string) : list (string * Quantity) :=
  match obj_get m entry.1 with
  | Some _ => m
  | None => obj_set m entry.1 (MustParse entry.2)
  end.

Definition ServerResources (s : KubernetesMCPServerSpec) : ResourceRequirements := {|
  Requests := foldl set_missing (Requests (Resources s)) [("cpu", "50m"); ("memory", "64Mi")];
  Limits_ := foldl set_missing (Limits_ (Resources s)) [("cpu", "500m"); ("memory", "256Mi")]
|}.

(** ** [runtimeconfig] *)

Record Config := {
  cfg_Name : string;
  cfg_Namespace : string;
  cfg_Generation : Z;
  cfg_Spec : KubernetesMCPServerSpec
}.

Definition FromResource (server : KubernetesMCPServer) : Config :=
  let copy := Default server in {|
    cfg_Name := Name copy; cfg_Namespace := Namespace copy;
    cfg_Generation := Generation copy; cfg_Spec := Spec copy |}.

(** The memory a server must be given: [int64] arithmetic. *)
Definition required_memory (l : LimitsSpec) : Z :=
  wrap64 (Z.shiftl 128 20 +
    wrap64 (MaxConcurrent l *
      wrap64 (Z.shiftl 16 20 + wrap64 (4 * wrap64 (MaxInputBytes l + MaxOutputBytes l))))).

Definition fail_if (b : bool) (message : string) : result go_error unit :=
  if b then Err (OtherError message) else Ok ().

Definition Validate (cfg : Config) : result go_error unit :=
  let spec := cfg_Spec cfg in
  let l := Limits spec in
  _ ← fail_if (bool_decide (cfg_Name cfg = "") || bool_decide (cfg_Namespace cfg = ""))
        "server config requires name and namespace";
  _ ← fail_if (negb (bool_decide (Mode spec ∈ [ModeReadOnly; ModeSafeWrite; ModeDangerous])))
        ("unsupported access mode " +:+ Quote (Mode spec));
  _ ← fail_if (AllowClusterScopedWrite (Scope spec) && negb (bool_decide (Mode spec = ModeDangerous)))
        "cluster-scoped writes require Dangerous mode";
  _ ← fail_if (match Namespaces (Scope spec) with [] => true | _ => false end)
        "server config requires at least one namespace";
  _ ← first_error (fun ns => fail_if (bool_decide (ns = ""))
        "server config namespace scope may not contain an empty name") (Namespaces (Scope spec));
  _ ← fail_if (negb (bool_decide (SensitiveReads (PolicyS spec) ∈
                 [SensitiveReadRedact; SensitiveReadDeny; SensitiveReadAllow])))
        ("unsupported sensitiveReads policy " +:+ Quote (SensitiveReads (PolicyS spec)));
  _ ← fail_if ((RequestTimeout l <=? 0) || (StreamTimeout l <=? 0) || (ExecTimeout l <=? 0))
        "request, stream, and exec timeouts must be positive";
  _ ← fail_if ((MaxInputBytes l <? 1024) || (Z.shiftl 10 20 <? MaxInputBytes l))
        "maxInputBytes must be between 1024 and 10485760";
  _ ← fail_if ((MaxOutputBytes l <? 1024) || (Z.shiftl 50 20 <? MaxOutputBytes l))
        "maxOutputBytes must be between 1024 and 52428800";
  _ ← fail_if ((MaxListItems l <? 1) || (1000 <? MaxListItems l))
        "maxListItems must be between 1 and 1000";
  _ ← fail_if ((MaxConcurrent l <? 1) || (32 <? MaxConcurrent l))
        "maxConcurrent must be between 1 and 32";
  _ ← fail_if ((RequestsPerMinute l <? 1) || (6000 <? RequestsPerMinute l))
        "requestsPerMinute must be between 1 and 6000";
  _ ← fail_if ((Burst l <? 1) || (1000 <? Burst l))
        "burst must be between 1 and 1000";
  let resources := ServerResources spec in
  _ ← first_error (fun '(name, request) =>
        _ ← fail_if (q_Sign request <? 0) ("resource request " +:+ (name +:+ " must not be negative"));
        match obj_get (Limits_ resources) name with
        | Some limit => fail_if (0 <? q_Cmp request limit) ("resource request " +:+ (name +:+ " exceeds its limit"))
        | None => Ok ()
        end) (Requests resources);
  _ ← first_error (fun '(name, limit) =>
        fail_if (q_Sign limit <=? 0) ("resource limit " +:+ (name +:+ " must be positive"))) (Limits_ resources);
  let memory := default q_zero (obj_get (Limits_ resources) "memory") in
  fail_if (q_Value memory <? required_memory l)
    ("server memory limit must be at least " +:+ (Itoa (required_memory l) +:+
     " bytes for the configured concurrency and input/output budgets")).

(** [Load] after [json.Unmarshal] has decoded [cfg]: defaults, then validation. *)
Definition Load (cfg : Config) : result go_error Config :=
  _ ← fail_if (bool_decide (cfg_Name cfg = "") || bool_decide (cfg_Namespace cfg = ""))
        "server config requires name and namespace";
  let cfg' := {| cfg_Name := cfg_Name cfg; cfg_Namespace := cfg_Namespace cfg;
                 cfg_Generation := cfg_Generation cfg;
                 cfg_Spec := default_spec (cfg_Namespace cfg) (cfg_Spec cfg) |} in
  _ ← Validate cfg';
  Ok cfg'.

(** The text of a configuration: [json.MarshalIndent] and [json.Unmarshal] of a
    [Config], whose encoding is that of apimachinery's types. *)
Class ConfigText := {
  MarshalIndent : Config -> result go_error string;
  UnmarshalConfig : string -> result go_error Config
}.
Context {T : ConfigText}.

Definition MarshalConfig (cfg : Config) : result go_error string :=
  _ ← Validate cfg;
  match MarshalIndent cfg with
  | Err err => Err (Wrapped "encode server config" err)
  | Ok data => Ok data
  end.

(** The whole [Load]; [file] is the content of the file. *)
Definition LoadFile (file : result go_error string) : result go_error Config :=
  match file with
  | Err err => Err (Wrapped "read server config" err)
  | Ok data =>
    match UnmarshalConfig data with
    | Err err => Err (Wrapped "decode server config" err)
    | Ok cfg => Load cfg
    end
  end.

(** ** What a valid configuration is *)

Record valid_limits (l : LimitsSpec) : Prop := {
  vl_timeouts : 0 < RequestTimeout l /\ 0 < StreamTimeout l /\ 0 < ExecTimeout l;
  vl_input : 1024 <= MaxInputBytes l <= 10485760;
  vl_output : 1024 <= MaxOutputBytes l <= 52428800;
  vl_items : 1 <= MaxListItems l <= 1000;
  vl_concurrent : 1 <= MaxConcurrent l <= 32;
  vl_rate : 1 <= RequestsPerMinute l <= 6000;
  vl_burst : 1 <= Burst l <= 1000
}.

(** The memory rule, in unbounded integers. *)
Definition memory_budget (l : LimitsSpec) : Z :=
  134217728 + MaxConcurrent l * (16777216 + 4 * (MaxInputBytes l + MaxOutputBytes l)).

Record valid_resources (l : LimitsSpec) (r : ResourceRequirements) : Prop := {
  vr_requests : forall name q, (name, q) ∈ Requests r ->
    0 <= q_Sign q /\ forall lim, obj_get (Limits_ r) name = Some lim -> q_Cmp q lim <= 0;
  vr_limits : forall name q, (name, q) ∈ Limits_ r -> 0 < q_Sign q;
  vr_memory : exists q, obj_get (Limits_ r) "memory" = Some q /\ memory_budget l <= q_Value q
}.

Record valid_config (cfg : Config) : Prop := {
  vc_name : cfg_Name cfg <> "" /\ cfg_Namespace cfg <> "";
  vc_mode : Mode (cfg_Spec cfg) ∈ [ModeReadOnly; ModeSafeWrite; ModeDangerous];
  vc_cluster_write : AllowClusterScopedWrite (Scope (cfg_Spec cfg)) = true -> Mode (cfg_Spec cfg) = ModeDangerous;
  vc_scope : Namespaces (Scope (cfg_Spec cfg)) <> [] /\ Forall (fun ns => ns <> "") (Namespaces (Scope (cfg_Spec cfg)));
  vc_sensitive : SensitiveReads (PolicyS (cfg_Spec cfg)) ∈ [SensitiveReadRedact; SensitiveReadDeny; SensitiveReadAllow];
  vc_limits : valid_limits (Limits (cfg_Spec cfg));
  vc_resources : valid_resources (Limits (cfg_Spec cfg)) (ServerResources (cfg_Spec cfg))
}.

(** ** Lemmas *)

Lemma fail_if_ok b m : fail_if b m = Ok () <-> b = false.
Proof. destruct b; done. Qed.

Lemma set_missing_keeps m e name q :
  obj_get m name = Some q -> obj_get (set_missing m e) name = Some q.
Proof.
  unfold set_missing. intros H. destruct (obj_get m e.1) eqn:E; [done|].
  rewrite obj_get_set_ne; [done|]. intros <-. congruence.
Qed.

Lemma set_missing_sets m e : is_Some (obj_get (set_missing m e) e.1).
Proof.
  unfold set_missing. destruct (obj_get m e.1) eqn:E; [by rewrite E|].
  rewrite obj_get_set_eq. eauto.
Qed.

(** [ServerResources] always sets a memory limit. *)
Lemma ServerResources_memory spec : is_Some (obj_get (Limits_ (ServerResources spec)) "memory").
Proof. apply (set_missing_sets _ ("memory", "256Mi")). Qed.

(** Under the limits of [Validate] the memory computation does not wrap. *)
Lemma required_memory_exact l :
  valid_limits l -> required_memory l = memory_budget l.
Proof.
  intros [? ? ? ? ? ? ?]. unfold required_memory, memory_budget.
  change (Z.shiftl 128 20) with 134217728. change (Z.shiftl 16 20) with 16777216.
  assert (0 <= MaxConcurrent l * (16777216 + 4 * (MaxInputBytes l + MaxOutputBytes l))
            <= 32 * (16777216 + 4 * 62914560)) by nia.
  rewrite (wrap64_id (MaxInputBytes l + MaxOutputBytes l)), (wrap64_id (4 * _)),
    (wrap64_id (16777216 + _)), (wrap64_id (MaxConcurrent l * _)), wrap64_id;
    unfold int64_ok, int64_min, int64_max; lia.
Qed.

Lemma or_zero_idem z d : or_zero (or_zero z d) d = or_zero z d.
Proof. unfold or_zero. destruct (z =? 0) eqn:E; [|by rewrite E]. by destruct (d =? 0). Qed.

Lemma or_string_idem s d : or_string (or_string s d) d = or_string s d.
Proof. unfold or_string. repeat case_bool_decide; congruence. Qed.

(** Defaulting twice is defaulting once. *)
Lemma default_spec_idem ns s : default_spec ns (default_spec ns s) = default_spec ns s.
Proof.
  unfold default_spec, default_limits; cbn. rewrite !or_string_idem, !or_zero_idem.
  by destruct (Namespaces (Scope s)).
Qed.
End config.

(** ** Properties *)

Section properties.
Context {G : GoLib} {Q : QuantityLib}.

Lemma bad_range (z lo hi : Z) : ((z <? lo) || (hi <? z)) = false <-> lo <= z <= hi.
Proof. rewrite orb_false_iff, !Z.ltb_ge. lia. Qed.

Lemma or_decide_false (P R : Prop) `{!Decision P, !Decision R} :
  bool_decide P || bool_decide R = false <-> ~ P /\ ~ R.
Proof. by rewrite orb_false_iff, !bool_decide_eq_false. Qed.

Lemma negb_decide_false (P : Prop) `{!Decision P} : negb (bool_decide P) = false <-> P.
Proof. by rewrite negb_false_iff, bool_decide_eq_true. Qed.

Lemma no_timeout_zero (a b c : Z) :
  ((a <=? 0) || (b <=? 0) || (c <=? 0)) = false <-> 0 < a /\ 0 < b /\ 0 < c.
Proof. rewrite !orb_false_iff, !Z.leb_gt. tauto. Qed.

Lemma namespaces_checked nss m :
  first_error (fun ns => fail_if (bool_decide (ns = "")) m) nss = Ok () <->
  Forall (fun ns => ns <> "") nss.
Proof.
  rewrite first_error_ok. apply Forall_iff. intros ns.
  by rewrite fail_if_ok, bool_decide_eq_false.
Qed.

Lemma list_empty_false {A} (l : list A) :
  match l with [] => true | _ => false end = false <-> l <> [].
Proof. by destruct l. Qed.

Lemma cluster_write_checked b (P : Prop) `{!Decision P} :
  b && negb (bool_decide P) = false <-> (b = true -> P).
Proof. destruct b; cbn; [rewrite negb_decide_false|]; naive_solver. Qed.

(** The tail of [Validate]: the resource requirements and the memory rule. *)
Lemma resources_checked l r (msg1 msg2 msg3 : string -> string) msg4 :
  valid_limits l -> is_Some (obj_get (Limits_ r) "memory") ->
  first_error (fun '(name, request) =>
        _ ← fail_if (q_Sign request <? 0) (msg1 name);
        match obj_get (Limits_ r) name with
        | Some limit => fail_if (0 <? q_Cmp request limit) (msg2 name)
        | None => Ok ()
        end) (Requests r) = Ok () /\
  first_error (fun '(name, limit) => fail_if (q_Sign limit <=? 0) (msg3 name)) (Limits_ r) = Ok () /\
  fail_if (q_Value (default q_zero (obj_get (Limits_ r) "memory")) <? required_memory l) msg4 = Ok ()
  <-> valid_resources l r.
Proof.
  intros Hl [mem Hmem]. rewrite !first_error_ok, fail_if_ok, Hmem, Z.ltb_ge.
  rewrite required_memory_exact by done. cbn [default].
  rewrite !Forall_forall. split.
  - intros (Hreq & Hlim & Hm). split; [| |by exists mem].
    + intros name q Hin. specialize (Hreq _ Hin). cbn in Hreq.
      rewrite bind_unit_ok, fail_if_ok, Z.ltb_ge in Hreq. destruct Hreq as [? Hc].
      split; [done|]. intros lim Hget. rewrite Hget, fail_if_ok, Z.ltb_ge in Hc. done.
    + intros name q Hin. specialize (Hlim _ Hin). cbn in Hlim.
      by rewrite fail_if_ok, Z.leb_gt in Hlim.
  - intros [Hreq Hlim (q & ? & ?)]. simplify_eq. split_and!; [| |done].
    + intros [name q'] Hin. destruct (Hreq _ _ Hin) as [? Hc].
      rewrite bind_unit_ok, fail_if_ok, Z.ltb_ge. split; [done|].
      destruct (obj_get (Limits_ r) name) eqn:E; [|done].
      rewrite fail_if_ok, Z.ltb_ge. auto.
    + intros [name q'] Hin. rewrite fail_if_ok, Z.leb_gt. eauto.
Qed.

Lemma Validate_ok_iff cfg : Validate cfg = Ok () <-> valid_config cfg.
Proof.
  unfold Validate. rewrite !bind_unit_ok, !fail_if_ok.
  rewrite or_decide_false, !negb_decide_false, cluster_write_checked, list_empty_false,
    namespaces_checked, no_timeout_zero, !bad_range.
  change (Z.shiftl 10 20) with 10485760. change (Z.shiftl 50 20) with 52428800.
  pose proof (resources_checked (Limits (cfg_Spec cfg)) (ServerResources (cfg_Spec cfg))
    (fun name => "resource request " +:+ (name +:+ " must not be negative"))
    (fun name => "resource request " +:+ (name +:+ " exceeds its limit"))
    (fun name => "resource limit " +:+ (name +:+ " must be positive")) "") as Hr.
  rewrite fail_if_ok in Hr.
  split.
  - intros (? & ? & ? & ? & ? & ? & ? & ? & ? & ? & ? & ? & ? & ? & ? & ?).
    assert (valid_limits (Limits (cfg_Spec cfg))) by by constructor.
    constructor; try done. apply Hr; [done | apply ServerResources_memory | done].
  - intros [? ? ? [? ?] ? Hl Hv]. apply Hr in Hv; [|done | apply ServerResources_memory].
    destruct Hl, Hv as (? & ? & ?). destruct_and?. split_and!; done.
Qed.

(** [Validate] accepts a configuration exactly when [valid_config] holds of
    it: names set, a known mode and sensitive-read policy, cluster writes only in
    Dangerous mode, a non-empty scope, every limit in its documented range,
    consistent resource requirements, and a memory limit that covers the
    request budgets computed in unbounded integers (the [int64] computation
    of the code does not wrap). *)
Theorem Validate_iff_valid cfg : Validate cfg = Ok () <-> valid_config cfg.
Proof. apply Validate_ok_iff. Qed.

(** What the operator writes into the ConfigMap is what the server loads: a
    configuration built from the custom resource ([FromResource]) that
    passes the operator's validation is returned unchanged by [Load], which
    defaults and validates again. *)
Theorem Load_FromResource server :
  Validate (FromResource server) = Ok () -> Load (FromResource server) = Ok (FromResource server).
Proof.
  intros Hv. pose proof (proj1 (Validate_ok_iff _) Hv) as [[Hn Hns] _ _ _ _ _ _].
  unfold Load. rewrite (proj2 (fail_if_ok _ _)) by by rewrite or_decide_false.
  unfold FromResource, Default in *; cbn in *. by rewrite default_spec_idem, Hv.
Qed.

(** A spec in which the user set nothing. *)
Definition empty_spec : KubernetesMCPServerSpec := {|
  Resources := {| Requests := []; Limits_ := [] |};
  Mode := "";
  Scope := {| Namespaces := []; AllowClusterScopedRead := false; AllowClusterScopedWrite := false |};
  PolicyS := {| Rules := []; SensitiveReads := "" |};
  TLS_SecretName := "";
  Limits := {| RequestTimeout := 0; StreamTimeout := 0; ExecTimeout := 0; MaxInputBytes := 0;
               MaxOutputBytes := 0; MaxListItems := 0; MaxConcurrent := 0; RequestsPerMinute := 0; Burst := 0 |};
  NetworkPolicy := {| Enabled := None; AllowedNamespaceSelector := None; AllowedPodSelector := None |}
|}.

(** A custom resource that sets nothing but its name yields a valid
    configuration: the documented 256Mi default covers the default budgets. *)
Theorem defaults_are_valid (L : QuantityLaws Q) name ns uid gen :
  name <> "" -> ns <> "" ->
  Validate (FromResource {| Name := name; Namespace := ns; UID := uid; Generation := gen; Spec := empty_spec |}) = Ok ().
Proof.
  intros Hn Hns. apply Validate_ok_iff.
  destruct L as [Hpos Hcpu Hmem Hval].
  constructor; cbn; try done; try set_solver.
  assert (ServerResources (default_spec ns empty_spec) =
    {| Requests := [("cpu", MustParse "50m"); ("memory", MustParse "64Mi")];
       Limits_ := [("cpu", MustParse "500m"); ("memory", MustParse "256Mi")] |}) as -> by reflexivity.
  constructor; cbn [Requests Limits_].
  - intros nm q Hin. rewrite !elem_of_cons in Hin.
      destruct Hin as [[= -> ->]|[[= -> ->]|Hin%elem_of_nil]]; [| |done];
        (split; [apply Z.lt_le_incl, Hpos; set_solver|]); by intros lim [= <-].
  - intros nm q Hin. rewrite !elem_of_cons in Hin.
      destruct Hin as [[= -> ->]|[[= -> ->]|Hin%elem_of_nil]]; [| |done]; apply Hpos; set_solver.
  - exists (MustParse "256Mi"). split; [done|]. rewrite Hval. by vm_compute.
Qed.
End properties.

(** ** Witnesses *)

(** Quantities as thousandths, for the literals the code parses. *)
Definition plain_Quantity : QuantityLib := {|
  Quantity := Z;
  MustParse s :=
    if bool_decide (s = "50m") then 50 else if bool_decide (s = "500m") then 500
    else if bool_decide (s = "64Mi") then 64 * 1048576 * 1000
    else if bool_decide (s = "256Mi") then 256 * 1048576 * 1000 else 0;
  q_zero := 0;
  q_Sign := Z.sgn;
  q_Cmp x y := Z.sgn (x - y);
  q_Value x := (x + 999) / 1000
|}.

Module ConfigWitness.
#[export] Existing Instance plain_GoLib.
#[export] Existing Instance plain_Quantity.

#[export] Instance plain_QuantityLaws : QuantityLaws plain_Quantity.
Proof.
  split; try done. intros s Hs. rewrite !elem_of_cons in Hs.
  repeat destruct Hs as [->|Hs]; try done. by apply elem_of_nil in Hs.
Qed.

Definition demo_spec (mode : string) : KubernetesMCPServerSpec := {|
  Resources := {| Requests := []; Limits_ := [] |};
  Mode := mode;
  Scope := {| Namespaces := ["prod"; "mcp"]; AllowClusterScopedRead := true; AllowClusterScopedWrite := false |};
  PolicyS := {| Rules := []; SensitiveReads := "" |};
  TLS_SecretName := "";
  Limits := {| RequestTimeout := 0; StreamTimeout := 0; ExecTimeout := 0; MaxInputBytes := 0;
               MaxOutputBytes := 0; MaxListItems := 0; MaxConcurrent := 0; RequestsPerMinute := 0; Burst := 0 |};
  NetworkPolicy := {| Enabled := None; AllowedNamespaceSelector := None; AllowedPodSelector := None |}
|}.
Definition demo_server (mode : string) : KubernetesMCPServer :=
  {| Name := "gw"; Namespace := "mcp"; UID := "1"; Generation := 3; Spec := demo_spec mode |}.
Definition demo_config (mode : string) : Config := FromResource (demo_server mode).

Lemma demo_config_checked mode :
  mode ∈ [ModeReadOnly; ModeSafeWrite; ModeDangerous] -> Validate (demo_config mode) = Ok ().
Proof.
  rewrite !elem_of_cons. intros Hm. repeat destruct Hm as [->|Hm]; [vm_compute; reflexivity..|].
  by apply elem_of_nil in Hm.
Qed.

Lemma demo_config_valid mode :
  mode ∈ [ModeReadOnly; ModeSafeWrite; ModeDangerous] -> valid_config (demo_config mode).
Proof. intros Hm. by apply Validate_ok_iff, demo_config_checked. Qed.

Lemma Load_FromResource_witness :
  Load (FromResource (demo_server ModeSafeWrite)) = Ok (FromResource (demo_server ModeSafeWrite)).
Proof. apply (Load_FromResource (demo_server ModeSafeWrite)). vm_compute. reflexivity. Defined.

Lemma defaults_are_valid_witness :
  Validate (FromResource {| Name := "gw"; Namespace := "mcp"; UID := "1"; Generation := 3; Spec := empty_spec |}) = Ok ().
Proof. apply (defaults_are_valid plain_QuantityLaws); discriminate. Defined.
End ConfigWitness.
