(* ===== verification/DeepCopy.v ===== *)
(** * Deep copies of the resource (src/api/v1alpha1/zz_generated.deepcopy.go)

    The operator's client and [FromResource] work on copies of a
    KubernetesMCPServer, so that what they set is not seen by others who hold
    the same object.  Whether a copy is really separate is a matter of memory:
    here structs hold slices and pointers into a heap, as in Go, and the
    generated functions allocate.  The types of apimachinery inside the
    resource are parameters with the contract of their own copy functions. *)

From S2P Require Import Prelude.
From stdpp Require Import gmap fin_sets.

(** ** Slices and pointers *)

Definition loc := nat.

(** A slice header: an array in the heap and the part of it that is seen.  The
    capacity is never used.  A nil slice is [None]. *)
Record slice := { sl_base : loc; sl_off : nat; sl_len : nat }.

(** A pointer to an element of an array; [new] makes an array of one. *)
Record pointer := { pt_base : loc; pt_index : nat }.

(** ** The structs of the resource, as they lie in memory *)

Record CapabilityRule := { APIGroups : option slice; Resources : option slice; Verbs : option slice }.
Record ScopeSpec := { Namespaces : option slice; AllowClusterScopedRead : bool; AllowClusterScopedWrite : bool }.
Record PolicySpec := { Rules : option slice; SensitiveReads : string }.
Record TLSSpec := { SecretName : string }.
Record LimitsSpec := {
  RequestTimeout : Z; StreamTimeout : Z; ExecTimeout : Z; MaxInputBytes : Z; MaxOutputBytes : Z; MaxListItems : Z;
  MaxConcurrent : Z; RequestsPerMinute : Z; Burst : Z
}.
Record NetworkPolicySpec := {
  Enabled : option pointer; AllowedNamespaceSelector : option pointer; AllowedPodSelector : option pointer
}.
Record KubernetesMCPServerStatus := {
  ObservedGeneration : Z; Endpoint : string; CAConfigMapName : string; Conditions : option slice
}.
Record TypeMeta := { Kind : string; APIVersion : string }.

(** The structs of apimachinery the resource contains, and what their own memory
    is made of. *)
Class MetaTypes := {
  ObjectMeta : Type; ListMeta : Type; LabelSelector : Type; Condition : Type; ResourceRequirements : Type; meta_cell : Type;
  zero_ObjectMeta : ObjectMeta; zero_ListMeta : ListMeta; zero_LabelSelector : LabelSelector; zero_Condition : Condition;
  zero_ResourceRequirements : ResourceRequirements
}.

Section structs.
Context {M : MetaTypes}.

Record KubernetesMCPServerSpec := {
  SpecResources : ResourceRequirements; Mode : string; Scope : ScopeSpec; Policy : PolicySpec; TLS : TLSSpec;
  Limits : LimitsSpec; NetworkPolicy : NetworkPolicySpec
}.
Record KubernetesMCPServer := {
  srv_TypeMeta : TypeMeta; srv_ObjectMeta : ObjectMeta; Spec : KubernetesMCPServerSpec; Status : KubernetesMCPServerStatus
}.
Record KubernetesMCPServerList := { list_TypeMeta : TypeMeta; list_ListMeta : ListMeta; Items : option slice }.

(** An array in memory, with its elements. *)
Inductive cell :=
| Strings (l : list string)
| Bools (l : list bool)
| CapabilityRules (l : list CapabilityRule)
| ScopeSpecs (l : list ScopeSpec)
| PolicySpecs (l : list PolicySpec)
| TLSSpecs (l : list TLSSpec)
| LimitsSpecs (l : list LimitsSpec)
| NetworkPolicySpecs (l : list NetworkPolicySpec)
| LabelSelectors (l : list LabelSelector)
| ConditionsCell (l : list Condition)
| Specs (l : list KubernetesMCPServerSpec)
| Statuses (l : list KubernetesMCPServerStatus)
| Servers (l : list KubernetesMCPServer)
| Lists (l : list KubernetesMCPServerList)
| MetaCell (c : meta_cell).
End structs.

Abbreviation heap := (gmap loc cell).

(** ** Interfaces *)

Section classes.
Context {M : MetaTypes}.

(** Types that lie in arrays of their own. *)
Class Elem (A : Type) := {
  zero : A;
  wrap : list A -> cell;
  unwrap : cell -> option (list A);
  unwrap_wrap l : unwrap (wrap l) = Some l
}.

(** A type with a deep copy: [show] is the value a struct stands for, read
    through its slices and pointers (undefined when one of them is
    wrong), [owned] the memory it reaches, [copy] its [DeepCopyInto]. *)
Class Copyable (A : Type) := {
  shown : Type;
  show : heap -> A -> option shown;
  owned : heap -> A -> gset loc;
  copy : A -> heap -> heap * A
}.

Definition agrees_on (X : gset loc) (h h' : heap) : Prop := forall l, l ∈ X -> h' !! l = h !! l.

(** What the copy promises: it leaves all memory alone that was there, the copy
    has the same value, and everything it reaches is new. *)
Class CopyLaws (A : Type) {C : Copyable A} : Prop := {
  show_owned h a v : show h a = Some v -> owned h a ⊆ dom h;
  show_frame h h' a v : show h a = Some v -> agrees_on (owned h a) h h' -> show h' a = Some v /\ owned h' a = owned h a;
  copy_keeps h a v : show h a = Some v -> agrees_on (dom h) h (copy a h).1;
  copy_shows h a v : show h a = Some v -> show (copy a h).1 (copy a h).2 = Some v;
  copy_fresh h a v : show h a = Some v -> owned (copy a h).1 (copy a h).2 ## dom h
}.
End classes.

(** ** Memory operations *)

Section memory.
Context {M : MetaTypes}.

(** [make] and [new]: an array of zero values at an address not in use. *)
Definition make {A} {E : Elem A} (n : nat) (h : heap) : loc * heap :=
  let l := fresh (dom h) in (l, <[l := wrap (replicate n zero)]> h).

Definition array {A} {E : Elem A} (h : heap) (l : loc) : option (list A) := h !! l ≫= unwrap.

(** [a[i]] and [a[i] = x]; both are in range where they are used. *)
Definition read_elem {A} {E : Elem A} (h : heap) (l : loc) (i : nat) : A := default zero (array h l ≫= fun a => a !! i).
Definition write_elem {A} {E : Elem A} (h : heap) (l : loc) (i : nat) (x : A) : heap :=
  match array h l with Some a => <[l := wrap (<[i := x]> a)]> h | None => h end.

(** The loop that copies the elements of a slice, from [i] on: element [i] of the
    new array is filled by [DeepCopyInto] of element [i] of the old slice. *)
Fixpoint copy_loop {A} {E : Elem A} {C : Copyable A} (s : slice) (out : loc) (i n : nat) (h : heap) : heap :=
  match n with
  | O => h
  | S n' =>
    let '(h1, x) := copy (read_elem h (sl_base s) (sl_off s + i)) h in
    copy_loop s out (S i) n' (write_elem h1 out i x)
  end.

(** [if in != nil { *out = make(...); copy }] for a slice. *)
Definition copy_slice {A} {E : Elem A} {C : Copyable A} (s : option slice) (h : heap) : heap * option slice :=
  match s with
  | None => (h, None)
  | Some s =>
    let '(out, h1) := make (A := A) (sl_len s) h in
    (copy_loop (A := A) s out 0 (sl_len s) h1, Some {| sl_base := out; sl_off := 0; sl_len := sl_len s |})
  end.

(** [if in == nil { return nil }; out := new(A); in.DeepCopyInto(out); return out]. *)
Definition DeepCopy {A} {E : Elem A} {C : Copyable A} (p : option pointer) (h : heap) : heap * option pointer :=
  match p with
  | None => (h, None)
  | Some p =>
    let '(out, h1) := make (A := A) 1 h in
    let '(h2, x) := copy (read_elem h1 (pt_base p) (pt_index p)) h1 in
    (write_elem h2 out 0 x, Some {| pt_base := out; pt_index := 0 |})
  end.

(** ** What slices and pointers stand for *)

Definition window {A} {E : Elem A} (h : heap) (s : slice) : option (list A) :=
  a ← array h (sl_base s);
  if decide (sl_off s + sl_len s <= length a) then Some (take (sl_len s) (drop (sl_off s) a)) else None.

Definition show_slice {A} {E : Elem A} {C : Copyable A} (h : heap) (s : option slice) : option (option (list shown)) :=
  match s with
  | None => Some None
  | Some s => l ← window (A := A) h s; vs ← mapM (show h) l; Some (Some vs)
  end.
Definition owned_slice {A} {E : Elem A} {C : Copyable A} (h : heap) (s : option slice) : gset loc :=
  match s with
  | None => ∅
  | Some s => {[sl_base s]} ∪ ⋃ (owned h <$> default [] (window (A := A) h s))
  end.

Definition as_slice (p : pointer) : slice := {| sl_base := pt_base p; sl_off := pt_index p; sl_len := 1 |}.
End memory.

(** ** Lemmas: frames *)

Section frames.
Context {M : MetaTypes}.

Lemma agrees_refl X (h : heap) : agrees_on X h h.
Proof. by intros l. Qed.

Lemma agrees_trans X Y (h1 h2 h3 : heap) : Y ⊆ X -> agrees_on X h1 h2 -> agrees_on Y h2 h3 -> agrees_on Y h1 h3.
Proof. intros HY H12 H23 l Hl. rewrite H23 by done. apply H12. set_solver. Qed.

Lemma agrees_weaken X Y (h h' : heap) : Y ⊆ X -> agrees_on X h h' -> agrees_on Y h h'.
Proof. intros HY H l Hl. apply H. set_solver. Qed.

Lemma agrees_dom (h h' : heap) : agrees_on (dom h) h h' -> dom h ⊆ dom h'.
Proof. intros H l Hl. pose proof (H l Hl) as E. apply elem_of_dom in Hl as [c Hc]. apply elem_of_dom. rewrite E. by exists c. Qed.

Lemma agrees_insert (h : heap) l c : l ∉ dom h -> agrees_on (dom h) h (<[l := c]> h).
Proof. intros Hl k Hk. apply lookup_insert_ne. set_solver. Qed.

Lemma array_dom {A} {E : Elem A} (h : heap) l a : array h l = Some a -> l ∈ dom h.
Proof. unfold array. intros (c & Hc & _)%bind_Some. by apply elem_of_dom_2 in Hc. Qed.

Lemma array_agrees {A} {E : Elem A} X (h h' : heap) l : agrees_on X h h' -> l ∈ X -> array h' l = array h l.
Proof. intros H Hl. unfold array. by rewrite H. Qed.

Lemma array_insert {A} {E : Elem A} (h : heap) l a : array (<[l := wrap a]> h) l = Some a.
Proof. unfold array. rewrite lookup_insert_eq. apply unwrap_wrap. Qed.

Lemma window_agrees {A} {E : Elem A} X (h h' : heap) s : agrees_on X h h' -> sl_base s ∈ X -> window (A := A) h' s = window h s.
Proof. intros H Hs. unfold window. by rewrite (array_agrees X h h'). Qed.

Lemma window_Some {A} {E : Elem A} (h : heap) s l :
  window (A := A) h s = Some l ->
  sl_base s ∈ dom h /\ length l = sl_len s /\
  exists a, array h (sl_base s) = Some a /\ forall i, i < sl_len s -> a !! (sl_off s + i) = l !! i.
Proof.
  unfold window. intros (a & Ha & Hd)%bind_Some. destruct (decide _) as [Hle|]; [|done]. injection Hd as <-.
  split; [by eapply array_dom|]. split; [rewrite length_take, length_drop; lia|]. exists a. split; [done|].
  intros i Hi. by rewrite lookup_take_lt, lookup_drop by lia.
Qed.
End frames.

(** ** Lemmas: copying a slice *)

Section copies.
Context {M : MetaTypes} {A : Type} {E : Elem A} {C : Copyable A} {L : CopyLaws A}.

(** A copied element in a heap that has grown from [h0]: its value, and that it
    reaches neither the old memory nor the new array itself. *)
Definition copied (h0 : heap) (out : loc) (h : heap) (x : A) (v : shown) : Prop :=
  show h x = Some v /\ owned h x ## dom h0 /\ out ∉ owned h x.

Lemma copied_frame h0 out h h' x v :
  copied h0 out h x v -> (forall l, l ∈ dom h -> l <> out -> h' !! l = h !! l) -> copied h0 out h' x v.
Proof.
  intros (Hs & Hd & Ho) Hh. pose proof (show_owned h x v Hs) as Hdom.
  destruct (show_frame h h' x v Hs) as [Hs' Ho']; [intros l Hl; apply Hh; [set_solver|set_solver]|].
  unfold copied. by rewrite Ho'.
Qed.

(** One pass of the loop. *)
Lemma copy_step h0 out h x v done rest i :
  show h0 x = Some v -> out ∉ dom h0 -> agrees_on (dom h0) h0 h ->
  array h out = Some (done ++ zero :: rest) -> length done = i ->
  let h1 := (copy x h).1 in let x' := (copy x h).2 in let h2 := write_elem h1 out i x' in
  agrees_on (dom h0) h0 h2 /\ array h2 out = Some (done ++ x' :: rest) /\ copied h0 out h2 x' v /\
  forall y w, copied h0 out h y w -> copied h0 out h2 y w.
Proof.
  intros Hx Hout Hag Harr <-. cbn zeta.
  destruct (show_frame h0 h x v Hx) as [Hxh _]; [eapply agrees_weaken; [by eapply show_owned|done]|].
  pose proof (copy_keeps h x v Hxh) as Hk. pose proof (copy_shows h x v Hxh) as Hs. pose proof (copy_fresh h x v Hxh) as Hf.
  destruct (copy x h) as [h1 x']. cbn [fst snd] in *.
  pose proof (array_dom _ _ _ Harr) as Hod. pose proof (agrees_dom _ _ Hag) as Hd0.
  unfold write_elem. rewrite (array_agrees _ _ _ _ Hk Hod), Harr.
  rewrite insert_app_r_alt, Nat.sub_diag by lia. cbn [list_insert insert].
  assert (forall l, l <> out -> <[out := wrap (done ++ x' :: rest)]> h1 !! l = h1 !! l) as Hins.
  { intros l Hl. by apply lookup_insert_ne. }
  split_and!.
  - intros l Hl. rewrite Hins by set_solver. rewrite Hk by set_solver. by apply Hag.
  - apply array_insert.
  - apply (copied_frame h0 out h1); [|intros l _ Hl; by apply Hins]. split_and!; [done|set_solver|set_solver].
  - intros y w Hy. apply (copied_frame h0 out h); [done|]. intros l Hl Hne. rewrite Hins by done. by apply Hk.
Qed.

Lemma copy_loop_spec h0 out s l vs :
  window h0 s = Some l -> mapM (show h0) l = Some vs -> out ∉ dom h0 ->
  forall n i h done, i + n = sl_len s -> agrees_on (dom h0) h0 h ->
    array h out = Some (done ++ replicate n zero) -> length done = i -> Forall2 (copied h0 out h) done (take i vs) ->
  let h' := copy_loop s out i n h in
  agrees_on (dom h0) h0 h' /\ exists xs, array h' out = Some xs /\ Forall2 (copied h0 out h') xs vs.
Proof.
  intros Hw Hvs Hout. destruct (window_Some _ _ _ Hw) as (Hb & Hlen & a & Ha & Hla).
  apply mapM_Some in Hvs. pose proof (Forall2_length _ _ _ Hvs) as Hlv.
  induction n as [|n IH]; intros i h done Hi Hag Harr Hd Hc; cbn zeta; cbn [copy_loop].
  - split; [done|]. exists done. rewrite app_nil_r in Harr. split; [done|]. by rewrite take_ge in Hc by lia.
  - destruct (lookup_lt_is_Some_2 l i) as [x Hx]; [lia|]. destruct (Forall2_lookup_l _ _ _ _ _ Hvs Hx) as (v & Hv & Hxv).
    assert (read_elem h (sl_base s) (sl_off s + i) = x) as ->.
    { unfold read_elem. rewrite (array_agrees _ _ _ _ Hag Hb), Ha. cbn [mbind option_bind]. by rewrite Hla, Hx by lia. }
    destruct (copy_step h0 out h x v done (replicate n zero) i Hxv Hout Hag Harr Hd) as (Hag' & Harr' & Hnew & Hold).
    destruct (copy x h) as [h1 x'] eqn:Ec. cbn [fst snd] in *.
    apply (IH (S i) _ (done ++ [x'])); [lia|done| | |].
    + by rewrite <- app_assoc.
    + rewrite length_app. cbn. lia.
    + rewrite (take_S_r _ _ _ Hv). apply Forall2_app; [|by constructor].
      eapply Forall2_impl; [exact Hc|]. apply Hold.
Qed.

Lemma copied_list h0 out h xs vs : Forall2 (copied h0 out h) xs vs ->
  mapM (show h) xs = Some vs /\ ⋃ (owned h <$> xs) ## dom h0.
Proof.
  intros H. split.
  - apply mapM_Some. eapply Forall2_impl; [exact H|]. by intros x v (? & _).
  - induction H as [|x v xs vs (_ & Hd & _) _ IH]; cbn; [set_solver|set_solver].
Qed.

Lemma show_list_frame h h' l vs :
  mapM (show h) l = Some vs -> agrees_on (⋃ (owned h <$> l)) h h' ->
  mapM (show h') l = Some vs /\ owned h' <$> l = owned h <$> l.
Proof.
  intros Hm%mapM_Some Hag. assert (Forall2 (fun x v => show h' x = Some v) l vs /\ owned h' <$> l = owned h <$> l) as [H1 H2].
  { induction Hm as [|x v l vs Hx Hm IH]; [done|]. cbn in Hag |- *.
    destruct (show_frame h h' x v Hx) as [Hx' Ho]; [eapply agrees_weaken; [|done]; set_solver|].
    destruct IH as [IH1 IH2]; [eapply agrees_weaken; [|done]; set_solver|]. split; [by constructor|by rewrite Ho, IH2]. }
  split; [by apply mapM_Some|done].
Qed.
End copies.

(** ** The types of fields *)

(** A slice of [A], a pointer to an [A], and a value without pointers. *)
Definition slice_of (A : Type) : Type := option slice.
Definition pointer_to (A : Type) : Type := option pointer.
Definition plain (A : Type) : Type := A.
#[global] Typeclasses Opaque slice_of pointer_to plain.

Section fields.
Context {M : MetaTypes}.

#[global] Instance slice_copyable {A} {E : Elem A} {C : Copyable A} : Copyable (slice_of A) :=
  {| shown := option (list shown); show := show_slice (A := A); owned := owned_slice (A := A); copy := copy_slice (A := A) |}.

Definition show_pointer {A} {E : Elem A} {C : Copyable A} (h : heap) (p : pointer_to A) : option (option shown) :=
  match p with
  | None => Some None
  | Some p => match show_slice (A := A) h (Some (as_slice p)) with Some (Some [v]) => Some (Some v) | _ => None end
  end.
#[global] Instance pointer_copyable {A} {E : Elem A} {C : Copyable A} : Copyable (pointer_to A) :=
  {| shown := option shown; show := show_pointer; owned := fun h p => owned_slice (A := A) h (option_map as_slice p); copy := DeepCopy (A := A) |}.

#[global] Instance plain_copyable {A} : Copyable (plain A) :=
  {| shown := A; show := fun _ a => Some a; owned := fun _ _ => ∅; copy := fun a h => (h, a) |}.
#[global] Instance plain_laws {A} : CopyLaws (plain A).
Proof. split; try done. Qed.

#[global] Instance prod_copyable {A B} {CA : Copyable A} {CB : Copyable B} : Copyable (A * B) := {|
  shown := shown (A := A) * shown (A := B);
  show := fun h t => a ← show h t.1; b ← show h t.2; Some (a, b);
  owned := fun h t => owned h t.1 ∪ owned h t.2;
  copy := fun t h => let '(h1, a) := copy t.1 h in let '(h2, b) := copy t.2 h1 in (h2, (a, b)) |}.

Lemma show_prod {A B} {CA : Copyable A} {CB : Copyable B} h (t : A * B) (v : shown (A := A) * shown (A := B)) :
  show (Copyable := prod_copyable) h t = Some v <-> show h t.1 = Some v.1 /\ show h t.2 = Some v.2.
Proof.
  cbn. split.
  - intros (a & Ha & (b & Hb & [= <-])%bind_Some)%bind_Some. done.
  - intros [-> ->]. by destruct v.
Qed.

#[global] Instance prod_laws {A B} {CA : Copyable A} {CB : Copyable B} {LA : CopyLaws A} {LB : CopyLaws B} : CopyLaws (A * B).
Proof.
  assert (forall h (t : A * B) (v : shown (A := A) * shown (A := B)), show (Copyable := prod_copyable) h t = Some v ->
    let h1 := (copy t.1 h).1 in agrees_on (dom h) h h1 /\ show h1 t.2 = Some v.2) as Hmid.
  { intros h t v [H1 H2]%show_prod. pose proof (copy_keeps h t.1 _ H1) as Hk. split; [done|].
    destruct (show_frame h (copy t.1 h).1 t.2 _ H2) as [? _]; [|done]. eapply agrees_weaken; [by eapply show_owned|done]. }
  assert (forall h (t : A * B), copy t h = ((copy t.2 (copy t.1 h).1).1, ((copy t.1 h).2, (copy t.2 (copy t.1 h).1).2))) as Hcopy.
  { intros h [x y]. cbn. destruct (copy x h) as [h1 a]. cbn. destruct (copy y h1) as [h2 b]. reflexivity. }
  split.
  - intros h t v [H1 H2]%show_prod. pose proof (show_owned h _ _ H1). pose proof (show_owned h _ _ H2). cbn. set_solver.
  - intros h h' t v [H1 H2]%show_prod Hag. cbn in Hag.
    destruct (show_frame h h' _ _ H1) as [H1' E1]; [eapply agrees_weaken; [|done]; set_solver|].
    destruct (show_frame h h' _ _ H2) as [H2' E2]; [eapply agrees_weaken; [|done]; set_solver|].
    split; [by apply show_prod|]. cbn. by rewrite E1, E2.
  - intros h t v Ht. destruct (Hmid h t v Ht) as [Hk H2]. rewrite Hcopy. cbn [fst].
    pose proof (copy_keeps _ _ _ H2) as Hk2. pose proof (agrees_dom _ _ Hk). eapply agrees_trans; [|done|]; [done|].
    by eapply agrees_weaken.
  - intros h t v Ht. destruct (Hmid h t v Ht) as [Hk H2]. apply show_prod in Ht as [H1 _]. rewrite Hcopy. apply show_prod. cbn [fst snd].
    split; [|by eapply copy_shows]. pose proof (copy_shows _ _ _ H1) as Hs.
    destruct (show_frame _ (copy t.2 (copy t.1 h).1).1 _ _ Hs) as [? _]; [|done].
    eapply agrees_weaken; [by eapply show_owned|by eapply copy_keeps].
  - intros h t v Ht. destruct (Hmid h t v Ht) as [Hk H2]. apply show_prod in Ht as [H1 _]. rewrite Hcopy. cbn [fst snd owned prod_copyable].
    pose proof (copy_shows _ _ _ H1) as Hs. pose proof (copy_fresh _ _ _ H1) as F1. pose proof (copy_fresh _ _ _ H2) as F2.
    destruct (show_frame _ (copy t.2 (copy t.1 h).1).1 _ _ Hs) as [_ Ho].
    { eapply agrees_weaken; [by eapply show_owned|by eapply copy_keeps]. }
    rewrite Ho. pose proof (agrees_dom _ _ Hk). set_solver.
Qed.
End fields.

(** ** Lemmas: slices, pointers and structs keep the contract *)

Section field_laws.
Context {M : MetaTypes}.

Lemma show_slice_Some {A} {E : Elem A} {C : Copyable A} h s vs :
  show_slice (A := A) h (Some s) = Some vs <-> exists l us, window h s = Some l /\ mapM (show h) l = Some us /\ vs = Some us.
Proof.
  cbn. split.
  - intros (l & Hl & (us & Hus & [= <-])%bind_Some)%bind_Some. by exists l, us.
  - intros (l & us & -> & Hus & ->). cbn. by rewrite Hus.
Qed.

Lemma slice_frame {A} {E : Elem A} {C : Copyable A} {L : CopyLaws A} h h' s v :
  show_slice (A := A) h s = Some v -> agrees_on (owned_slice (A := A) h s) h h' ->
  show_slice (A := A) h' s = Some v /\ owned_slice (A := A) h' s = owned_slice (A := A) h s.
Proof.
  destruct s as [s|]; [|done]. intros (l & us & Hw & Hm & ->)%show_slice_Some Hag.
  unfold owned_slice in *. rewrite Hw in Hag. cbn [default from_option id] in Hag.
  assert (window (A := A) h' s = Some l) as Hw'. { rewrite (window_agrees _ h h' s Hag); [done|set_solver]. }
  destruct (show_list_frame h h' l us Hm) as [Hm' Ho]; [eapply agrees_weaken; [|done]; set_solver|].
  split; [apply show_slice_Some; by exists l, us|]. rewrite Hw', Hw. cbn [default from_option id]. by rewrite Ho.
Qed.

Lemma slice_owned {A} {E : Elem A} {C : Copyable A} {L : CopyLaws A} h s v :
  show_slice (A := A) h s = Some v -> owned_slice (A := A) h s ⊆ dom h.
Proof.
  destruct s as [s|]; [|set_solver]. intros (l & us & Hw & Hm & _)%show_slice_Some.
  unfold owned_slice. rewrite Hw. cbn [default from_option id]. destruct (window_Some _ _ _ Hw) as [Hb _].
  apply mapM_Some in Hm. assert (⋃ (owned h <$> l) ⊆ dom h); [|set_solver]. clear Hw.
  induction Hm as [|x v' l us Hx _ IH]; cbn; [set_solver|]. pose proof (show_owned _ _ _ Hx). set_solver.
Qed.

Lemma copy_slice_spec {A} {E : Elem A} {C : Copyable A} {L : CopyLaws A} h s v :
  show_slice (A := A) h s = Some v ->
  let '(h', s') := copy_slice (A := A) s h in
  agrees_on (dom h) h h' /\ show_slice (A := A) h' s' = Some v /\ owned_slice (A := A) h' s' ## dom h.
Proof.
  destruct s as [s|]; cbn [copy_slice].
  2: { intros Hv. split_and!; [apply agrees_refl|done|set_solver]. }
  intros (l & us & Hw & Hm & ->)%show_slice_Some. unfold make.
  set (out := fresh (dom h)). assert (out ∉ dom h) as Hout by apply is_fresh.
  destruct (window_Some _ _ _ Hw) as (_ & Hlen & _). pose proof (Forall2_length _ _ _ (proj1 (mapM_Some _ _ _) Hm)) as Hlu.
  destruct (copy_loop_spec h out s l us Hw Hm Hout (sl_len s) 0 (<[out := wrap (replicate (sl_len s) zero)]> h) [])
    as (Hag & xs & Harr & Hxs); [done|by apply agrees_insert|apply array_insert|done|constructor|].
  set (h' := copy_loop _ _ _ _ _) in *. destruct (copied_list _ _ _ _ _ Hxs) as [Hshow Hdis].
  assert (window (A := A) h' {| sl_base := out; sl_off := 0; sl_len := sl_len s |} = Some xs) as Hwin.
  { unfold window. cbn [sl_base sl_off sl_len]. rewrite Harr. cbn [mbind option_bind].
    pose proof (Forall2_length _ _ _ Hxs). rewrite decide_True by lia. rewrite drop_0, take_ge by lia. done. }
  split_and!; [done| |].
  - apply show_slice_Some. by exists xs, us.
  - unfold owned_slice. rewrite Hwin. cbn [default from_option id sl_base]. set_solver.
Qed.

#[global] Instance slice_laws {A} {E : Elem A} {C : Copyable A} {L : CopyLaws A} : CopyLaws (slice_of A).
Proof.
  split; cbn [show owned copy slice_copyable].
  - intros h s v. apply slice_owned.
  - intros h h' s v. apply slice_frame.
  - intros h s v Hv. pose proof (copy_slice_spec h s v Hv) as H. destruct (copy_slice s h). by destruct H.
  - intros h s v Hv. pose proof (copy_slice_spec h s v Hv) as H. destruct (copy_slice s h). by destruct H as (_ & ? & _).
  - intros h s v Hv. pose proof (copy_slice_spec h s v Hv) as H. destruct (copy_slice s h). by destruct H as (_ & _ & ?).
Qed.

(** A pointer is copied as a slice of one. *)
Lemma DeepCopy_slice {A} {E : Elem A} {C : Copyable A} p h :
  copy_slice (A := A) (option_map as_slice p) h =
    ((DeepCopy (A := A) p h).1, option_map as_slice (DeepCopy (A := A) p h).2).
Proof.
  destruct p as [p|]; [|done]. unfold DeepCopy, copy_slice, option_map, as_slice. cbn [sl_len sl_base sl_off].
  unfold make. cbn [copy_loop sl_base sl_off]. rewrite Nat.add_0_r. by destruct (copy _ _).
Qed.

Lemma show_pointer_slice {A} {E : Elem A} {C : Copyable A} h (p : pointer_to A) v :
  show_pointer h p = Some v <-> show_slice (A := A) h (option_map as_slice p) = Some ((fun x => [x]) <$> v).
Proof.
  destruct p as [p|]; cbn [show_pointer option_map]; [|by destruct v].
  destruct (show_slice (A := A) h (Some (as_slice p))) as [[[|x [|]]|]|] eqn:Es;
    try (by apply show_slice_Some in Es as (? & ? & _ & _ & ?)); destruct v; cbn; split; congruence.
Qed.

#[global] Instance pointer_laws {A} {E : Elem A} {C : Copyable A} {L : CopyLaws A} : CopyLaws (pointer_to A).
Proof.
  split; cbn [show owned copy pointer_copyable].
  - intros h p v Hp%show_pointer_slice. by eapply slice_owned.
  - intros h h' p v Hp%show_pointer_slice Hag. destruct (slice_frame _ _ _ _ Hp Hag). split; [by apply show_pointer_slice|done].
  - intros h p v Hp%show_pointer_slice. pose proof (copy_slice_spec h _ _ Hp) as H. rewrite DeepCopy_slice in H. by destruct H.
  - intros h p v Hp%show_pointer_slice. pose proof (copy_slice_spec h _ _ Hp) as H. rewrite DeepCopy_slice in H.
    apply show_pointer_slice. by destruct H as (_ & ? & _).
  - intros h p v Hp%show_pointer_slice. pose proof (copy_slice_spec h _ _ Hp) as H. rewrite DeepCopy_slice in H.
    by destruct H as (_ & _ & ?).
Qed.

(** A struct has the contract when its [DeepCopyInto] copies its fields in order. *)
Lemma struct_laws {A P} {CP : Copyable P} {LP : CopyLaws P} (fields : A -> P) (into : A -> heap -> heap * A) :
  (forall a h, (into a h).1 = (copy (fields a) h).1 /\ fields (into a h).2 = (copy (fields a) h).2) ->
  @CopyLaws M A {| shown := shown (A := P); show := fun h a => show h (fields a); owned := fun h a => owned h (fields a); copy := into |}.
Proof.
  intros Hi. split; cbn [show owned copy shown].
  - intros h a v. exact (show_owned h (fields a) v).
  - intros h h' a v. exact (show_frame h h' (fields a) v).
  - intros h a v. destruct (Hi a h) as [-> _]. exact (copy_keeps h (fields a) v).
  - intros h a v. destruct (Hi a h) as [-> ->]. exact (copy_shows h (fields a) v).
  - intros h a v. destruct (Hi a h) as [-> ->]. exact (copy_fresh h (fields a) v).
Qed.
End field_laws.

(** ** The generated functions *)

Section generated.
Context {M : MetaTypes}.

#[global] Instance string_elem : Elem string := {|
  zero := "";
  wrap := Strings; unwrap := fun c => match c with Strings l => Some l | _ => None end; unwrap_wrap := fun l => eq_refl |}.
#[global] Instance bool_elem : Elem bool := {|
  zero := false;
  wrap := Bools; unwrap := fun c => match c with Bools l => Some l | _ => None end; unwrap_wrap := fun l => eq_refl |}.
#[global] Instance CapabilityRule_elem : Elem CapabilityRule := {|
  zero := {| APIGroups := None; Resources := None; Verbs := None |};
  wrap := CapabilityRules; unwrap := fun c => match c with CapabilityRules l => Some l | _ => None end; unwrap_wrap := fun l => eq_refl |}.
#[global] Instance ScopeSpec_elem : Elem ScopeSpec := {|
  zero := {| Namespaces := None; AllowClusterScopedRead := false; AllowClusterScopedWrite := false |};
  wrap := ScopeSpecs; unwrap := fun c => match c with ScopeSpecs l => Some l | _ => None end; unwrap_wrap := fun l => eq_refl |}.
#[global] Instance PolicySpec_elem : Elem PolicySpec := {|
  zero := {| Rules := None; SensitiveReads := "" |};
  wrap := PolicySpecs; unwrap := fun c => match c with PolicySpecs l => Some l | _ => None end; unwrap_wrap := fun l => eq_refl |}.
#[global] Instance TLSSpec_elem : Elem TLSSpec := {|
  zero := {| SecretName := "" |};
  wrap := TLSSpecs; unwrap := fun c => match c with TLSSpecs l => Some l | _ => None end; unwrap_wrap := fun l => eq_refl |}.
#[global] Instance LimitsSpec_elem : Elem LimitsSpec := {|
  zero := {| RequestTimeout := 0; StreamTimeout := 0; ExecTimeout := 0; MaxInputBytes := 0; MaxOutputBytes := 0; MaxListItems := 0;
             MaxConcurrent := 0; RequestsPerMinute := 0; Burst := 0 |};
  wrap := LimitsSpecs; unwrap := fun c => match c with LimitsSpecs l => Some l | _ => None end; unwrap_wrap := fun l => eq_refl |}.
#[global] Instance NetworkPolicySpec_elem : Elem NetworkPolicySpec := {|
  zero := {| Enabled := None; AllowedNamespaceSelector := None; AllowedPodSelector := None |};
  wrap := NetworkPolicySpecs; unwrap := fun c => match c with NetworkPolicySpecs l => Some l | _ => None end; unwrap_wrap := fun l => eq_refl |}.
#[global] Instance LabelSelector_elem : Elem LabelSelector := {|
  zero := zero_LabelSelector;
  wrap := LabelSelectors; unwrap := fun c => match c with LabelSelectors l => Some l | _ => None end; unwrap_wrap := fun l => eq_refl |}.
#[global] Instance Condition_elem : Elem Condition := {|
  zero := zero_Condition;
  wrap := ConditionsCell; unwrap := fun c => match c with ConditionsCell l => Some l | _ => None end; unwrap_wrap := fun l => eq_refl |}.
#[global] Instance KubernetesMCPServerSpec_elem : Elem KubernetesMCPServerSpec := {|
  zero := {| SpecResources := zero_ResourceRequirements; Mode := ""; Scope := zero; Policy := zero; TLS := zero; Limits := zero;
             NetworkPolicy := zero |};
  wrap := Specs; unwrap := fun c => match c with Specs l => Some l | _ => None end; unwrap_wrap := fun l => eq_refl |}.
#[global] Instance KubernetesMCPServerStatus_elem : Elem KubernetesMCPServerStatus := {|
  zero := {| ObservedGeneration := 0; Endpoint := ""; CAConfigMapName := ""; Conditions := None |};
  wrap := Statuses; unwrap := fun c => match c with Statuses l => Some l | _ => None end; unwrap_wrap := fun l => eq_refl |}.
#[global] Instance KubernetesMCPServer_elem : Elem KubernetesMCPServer := {|
  zero := {| srv_TypeMeta := {| Kind := ""; APIVersion := "" |}; srv_ObjectMeta := zero_ObjectMeta; Spec := zero; Status := zero |};
  wrap := Servers; unwrap := fun c => match c with Servers l => Some l | _ => None end; unwrap_wrap := fun l => eq_refl |}.
#[global] Instance KubernetesMCPServerList_elem : Elem KubernetesMCPServerList := {|
  zero := {| list_TypeMeta := {| Kind := ""; APIVersion := "" |}; list_ListMeta := zero_ListMeta; Items := None |};
  wrap := Lists; unwrap := fun c => match c with Lists l => Some l | _ => None end; unwrap_wrap := fun l => eq_refl |}.

#[global] Instance string_copyable : Copyable string := plain_copyable (A := string).
#[global] Instance string_laws : CopyLaws string := plain_laws (A := string).
#[global] Instance bool_copyable : Copyable bool := plain_copyable (A := bool).
#[global] Instance bool_laws : CopyLaws bool := plain_laws (A := bool).

(** The copy functions of apimachinery. *)
Class MetaCopies := {
  ObjectMeta_copyable : Copyable ObjectMeta; ListMeta_copyable : Copyable ListMeta;
  LabelSelector_copyable : Copyable LabelSelector; Condition_copyable : Copyable Condition;
  ResourceRequirements_copyable : Copyable ResourceRequirements
}.
#[global] Existing Instances ObjectMeta_copyable ListMeta_copyable LabelSelector_copyable Condition_copyable ResourceRequirements_copyable.
Context {MC : MetaCopies}.

Class MetaCopyLaws : Prop := {
  ObjectMeta_laws : CopyLaws ObjectMeta; ListMeta_laws : CopyLaws ListMeta; LabelSelector_laws : CopyLaws LabelSelector;
  Condition_laws : CopyLaws Condition; ResourceRequirements_laws : CopyLaws ResourceRequirements
}.
#[global] Existing Instances ObjectMeta_laws ListMeta_laws LabelSelector_laws Condition_laws ResourceRequirements_laws.

Definition CapabilityRule_DeepCopyInto (in_ : CapabilityRule) (h : heap) : heap * CapabilityRule :=
  let '(h, groups) := copy_slice (A := string) (APIGroups in_) h in
  let '(h, resources) := copy_slice (A := string) (Resources in_) h in
  let '(h, verbs) := copy_slice (A := string) (Verbs in_) h in
  (h, {| APIGroups := groups; Resources := resources; Verbs := verbs |}).
#[global] Instance CapabilityRule_copyable : Copyable CapabilityRule :=
  let fields r : slice_of string * slice_of string * slice_of string := (APIGroups r, Resources r, Verbs r) in
  {| shown := shown (A := slice_of string * slice_of string * slice_of string);
     show := fun h r => show h (fields r); owned := fun h r => owned h (fields r); copy := CapabilityRule_DeepCopyInto |}.

Definition ScopeSpec_DeepCopyInto (in_ : ScopeSpec) (h : heap) : heap * ScopeSpec :=
  let '(h, namespaces) := copy_slice (A := string) (Namespaces in_) h in
  (h, {| Namespaces := namespaces; AllowClusterScopedRead := AllowClusterScopedRead in_;
         AllowClusterScopedWrite := AllowClusterScopedWrite in_ |}).
#[global] Instance ScopeSpec_copyable : Copyable ScopeSpec :=
  let fields s : slice_of string * plain (bool * bool) := (Namespaces s, (AllowClusterScopedRead s, AllowClusterScopedWrite s)) in
  {| shown := shown (A := slice_of string * plain (bool * bool));
     show := fun h s => show h (fields s); owned := fun h s => owned h (fields s); copy := ScopeSpec_DeepCopyInto |}.

Definition PolicySpec_DeepCopyInto (in_ : PolicySpec) (h : heap) : heap * PolicySpec :=
  let '(h, rules) := copy_slice (A := CapabilityRule) (Rules in_) h in
  (h, {| Rules := rules; SensitiveReads := SensitiveReads in_ |}).
#[global] Instance PolicySpec_copyable : Copyable PolicySpec :=
  let fields s : slice_of CapabilityRule * plain string := (Rules s, SensitiveReads s) in
  {| shown := shown (A := slice_of CapabilityRule * plain string);
     show := fun h s => show h (fields s); owned := fun h s => owned h (fields s); copy := PolicySpec_DeepCopyInto |}.

Definition TLSSpec_DeepCopyInto (in_ : TLSSpec) (h : heap) : heap * TLSSpec := (h, in_).
#[global] Instance TLSSpec_copyable : Copyable TLSSpec :=
  {| shown := TLSSpec; show := fun _ s => Some s; owned := fun _ _ => ∅; copy := TLSSpec_DeepCopyInto |}.

Definition LimitsSpec_DeepCopyInto (in_ : LimitsSpec) (h : heap) : heap * LimitsSpec := (h, in_).
#[global] Instance LimitsSpec_copyable : Copyable LimitsSpec :=
  {| shown := LimitsSpec; show := fun _ s => Some s; owned := fun _ _ => ∅; copy := LimitsSpec_DeepCopyInto |}.

Definition NetworkPolicySpec_DeepCopyInto (in_ : NetworkPolicySpec) (h : heap) : heap * NetworkPolicySpec :=
  let '(h, enabled) := DeepCopy (A := bool) (Enabled in_) h in
  let '(h, namespaces) := DeepCopy (A := LabelSelector) (AllowedNamespaceSelector in_) h in
  let '(h, pods) := DeepCopy (A := LabelSelector) (AllowedPodSelector in_) h in
  (h, {| Enabled := enabled; AllowedNamespaceSelector := namespaces; AllowedPodSelector := pods |}).
#[global] Instance NetworkPolicySpec_copyable : Copyable NetworkPolicySpec :=
  let fields s : pointer_to bool * pointer_to LabelSelector * pointer_to LabelSelector :=
    (Enabled s, AllowedNamespaceSelector s, AllowedPodSelector s) in
  {| shown := shown (A := pointer_to bool * pointer_to LabelSelector * pointer_to LabelSelector);
     show := fun h s => show h (fields s); owned := fun h s => owned h (fields s); copy := NetworkPolicySpec_DeepCopyInto |}.

Definition KubernetesMCPServerSpec_DeepCopyInto (in_ : KubernetesMCPServerSpec) (h : heap) : heap * KubernetesMCPServerSpec :=
  let '(h, resources) := copy (SpecResources in_) h in
  let '(h, scope) := ScopeSpec_DeepCopyInto (Scope in_) h in
  let '(h, policy) := PolicySpec_DeepCopyInto (Policy in_) h in
  let '(h, network) := NetworkPolicySpec_DeepCopyInto (NetworkPolicy in_) h in
  (h, {| SpecResources := resources; Mode := Mode in_; Scope := scope; Policy := policy; TLS := TLS in_; Limits := Limits in_;
         NetworkPolicy := network |}).
Definition spec_fields (s : KubernetesMCPServerSpec)
    : ResourceRequirements * ScopeSpec * PolicySpec * NetworkPolicySpec * plain (string * TLSSpec * LimitsSpec) :=
  (SpecResources s, Scope s, Policy s, NetworkPolicy s, (Mode s, TLS s, Limits s)).
#[global] Instance KubernetesMCPServerSpec_copyable : Copyable KubernetesMCPServerSpec :=
  {| shown := shown (A := ResourceRequirements * ScopeSpec * PolicySpec * NetworkPolicySpec * plain (string * TLSSpec * LimitsSpec));
     show := fun h s => show h (spec_fields s); owned := fun h s => owned h (spec_fields s);
     copy := KubernetesMCPServerSpec_DeepCopyInto |}.

Definition KubernetesMCPServerStatus_DeepCopyInto (in_ : KubernetesMCPServerStatus) (h : heap) : heap * KubernetesMCPServerStatus :=
  let '(h, conditions) := copy_slice (A := Condition) (Conditions in_) h in
  (h, {| ObservedGeneration := ObservedGeneration in_; Endpoint := Endpoint in_; CAConfigMapName := CAConfigMapName in_;
         Conditions := conditions |}).
#[global] Instance KubernetesMCPServerStatus_copyable : Copyable KubernetesMCPServerStatus :=
  let fields s : slice_of Condition * plain (Z * string * string) :=
    (Conditions s, (ObservedGeneration s, Endpoint s, CAConfigMapName s)) in
  {| shown := shown (A := slice_of Condition * plain (Z * string * string));
     show := fun h s => show h (fields s); owned := fun h s => owned h (fields s); copy := KubernetesMCPServerStatus_DeepCopyInto |}.

Definition KubernetesMCPServer_DeepCopyInto (in_ : KubernetesMCPServer) (h : heap) : heap * KubernetesMCPServer :=
  let '(h, meta) := copy (srv_ObjectMeta in_) h in
  let '(h, spec) := KubernetesMCPServerSpec_DeepCopyInto (Spec in_) h in
  let '(h, status) := KubernetesMCPServerStatus_DeepCopyInto (Status in_) h in
  (h, {| srv_TypeMeta := srv_TypeMeta in_; srv_ObjectMeta := meta; Spec := spec; Status := status |}).
Definition server_fields (s : KubernetesMCPServer)
    : ObjectMeta * KubernetesMCPServerSpec * KubernetesMCPServerStatus * plain TypeMeta :=
  (srv_ObjectMeta s, Spec s, Status s, srv_TypeMeta s).
#[global] Instance KubernetesMCPServer_copyable : Copyable KubernetesMCPServer :=
  {| shown := shown (A := ObjectMeta * KubernetesMCPServerSpec * KubernetesMCPServerStatus * plain TypeMeta);
     show := fun h s => show h (server_fields s); owned := fun h s => owned h (server_fields s);
     copy := KubernetesMCPServer_DeepCopyInto |}.

Definition KubernetesMCPServerList_DeepCopyInto (in_ : KubernetesMCPServerList) (h : heap) : heap * KubernetesMCPServerList :=
  let '(h, meta) := copy (list_ListMeta in_) h in
  let '(h, items) := copy_slice (A := KubernetesMCPServer) (Items in_) h in
  (h, {| list_TypeMeta := list_TypeMeta in_; list_ListMeta := meta; Items := items |}).
#[global] Instance KubernetesMCPServerList_copyable : Copyable KubernetesMCPServerList :=
  let fields s : ListMeta * slice_of KubernetesMCPServer * plain TypeMeta := (list_ListMeta s, Items s, list_TypeMeta s) in
  {| shown := shown (A := ListMeta * slice_of KubernetesMCPServer * plain TypeMeta);
     show := fun h s => show h (fields s); owned := fun h s => owned h (fields s); copy := KubernetesMCPServerList_DeepCopyInto |}.

Definition CapabilityRule_DeepCopy : option pointer -> heap -> heap * option pointer := DeepCopy (A := CapabilityRule).
Definition KubernetesMCPServer_DeepCopy : option pointer -> heap -> heap * option pointer := DeepCopy (A := KubernetesMCPServer).
Definition KubernetesMCPServerList_DeepCopy : option pointer -> heap -> heap * option pointer := DeepCopy (A := KubernetesMCPServerList).
Definition KubernetesMCPServerSpec_DeepCopy : option pointer -> heap -> heap * option pointer := DeepCopy (A := KubernetesMCPServerSpec).
Definition KubernetesMCPServerStatus_DeepCopy : option pointer -> heap -> heap * option pointer := DeepCopy (A := KubernetesMCPServerStatus).
Definition LimitsSpec_DeepCopy : option pointer -> heap -> heap * option pointer := DeepCopy (A := LimitsSpec).
Definition NetworkPolicySpec_DeepCopy : option pointer -> heap -> heap * option pointer := DeepCopy (A := NetworkPolicySpec).
Definition PolicySpec_DeepCopy : option pointer -> heap -> heap * option pointer := DeepCopy (A := PolicySpec).
Definition ScopeSpec_DeepCopy : option pointer -> heap -> heap * option pointer := DeepCopy (A := ScopeSpec).
Definition TLSSpec_DeepCopy : option pointer -> heap -> heap * option pointer := DeepCopy (A := TLSSpec).

(** [runtime.Object]: an interface that is nil, or holds the pointer. *)
Definition KubernetesMCPServer_DeepCopyObject (in_ : option pointer) (h : heap) : heap * option pointer :=
  match KubernetesMCPServer_DeepCopy in_ h with
  | (h, Some c) => (h, Some c)
  | (h, None) => (h, None)
  end.
Definition KubernetesMCPServerList_DeepCopyObject (in_ : option pointer) (h : heap) : heap * option pointer :=
  match KubernetesMCPServerList_DeepCopy in_ h with
  | (h, Some c) => (h, Some c)
  | (h, None) => (h, None)
  end.

(** Every struct of the resource keeps the contract. *)
Ltac struct_contract into :=
  apply struct_laws; intros [] ?; unfold into;
  cbn -[copy_slice DeepCopy ScopeSpec_DeepCopyInto PolicySpec_DeepCopyInto NetworkPolicySpec_DeepCopyInto
        KubernetesMCPServerSpec_DeepCopyInto KubernetesMCPServerStatus_DeepCopyInto KubernetesMCPServer_DeepCopyInto];
  repeat match goal with |- context [let '(_, _) := ?c in _] => destruct c end; done.

#[global] Instance TLSSpec_laws : CopyLaws TLSSpec.
Proof. apply (plain_laws (A := TLSSpec)). Qed.
#[global] Instance LimitsSpec_laws : CopyLaws LimitsSpec.
Proof. apply (plain_laws (A := LimitsSpec)). Qed.
#[global] Instance CapabilityRule_laws : CopyLaws CapabilityRule.
Proof. struct_contract CapabilityRule_DeepCopyInto. Qed.
#[global] Instance ScopeSpec_laws : CopyLaws ScopeSpec.
Proof. struct_contract ScopeSpec_DeepCopyInto. Qed.
#[global] Instance PolicySpec_laws : CopyLaws PolicySpec.
Proof. struct_contract PolicySpec_DeepCopyInto. Qed.

Context {L : MetaCopyLaws}.
#[global] Instance NetworkPolicySpec_laws : CopyLaws NetworkPolicySpec.
Proof. struct_contract NetworkPolicySpec_DeepCopyInto. Qed.
#[global] Instance KubernetesMCPServerSpec_laws : CopyLaws KubernetesMCPServerSpec.
Proof. struct_contract KubernetesMCPServerSpec_DeepCopyInto. Qed.
#[global] Instance KubernetesMCPServerStatus_laws : CopyLaws KubernetesMCPServerStatus.
Proof. struct_contract KubernetesMCPServerStatus_DeepCopyInto. Qed.
#[global] Instance KubernetesMCPServer_laws : CopyLaws KubernetesMCPServer.
Proof. struct_contract KubernetesMCPServer_DeepCopyInto. Qed.
#[global] Instance KubernetesMCPServerList_laws : CopyLaws KubernetesMCPServerList.
Proof. struct_contract KubernetesMCPServerList_DeepCopyInto. Qed.
End generated.

(** ** Properties *)

Section properties.
Context {M : MetaTypes} {MC : MetaCopies}.

Lemma copy_separate {A} {C : Copyable A} {L : CopyLaws A} (a : A) h v :
  show h a = Some v ->
  let '(h', a') := copy a h in
  show h' a' = Some v /\ owned h' a' ## dom h /\ owned h' a' ⊆ dom h' /\
  (forall h'', agrees_on (dom h) h h'' -> show h'' a = Some v) /\
  (forall h'', agrees_on (owned h' a') h' h'' -> show h'' a' = Some v) /\ agrees_on (dom h) h h'.
Proof.
  intros Hv. pose proof (copy_keeps h a v Hv) as Hk. pose proof (copy_shows h a v Hv) as Hs. pose proof (copy_fresh h a v Hv) as Hf.
  destruct (copy a h) as [h' a']. cbn [fst snd] in *. split_and!; [done|done|by eapply show_owned| | |done].
  - intros h'' Hag. destruct (show_frame h h'' a v Hv) as [? _]; [|done]. eapply agrees_weaken; [by eapply show_owned|done].
  - intros h'' Hag. by destruct (show_frame h' h'' a' v Hs Hag).
Qed.

(** What the holders of an original and of its copy may rely on: the copy has the
    value of the original; it reaches only memory that did not exist before, all of it
    allocated; nothing that existed was written to; whatever is later done to the copy and
    to other new memory, the original keeps its value; and whatever is done to
    memory outside the copy, the copy keeps its own. *)
Definition separate {A} {C : Copyable A} (p : A) (h : heap) (after : heap * A) (v : shown) : Prop :=
  let '(h', q) := after in
  show h' q = Some v /\ owned h' q ## dom h /\ owned h' q ⊆ dom h' /\
  (forall h'', agrees_on (dom h) h h'' -> show h'' p = Some v) /\
  (forall h'', agrees_on (owned h' q) h' h'' -> show h'' q = Some v) /\ agrees_on (dom h) h h'.

(** C25: Deep copies are deep: [DeepCopy] of a server or of a list of servers, with all
    that hangs off them (nil and empty slices told apart, slices of parts of
    arrays, pointers to elements), is a separate copy; a nil pointer is copied to a
    nil pointer and nothing else is; and [DeepCopyObject] returns the same. *)
Theorem deep_copies_are_separate {L : MetaCopyLaws} (p : option pointer) (h : heap) :
  (forall v, show h (p : pointer_to KubernetesMCPServer) = Some v ->
     separate (A := pointer_to KubernetesMCPServer) p h (KubernetesMCPServer_DeepCopy p h) v) /\
  (forall v, show h (p : pointer_to KubernetesMCPServerList) = Some v ->
     separate (A := pointer_to KubernetesMCPServerList) p h (KubernetesMCPServerList_DeepCopy p h) v) /\
  ((KubernetesMCPServer_DeepCopy p h).2 = None <-> p = None) /\ ((KubernetesMCPServerList_DeepCopy p h).2 = None <-> p = None) /\
  KubernetesMCPServer_DeepCopyObject p h = KubernetesMCPServer_DeepCopy p h /\
  KubernetesMCPServerList_DeepCopyObject p h = KubernetesMCPServerList_DeepCopy p h.
Proof.
  split_and!.
  - intros v Hv. exact (copy_separate (A := pointer_to KubernetesMCPServer) p h v Hv).
  - intros v Hv. exact (copy_separate (A := pointer_to KubernetesMCPServerList) p h v Hv).
  - destruct p; [|done]. unfold KubernetesMCPServer_DeepCopy, DeepCopy. destruct (make _ _), (copy _ _). done.
  - destruct p; [|done]. unfold KubernetesMCPServerList_DeepCopy, DeepCopy. destruct (make _ _), (copy _ _). done.
  - unfold KubernetesMCPServer_DeepCopyObject. by destruct (KubernetesMCPServer_DeepCopy p h) as [h' [|]].
  - unfold KubernetesMCPServerList_DeepCopyObject. by destruct (KubernetesMCPServerList_DeepCopy p h) as [h' [|]].
Qed.
End properties.

(** ** Witnesses *)

Module DeepCopyWitness.

(** Metadata with a map of labels in memory; the other structs are plain. *)
#[export] Instance demo_types : MetaTypes := {|
  ObjectMeta := option loc; ListMeta := string; LabelSelector := list (string * string); Condition := string * string;
  ResourceRequirements := list (string * Z); meta_cell := list (string * string);
  zero_ObjectMeta := None; zero_ListMeta := ""; zero_LabelSelector := []; zero_Condition := ("", "");
  zero_ResourceRequirements := [] |}.

Definition labels_at (h : heap) (l : loc) : option (list (string * string)) :=
  match h !! l with Some (MetaCell c) => Some c | _ => None end.
Definition meta_copy : Copyable ObjectMeta := {|
  shown := option (list (string * string));
  show := fun h (m : option loc) => match m with None => Some None | Some l => Some <$> labels_at h l end;
  owned := fun _ (m : option loc) => match m with None => ∅ | Some l => {[l]} end;
  copy := fun (m : option loc) h =>
    match m with
    | None => (h, None)
    | Some l => let out := fresh (dom h) in (<[out := MetaCell (default [] (labels_at h l))]> h, Some out)
    end |}.
#[export] Instance demo_copies : MetaCopies := {|
  ObjectMeta_copyable := meta_copy; ListMeta_copyable := plain_copyable (A := string);
  LabelSelector_copyable := plain_copyable (A := list (string * string));
  Condition_copyable := plain_copyable (A := string * string);
  ResourceRequirements_copyable := plain_copyable (A := list (string * Z)) |}.

Lemma meta_laws : @CopyLaws demo_types ObjectMeta meta_copy.
Proof.
  split; cbn.
  - intros h [l|] v; [|set_solver]. unfold labels_at. destruct (h !! l) eqn:E; [|done]. intros _. apply elem_of_dom_2 in E. set_solver.
  - intros h h' [l|] v; [|done]. unfold labels_at. intros Hh Hag. rewrite Hag by set_solver. done.
  - intros h [l|] v _; [|apply agrees_refl]. apply agrees_insert, is_fresh.
  - intros h [l|] v; [|done]. destruct (labels_at h l) as [c|] eqn:E; cbn; [|done]. unfold labels_at. by rewrite lookup_insert_eq.
  - intros h [l|] v _; [|set_solver]. pose proof (is_fresh (dom h)). set_solver.
Qed.
#[export] Instance demo_copy_laws : MetaCopyLaws.
Proof. split; [exact meta_laws|apply plain_laws..]. Qed.

(** A server with labels, one namespace (the second of an array), a rule and an
    enabled network policy. *)
Definition demo_server : KubernetesMCPServer := {|
  srv_TypeMeta := {| Kind := "KubernetesMCPServer"; APIVersion := "mcp.supek8smcp.io/v1alpha1" |};
  srv_ObjectMeta := Some 1;
  Spec := {| SpecResources := []; Mode := "SafeWrite";
    Scope := {| Namespaces := Some {| sl_base := 2; sl_off := 1; sl_len := 1 |}; AllowClusterScopedRead := true; AllowClusterScopedWrite := false |};
    Policy := {| Rules := Some {| sl_base := 3; sl_off := 0; sl_len := 1 |}; SensitiveReads := "" |};
    TLS := zero; Limits := zero;
    NetworkPolicy := {| Enabled := Some {| pt_base := 4; pt_index := 0 |}; AllowedNamespaceSelector := None; AllowedPodSelector := None |} |};
  Status := zero |}.
Definition demo_heap : heap :=
  <[0 := Servers [demo_server]]> (<[1 := MetaCell [("team", "a")]]> (<[2 := Strings ["dev"; "prod"; "test"]]>
  (<[3 := CapabilityRules [{| APIGroups := Some {| sl_base := 2; sl_off := 0; sl_len := 0 |};
                              Resources := Some {| sl_base := 2; sl_off := 0; sl_len := 2 |}; Verbs := None |}]]>
  (<[4 := Bools [true]]> ∅)))).
Definition demo_pointer : option pointer := Some {| pt_base := 0; pt_index := 0 |}.
Definition demo_shown : shown (A := pointer_to KubernetesMCPServer) :=
  Some (Some [("team", "a")],
        ([] : list (string * Z), (Some ["prod"], (true, false)), (Some [(Some [], Some ["dev"; "prod"], None)], ""),
         (Some true, None, None), ("SafeWrite", zero, zero)),
        (None, (0%Z, "", "")), {| Kind := "KubernetesMCPServer"; APIVersion := "mcp.supek8smcp.io/v1alpha1" |}).

Lemma demo_shows : show demo_heap (demo_pointer : pointer_to KubernetesMCPServer) = Some demo_shown.
Proof. reflexivity. Qed.

Lemma deep_copies_are_separate_witness :
  separate (A := pointer_to KubernetesMCPServer) demo_pointer demo_heap (KubernetesMCPServer_DeepCopy demo_pointer demo_heap) demo_shown.
Proof. exact (proj1 (deep_copies_are_separate demo_pointer demo_heap) demo_shown demo_shows). Defined.

(** The copy fills seven new arrays. *)
Example demo_copy_allocates :
  size (KubernetesMCPServer_DeepCopy demo_pointer demo_heap).1 = 12.
Proof. vm_compute. reflexivity. Qed.
End DeepCopyWitness.
