(* ===== verification/Trace.v ===== *)
(** * Traces of requests

    The server and the operator are clients: what they do is a sequence of
    requests.  [K] is the monad of such sequences, for any type of
    requests [call], indexed by the type of the answer, and any type
    [principal] of those who send them: an environment answers each request,
    knowing all earlier ones, and the answered requests form a trace.
    Nothing is assumed about the environment, so a theorem over all
    environments covers concurrent changes, failures and cancellation. *)

From S2P Require Import Prelude.

Section trace.
Context {principal : Type} {call : Type -> Type}.

(** An answered request and who sent it. *)
Record event := Ev {
  ev_principal : principal;
  ev_type : Type;
  ev_call : call ev_type;
  ev_answer : ev_type
}.
#[local] Arguments Ev _ {_} _ _.

Definition env : Type := forall A, list event -> principal -> call A -> A.

(** ** The monad *)

Definition K (A : Type) : Type := env -> list event -> A * list event.

Definition kret {A} (a : A) : K A := fun _ h => (a, h).
Definition kbind {A B} (m : K A) (k : A -> K B) : K B :=
  fun w h => let '(a, h') := m w h in k a w h'.
Definition request {A} (p : principal) (c : call A) : K A :=
  fun w h => let a := w A h p c in (a, h ++ [Ev p c a]).

(** ** Reasoning about traces *)

(** [m] satisfies [Q]: in every environment and after every history, [m] only
    appends to the trace, and its result with the appended events is in [Q]. *)
Definition satisfies {A} (m : K A) (Q : A -> list event -> Prop) : Prop :=
  forall w h, exists es, snd (m w h) = h ++ es /\ Q (fst (m w h)) es.

Lemma satisfies_ret {A} (a : A) (Q : A -> list event -> Prop) : Q a [] -> satisfies (kret a) Q.
Proof. intros HQ w h. exists []. by rewrite app_nil_r. Qed.

Lemma satisfies_weaken {A} (m : K A) (P Q : A -> list event -> Prop) :
  satisfies m P -> (forall a es, P a es -> Q a es) -> satisfies m Q.
Proof. intros Hm HPQ w h. destruct (Hm w h) as (es & ? & ?). eauto. Qed.

Lemma satisfies_bind {A B} (m : K A) (k : A -> K B) (P : A -> list event -> Prop) (Q : B -> list event -> Prop) :
  satisfies m P ->
  (forall a es, P a es -> satisfies (k a) (fun b es' => Q b (es ++ es'))) ->
  satisfies (kbind m k) Q.
Proof.
  intros Hm Hk w h. unfold kbind. destruct (Hm w h) as (es & Hes & HP).
  destruct (m w h) as [a h'] eqn:E; cbn in *. subst h'.
  destruct (Hk a es HP w (h ++ es)) as (es' & Hes' & HQ).
  exists (es ++ es'). by rewrite app_assoc.
Qed.

Lemma satisfies_request {A} p (c : call A) (Q : A -> list event -> Prop) :
  (forall a, Q a [Ev p c a]) -> satisfies (request p c) Q.
Proof. intros HQ w h. unfold request; cbn. eauto. Qed.

(** A request first: its event heads the trace of the rest. *)
Lemma satisfies_request_bind {A B} p (c : call A) (k : A -> K B) (Q : B -> list event -> Prop) :
  (forall a, satisfies (k a) (fun b es => Q b (Ev p c a :: es))) -> satisfies (kbind (request p c) k) Q.
Proof.
  intros Hk. eapply satisfies_bind; [by apply (satisfies_request p c (fun a es => es = [Ev p c a]))|].
  intros a es ->. apply Hk.
Qed.

(** Every event of [m] satisfies [P]. *)
Definition emits {A} (P : event -> Prop) (m : K A) : Prop :=
  satisfies m (fun _ es => Forall P es).

Lemma emits_ret {A} P (a : A) : emits P (kret a).
Proof. by apply satisfies_ret. Qed.

Lemma emits_bind {A B} P (m : K A) (k : A -> K B) :
  emits P m -> (forall a, emits P (k a)) -> emits P (kbind m k).
Proof.
  intros Hm Hk. eapply satisfies_bind; [exact Hm|]. intros a es Hes.
  eapply satisfies_weaken; [apply Hk|]. intros b es' Hes'. by apply Forall_app.
Qed.

Lemma emits_request {A} (P : event -> Prop) p (c : call A) :
  (forall a, P (Ev p c a)) -> emits P (request p c).
Proof. intros H. apply satisfies_request. by repeat constructor. Qed.

Lemma emits_weaken {A} (P Q : event -> Prop) (m : K A) :
  (forall e, P e -> Q e) -> emits P m -> emits Q m.
Proof.
  intros HPQ Hm. eapply satisfies_weaken; [exact Hm|]. intros a es H.
  by eapply Forall_impl; [exact H|].
Qed.

(** Two requirements on the events of one computation hold together. *)
Lemma emits_and {A} (P Q : event -> Prop) (m : K A) :
  emits P m -> emits Q m -> emits (fun e => P e /\ Q e) m.
Proof.
  intros HP HQ w h. destruct (HP w h) as (es & E1 & H1), (HQ w h) as (es' & E2 & H2).
  rewrite E1 in E2. apply app_inv_head in E2 as <-. exists es.
  split; [done|]. apply Forall_and; done.
Qed.

(** ** Reasoning with the history

    [runs P pre m R]: after the events [pre], every event [m] adds satisfies [P],
    which may look at all events before it, and the result and all events
    at the end satisfy [R]. *)
Definition each_after (P : list event -> event -> Prop) (pre es : list event) : Prop :=
  forall a e b, es = a ++ e :: b -> P (pre ++ a) e.

Definition runs {A} (P : list event -> event -> Prop) (pre : list event) (m : K A) (R : A -> list event -> Prop) : Prop :=
  forall w h, exists es, snd (m w h) = h ++ es /\ each_after P pre es /\ R (fst (m w h)) (pre ++ es).

Lemma each_after_app P pre es es' :
  each_after P pre es -> each_after P (pre ++ es) es' -> each_after P pre (es ++ es').
Proof.
  intros H H' a e b Hab. apply app_eq_app in Hab as (l & [[Ha Hb]|[Ha Hb]]).
  - destruct l as [|x l]; cbn in Hb.
    + rewrite app_nil_r in Ha. subst es. specialize (H' [] e b (eq_sym Hb)). by rewrite app_nil_r in H'.
    + injection Hb as <- ->. by apply (H a e l).
  - subst a. rewrite app_assoc. by apply (H' l e b).
Qed.

Lemma runs_ret {A} P pre (a : A) R : R a pre -> runs P pre (kret a) R.
Proof.
  intros HR w h. exists []. rewrite !app_nil_r. split_and!; [done| |done]. intros x e y Hx. by destruct x.
Qed.

Lemma runs_weaken {A} P pre (m : K A) R R' :
  runs P pre m R -> (forall a pre', R a pre' -> R' a pre') -> runs P pre m R'.
Proof. intros Hm HR w h. destruct (Hm w h) as (es & ? & ? & ?). exists es. auto. Qed.

Lemma runs_bind {A B} P pre (m : K A) (k : A -> K B) R1 R :
  runs P pre m R1 -> (forall a pre', R1 a pre' -> runs P pre' (k a) R) -> runs P pre (kbind m k) R.
Proof.
  intros Hm Hk w h. unfold kbind. destruct (Hm w h) as (es & Hes & HP & HR).
  destruct (m w h) as [a h'] eqn:E; cbn in *. subst h'.
  destruct (Hk a _ HR w (h ++ es)) as (es' & Hes' & HP' & HR').
  exists (es ++ es'). rewrite Hes', !app_assoc in *. split_and!; [done|by apply each_after_app|done].
Qed.

Lemma runs_satisfies {A} P pre (m : K A) R (Q : A -> list event -> Prop) :
  runs P pre m R -> satisfies m Q -> runs P pre m (fun a pre' => R a pre' /\ exists es, pre' = pre ++ es /\ Q a es).
Proof.
  intros Hm HQ w h. destruct (Hm w h) as (es & E & ? & ?), (HQ w h) as (es' & E' & ?). rewrite E in E'. apply app_inv_head in E' as <-.
  exists es. split_and!; [done..|by exists es].
Qed.

Lemma runs_request {A B} (P : list event -> event -> Prop) pre p (c : call A) (k : A -> K B) R :
  (forall a, P pre (Ev p c a)) -> (forall a, runs P (pre ++ [Ev p c a]) (k a) R) -> runs P pre (kbind (request p c) k) R.
Proof.
  intros HP Hk. apply (runs_bind P pre _ _ (fun a pre' => pre' = pre ++ [Ev p c a])); [|by intros a ? ->].
  intros w h. exists [Ev p c (w A h p c)]. split_and!; [done| |done].
  intros x e y Hx. destruct x as [|? [|]]; [|done..]. injection Hx as <- _. by rewrite app_nil_r.
Qed.

(** The same run, seen from two predicates. *)
Lemma runs_mono {A} (P P' : list event -> event -> Prop) pre (m : K A) R :
  (forall a e, P a e -> P' a e) -> runs P pre m R -> runs P' pre m R.
Proof. intros HP Hm w h. destruct (Hm w h) as (es & ? & He & ?). exists es. split_and!; [done| |done]. intros x e y Hx. eauto. Qed.
End trace.
Arguments event : clear implicits.
Arguments env : clear implicits.
Arguments K : clear implicits.
Arguments Ev {principal call} _ {_} _ _.

Declare Scope kube_scope.
Delimit Scope kube_scope with kube.

(** [let! x := m in k] runs [m]; [let? x := m in k] also returns early with
    the error of [m].  [ok? x := r in k] and [guard? r in k] do the same for a
    pure result [r]. *)
Notation "'let!' x ':=' m 'in' k" := (kbind m (fun x => k))
  (at level 10, x pattern, m at level 100, k at level 200) : kube_scope.
Notation "'let?' x ':=' m 'in' k" :=
  (kbind m (fun r => match r with Ok x => k | Err e => kret (Err e) end))
  (at level 10, x pattern, m at level 100, k at level 200) : kube_scope.
Notation "'guard?' r 'in' k" :=
  (match r with Ok _ => k | Err e => kret (Err e) end)
  (at level 10, r at level 100, k at level 200) : kube_scope.

Notation "'ok?' x ':=' r 'in' k" :=
  (match r with Ok x => k | Err e => kret (Err e) end)
  (at level 10, x pattern, r at level 100, k at level 200) : kube_scope.

(** ** Automation *)

(** Case analysis through a handler, keeping what each request was answered. *)
Ltac satisfies_step :=
  lazymatch goal with
  | |- satisfies (kret _) _ => apply satisfies_ret
  | |- satisfies (kbind (request _ _) _) _ => apply satisfies_request_bind; intros ?
  | |- satisfies (match ?x with _ => _ end) _ => destruct x eqn:?
  end.

Create HintDb kube.
#[export] Hint Resolve emits_ret emits_request : kube.

(** Case analysis through a handler, one request or branch at a time. *)
Ltac emits_step :=
  lazymatch goal with
  | |- emits _ (kret _) => apply emits_ret
  | |- emits _ (kbind _ _) => apply emits_bind; [|intros ?]
  | |- emits _ (request _ _) => apply emits_request; intros ?
  | |- emits _ (match ?x with _ => _ end) => destruct x
  | |- emits _ (let '_ := ?x in _) => destruct x
  end.
