(* ===== verification/Kube.v ===== *)
(** * Calls to the Kubernetes API

    A tool call of the server is a sequence of requests to the API server,
    made with the credential of the caller: a computation in the monad of
    Trace.v over the requests [call].

    [UnstructuredLib] is the accessor interface of apimachinery's
    [unstructured.Unstructured]. *)

From Stdlib Require Import String.
From S2P Require Import Prelude GoStrings Json Errors Trace.
Export Trace.

(** [schema.GroupVersionResource]. *)
Record GVR := { Group : string; Version : string; Resource : string }.
#[global] Instance GVR_eq_dec : EqDecision GVR.
Proof. solve_decision. Defined.

(** The identity a TokenReview returned, with the token it was asked about.
    The delegated clients of a [Principal] are built from [Token]. *)
Record Principal := {
  Username : string;
  P_UID : string;
  Groups : list string;
  Extra : list (string * list string);
  Token : string
}.

(** ** Requests *)

(** [authorizationv1.ResourceAttributes]. *)
Record ResourceAttributes := {
  ra_Group : string; ra_Version : string; ra_Resource : string; ra_Subresource : string;
  ra_Verb : string; ra_Namespace : string; ra_Name : string
}.
#[global] Instance ResourceAttributes_eq_dec : EqDecision ResourceAttributes.
Proof. solve_decision. Defined.

(** [SubjectAccessReviewStatus]. *)
Record review_status := {
  Allowed : bool;
  EvaluationError : string;
  ReviewReason : string
}.

(** [dynamicResource]: a resource, in a namespace when it is namespaced. *)
Record target := { t_gvr : GVR; t_namespace : option string }.

Inductive patch_type := MergePatchType | JSONPatchType | ApplyPatchType.

Record delete_options := {
  do_DryRun : bool;
  do_GracePeriod : option Z;
  do_UID : string;
  do_ResourceVersion : string
}.

Record list_options := {
  lo_LabelSelector : string; lo_FieldSelector : string; lo_Limit : Z; lo_Continue : string
}.

(** The part of a Pod that [resolveContainer] and [rejectOperatorManaged] read. *)
Record pod := {
  pod_UID : string;
  pod_ResourceVersion : string;
  pod_Labels : list (string * string);
  pod_Annotations : list (string * string);
  pod_Containers : list string
}.

(** A remote command and what came of it: the two outputs as written, and the
    error of the stream with its exit status if it has one. *)
Record stream_request := {
  sr_verb : string; sr_namespace : string; sr_pod : string; sr_container : string;
  sr_command : list string; sr_stdin : string
}.
Record stream_outcome := {
  so_stdout : list string;
  so_stderr : list string;
  so_error : option (go_error * option Z)
}.

(** [metav1.ListOptions] of a watch; bookmarks are always allowed. *)
Record watch_options := { wo_LabelSelector : string; wo_FieldSelector : string; wo_ResourceVersion : string }.

(** One turn of the select statement of a watch: the context is done, the
    channel was closed, or an event came, with its object converted to a map
    or the error of the conversion. *)
Inductive watch_next :=
| StreamDone (err : go_error)
| ChannelClosed
| WatchEvent (type : string) (obj : result go_error object).

(** [corev1.PodLogOptions], and what the opened stream delivers: its bytes
    and the error that ends it, [None] for [io.EOF]. *)
Record log_options := {
  lg_Container : string; lg_Follow : bool; lg_TailLines : option Z; lg_SinceSeconds : option Z
}.
Record log_stream := { ls_data : string; ls_end : option go_error }.

(** Discovery: [metav1.APIGroup], [metav1.APIResourceList] and [metav1.APIResource]
    as far as they are read. *)
Record APIGroup := { ag_Name : string; ag_PreferredGroupVersion : string; ag_PreferredVersion : string }.
Record APIResource := {
  ar_Name : string; ar_Kind : string; ar_Namespaced : bool; ar_Verbs : list string; ar_Categories : list string
}.
Record APIResourceList := { GroupVersion : string; APIResources : list APIResource }.
(** Groups and lists may be nil, and lists may come with an error. *)
Record discovery := {
  dc_groups : list (option APIGroup); dc_lists : list (option APIResourceList); dc_error : option go_error
}.

(** Requests, indexed by the type of their answer.  [CtxErr] asks whether the
    context of the call is done; [Now] reads the clock.  The caller may ask for
    progress with a token, and is then sent notifications. *)
Inductive call : Type -> Type :=
| CtxErr : call (option go_error)
| Now : call Z
| Review (attrs : ResourceAttributes) : call (result go_error review_status)
| Get (t : target) (name : string) (subresources : list string) : call (result go_error object)
| List_ (t : target) (opts : list_options) : call (result go_error object)
| Create (t : target) (obj : object) (dryRun : bool) : call (result go_error object)
| Patch (t : target) (name : string) (pt : patch_type) (data : string) (dryRun : bool)
    (force : option bool) (subresources : list string) : call (result go_error object)
| Update (t : target) (obj : object) (dryRun : bool) : call (result go_error object)
| Delete (t : target) (name : string) (opts : delete_options) : call (result go_error unit)
| GetPod (namespace name : string) : call (result go_error pod)
| Stream (r : stream_request) : call (result go_error stream_outcome)
| Watch (t : target) (opts : watch_options) : call (result go_error unit)
| NextEvent : call watch_next
| Logs (namespace name : string) (opts : log_options) : call (result go_error log_stream)
| Discover : call (result go_error discovery)
| OpenAPI (group version : string) : call (result go_error object)
| ProgressToken : call (option string)
| NotifyProgress (token : string) (progress : Z) (message : string) : call unit.

Abbreviation event := (Trace.event Principal call).
Abbreviation env := (Trace.env Principal call).
Abbreviation K := (Trace.K Principal call).

(** ** Which requests change the cluster *)

(** A request that can persist a change or act on a running container. *)
Definition persists {A} (c : call A) : bool :=
  match c with
  | Create _ _ dryRun => negb dryRun
  | Patch _ _ _ _ dryRun _ _ => negb dryRun
  | Update _ _ dryRun => negb dryRun
  | Delete _ _ opts => negb (do_DryRun opts)
  | Stream _ => true
  | _ => false
  end.

Definition ev_persists (e : event) : bool := persists (ev_call e).

(** ** [unstructured.Unstructured] *)

Class UnstructuredLib := {
  u_GetName : object -> string;
  u_GetLabels : object -> list (string * string);
  u_GetUID : object -> string;
  u_GetResourceVersion : object -> string;
  u_GetAPIVersion : object -> string;
  u_GetKind : object -> string;
  u_SetName : object -> string -> object;
  u_SetNamespace : object -> string -> object;
  u_SetResourceVersion : object -> string -> object;
  u_SetGroupVersionKind : object -> GVR -> string -> object;
  u_NestedString : object -> list string -> string
}.

(** What the handlers rely on: [SetName] of a name is read back by [GetName], unless
    the metadata are not a map, when the setter does nothing and there is no name;
    the other setters leave the name alone. *)
Class UnstructuredLaws {U : UnstructuredLib} : Prop := {
  u_name_set o n : n <> "" -> u_GetName (u_SetName o n) = n \/ u_GetName (u_SetName o n) = "";
  u_name_namespace o ns : u_GetName (u_SetNamespace o ns) = u_GetName o
}.
