(* ===== verification/Policy.v ===== *)
(** * The policy (src/internal/server/policy.go)

    [Policy_Check] is the upper bound the custom resource sets: mode, scope and
    rules.  [Policy_Authorize] asks Kubernetes, with the caller's own
    credential, whether the caller may do the same.  An operation goes
    through only when both agree. *)

From Stdlib Require Import String Ascii.
From S2P Require Import Prelude GoStrings Crypto Json Errors Config Kube.

Record Action := {
  a_GVR : GVR;
  a_Kind : string;
  a_Subresource : string;
  a_Verb : string;
  a_Action : string;
  a_Namespaced : bool
}.
#[global] Instance Action_eq_dec : EqDecision Action.
Proof. solve_decision. Defined.

Definition ResourceName (a : Action) : string :=
  if bool_decide (a_Subresource a = "") then Resource (a_GVR a)
  else Resource (a_GVR a) +:+ ("/" +:+ a_Subresource a).

Definition Mutating (a : Action) : bool :=
  negb (bool_decide (a_Verb a ∈ ["get"; "list"; "watch"])).

Definition Dangerous (a : Action) : bool :=
  bool_decide (a_Action a = "delete") || bool_decide (a_Action a = "exec")
  || bool_decide (a_Action a = "attach") || bool_decide (a_Action a = "force-apply").

Definition prerequisiteGetAction (a : Action) : Action := {|
  a_GVR := a_GVR a; a_Kind := a_Kind a; a_Subresource := "";
  a_Verb := "get"; a_Action := "get"; a_Namespaced := a_Namespaced a
|}.

(** [action.GVR.Group + "/" + action.GVR.Resource]. *)
Definition group_resource (a : Action) : string :=
  Group (a_GVR a) +:+ ("/" +:+ Resource (a_GVR a)).

Definition match_ (values : list string) (wanted : string) : bool :=
  bool_decide ("*" ∈ values) || bool_decide (wanted ∈ values).

Fixpoint matchesAnyRule (rules : list CapabilityRule) (a : Action) : bool :=
  match rules with
  | [] => false
  | rule :: rest =>
    let verbMatches := match_ (Verbs rule) (a_Verb a) || match_ (Verbs rule) (a_Action a) in
    if match_ (APIGroups rule) (Group (a_GVR a)) && match_ (Resources_ rule) (ResourceName a) && verbMatches
    then true else matchesAnyRule rest a
  end.

Definition safeDefaultResource (a : Action) : bool :=
  bool_decide (group_resource a ∈
    ["/configmaps"; "/services"; "apps/deployments"; "apps/statefulsets"; "apps/daemonsets";
     "batch/jobs"; "batch/cronjobs"; "autoscaling/horizontalpodautoscalers"; "policy/poddisruptionbudgets"]).

Definition hard_denied_resources : list string :=
  ["secrets"; "serviceaccounts"; "roles"; "rolebindings"; "clusterroles"; "clusterrolebindings";
   "customresourcedefinitions"; "mutatingwebhookconfigurations"; "validatingwebhookconfigurations";
   "apiservices"; "certificatesigningrequests"; "tokenreviews"; "subjectaccessreviews"; "selfsubjectaccessreviews";
   "namespaces"; "nodes"; "persistentvolumes"; "storageclasses"; "priorityclasses"; "runtimeclasses"].

Definition hard_denied_groups : list string :=
  ["rbac.authorization.k8s.io"; "admissionregistration.k8s.io"; "apiextensions.k8s.io";
   "apiregistration.k8s.io"; "certificates.k8s.io"; "authentication.k8s.io"; "authorization.k8s.io"].

Definition hardDeniedInSafeMode (a : Action) : bool :=
  let sub := a_Subresource a in
  if bool_decide (sub <> "") && bool_decide (sub <> "status") && bool_decide (sub <> "scale") then true
  else if bool_decide (Resource (a_GVR a) ∈ hard_denied_resources) then true
  else bool_decide (Group (a_GVR a) ∈ hard_denied_groups).

Definition managedClusterBindingName (namespace name : string) : string :=
  "supek8smcp-" +:+ hex_EncodeToString (take 8 (Sum256 (namespace +:+ ("/" +:+ name)))).

Section policy.
Context {G : GoLib} {Q : QuantityLib}.

(** A [Policy] holds the configuration. *)
Definition Policy_Check (config : Config) (action : Action) (namespace : string) : result go_error unit :=
  let spec := cfg_Spec config in
  let mode := Mode spec in
  if negb (Mutating action) && bool_decide (Group (a_GVR action) = "")
     && bool_decide (Resource (a_GVR action) = "secrets")
     && bool_decide (SensitiveReads (PolicyS spec) = SensitiveReadDeny)
  then Err (policyError "sensitive_read_denied" "Secret reads are disabled by policy")
  else
  let scope : result go_error unit :=
    if a_Namespaced action then
      if bool_decide (namespace = "") then
        Err (policyError "scope_denied" "namespace is required for namespaced resources")
      else if negb (bool_decide (namespace ∈ Namespaces (Scope spec))) then
        Err (policyError "scope_denied" ("namespace " +:+ (Quote namespace +:+ " is outside the MCP server scope")))
      else Ok ()
    else if Mutating action then
      if negb (AllowClusterScopedWrite (Scope spec)) then
        Err (policyError "scope_denied" "cluster-scoped writes are disabled")
      else Ok ()
    else if negb (AllowClusterScopedRead (Scope spec)) then
      Err (policyError "scope_denied" "cluster-scoped reads are disabled")
    else Ok () in
  match scope with
  | Err e => Err e
  | Ok _ =>
    if bool_decide (mode = ModeReadOnly) && Mutating action then
      Err (policyError "mode_denied" "ReadOnly mode does not permit writes")
    else
    if bool_decide (mode = ModeSafeWrite)
       && (Dangerous action || bool_decide (a_Verb action ∈ ["delete"; "deletecollection"])) then
      Err (policyError "mode_denied" "operation requires Dangerous mode")
    else if bool_decide (mode = ModeSafeWrite) && hardDeniedInSafeMode action then
      Err (policyError "mode_denied" (ResourceName action +:+ " is blocked in SafeWrite mode"))
    else
    match Rules (PolicyS spec) with
    | _ :: _ =>
      if negb (matchesAnyRule (Rules (PolicyS spec)) action) then
        Err (policyError "policy_denied" "operation is outside policy.rules")
      else Ok ()
    | [] =>
      if bool_decide (mode = ModeSafeWrite) && Mutating action && negb (safeDefaultResource action) then
        Err (policyError "policy_denied" "resource is not in the SafeWrite default allowlist")
      else Ok ()
    end
  end.

Definition managedTarget (config : Config) (action : Action) (namespace name : string) : bool :=
  let gr := group_resource action in
  if negb (a_Namespaced action) then
    if bool_decide (gr = "rbac.authorization.k8s.io/clusterrolebindings") then
      bool_decide (name = managedClusterBindingName (cfg_Namespace config) (cfg_Name config))
    else if bool_decide (gr = "rbac.authorization.k8s.io/clusterroles") then
      bool_decide (name = "supek8smcp-tokenreviewer")
    else false
  else if bool_decide (Group (a_GVR action) = "mcp.supek8smcp.io")
          && bool_decide (Resource (a_GVR action) = "kubernetesmcpservers") then true
  else if bool_decide (Group (a_GVR action) = "") && bool_decide (Resource (a_GVR action) = "secrets")
          && bool_decide (name = "supek8smcp-serving-ca") then true
  else if bool_decide (namespace <> cfg_Namespace config) then false
  else if bool_decide (gr = "/configmaps") then
    bool_decide (name = cfg_Name config +:+ "-config") || bool_decide (name = cfg_Name config +:+ "-ca")
  else if bool_decide (gr = "/secrets") then
    let tlsName := or_string (TLS_SecretName (cfg_Spec config)) (cfg_Name config +:+ "-tls") in
    bool_decide (name = tlsName) || bool_decide (name = "supek8smcp-serving-ca")
  else if bool_decide (gr ∈ ["/services"; "/serviceaccounts"; "apps/deployments"; "networking.k8s.io/networkpolicies"]) then
    bool_decide (name = cfg_Name config)
  else false.

Definition Policy_CheckTarget (config : Config) (action : Action) (namespace name : string) : result go_error unit :=
  match Policy_Check config action namespace with
  | Err e => Err e
  | Ok _ =>
    if Mutating action && bool_decide (name <> "") && managedTarget config action namespace name then
      Err (policyError "managed_resource_denied"
             "an MCP server may not mutate its own operator-managed control-plane resources")
    else Ok ()
  end.

(** ** Authorization *)

Definition authorizationKey (action : Action) (namespace name : string) : ResourceAttributes := {|
  ra_Group := Group (a_GVR action); ra_Version := Version (a_GVR action);
  ra_Resource := Resource (a_GVR action); ra_Subresource := a_Subresource action;
  ra_Verb := a_Verb action; ra_Namespace := namespace; ra_Name := name
|}.

(** The cache of one search: the map of [withAuthorizationCache], newest
    entry first, with the nil error as [Ok ()].  [None] when the context
    holds no cache. *)
Definition auth_cache : Type := list (ResourceAttributes * result go_error unit).

Fixpoint cache_get (c : auth_cache) (k : ResourceAttributes) : option (result go_error unit) :=
  match c with
  | [] => None
  | (k', r) :: c' => if bool_decide (k = k') then Some r else cache_get c' k
  end.

Definition withAuthorizationCache : auth_cache := [].

(** [authorize]: one SelfSubjectAccessReview. *)
Definition review_result (r : result go_error review_status) : result go_error unit :=
  match r with
  | Err err => Err (Wrapped "SelfSubjectAccessReview failed" err)
  | Ok status =>
    if negb (Allowed status) then
      if bool_decide (EvaluationError status <> "") then
        Err (StatusError ServiceUnavailable "Kubernetes authorization evaluation failed")
      else
        Err (policyError "rbac_denied" (or_string (ReviewReason status) "Kubernetes RBAC denied the operation"))
    else Ok ()
  end.

Definition authorize (principal : Principal) (action : Action) (namespace name : string)
  : K (result go_error unit) :=
  (let! review := request principal (Review (authorizationKey action namespace name)) in
   kret (review_result review))%kube.

(** [Authorize]: with the cache of a search the answer to an identical
    review is reused; without one every call asks Kubernetes. *)
Definition Policy_Authorize (principal : Principal) (cache : option auth_cache) (action : Action)
    (namespace name : string) : K (result go_error unit * option auth_cache) :=
  (let! done := request principal CtxErr in
   match done with
   | Some err => kret (Err err, cache)
   | None =>
     let key := authorizationKey action namespace name in
     match cache ≫= fun c => cache_get c key with
     | Some cached => kret (cached, cache)
     | None =>
       let! err := authorize principal action namespace name in
       kret (err, (fun c => (key, err) :: c) <$> cache)
     end
   end)%kube.

Definition Policy_CheckAndAuthorize (config : Config) (principal : Principal) (action : Action)
    (namespace name : string) : K (result go_error unit) :=
  match Policy_CheckTarget config action namespace name with
  | Err e => kret (Err e)
  | Ok _ =>
    (let! r := Policy_Authorize principal None action namespace name in kret r.1)%kube
  end.

(** [CheckAndAuthorizeOperation]: a write also needs [get] on the object. *)
Definition Policy_CheckAndAuthorizeOperation (config : Config) (principal : Principal)
    (cache : option auth_cache) (action : Action) (namespace name : string)
    : K (result go_error unit * option auth_cache) :=
  let prerequisite := prerequisiteGetAction action in
  match Policy_CheckTarget config action namespace name with
  | Err e => kret (Err e, cache)
  | Ok _ =>
    match (if Mutating action then Policy_CheckTarget config prerequisite namespace name else Ok ()) with
    | Err e => kret (Err e, cache)
    | Ok _ =>
      (let! r := Policy_Authorize principal cache action namespace name in
       match r with
       | (Err e, cache) => kret (Err e, cache)
       | (Ok _, cache) =>
         if Mutating action then Policy_Authorize principal cache prerequisite namespace name
         else kret (Ok (), cache)
       end)%kube
    end
  end.
End policy.

(** ** What the policy permits *)

Section spec.
Context {G : GoLib} {Q : QuantityLib}.

Definition rule_covers (rule : CapabilityRule) (a : Action) : Prop :=
  ("*" ∈ APIGroups rule \/ Group (a_GVR a) ∈ APIGroups rule) /\
  ("*" ∈ Resources_ rule \/ ResourceName a ∈ Resources_ rule) /\
  ("*" ∈ Verbs rule \/ a_Verb a ∈ Verbs rule \/ a_Action a ∈ Verbs rule).

Definition is_read (a : Action) : Prop := a_Verb a ∈ ["get"; "list"; "watch"].

(** What a SafeWrite server leaves alone, by what it is for: identities and
    their credentials, access control, extensions of the API server,
    certificates, reviews, and the cluster's own parts. *)
Definition guarded_resource (r : string) : Prop :=
  r ∈ ["secrets"; "serviceaccounts"] \/
  r ∈ ["roles"; "rolebindings"; "clusterroles"; "clusterrolebindings"] \/
  r ∈ ["customresourcedefinitions"; "mutatingwebhookconfigurations"; "validatingwebhookconfigurations"; "apiservices"] \/
  r = "certificatesigningrequests" \/
  r ∈ ["tokenreviews"; "subjectaccessreviews"; "selfsubjectaccessreviews"] \/
  r ∈ ["namespaces"; "nodes"; "persistentvolumes"; "storageclasses"; "priorityclasses"; "runtimeclasses"].
Definition guarded_group (g : string) : Prop :=
  exists part, g = part +:+ ".k8s.io" /\
    part ∈ ["rbac.authorization"; "admissionregistration"; "apiextensions"; "apiregistration"; "certificates"; "authentication"; "authorization"].

(** The ordinary workload objects: what a SafeWrite server without rules may change. *)
Definition ordinary_object (a : Action) : Prop :=
  (Group (a_GVR a), Resource (a_GVR a)) ∈
    [("", "configmaps"); ("", "services"); ("apps", "deployments"); ("apps", "statefulsets"); ("apps", "daemonsets");
     ("batch", "jobs"); ("batch", "cronjobs"); ("autoscaling", "horizontalpodautoscalers"); ("policy", "poddisruptionbudgets")].

(** The upper bound the configuration sets, declaratively. *)
Record permitted (cfg : Config) (a : Action) (ns : string) : Prop := {
  pm_secrets : is_read a -> Group (a_GVR a) = "" -> Resource (a_GVR a) = "secrets" ->
    SensitiveReads (PolicyS (cfg_Spec cfg)) <> SensitiveReadDeny;
  pm_namespaced : a_Namespaced a = true -> ns <> "" /\ ns ∈ Namespaces (Scope (cfg_Spec cfg));
  pm_cluster_write : a_Namespaced a = false -> ~ is_read a -> AllowClusterScopedWrite (Scope (cfg_Spec cfg)) = true;
  pm_cluster_read : a_Namespaced a = false -> is_read a -> AllowClusterScopedRead (Scope (cfg_Spec cfg)) = true;
  pm_readonly : Mode (cfg_Spec cfg) = ModeReadOnly -> is_read a;
  pm_safewrite : Mode (cfg_Spec cfg) = ModeSafeWrite ->
    (a_Action a ∉ ["delete"; "exec"; "attach"; "force-apply"]) /\ (a_Verb a ∉ ["delete"; "deletecollection"]) /\
    a_Subresource a ∈ [""; "status"; "scale"] /\
    ~ guarded_resource (Resource (a_GVR a)) /\ ~ guarded_group (Group (a_GVR a));
  pm_rules : Rules (PolicyS (cfg_Spec cfg)) <> [] ->
    exists rule, rule ∈ Rules (PolicyS (cfg_Spec cfg)) /\ rule_covers rule a;
  pm_allowlist : Rules (PolicyS (cfg_Spec cfg)) = [] -> Mode (cfg_Spec cfg) = ModeSafeWrite -> ~ is_read a ->
    ordinary_object a
}.

(** *** Lemmas *)

Lemma Mutating_true a : Mutating a = true <-> ~ is_read a.
Proof. unfold Mutating, is_read. by rewrite negb_true_iff, bool_decide_eq_false. Qed.

Lemma Mutating_false a : Mutating a = false <-> is_read a.
Proof. unfold Mutating, is_read. by rewrite negb_false_iff, bool_decide_eq_true. Qed.

Lemma match_spec vs w : match_ vs w = true <-> "*" ∈ vs \/ w ∈ vs.
Proof. unfold match_. by rewrite orb_true_iff, !bool_decide_eq_true. Qed.

Lemma matchesAnyRule_spec rules a :
  matchesAnyRule rules a = true <-> exists rule, rule ∈ rules /\ rule_covers rule a.
Proof.
  induction rules as [|rule rules IH]; cbn [matchesAnyRule].
  { split; [done | intros (? & ?%elem_of_nil & _); done]. }
  destruct (_ && _ && _) eqn:E.
  - rewrite !andb_true_iff, orb_true_iff, !match_spec in E. split; [intros _|done].
    exists rule. split; [left|]. unfold rule_covers. tauto.
  - rewrite IH. split.
    + intros (r & ? & ?). exists r. split; [by right|done].
    + intros (r & Hr & Hc). apply elem_of_cons in Hr as [->|Hr]; [|eauto].
      exfalso. apply not_true_iff_false in E. apply E.
      rewrite !andb_true_iff, orb_true_iff, !match_spec. unfold rule_covers in Hc. tauto.
Qed.

Lemma Dangerous_false a :
  Dangerous a = false <-> (a_Action a ∉ ["delete"; "exec"; "attach"; "force-apply"]).
Proof.
  unfold Dangerous. rewrite !orb_false_iff, !bool_decide_eq_false, !not_elem_of_cons. set_solver.
Qed.

Lemma guarded_resources r : guarded_resource r <-> r ∈ hard_denied_resources.
Proof. unfold guarded_resource, hard_denied_resources. rewrite !elem_of_cons. tauto. Qed.

Lemma guarded_groups g : guarded_group g <-> g ∈ hard_denied_groups.
Proof.
  unfold guarded_group, hard_denied_groups. split.
  - intros (part & -> & H). rewrite !elem_of_cons in H |- *.
    repeat (destruct H as [->|H]; [tauto|]). by apply elem_of_nil in H.
  - rewrite !elem_of_cons. intros H. repeat (destruct H as [->|H]; [eexists; split; [|by repeat constructor]; reflexivity|]).
    by apply elem_of_nil in H.
Qed.

Lemma hardDenied_false a :
  hardDeniedInSafeMode a = false <->
  a_Subresource a ∈ [""; "status"; "scale"] /\
  ~ guarded_resource (Resource (a_GVR a)) /\ ~ guarded_group (Group (a_GVR a)).
Proof.
  rewrite guarded_resources, guarded_groups.
  unfold hardDeniedInSafeMode. repeat case_bool_decide; cbn;
    rewrite ?bool_decide_eq_false, ?not_elem_of_cons; try (split; [done|]); try set_solver.
Qed.

(** A group and a resource, joined by a slash, determine a key with one slash. *)
Definition no_slash (s : string) : bool := forallb (fun c => negb (bool_decide (c = "/"%char))) (String.list_ascii_of_string s).

Lemma split_at_slash (g r g' r' : string) :
  no_slash g' && no_slash r' = true -> g +:+ ("/" +:+ r) = g' +:+ ("/" +:+ r') -> g = g' /\ r = r'.
Proof.
  intros [Hg Hr]%andb_true_iff. revert g Hg. induction g' as [|c g' IH]; intros [|d g] Hg H.
  - change (String "/" r = String "/" r') in H. by injection H as ->.
  - change (String d (g +:+ ("/" +:+ r)) = String "/" r') in H. injection H as -> H. exfalso. subst r'. clear - Hr.
    induction g as [|d g IH]; [done|].
    change (negb (bool_decide (d = "/"%char)) && no_slash (g +:+ ("/" +:+ r)) = true) in Hr.
    apply andb_true_iff in Hr as [_ Hr]. by apply IH.
  - change (String "/" r = String c (g' +:+ ("/" +:+ r'))) in H. by injection H as <- _.
  - change (String d (g +:+ ("/" +:+ r)) = String c (g' +:+ ("/" +:+ r'))) in H. injection H as -> H.
    cbn in Hg. apply andb_true_iff in Hg as [_ Hg]. by destruct (IH g Hg H) as [-> ->].
Qed.

Lemma safeDefault_ordinary a : safeDefaultResource a = true <-> ordinary_object a.
Proof.
  unfold safeDefaultResource, group_resource, ordinary_object. rewrite bool_decide_eq_true.
  set (pairs := [("", "configmaps"); _; _; _; _; _; _; _; _]).
  change (["/configmaps"; _; _; _; _; _; _; _; _]) with ((fun k => k.1 +:+ ("/" +:+ k.2)) <$> pairs).
  rewrite list_elem_of_fmap. split; [|intros H; by exists (Group (a_GVR a), Resource (a_GVR a))].
  intros ([g r] & H & Hin). apply split_at_slash in H as [-> ->]; [done|]. cbn [fst snd].
  assert (forallb (fun k => no_slash k.1 && no_slash k.2) pairs = true) as Hall by reflexivity.
  rewrite forallb_forall in Hall. apply (Hall (g, r)). by apply list_elem_of_In.
Qed.

Lemma guard_ok {E} (b : bool) (e : E) (r : result E unit) :
  (if b then Err e else r) = Ok () <-> b = false /\ r = Ok ().
Proof. destruct b; naive_solver. Qed.

Lemma scope_ok {E} (r : result E unit) (k : result E unit) :
  match r with Err e => Err e | Ok _ => k end = Ok () <-> r = Ok () /\ k = Ok ().
Proof. destruct r as [[]|]; naive_solver. Qed.

Lemma imp_false (b c : bool) : b && c = false <-> (b = true -> c = false).
Proof. destruct b, c; naive_solver. Qed.

Lemma Check_permitted cfg a ns : Policy_Check cfg a ns = Ok () <-> permitted cfg a ns.
Proof.
  unfold Policy_Check. rewrite guard_ok, scope_ok, !guard_ok, !imp_false, !andb_true_iff,
    !bool_decide_eq_false, !bool_decide_eq_true, negb_true_iff, Mutating_false, orb_false_iff,
    Dangerous_false, bool_decide_eq_false, hardDenied_false.
  assert (Hscope : forall (e1 e2 e3 e4 : go_error),
    (if a_Namespaced a then
       if bool_decide (ns = "") then Err e1
       else if negb (bool_decide (ns ∈ Namespaces (Scope (cfg_Spec cfg)))) then Err e2 else Ok ()
     else if Mutating a then
       if negb (AllowClusterScopedWrite (Scope (cfg_Spec cfg))) then Err e3 else Ok ()
     else if negb (AllowClusterScopedRead (Scope (cfg_Spec cfg))) then Err e4 else Ok ()) = Ok () <->
    (a_Namespaced a = true -> ns <> "" /\ ns ∈ Namespaces (Scope (cfg_Spec cfg))) /\
    (a_Namespaced a = false -> ~ is_read a -> AllowClusterScopedWrite (Scope (cfg_Spec cfg)) = true) /\
    (a_Namespaced a = false -> is_read a -> AllowClusterScopedRead (Scope (cfg_Spec cfg)) = true)).
  { intros. rewrite <- Mutating_true, <- Mutating_false.
    destruct (a_Namespaced a); [|destruct (Mutating a)]; rewrite ?guard_ok;
      rewrite ?negb_false_iff, ?bool_decide_eq_false, ?bool_decide_eq_true; naive_solver. }
  assert (Hrules : forall (e1 e2 : go_error),
    match Rules (PolicyS (cfg_Spec cfg)) with
    | _ :: _ => if negb (matchesAnyRule (Rules (PolicyS (cfg_Spec cfg))) a) then Err e1 else Ok ()
    | [] => if bool_decide (Mode (cfg_Spec cfg) = ModeSafeWrite) && Mutating a && negb (safeDefaultResource a)
            then Err e2 else Ok ()
    end = Ok () <->
    (Rules (PolicyS (cfg_Spec cfg)) <> [] ->
       exists rule, rule ∈ Rules (PolicyS (cfg_Spec cfg)) /\ rule_covers rule a) /\
    (Rules (PolicyS (cfg_Spec cfg)) = [] -> Mode (cfg_Spec cfg) = ModeSafeWrite -> ~ is_read a ->
       ordinary_object a)).
  { intros. rewrite <- matchesAnyRule_spec, <- Mutating_true, <- safeDefault_ordinary.
    destruct (Rules (PolicyS (cfg_Spec cfg))); rewrite guard_ok, ?imp_false, ?andb_true_iff,
      ?bool_decide_eq_true, negb_false_iff; naive_solver. }
  rewrite Hscope, Hrules. split; [intros H; constructor; naive_solver | intros []; naive_solver].
Qed.

Lemma CheckTarget_permitted cfg a ns name : Policy_CheckTarget cfg a ns name = Ok () -> permitted cfg a ns.
Proof. unfold Policy_CheckTarget. intros [Hc _]%scope_ok. by apply Check_permitted. Qed.

Lemma CheckTarget_safewrite cfg a ns name :
  Policy_CheckTarget cfg a ns name = Ok () -> Mode (cfg_Spec cfg) = ModeSafeWrite ->
  (a_Action a ∉ ["delete"; "exec"; "attach"; "force-apply"]) /\ (a_Verb a ∉ ["delete"; "deletecollection"]).
Proof.
  unfold Policy_CheckTarget. intros [Hc _]%scope_ok Hm. apply Check_permitted in Hc as [].
  destruct (pm_safewrite0 Hm) as (? & ? & _). done.
Qed.

(** The objects the operator manages for this server: what
    [reconcileResources], [reconcileDelegatedAuthentication] and the
    certificate code create, as (group, resource, namespace, name). *)
Definition managed_objects (cfg : Config) : list (string * string * string) :=
  let name := cfg_Name cfg in
  [("", "configmaps", name +:+ "-config"); ("", "configmaps", name +:+ "-ca");
   ("", "secrets", or_string (TLS_SecretName (cfg_Spec cfg)) (name +:+ "-tls"));
   ("", "services", name); ("", "serviceaccounts", name);
   ("apps", "deployments", name); ("networking.k8s.io", "networkpolicies", name)].

Definition operator_managed (cfg : Config) (a : Action) (ns name : string) : Prop :=
  (a_Namespaced a = true /\ ns = cfg_Namespace cfg /\
     (Group (a_GVR a), Resource (a_GVR a), name) ∈ managed_objects cfg) \/
  (a_Namespaced a = true /\ Group (a_GVR a) = "mcp.supek8smcp.io" /\ Resource (a_GVR a) = "kubernetesmcpservers") \/
  (a_Namespaced a = true /\ Group (a_GVR a) = "" /\ Resource (a_GVR a) = "secrets" /\ name = "supek8smcp-serving-ca") \/
  (a_Namespaced a = false /\ Group (a_GVR a) = "rbac.authorization.k8s.io" /\
     Resource (a_GVR a) = "clusterrolebindings" /\
     name = managedClusterBindingName (cfg_Namespace cfg) (cfg_Name cfg)) \/
  (a_Namespaced a = false /\ Group (a_GVR a) = "rbac.authorization.k8s.io" /\
     Resource (a_GVR a) = "clusterroles" /\ name = "supek8smcp-tokenreviewer").

Lemma operator_managed_detected cfg a ns name :
  operator_managed cfg a ns name -> managedTarget cfg a ns name = true.
Proof.
  unfold operator_managed, managedTarget, managed_objects, group_resource.
  intros [(Hn & -> & Hin)|[(Hn & -> & ->)|[(Hn & -> & -> & ->)|[(Hn & -> & -> & ->)|(Hn & -> & -> & ->)]]]];
    rewrite Hn; cbn [negb].
  - rewrite !elem_of_cons in Hin.
    repeat (destruct Hin as [[= -> -> ->]|Hin]); [..|by apply elem_of_nil in Hin];
      repeat (case_bool_decide; cbn; try done); rewrite ?orb_true_r; try done;
      match goal with
      | H : _ <> _ |- _ => by destruct H
      | H : ~ (_ ∈ _) |- _ => destruct H; rewrite !elem_of_cons; by auto
      | _ => idtac
      end.
  - done.
  - done.
  - by rewrite !bool_decide_eq_true_2.
  - by rewrite bool_decide_eq_false_2, !bool_decide_eq_true_2.
Qed.
End spec.

(** ** Authorization traces *)

Section authorization.
Context {G : GoLib} {Q : QuantityLib}.

(** An answered review that allowed [action] on the object to [p]. *)
Definition allows (p : Principal) (action : Action) (ns name : string) (e : event) : Prop :=
  exists st, e = Ev p (Review (authorizationKey action ns name)) (Ok st) /\ Allowed st = true.

Lemma review_result_ok r : review_result r = Ok () <-> exists st, r = Ok st /\ Allowed st = true.
Proof.
  unfold review_result. destruct r as [st|err]; [|naive_solver].
  destruct (Allowed st) eqn:E; cbn [negb]; [naive_solver|].
  case_bool_decide; (split; [done|]); intros (st' & [= <-] & ?); congruence.
Qed.

(** Only context checks and reviews, by the principal. *)
Definition authorization_event (p : Principal) (e : event) : Prop :=
  ev_principal e = p /\ ev_persists e = false.

(** Among [es], Kubernetes was asked [k] with the credential of [p] and said yes. *)
Definition allowed_in (p : Principal) (es : list event) (k : ResourceAttributes) : Prop :=
  exists st, Ev p (Review k) (Ok st) ∈ es /\ Allowed st = true.

(** A cached yes stands for a review among [es]. *)
Definition cache_backed (p : Principal) (es : list event) (cache : option auth_cache) : Prop :=
  forall c k, cache = Some c -> cache_get c k = Some (Ok ()) -> allowed_in p es k.

Lemma allowed_in_app p es es' k : allowed_in p es k -> allowed_in p (es ++ es') k.
Proof. intros (st & ? & ?). exists st. rewrite elem_of_app. auto. Qed.

Lemma allowed_in_allows p es a ns name : allowed_in p es (authorizationKey a ns name) -> exists e, e ∈ es /\ allows p a ns name e.
Proof. intros (st & ? & ?). eexists. split; [done|]. by exists st. Qed.

Lemma cache_backed_app p es es' cache : cache_backed p es cache -> cache_backed p (es ++ es') cache.
Proof. intros H c k Hc Hk. eapply allowed_in_app, H; eauto. Qed.

(** What an answer to an authorization says, given the events [es0] behind its cache. *)
Definition answers_from (p : Principal) (es0 : list event) (cache : option auth_cache) (P : list event -> Prop)
    (r : result go_error unit * option auth_cache) (es : list event) : Prop :=
  Forall (authorization_event p) es /\ (cache = None -> r.2 = None) /\
  cache_backed p (es0 ++ es) r.2 /\ (r.1 = Ok () -> P (es0 ++ es)).

Lemma Authorize_backed p es0 cache action ns name :
  cache_backed p es0 cache ->
  satisfies (Policy_Authorize p cache action ns name)
    (answers_from p es0 cache (fun es => allowed_in p es (authorizationKey action ns name))).
Proof.
  intros Hc. set (k := authorizationKey action ns name). unfold Policy_Authorize, authorize. fold k. satisfies_step.
  destruct a as [err|]. { satisfies_step. split_and!; [by repeat constructor|done|by apply cache_backed_app|done]. }
  destruct (cache ≫= fun c => cache_get c k) as [cached|] eqn:Eg.
  { satisfies_step. apply bind_Some in Eg as (c & Ec & Eg). split_and!; [by repeat constructor|done|by apply cache_backed_app|].
    cbn. intros ->. eapply allowed_in_app, Hc; eauto. }
  eapply satisfies_bind with (P := fun r es => exists a, es = [Ev p (Review k) a] /\ r = review_result a).
  { satisfies_step. satisfies_step. eauto. }
  intros r es (a & -> & ->). satisfies_step. cbn [app].
  assert (review_result a = Ok () -> allowed_in p (es0 ++ [Ev p CtxErr None; Ev p (Review k) a]) k) as Ha.
  { intros (st & -> & Hst)%review_result_ok. exists st. split; [|done]. rewrite elem_of_app, !elem_of_cons. auto. }
  split_and!; [by repeat constructor|by intros ->| |done]. cbn.
  intros c' k' (c & -> & ->)%fmap_Some. cbn [cache_get]. case_bool_decide; [intros [= E]; subst; auto|].
  intros Hk. eapply allowed_in_app, Hc; eauto.
Qed.

Lemma CheckAndAuthorizeOperation_backed cfg p es0 cache action ns name :
  cache_backed p es0 cache ->
  satisfies (Policy_CheckAndAuthorizeOperation cfg p cache action ns name)
    (answers_from p es0 cache (fun es =>
      Policy_CheckTarget cfg action ns name = Ok () /\ allowed_in p es (authorizationKey action ns name) /\
      (Mutating action = true ->
         Policy_CheckTarget cfg (prerequisiteGetAction action) ns name = Ok () /\
         allowed_in p es (authorizationKey (prerequisiteGetAction action) ns name)))).
Proof.
  intros Hc. unfold Policy_CheckAndAuthorizeOperation.
  destruct (Policy_CheckTarget cfg action ns name) as [[]|e1] eqn:E1.
  2: { satisfies_step. split_and!; [constructor|done|by rewrite app_nil_r|done]. }
  destruct (if Mutating action then _ else _) as [[]|e2] eqn:E2.
  2: { satisfies_step. split_and!; [constructor|done|by rewrite app_nil_r|done]. }
  eapply satisfies_bind; [by apply Authorize_backed|]. intros [r c1] es1 (H1 & Hn1 & Hc1 & Ha); cbn in Hn1, Hc1, Ha |- *.
  destruct r as [[]|e]; [|satisfies_step; rewrite app_nil_r; by split_and!]. specialize (Ha eq_refl).
  destruct (Mutating action).
  - eapply satisfies_weaken; [by eapply Authorize_backed|]. intros [r2 c2] es2 (H2 & Hn2 & Hc2 & Hb); cbn in Hn2, Hc2, Hb.
    unfold answers_from. rewrite app_assoc. split_and!; [by apply Forall_app|by auto|done|]. cbn. intros ->.
    split_and!; [done|by apply allowed_in_app|by auto].
  - satisfies_step. rewrite app_nil_r. by split_and!.
Qed.

(** Without a cache, [Policy_Authorize] says yes only after Kubernetes did. *)
Lemma Authorize_satisfies p action ns name :
  satisfies (Policy_Authorize p None action ns name) (fun r es =>
    r.2 = None /\ Forall (authorization_event p) es /\
    (r.1 = Ok () -> exists e, e ∈ es /\ allows p action ns name e)).
Proof.
  eapply satisfies_weaken; [by apply (Authorize_backed p [] None)|]. intros [r c] es (H1 & H2 & _ & H3).
  split_and!; [by apply H2|done|]. intros Hr. by apply allowed_in_allows, H3.
Qed.

Lemma CheckAndAuthorizeOperation_satisfies cfg p action ns name :
  satisfies (Policy_CheckAndAuthorizeOperation cfg p None action ns name) (fun r es =>
    r.2 = None /\ Forall (authorization_event p) es /\
    (r.1 = Ok () ->
      Policy_CheckTarget cfg action ns name = Ok () /\
      (exists e, e ∈ es /\ allows p action ns name e) /\
      (Mutating action = true ->
         Policy_CheckTarget cfg (prerequisiteGetAction action) ns name = Ok () /\
         exists e, e ∈ es /\ allows p (prerequisiteGetAction action) ns name e))).
Proof.
  eapply satisfies_weaken; [by apply (CheckAndAuthorizeOperation_backed cfg p [] None)|]. intros [r c] es (H1 & H2 & _ & H3).
  split_and!; [by apply H2|done|]. intros Hr. destruct (H3 Hr) as (? & Ha & Hb). split_and!; [done|by apply allowed_in_allows|].
  intros HM. destruct (Hb HM). split; [done|]. by apply allowed_in_allows.
Qed.

Lemma Authorize_emits p cache action ns name :
  emits (authorization_event p) (Policy_Authorize p cache action ns name).
Proof.
  unfold Policy_Authorize, authorize. repeat emits_step; by split.
Qed.

Lemma CheckAndAuthorize_emits cfg p action ns name :
  emits (authorization_event p) (Policy_CheckAndAuthorize cfg p action ns name).
Proof.
  unfold Policy_CheckAndAuthorize. repeat emits_step. apply Authorize_emits.
Qed.

Lemma CheckAndAuthorizeOperation_emits cfg p cache action ns name :
  emits (authorization_event p) (Policy_CheckAndAuthorizeOperation cfg p cache action ns name).
Proof.
  unfold Policy_CheckAndAuthorizeOperation. repeat (emits_step || apply Authorize_emits).
Qed.
End authorization.

#[export] Hint Resolve Authorize_emits CheckAndAuthorize_emits CheckAndAuthorizeOperation_emits : kube.

(** ** Properties *)

Section properties.
Context {G : GoLib} {Q : QuantityLib}.

Definition with_mode (cfg : Config) (m : string) : Config := {|
  cfg_Name := cfg_Name cfg; cfg_Namespace := cfg_Namespace cfg; cfg_Generation := cfg_Generation cfg;
  cfg_Spec := {| Resources := Resources (cfg_Spec cfg); Mode := m; Scope := Scope (cfg_Spec cfg);
                 PolicyS := PolicyS (cfg_Spec cfg); TLS_SecretName := TLS_SecretName (cfg_Spec cfg);
                 Limits := Limits (cfg_Spec cfg); NetworkPolicy := NetworkPolicy (cfg_Spec cfg) |}
|}.

(** C6: [Policy_Check] computes the declared upper bound: it accepts an action in a
    namespace exactly when the reads of Secrets, the scope, the mode and the rules allow it,
    each as [permitted] says in its own terms.  Reads of a Pod's log subresource in SafeWrite mode are
    outside this statement, because the documentation promises them and the check refuses them. *)
Theorem Policy_Check_iff_permitted cfg a ns :
  (Mode (cfg_Spec cfg) = ModeSafeWrite -> is_read a -> a_Subresource a <> "log") ->
  Policy_Check cfg a ns = Ok () <-> permitted cfg a ns.
Proof. intros _. apply Check_permitted. Qed.

(** Under a validated SafeWrite configuration, a write the policy accepts is
    namespaced, inside the configured scope, not a deletion, remote command or
    forced apply, on the object itself or its status or scale, and on no
    identity, access-control, admission, node or cluster-storage resource. *)
Theorem safewrite_write_bounds cfg a ns :
  valid_config cfg -> Mode (cfg_Spec cfg) = ModeSafeWrite ->
  Policy_Check cfg a ns = Ok () -> Mutating a = true ->
  a_Namespaced a = true /\ ns ∈ Namespaces (Scope (cfg_Spec cfg)) /\
  (a_Action a ∉ ["delete"; "exec"; "attach"; "force-apply"]) /\
  (a_Verb a ∉ ["delete"; "deletecollection"]) /\
  a_Subresource a ∈ [""; "status"; "scale"] /\
  ~ guarded_resource (Resource (a_GVR a)) /\ ~ guarded_group (Group (a_GVR a)).
Proof.
  intros Hv Hm Hc%Check_permitted Hw%Mutating_true.
  destruct Hc as [_ Hns Hcw _ _ Hsafe _ _], Hv as [_ _ Hdangerous _ _ _ _].
  destruct (Hsafe Hm) as (? & ? & ? & ? & ?). destruct (a_Namespaced a) eqn:E; [by destruct (Hns eq_refl)|].
  rewrite Hdangerous in Hm by auto. done.
Qed.

(** Modes are ordered under Dangerous: what the policy accepts in any mode it
    accepts in Dangerous mode with the same scope and rules. *)
Theorem dangerous_mode_permits_most cfg a ns :
  Policy_Check cfg a ns = Ok () -> Policy_Check (with_mode cfg ModeDangerous) a ns = Ok ().
Proof. rewrite !Check_permitted. intros []. by constructor. Qed.

(** SafeWrite mode rejects Pod logs: [hardDeniedInSafeMode] blocks every
    subresource other than status and scale, and it is applied to reads as well. *)
Theorem safewrite_denies_logs cfg a ns :
  Mode (cfg_Spec cfg) = ModeSafeWrite -> a_Subresource a = "log" -> Policy_Check cfg a ns <> Ok ().
Proof.
  intros Hm Hs [_ _ _ _ _ Hsafe _ _]%Check_permitted.
  destruct (Hsafe Hm) as (_ & _ & Hsub & _). rewrite Hs in Hsub. set_solver.
Qed.

(** Self-protection: no write on a named object passes [Policy_CheckTarget] when
    that object is one the operator manages for this server, in any mode and
    under any rules. *)
Theorem managed_objects_are_protected cfg a ns name :
  Mutating a = true -> name <> "" -> operator_managed cfg a ns name ->
  Policy_CheckTarget cfg a ns name <> Ok ().
Proof.
  intros Hm Hn Ho%operator_managed_detected. unfold Policy_CheckTarget.
  destruct (Policy_Check cfg a ns) as [[]|]; [|done].
  by rewrite Hm, Ho, bool_decide_eq_true_2.
Qed.

(** C5: Effective permission is the intersection of the server's policy and the
    caller's RBAC.  In every environment, an accepted operation is one the
    policy permits, together with the [get] that a write needs; a write to a named object is not
    to one that the operator manages (reads of those are not refused here).  For the
    operation, and for that [get], Kubernetes was asked with the caller's credential and allowed it:
    in this very check, or, when the check runs inside a search with its cache of answers,
    among the requests [es0] of that search that the cache stands for (none
    for a check without a cache); the cache then stands for the requests so far.  No request of the check changes the cluster. *)
Theorem accepted_operation_is_authorized cfg p es0 cache a ns name w h cache' h' :
  cache_backed p es0 cache ->
  Policy_CheckAndAuthorizeOperation cfg p cache a ns name w h = ((Ok (), cache'), h') ->
  permitted cfg a ns /\ (Mutating a = true -> permitted cfg (prerequisiteGetAction a) ns) /\
  (Mutating a = true -> name <> "" -> ~ operator_managed cfg a ns name) /\
  exists es, h' = h ++ es /\ Forall (authorization_event p) es /\
    allowed_in p (es0 ++ es) (authorizationKey a ns name) /\
    (Mutating a = true -> allowed_in p (es0 ++ es) (authorizationKey (prerequisiteGetAction a) ns name)) /\
    cache_backed p (es0 ++ es) cache'.
Proof.
  intros Hc Hrun.
  destruct (CheckAndAuthorizeOperation_backed cfg p es0 cache a ns name Hc w h) as (es & Hes & Hf & _ & Hc' & Hok).
  rewrite Hrun in Hes, Hc', Hok; cbn in Hes, Hc', Hok. destruct (Hok eq_refl) as (Ht & Ha & Hp).
  split_and!; [by eapply CheckTarget_permitted|intros HM; eapply CheckTarget_permitted; by destruct (Hp HM)| |].
  - intros HM Hn Ho%operator_managed_detected. unfold Policy_CheckTarget in Ht. apply scope_ok in Ht as [_ Hm].
    by rewrite HM, Ho, bool_decide_eq_true_2 in Hm.
  - exists es. split_and!; [done..| |done]. intros HM. by destruct (Hp HM).
Qed.
End properties.

(** ** Witnesses *)

Module PolicyWitness.
Export ConfigWitness.

Definition deployments (verb action : string) : Action := {|
  a_GVR := {| Group := "apps"; Version := "v1"; Resource := "deployments" |}; a_Kind := "Deployment";
  a_Subresource := ""; a_Verb := verb; a_Action := action; a_Namespaced := true |}.

Definition alice : Principal :=
  {| Username := "alice"; P_UID := "7"; Groups := ["dev"]; Extra := []; Token := "t" |}.

(** A cluster that allows everything and holds nothing. *)
Definition open_cluster : env := fun A _ _ c =>
  match c with
  | CtxErr => None
  | Now => 0%Z
  | Review _ => Ok {| Allowed := true; EvaluationError := ""; ReviewReason := "" |}
  | Get _ _ _ | List_ _ _ | Create _ _ _ | Patch _ _ _ _ _ _ _ | Update _ _ _ => Ok []
  | Delete _ _ _ => Ok ()
  | GetPod _ _ => Err (StatusError NotFound "")
  | Stream _ => Err (OtherError "")
  | Watch _ _ => Ok ()
  | NextEvent => ChannelClosed
  | Logs _ _ _ => Ok {| ls_data := ""; ls_end := None |}
  | Discover => Ok {| dc_groups := []; dc_lists := []; dc_error := None |}
  | OpenAPI _ _ => Ok []
  | ProgressToken => None
  | NotifyProgress _ _ _ => ()
  end.

Lemma safewrite_write_bounds_witness :
  let a := deployments "patch" "patch" in
  a_Namespaced a = true /\ "prod" ∈ Namespaces (Scope (cfg_Spec (demo_config ModeSafeWrite))) /\
  (a_Action a ∉ ["delete"; "exec"; "attach"; "force-apply"]) /\
  (a_Verb a ∉ ["delete"; "deletecollection"]) /\
  a_Subresource a ∈ [""; "status"; "scale"] /\
  ~ guarded_resource (Resource (a_GVR a)) /\ ~ guarded_group (Group (a_GVR a)).
Proof.
  intros a. apply (safewrite_write_bounds (demo_config ModeSafeWrite) a "prod");
    [apply demo_config_valid; set_solver|reflexivity|vm_compute; reflexivity|reflexivity].
Defined.

Lemma dangerous_mode_permits_most_witness :
  Policy_Check (with_mode (demo_config ModeReadOnly) ModeDangerous) (deployments "list" "list") "prod" = Ok ().
Proof. apply (dangerous_mode_permits_most (demo_config ModeReadOnly)). vm_compute. reflexivity. Defined.

Lemma safewrite_denies_logs_witness :
  Policy_Check (demo_config ModeSafeWrite)
    {| a_GVR := {| Group := ""; Version := "v1"; Resource := "pods" |}; a_Kind := "Pod";
       a_Subresource := "log"; a_Verb := "get"; a_Action := "logs"; a_Namespaced := true |} "prod" <> Ok ().
Proof. apply safewrite_denies_logs; reflexivity. Defined.

Lemma managed_objects_are_protected_witness :
  Policy_CheckTarget (demo_config ModeDangerous) (deployments "delete" "delete") "mcp" "gw" <> Ok ().
Proof.
  apply managed_objects_are_protected; [reflexivity|discriminate|].
  left. split_and!; [reflexivity|reflexivity|]. unfold managed_objects. set_solver.
Defined.

(** The second of two equal checks of a search: its cache answers for the first. *)
Lemma accepted_operation_is_authorized_witness :
  let cfg := demo_config ModeSafeWrite in
  let a := deployments "patch" "patch" in
  let first := Policy_CheckAndAuthorizeOperation cfg alice (Some withAuthorizationCache) a "prod" "web" open_cluster [] in
  let second := Policy_CheckAndAuthorizeOperation cfg alice first.1.2 a "prod" "web" open_cluster first.2 in
  length first.2 = 4 /\ length second.2 = 6 /\
  permitted cfg a "prod" /\ (Mutating a = true -> permitted cfg (prerequisiteGetAction a) "prod") /\
  (Mutating a = true -> "web" <> "" -> ~ operator_managed cfg a "prod" "web") /\
  exists es, second.2 = first.2 ++ es /\ Forall (authorization_event alice) es /\
    allowed_in alice (first.2 ++ es) (authorizationKey a "prod" "web") /\
    (Mutating a = true -> allowed_in alice (first.2 ++ es) (authorizationKey (prerequisiteGetAction a) "prod" "web")) /\
    cache_backed alice (first.2 ++ es) second.1.2.
Proof.
  intros cfg a first second. split; [vm_compute; reflexivity|]. split; [vm_compute; reflexivity|].
  apply (accepted_operation_is_authorized cfg alice first.2 first.1.2 a "prod" "web" open_cluster first.2 second.1.2 second.2);
    [|vm_compute; reflexivity].
  pose proof (accepted_operation_is_authorized cfg alice [] (Some withAuthorizationCache) a "prod" "web" open_cluster [] first.1.2 first.2)
    as (_ & _ & _ & es & -> & _ & _ & _ & H); [by intros c k [= <-]|vm_compute; reflexivity|exact H].
Defined.

Lemma Policy_Check_iff_permitted_witness :
  Policy_Check (demo_config ModeSafeWrite) (deployments "patch" "patch") "prod" = Ok () /\
  permitted (demo_config ModeSafeWrite) (deployments "patch" "patch") "prod".
Proof.
  assert (Policy_Check (demo_config ModeSafeWrite) (deployments "patch" "patch") "prod" = Ok ()) as H by (vm_compute; reflexivity).
  split; [exact H|]. apply (Policy_Check_iff_permitted (demo_config ModeSafeWrite)); [intros _ _; discriminate|exact H].
Defined.
End PolicyWitness.
