(* ===== verification/Capability.v ===== *)
(** * Capability handles (src/internal/server/capability.go)

    [k8s.search] hands out short opaque handles; the other tools take them
    back.  The codec signs the JSON text of a capability with a key drawn at
    start-up and remembers which handle stands for which capability. *)

From Stdlib Require Import String.
From S2P Require Import Prelude GoStrings Crypto Json Errors Config Kube Policy.

Record Capability := {
  ID : string;
  c_Group : string;
  c_Version : string;
  c_Resource : string;
  c_Subresource : string;
  c_Kind : string;
  c_Action : string;
  c_Verb : string;
  c_Namespaced : bool;
  Categories : list string
}.
#[global] Instance Capability_eq_dec : EqDecision Capability.
Proof. solve_decision. Defined.

Definition with_ID (c : Capability) (id : string) : Capability := {|
  ID := id; c_Group := c_Group c; c_Version := c_Version c; c_Resource := c_Resource c;
  c_Subresource := c_Subresource c; c_Kind := c_Kind c; c_Action := c_Action c; c_Verb := c_Verb c;
  c_Namespaced := c_Namespaced c; Categories := Categories c
|}.

Definition AsAction (c : Capability) : Action := {|
  a_GVR := {| Group := c_Group c; Version := c_Version c; Resource := c_Resource c |};
  a_Kind := c_Kind c; a_Subresource := c_Subresource c; a_Verb := c_Verb c;
  a_Action := c_Action c; a_Namespaced := c_Namespaced c
|}.

(** [json.Marshal] of a [Capability]: the fields in order, those marked
    [omitempty] left out when empty. *)
Definition capability_json (c : Capability) : string :=
  "{" +:+ (Join (
    [json_field "id" (json_string (ID c))]
    ++ omitempty (c_Group c) (json_field "group" (json_string (c_Group c)))
    ++ [json_field "version" (json_string (c_Version c)); json_field "resource" (json_string (c_Resource c))]
    ++ omitempty (c_Subresource c) (json_field "subresource" (json_string (c_Subresource c)))
    ++ [json_field "kind" (json_string (c_Kind c)); json_field "action" (json_string (c_Action c));
        json_field "verb" (json_string (c_Verb c));
        json_field "namespaced" (if c_Namespaced c then "true" else "false")]
    ++ match Categories c with
       | [] => []
       | l => [json_field "categories" ("[" +:+ (Join (json_string <$> l) "," +:+ "]"))]
       end) "," +:+ "}").

Record capabilityHandle := {
  payload : string;
  capability : Capability
}.

(** The 32-byte key and the handles given out. *)
Record capabilityCodec := {
  key : list N;
  handles : gmap string capabilityHandle
}.

(** [newCapabilityCodec], given what [rand.Read] filled the key with. *)
Definition newCapabilityCodec (random : result go_error (list N)) : result go_error capabilityCodec :=
  match random with
  | Err err => Err (Wrapped "generate capability signing key" err)
  | Ok bytes => Ok {| key := bytes; handles := ∅ |}
  end.

Definition sign (c : capabilityCodec) (data : string) : list N := hmac_sha256 (key c) (bytes_of data).

(** [cap_] and the base64 text of the first [n] bytes of the digest. *)
Definition handle_id (digest : list N) (n : nat) : string :=
  "cap_" +:+ base64_Encode RawURLEncoding (take n digest).

(** [for bytes := 12; bytes <= len(digest); bytes += 4] over a 32-byte digest. *)
Definition handle_lengths : list nat := [12; 16; 20; 24; 28; 32].

(** The loop of [encode]: the shortest handle that is free or already means
    the same payload; [None] is the panic after the last length. *)
Fixpoint encode_loop (c : capabilityCodec) (copy : Capability) (text : string) (digest : list N)
    (lengths : list nat) : option (string * capabilityCodec) :=
  match lengths with
  | [] => None
  | n :: rest =>
    let id := handle_id digest n in
    let conflict :=
      match handles c !! id with
      | Some existing => bool_decide (payload existing <> text)
      | None => false
      end in
    if conflict then encode_loop c copy text digest rest
    else Some (id, {| key := key c;
                      handles := <[id := {| payload := text; capability := with_ID copy id |}]> (handles c) |})
  end.

Definition encode (c : capabilityCodec) (cap : Capability) : option (string * capabilityCodec) :=
  let copy := with_ID cap "" in
  let text := capability_json copy in
  encode_loop c copy text (sign c text) handle_lengths.

Definition decode (c : capabilityCodec) (id : string) : result go_error Capability :=
  if negb (HasPrefix id "cap_") then
    Err (policyError "invalid_capability" "capability ID is not valid")
  else match handles c !! id with
       | None => Err (policyError "invalid_capability" "capability ID is unknown or expired; call k8s.search again")
       | Some entry => Ok (with_ID (capability entry) id)
       end.

(** [retain]: keep the handles of the listed capabilities only. *)
Definition retain_one (c : capabilityCodec) (current : gmap string capabilityHandle) (cap : Capability)
    : gmap string capabilityHandle :=
  match handles c !! ID cap with
  | Some handle => <[ID cap := handle]> current
  | None => current
  end.
Definition retain (c : capabilityCodec) (caps : list Capability) : capabilityCodec := {|
  key := key c;
  handles := foldl (retain_one c) ∅ caps
|}.

Definition capabilityFromAction (c : capabilityCodec) (a : Action) (categories : list string)
    : option (Capability * capabilityCodec) :=
  let cap := {|
    ID := ""; c_Group := Group (a_GVR a); c_Version := Version (a_GVR a); c_Resource := Resource (a_GVR a);
    c_Subresource := a_Subresource a; c_Kind := a_Kind a; c_Action := a_Action a; c_Verb := a_Verb a;
    c_Namespaced := a_Namespaced a; Categories := categories |} in
  match encode c cap with
  | Some (id, c') => Some (with_ID cap id, c')
  | None => None
  end.

(** ** The state machine of the codec *)

Inductive codec_step : capabilityCodec -> capabilityCodec -> Prop :=
| step_encode c cap id c' : encode c cap = Some (id, c') -> codec_step c c'
| step_retain c caps : codec_step c (retain c caps).

(** Every handle is an HMAC prefix of the payload it stands for, and the
    payload is the text of its capability. *)
Definition handle_ok (c : capabilityCodec) (id : string) (h : capabilityHandle) : Prop :=
  payload h = capability_json (with_ID (capability h) "") /\
  exists n, n ∈ handle_lengths /\ id = handle_id (sign c (payload h)) n.

Definition codec_inv (c : capabilityCodec) : Prop := map_Forall (handle_ok c) (handles c).

(** ** Lemmas *)

Lemma with_ID_twice c i j : with_ID (with_ID c i) j = with_ID c j.
Proof. done. Qed.

Lemma encode_loop_spec c copy text digest lengths id c' :
  encode_loop c copy text digest lengths = Some (id, c') ->
  (exists n, n ∈ lengths /\ id = handle_id digest n) /\
  (forall h, handles c !! id = Some h -> payload h = text) /\
  c' = {| key := key c;
          handles := <[id := {| payload := text; capability := with_ID copy id |}]> (handles c) |}.
Proof.
  induction lengths as [|n rest IH]; [done|]. cbn [encode_loop].
  destruct (handles c !! handle_id digest n) as [h|] eqn:E.
  - case_bool_decide as Hp.
    + intros H. destruct (IH H) as [(m & ? & ?) ?]. split; [exists m; set_solver|done].
    + intros [= <- <-]. split_and!; [exists n; set_solver| |done].
      intros h' Hh'. rewrite E in Hh'. congruence.
  - intros [= <- <-]. split_and!; [exists n; set_solver|congruence|done].
Qed.

Lemma encode_spec c cap id c' :
  encode c cap = Some (id, c') ->
  (exists n, n ∈ handle_lengths /\ id = handle_id (sign c (capability_json (with_ID cap ""))) n) /\
  (forall h, handles c !! id = Some h -> payload h = capability_json (with_ID cap "")) /\
  c' = {| key := key c;
          handles := <[id := {| payload := capability_json (with_ID cap ""); capability := with_ID cap id |}]> (handles c) |}.
Proof. exact (encode_loop_spec c (with_ID cap "") _ _ handle_lengths id c'). Qed.

Lemma handle_id_prefix digest n : HasPrefix (handle_id digest n) "cap_" = true.
Proof. apply HasPrefix_append. Qed.

Lemma length_hmac k m : length (hmac_sha256 k m) = 32.
Proof. apply length_sha256_sum. Qed.

(** Handles of equal digests lengths tell digests apart. *)
Lemma handle_id_inj d1 d2 n1 n2 :
  length d1 = 32 -> length d2 = 32 -> is_bytes d1 -> is_bytes d2 -> n1 <= 32 -> n2 <= 32 ->
  handle_id d1 n1 = handle_id d2 n2 -> n1 = n2 /\ take n1 d1 = take n2 d2.
Proof.
  intros H1 H2 B1 B2 Hn1 Hn2 H. unfold handle_id in H. apply append_inj_l in H.
  apply base64_Encode_inj in H; [|apply good_URL|by apply Forall_take|by apply Forall_take].
  split; [|done]. apply (f_equal length) in H. rewrite !length_take in H. lia.
Qed.

Lemma encode_loop_none c copy text digest lengths n :
  encode_loop c copy text digest lengths = None -> n ∈ lengths ->
  exists h, handles c !! handle_id digest n = Some h /\ payload h <> text.
Proof.
  induction lengths as [|m rest IH]; cbn [encode_loop]; intros H Hn; [by apply elem_of_nil in Hn|].
  destruct (handles c !! handle_id digest m) as [h|] eqn:E; [|done].
  case_bool_decide as Hp; [|done].
  apply elem_of_cons in Hn as [->|Hn]; [by exists h|]. auto.
Qed.

Lemma retain_fold_lookup c caps (acc : gmap string capabilityHandle) id :
  foldl (retain_one c) acc caps !! id =
  if decide (id ∈ ID <$> caps /\ is_Some (handles c !! id)) then handles c !! id else acc !! id.
Proof.
  revert acc. induction caps as [|cap caps IH]; intros acc; cbn [foldl].
  { rewrite decide_False; [done|]. intros [[]%elem_of_nil _]. }
  rewrite IH. unfold retain_one. rewrite fmap_cons.
  destruct (decide (id = ID cap)) as [->|Hne].
  - destruct (handles c !! ID cap) as [h|] eqn:E.
    + rewrite lookup_insert_eq, (decide_True _ _ (P := _ ∈ ID cap :: _ /\ _)) by (split; [left|eauto]).
      by case_decide.
    + rewrite !decide_False; [done|intros [_ [? ?]]; done..].
  - destruct (handles c !! ID cap) as [h|] eqn:E; [rewrite lookup_insert_ne by done|];
      repeat case_decide; try done; set_solver.
Qed.

Lemma retain_lookup c caps id h :
  handles (retain c caps) !! id = Some h <-> handles c !! id = Some h /\ id ∈ ID <$> caps.
Proof.
  cbn [retain handles]. rewrite retain_fold_lookup, lookup_empty. case_decide; naive_solver.
Qed.

Lemma codec_step_key c c' : codec_step c c' -> key c' = key c.
Proof. destruct 1 as [c cap id c' H|]; [|done]. apply encode_spec in H as (_ & _ & ->). done. Qed.

Lemma codec_step_inv c c' : codec_inv c -> codec_step c c' -> codec_inv c'.
Proof.
  intros Hinv Hstep. pose proof (codec_step_key _ _ Hstep) as Hkey.
  assert (forall i h, handle_ok c i h -> handle_ok c' i h) as Hlift.
  { intros i h. unfold handle_ok, sign. by rewrite Hkey. }
  intros i h. destruct Hstep as [c cap id c' H|c caps].
  - apply encode_spec in H as ((n & Hn & Hid) & Hold & ->). cbn. intros Hi. apply Hlift.
    destruct (decide (id = i)) as [<-|Hne].
    + rewrite lookup_insert_eq in Hi. injection Hi as <-. split; [done|]. by exists n.
    + rewrite lookup_insert_ne in Hi by done. by apply Hinv.
  - intros [Hi _]%retain_lookup. by apply Hlift, Hinv.
Qed.

Lemma codec_reachable_inv k c :
  rtc codec_step {| key := k; handles := ∅ |} c -> codec_inv c.
Proof.
  intros H. assert (codec_inv {| key := k; handles := ∅ |}) as H0 by apply map_Forall_empty.
  revert H0. induction H; eauto using codec_step_inv.
Qed.

(** Encoding keeps the payload every live handle stands for. *)
Definition encode_step (c c' : capabilityCodec) : Prop := exists cap id, encode c cap = Some (id, c').

Lemma encode_keeps_payload c c' id h :
  encode_step c c' -> handles c !! id = Some h ->
  exists h', handles c' !! id = Some h' /\ payload h' = payload h.
Proof.
  intros (cap & i & He) Hh. apply encode_spec in He as (_ & Hold & ->). cbn.
  destruct (decide (i = id)) as [<-|Hne].
  - rewrite lookup_insert_eq. eexists. split; [done|]. cbn. symmetry. auto.
  - rewrite lookup_insert_ne by done. eauto.
Qed.

Lemma encodes_keep_payload c c' id h :
  rtc encode_step c c' -> handles c !! id = Some h ->
  exists h', handles c' !! id = Some h' /\ payload h' = payload h.
Proof.
  intros Hs. revert h. induction Hs as [|c c1 c2 H1 _ IH]; intros h Hh; [eauto|].
  destruct (encode_keeps_payload _ _ _ _ H1 Hh) as (h1 & Hh1 & E1).
  destruct (IH _ Hh1) as (h2 & ? & ?). exists h2. split; [done|congruence].
Qed.

(** ** Properties *)

(** Round trip: the handle [encode] returns decodes to the encoded capability,
    now carrying its handle, and after any number of further encodings it still
    decodes to a capability with the same JSON text (no later capability takes
    the handle over). *)
Theorem handle_round_trip c cap id c1 c2 :
  codec_inv c -> encode c cap = Some (id, c1) -> rtc encode_step c1 c2 ->
  decode c1 id = Ok (with_ID cap id) /\
  exists cap2, decode c2 id = Ok cap2 /\ capability_json (with_ID cap2 "") = capability_json (with_ID cap "").
Proof.
  intros Hinv He Hs.
  assert (codec_inv c1) as Hinv1 by eauto using codec_step_inv, step_encode.
  assert (codec_inv c2) as Hinv2.
  { clear He. induction Hs as [|x y z (cap' & i & Hc) _ IH]; [done|].
    apply IH. eauto using codec_step_inv, step_encode. }
  apply encode_spec in He as ((n & _ & ->) & _ & ->).
  unfold decode. rewrite handle_id_prefix. cbn [negb handles]. rewrite lookup_insert_eq. split; [done|].
  eapply encodes_keep_payload in Hs as (h2 & Hh2 & Hp); [|apply lookup_insert_eq].
  rewrite Hh2. eexists. split; [done|]. rewrite with_ID_twice.
  destruct (Hinv2 _ _ Hh2) as [<- _]. done.
Qed.

(** C29: Authenticity: in every state the codec can reach from its start-up key, a handle that
    decodes is [cap_] and a prefix of the HMAC, under that key, of the JSON text
    of the very capability it decodes to. *)
Theorem decoded_handle_is_signed k c id cap :
  rtc codec_step {| key := k; handles := ∅ |} c -> decode c id = Ok cap ->
  ID cap = id /\
  exists n, n ∈ handle_lengths /\
    id = handle_id (hmac_sha256 (key c) (bytes_of (capability_json (with_ID cap "")))) n.
Proof.
  intros Hinv%codec_reachable_inv Hd. unfold decode in Hd.
  destruct (negb _); [done|]. destruct (handles c !! id) as [h|] eqn:E; [|done].
  injection Hd as <-. split; [done|]. destruct (Hinv _ _ E) as [Hp (n & Hn & Hid)].
  exists n. split; [done|]. rewrite with_ID_twice, <- Hp. done.
Qed.

(** [encode] returns a handle, and panics only on a full collision of the HMAC: two
    different JSON texts with the same 32-byte digest under the server's key. *)
Theorem encode_returns_or_collides k c cap :
  rtc codec_step {| key := k; handles := ∅ |} c ->
  (exists id c', encode c cap = Some (id, c') /\ decode c' id = Ok (with_ID cap id)) \/
  exists text, text <> capability_json (with_ID cap "") /\
    hmac_sha256 (key c) (bytes_of text) = hmac_sha256 (key c) (bytes_of (capability_json (with_ID cap ""))).
Proof.
  intros Hinv%codec_reachable_inv. destruct (encode c cap) as [[id c']|] eqn:He; [left|right].
  { exists id, c'. split; [done|]. apply encode_spec in He as ((n & _ & ->) & _ & ->).
    unfold decode. rewrite handle_id_prefix. cbn [negb handles]. by rewrite lookup_insert_eq. }
  apply (encode_loop_none _ _ _ _ _ 32) in He as (h & Hh & Hne); [|unfold handle_lengths; set_solver].
  exists (payload h). split; [done|]. destruct (Hinv _ _ Hh) as [_ (n & Hn & Hid)].
  assert (n <= 32) by (unfold handle_lengths in Hn; rewrite !elem_of_cons, elem_of_nil in Hn; lia).
  apply handle_id_inj in Hid as [<- Ht]; unfold sign; try done; try apply length_hmac;
    try apply sha256_sum_is_bytes.
  unfold sign in Ht. rewrite !take_ge in Ht by by rewrite length_hmac. done.
Qed.

(** After [retain], exactly the handles of the listed capabilities that were
    live stay live, with the meaning they had. *)
Theorem retain_decode c caps id cap :
  decode (retain c caps) id = Ok cap <-> decode c id = Ok cap /\ id ∈ ID <$> caps.
Proof.
  unfold decode. destruct (negb _); [naive_solver|].
  pose proof (retain_lookup c caps id) as Hl.
  destruct (handles (retain c caps) !! id) as [h|] eqn:E.
  - destruct (proj1 (Hl h) eq_refl) as [-> Hin]. naive_solver.
  - split; [done|]. intros [Hd Hin]. destruct (handles c !! id) as [h|] eqn:Ec; [|done].
    discriminate (proj2 (Hl h) (conj eq_refl Hin)).
Qed.

(** ** Witnesses *)

Module CapabilityWitness.
Definition demo_cap (resource : string) : Capability := {|
  ID := ""; c_Group := "apps"; c_Version := "v1"; c_Resource := resource; c_Subresource := "";
  c_Kind := "Deployment"; c_Action := "list"; c_Verb := "list"; c_Namespaced := true; Categories := ["all"] |}.
Definition fresh : capabilityCodec := {| key := replicate 32 7%N; handles := ∅ |}.
Definition after (c : capabilityCodec) (cap : Capability) : string * capabilityCodec := default ("", c) (encode c cap).
Definition first_id : string := (after fresh (demo_cap "deployments")).1.
Definition codec1 : capabilityCodec := (after fresh (demo_cap "deployments")).2.
Definition codec2 : capabilityCodec := (after codec1 (demo_cap "statefulsets")).2.

Lemma step1 : encode fresh (demo_cap "deployments") = Some (first_id, codec1).
Proof. vm_compute. reflexivity. Qed.
Lemma step2 : encode codec1 (demo_cap "statefulsets") = Some ((after codec1 (demo_cap "statefulsets")).1, codec2).
Proof. vm_compute. reflexivity. Qed.

Lemma handle_round_trip_witness :
  decode codec1 first_id = Ok (with_ID (demo_cap "deployments") first_id) /\
  exists cap2, decode codec2 first_id = Ok cap2 /\
    capability_json (with_ID cap2 "") = capability_json (with_ID (demo_cap "deployments") "").
Proof.
  apply (handle_round_trip fresh (demo_cap "deployments") first_id codec1 codec2).
  - apply map_Forall_empty.
  - exact step1.
  - eapply rtc_l; [|apply rtc_refl]. eexists _, _. exact step2.
Defined.

Lemma decoded_handle_is_signed_witness :
  let cap := with_ID (demo_cap "deployments") first_id in
  ID cap = first_id /\
  exists n, n ∈ handle_lengths /\
    first_id = handle_id (hmac_sha256 (key codec1) (bytes_of (capability_json (with_ID cap "")))) n.
Proof.
  intros cap. apply (decoded_handle_is_signed (replicate 32 7%N) codec1 first_id cap).
  - eapply rtc_l; [|apply rtc_refl]. eapply step_encode. exact step1.
  - vm_compute. reflexivity.
Defined.

Lemma encode_returns_or_collides_witness :
  (exists id c', encode codec1 (demo_cap "statefulsets") = Some (id, c') /\
     decode c' id = Ok (with_ID (demo_cap "statefulsets") id)) \/
  exists text, text <> capability_json (with_ID (demo_cap "statefulsets") "") /\
    hmac_sha256 (key codec1) (bytes_of text) =
    hmac_sha256 (key codec1) (bytes_of (capability_json (with_ID (demo_cap "statefulsets") ""))).
Proof.
  apply (encode_returns_or_collides (replicate 32 7%N) codec1 (demo_cap "statefulsets")).
  eapply rtc_l; [|apply rtc_refl]. eapply step_encode. exact step1.
Defined.
End CapabilityWitness.
