(* ===== verification/PlanStore.v ===== *)
(** * Pending plans (src/internal/server/planstore.go)

    [k8s.plan] stores an operation under a random one-time ID and returns a
    six-digit code; [k8s.commit] takes the operation out again with the ID,
    the same identity and the code.  Every method runs under the mutex of the
    store, so a run of the server is a sequence of these steps. *)

From stdpp Require Import pretty.
From Stdlib Require Import String.
From S2P Require Import Prelude GoStrings Crypto Json Errors Kube Policy.

Definition planTTL : Z := 2 * minute.
Definition planStoreMaxBytes : Z := Z.shiftl 64 20.
Definition planStoreSubjectMaxBytes : Z := Z.shiftl 16 20.
Definition planStoreSizeSafetyFactor : Z := 4.
Definition confirmationMaxAttempts : Z := 5.

(** A nil [Object] is [None], a nil [Patch] is [VNull]. *)
Record Operation := {
  op_Action : Action;
  op_Namespace : string;
  op_Name : string;
  op_Object : option object;
  op_Patch : value;
  op_PatchType : string;
  op_Replicas : option Z;
  op_Command : list string;
  op_Container : string;
  op_Stdin : string;
  op_TimeoutSeconds : Z;
  op_GracePeriod : option Z;
  op_Force : bool;
  op_TargetUID : string;
  op_ResourceVersion : string;
  op_ExpectedAbsent : bool;
  op_Generation : Z
}.

Record storedPlan := {
  sp_Operation : Operation;
  sp_SubjectKey : string;
  sp_ExpiresAt : Z;
  sp_Size : Z;
  sp_ConfirmationHash : list N;
  sp_ConfirmationFailures : Z
}.

Record PlanStore := {
  plans : gmap string storedPlan;
  capacity : Z;
  usedBytes : Z;
  subjectBytes : gmap string Z;
  maxBytes : Z;
  maxSubjectBytes : Z
}.

Definition NewPlanStore (capacity : Z) : PlanStore := {|
  plans := ∅; capacity := capacity; usedBytes := 0; subjectBytes := ∅;
  maxBytes := planStoreMaxBytes; maxSubjectBytes := planStoreSubjectMaxBytes
|}.

Definition with_plans (s : PlanStore) (m : gmap string storedPlan) (used : Z) (subjects : gmap string Z) : PlanStore := {|
  plans := m; capacity := capacity s; usedBytes := used; subjectBytes := subjects;
  maxBytes := maxBytes s; maxSubjectBytes := maxSubjectBytes s
|}.

Definition action_json (a : Action) : string :=
  "{" +:+ (Join (
    [json_field "kind" (json_string (a_Kind a))]
    ++ omitempty (a_Subresource a) (json_field "subresource" (json_string (a_Subresource a)))
    ++ [json_field "verb" (json_string (a_Verb a)); json_field "action" (json_string (a_Action a));
        json_field "namespaced" (json_bool (a_Namespaced a))]) "," +:+ "}").

(** A field that may be nil: left out when it is. *)
Definition omit_nil {A} (o : option A) (field : A -> string) : list string :=
  match o with Some a => [field a] | None => [] end.

(** [prefix+"\x00"+code]. *)
Definition nul : string := String Ascii.zero EmptyString.
Definition confirmationHash (planID code : string) : list N := Sum256 (planID +:+ (nul +:+ code)).

Definition validConfirmationCode (code : string) : bool :=
  if negb (Nat.eqb (String.length code) 6) then false
  else forallb (fun character => negb ((character <? 48)%N || (57 <? character)%N)) (runes code).

(** [randomPlanID] and [randomConfirmationCode], given what [crypto/rand]
    returned: 24 bytes, and an integer below 900000. *)
Definition randomPlanID (random : result go_error (list N)) : result go_error string :=
  match random with
  | Err err => Err (Wrapped "generate plan ID" err)
  | Ok bytes => Ok (base64_Encode RawURLEncoding bytes)
  end.
Definition randomConfirmationCode (random : result go_error Z) : result go_error string :=
  match random with
  | Err err => Err (Wrapped "generate confirmation code" err)
  | Ok n => Ok (Itoa (wrap64 (n + 100000)))
  end.

(** [s.delete(id, plan)]. *)
Definition delete_ (s : PlanStore) (id : string) (plan : storedPlan) : PlanStore :=
  let remaining := wrap64 (default 0%Z (subjectBytes s !! sp_SubjectKey plan) - sp_Size plan) in
  with_plans s (delete id (plans s)) (wrap64 (usedBytes s - sp_Size plan))
    (if (remaining <=? 0)%Z then delete (sp_SubjectKey plan) (subjectBytes s)
     else <[sp_SubjectKey plan := remaining]> (subjectBytes s)).

(** [now.After(t)]. *)
Definition After (now t : Z) : bool := (t <? now)%Z.

(** The body of the loop of [prune]; Go visits the plans in any order. *)
Definition prune_one (now : Z) (s : PlanStore) (entry : string * storedPlan) : PlanStore :=
  if After now (sp_ExpiresAt entry.2) then delete_ s entry.1 entry.2 else s.
Definition prune_in (order : list (string * storedPlan)) (now : Z) (s : PlanStore) : PlanStore :=
  foldl (prune_one now) s order.
Definition prune (now : Z) (s : PlanStore) : PlanStore := prune_in (map_to_list (plans s)) now s.

Section planstore.
Context {G : GoLib}.

(** [json.Marshal(operation)]. *)
Definition operation_json (op : Operation) : option string :=
  obj ← match op_Object op with
        | None | Some [] => Some []
        | Some o => text ← Marshal (VMap o); Some [json_field "object" text]
        end;
  patch ← match op_Patch op with
          | VNull => Some []
          | p => text ← Marshal p; Some [json_field "patch" text]
          end;
  Some ("{" +:+ (Join (
    [json_field "action" (action_json (op_Action op))]
    ++ omitempty (op_Namespace op) (json_field "namespace" (json_string (op_Namespace op)))
    ++ omitempty (op_Name op) (json_field "name" (json_string (op_Name op)))
    ++ obj ++ patch
    ++ omitempty (op_PatchType op) (json_field "patchType" (json_string (op_PatchType op)))
    ++ omit_nil (op_Replicas op) (fun n => json_field "replicas" (Itoa n))
    ++ omit_if (bool_decide (op_Command op = []))
         (json_field "command" ("[" +:+ (Join (json_string <$> op_Command op) "," +:+ "]")))
    ++ omitempty (op_Container op) (json_field "container" (json_string (op_Container op)))
    ++ omitempty (op_Stdin op) (json_field "stdin" (json_string (op_Stdin op)))
    ++ omit_if (op_TimeoutSeconds op =? 0)%Z (json_field "timeoutSeconds" (Itoa (op_TimeoutSeconds op)))
    ++ omit_nil (op_GracePeriod op) (fun n => json_field "gracePeriodSeconds" (Itoa n))
    ++ omit_if (negb (op_Force op)) (json_field "force" (json_bool (op_Force op)))
    ++ omitempty (op_TargetUID op) (json_field "targetUID" (json_string (op_TargetUID op)))
    ++ omitempty (op_ResourceVersion op) (json_field "resourceVersion" (json_string (op_ResourceVersion op)))
    ++ omit_if (negb (op_ExpectedAbsent op)) (json_field "expectedAbsent" (json_bool (op_ExpectedAbsent op)))
    ++ [json_field "generation" (Itoa (op_Generation op))]) "," +:+ "}")).

(** What a call of [Create] draws and reads: the random bytes of the ID, the
    random number of the code, and the clock before pruning and at the
    computation of the expiry. *)
Record draw := {
  dr_id : result go_error (list N);
  dr_code : result go_error Z;
  dr_now : Z;
  dr_later : Z
}.

Definition operation_size (data : string) : Z :=
  wrap64 (Z.of_nat (String.length data) * planStoreSizeSafetyFactor).

Definition PlanStore_Create (s : PlanStore) (d : draw) (subject : string) (operation : Operation)
    : PlanStore * result go_error (string * string * Z) :=
  match operation_json operation with
  | None => (s, Err (Wrapped "measure plan" (OtherError "json: unsupported value")))
  | Some data =>
    let bytes := operation_size data in
    match randomPlanID (dr_id d) with
    | Err err => (s, Err err)
    | Ok id =>
      match randomConfirmationCode (dr_code d) with
      | Err err => (s, Err err)
      | Ok confirmationCode =>
        let s := prune (dr_now d) s in
        if (capacity s <=? Z.of_nat (size (plans s)))%Z then
          (s, Err (policyError "plan_capacity" "too many pending plans"))
        else if (maxBytes s <? bytes)%Z || (wrap64 (maxBytes s - bytes) <? usedBytes s)%Z then
          (s, Err (policyError "plan_capacity" "pending plans exceed the server memory budget"))
        else
        let subjectLimit := Z.max (maxSubjectBytes s) bytes in
        let used := default 0%Z (subjectBytes s !! subject) in
        if (wrap64 (subjectLimit - bytes) <? used)%Z then
          (s, Err (policyError "plan_capacity" "this Kubernetes identity has too many pending plan bytes"))
        else
        let expires := (dr_later d + planTTL)%Z in
        let plan := {|
          sp_Operation := operation; sp_SubjectKey := subject; sp_ExpiresAt := expires; sp_Size := bytes;
          sp_ConfirmationHash := confirmationHash id confirmationCode; sp_ConfirmationFailures := 0 |} in
        (with_plans s (<[id := plan]> (plans s)) (wrap64 (usedBytes s + bytes))
           (<[subject := wrap64 (used + bytes)]> (subjectBytes s)),
         Ok (id, confirmationCode, expires))
      end
    end
  end.
End planstore.

(** [plan.ConfirmationFailures++] and [s.plans[id] = plan]. *)
Definition failed_once (plan : storedPlan) : storedPlan := {|
  sp_Operation := sp_Operation plan; sp_SubjectKey := sp_SubjectKey plan;
  sp_ExpiresAt := sp_ExpiresAt plan; sp_Size := sp_Size plan;
  sp_ConfirmationHash := sp_ConfirmationHash plan;
  sp_ConfirmationFailures := wrap64 (sp_ConfirmationFailures plan + 1)
|}.

Definition PlanStore_Consume (s : PlanStore) (now : Z) (id subject confirmationCode : string)
    : PlanStore * result go_error Operation :=
  if bool_decide (confirmationCode = "") then
    (s, Err (policyError "confirmation_required" "a human confirmation code is required"))
  else if negb (validConfirmationCode confirmationCode) then
    (s, Err (policyError "invalid_confirmation" "confirmation code must be exactly six digits"))
  else
  match plans s !! id with
  | None => (s, Err (policyError "invalid_plan" "plan does not exist or has already been used"))
  | Some plan =>
    if After now (sp_ExpiresAt plan) then
      (delete_ s id plan, Err (policyError "expired_plan" "plan has expired"))
    else if bool_decide (sp_SubjectKey plan <> subject) then
      (s, Err (policyError "identity_mismatch" "plan belongs to a different Kubernetes identity"))
    else
    let expected := confirmationHash id confirmationCode in
    if bool_decide (sp_ConfirmationHash plan <> expected) then
      let plan := failed_once plan in
      if (confirmationMaxAttempts <=? sp_ConfirmationFailures plan)%Z then
        (delete_ s id plan,
         Err (policyError "confirmation_locked" "too many incorrect confirmation attempts; create a new plan"))
      else
        (with_plans s (<[id := plan]> (plans s)) (usedBytes s) (subjectBytes s),
         Err (policyError "invalid_confirmation" "confirmation code is incorrect"))
    else (delete_ s id plan, Ok (sp_Operation plan))
  end.

Definition isRemote (s : PlanStore) (id subject : string) : bool :=
  match plans s !! id with
  | None => false
  | Some plan =>
    bool_decide (sp_SubjectKey plan = subject) &&
    (bool_decide (a_Action (op_Action (sp_Operation plan)) = "exec")
     || bool_decide (a_Action (op_Action (sp_Operation plan)) = "attach"))
  end.

(** ** Runs of the store *)

Inductive command :=
| DoCreate (d : draw) (subject : string) (operation : Operation)
| DoConsume (now : Z) (id subject code : string).

Inductive response :=
| Created (r : result go_error (string * string * Z))
| Consumed (r : result go_error Operation).

Section runs.
Context {G : GoLib}.

Definition store_step (s : PlanStore) (c : command) : PlanStore * response :=
  match c with
  | DoCreate d subject operation => let '(s', r) := PlanStore_Create s d subject operation in (s', Created r)
  | DoConsume now id subject code => let '(s', r) := PlanStore_Consume s now id subject code in (s', Consumed r)
  end.

Fixpoint run (s : PlanStore) (cs : list command) : PlanStore * list response :=
  match cs with
  | [] => (s, [])
  | c :: cs' =>
    let '(s1, r) := store_step s c in
    let '(s2, rs) := run s1 cs' in (s2, r :: rs)
  end.

(** [crypto/rand] does not draw the ID of a live plan again, and the JSON
    text of an operation fits the address space. *)
Definition fresh_draw (s : PlanStore) (c : command) : Prop :=
  match c with
  | DoCreate d _ operation =>
    (forall id, randomPlanID (dr_id d) = Ok id -> plans s !! id = None) /\
    (forall data, operation_json operation = Some data ->
       (Z.of_nat (String.length data) * planStoreSizeSafetyFactor <= int64_max)%Z)
  | _ => True
  end.

Inductive reachable (cap : Z) : PlanStore -> Prop :=
| reach_new : reachable cap (NewPlanStore cap)
| reach_step s c : reachable cap s -> fresh_draw s c -> reachable cap (store_step s c).1.
End runs.

(** ** The accounting invariant *)

(** The bytes of the plans that satisfy [P]. *)
Definition total (P : storedPlan -> bool) (m : gmap string storedPlan) : Z :=
  map_sum (fun p => if P p then sp_Size p else 0%Z) m.
Definition everyone (_ : storedPlan) : bool := true.
Definition owned (subject : string) (p : storedPlan) : bool := bool_decide (sp_SubjectKey p = subject).

Definition plan_ok (p : storedPlan) : Prop :=
  (0 < sp_Size p)%Z /\ (0 <= sp_ConfirmationFailures p < confirmationMaxAttempts)%Z.

Record store_inv (s : PlanStore) : Prop := {
  inv_used : usedBytes s = total everyone (plans s);
  inv_subject subject : default 0%Z (subjectBytes s !! subject) = total (owned subject) (plans s);
  inv_positive : map_Forall (fun _ n => (0 < n)%Z) (subjectBytes s);
  inv_plans : map_Forall (fun _ p => plan_ok p) (plans s);
  inv_capacity : (Z.of_nat (size (plans s)) <= Z.max 0 (capacity s))%Z;
  inv_budget : (usedBytes s <= maxBytes s)%Z;
  inv_max : (0 <= maxBytes s <= int64_max)%Z;
  inv_max_subject : (0 <= maxSubjectBytes s <= int64_max)%Z;
  (** One identity stays below its share, or has a single plan. *)
  inv_share subject :
    (total (owned subject) (plans s) <= maxSubjectBytes s)%Z \/
    forall i j p q, plans s !! i = Some p -> plans s !! j = Some q ->
      sp_SubjectKey p = subject -> sp_SubjectKey q = subject -> i = j
}.

(** ** Lemmas on totals *)

Lemma total_insert P m i p :
  m !! i = None -> total P (<[i := p]> m) = ((if P p then sp_Size p else 0) + total P m)%Z.
Proof. apply map_sum_insert. Qed.

Lemma total_delete P m i p :
  m !! i = Some p -> total P m = ((if P p then sp_Size p else 0) + total P (delete i m))%Z.
Proof. apply map_sum_delete. Qed.

Lemma total_empty P : total P ∅ = 0%Z.
Proof. apply map_sum_empty. Qed.

(** Replacing a plan by one of the same owner and size changes no total. *)
Lemma total_update P m i p q :
  m !! i = Some p -> sp_Size q = sp_Size p -> P q = P p -> total P (<[i := q]> m) = total P m.
Proof. intros Hi Hs HP. unfold total. rewrite (map_sum_update _ _ _ p), HP, Hs by done. lia. Qed.

Lemma total_bounds P m :
  map_Forall (fun _ p => plan_ok p) m -> (0 <= total P m <= total everyone m)%Z.
Proof.
  intros Hm. split; [apply map_sum_nonneg|apply map_sum_le];
    eapply map_Forall_impl; try exact Hm; intros i p [? _]; cbn; destruct (P p); lia.
Qed.

Lemma total_lookup_le P m i p :
  map_Forall (fun _ p => plan_ok p) m -> m !! i = Some p -> P p = true -> (sp_Size p <= total P m)%Z.
Proof.
  intros Hm Hi HP. pose proof (map_sum_lookup_le (fun p => if P p then sp_Size p else 0%Z) m i p) as H.
  cbn in H. rewrite HP in H. apply H; [|done].
  eapply map_Forall_impl; [exact Hm|]. intros j q [? _]; cbn. destruct (P q); lia.
Qed.

Lemma total_zero P m :
  map_Forall (fun _ p => plan_ok p) m -> (total P m <= 0)%Z ->
  forall i p, m !! i = Some p -> P p = false.
Proof.
  intros Hm Ht i p Hi. destruct (P p) eqn:HP; [|done].
  pose proof (total_lookup_le P m i p Hm Hi HP). destruct (Hm i p Hi). lia.
Qed.

(** Within the invariant no counter leaves the [int64] range. *)
Lemma inv_range s subject :
  store_inv s ->
  (0 <= total (owned subject) (plans s) <= usedBytes s)%Z /\ (0 <= usedBytes s <= int64_max)%Z.
Proof.
  intros I. destruct I as [Hu _ _ Hp _ Hb Hm _ _].
  pose proof (total_bounds (owned subject) _ Hp). pose proof (total_bounds everyone _ Hp). lia.
Qed.

(** ** The invariant is preserved *)

(** [delete] of a plan that is in the store, or of its copy after a failed attempt. *)
Lemma delete_inv s id p0 p :
  store_inv s -> plans s !! id = Some p0 ->
  sp_Size p = sp_Size p0 -> sp_SubjectKey p = sp_SubjectKey p0 ->
  store_inv (delete_ s id p) /\ plans (delete_ s id p) = delete id (plans s).
Proof.
  intros I Hid Hs Hk. split; [|done]. pose proof I as [Hu Hsub Hpos Hp Hc Hb Hm Hms Hsh].
  assert (0 < sp_Size p0 <= total (owned (sp_SubjectKey p0)) (plans s))%Z as Hsz.
  { split; [apply (Hp _ _ Hid)|]. apply (total_lookup_le _ _ id); try done. unfold owned. by case_bool_decide. }
  destruct (inv_range s (sp_SubjectKey p0) I) as [Hr1 Hr2].
  assert (forall P, total P (delete id (plans s)) = total P (plans s) - (if P p0 then sp_Size p0 else 0))%Z as Hdel.
  { intros P. rewrite (total_delete P (plans s) id p0 Hid). lia. }
  unfold delete_. rewrite Hs, Hk, Hsub, !wrap64_id by (unfold int64_ok, int64_min in *; lia).
  split; cbn [plans usedBytes subjectBytes with_plans capacity maxBytes maxSubjectBytes]; try done.
  - rewrite Hdel. unfold everyone at 2. lia.
  - intros sub. rewrite Hdel. change (owned sub p0) with (bool_decide (sp_SubjectKey p0 = sub)). case_bool_decide as Hsk.
    + subst sub. destruct (Z.leb_spec (total (owned (sp_SubjectKey p0)) (plans s) - sp_Size p0) 0).
      * rewrite lookup_delete_eq. cbn. lia.
      * by rewrite lookup_insert_eq.
    + destruct (_ <=? 0)%Z; rewrite ?lookup_delete_ne, ?lookup_insert_ne by done; rewrite Hsub; lia.
  - destruct (Z.leb_spec (total (owned (sp_SubjectKey p0)) (plans s) - sp_Size p0) 0).
    + by apply map_Forall_delete.
    + apply map_Forall_insert_2; [lia|done].
  - by apply map_Forall_delete.
  - rewrite map_size_delete, Hid. lia.
  - lia.
  - intros sub. destruct (Hsh sub) as [Hle|Hone].
    + left. rewrite Hdel. destruct (owned sub p0); lia.
    + right. intros i j p' q Hi Hj. apply lookup_delete_Some in Hi as [_ Hi], Hj as [_ Hj]. eauto.
Qed.

(** A failed attempt is recorded in place. *)
Lemma failed_inv s id p :
  store_inv s -> plans s !! id = Some p ->
  (sp_ConfirmationFailures (failed_once p) < confirmationMaxAttempts)%Z ->
  store_inv (with_plans s (<[id := failed_once p]> (plans s)) (usedBytes s) (subjectBytes s)).
Proof.
  intros [Hu Hsub Hpos Hp Hc Hb Hm Hms Hsh] Hid Hf.
  assert (forall P, (forall q, P (failed_once q) = P q) -> total P (<[id := failed_once p]> (plans s)) = total P (plans s)) as Ht.
  { intros P HP. by apply (total_update P _ _ p). }
  destruct (Hp _ _ Hid) as [? Hfail]. unfold confirmationMaxAttempts in *.
  split; cbn [plans usedBytes subjectBytes with_plans capacity maxBytes maxSubjectBytes]; try done.
  - by rewrite Ht.
  - intros sub. by rewrite Ht.
  - apply map_Forall_insert_2; [|done]. split; [done|].
    unfold failed_once in *. cbn [sp_ConfirmationFailures sp_Size] in *.
    rewrite wrap64_id in * by (unfold int64_ok, int64_min, int64_max; lia). unfold confirmationMaxAttempts. lia.
  - rewrite map_size_insert, Hid. cbn. lia.
  - intros sub. rewrite Ht by done. destruct (Hsh sub) as [|Hone]; [by left|right].
    intros i j p' q Hi Hj.
    assert (forall k r, <[id := failed_once p]> (plans s) !! k = Some r ->
              exists r', plans s !! k = Some r' /\ sp_SubjectKey r' = sp_SubjectKey r) as Hback.
    { intros k r Hk. destruct (decide (id = k)) as [<-|]; [rewrite lookup_insert_eq in Hk|rewrite lookup_insert_ne in Hk by done]; [|eauto].
      injection Hk as <-. eauto. }
    destruct (Hback _ _ Hi) as (? & ? & <-), (Hback _ _ Hj) as (? & ? & <-). eauto.
Qed.

Lemma consume_inv s now id subject code :
  store_inv s -> store_inv (PlanStore_Consume s now id subject code).1.
Proof.
  intros I. unfold PlanStore_Consume.
  destruct (bool_decide _); [done|]. destruct (negb _); [done|].
  destruct (plans s !! id) as [p|] eqn:Hid; [|done].
  destruct (After _ _); [by eapply delete_inv|].
  destruct (bool_decide (_ <> subject)); [done|].
  destruct (bool_decide _); [|by eapply delete_inv].
  destruct (Z.leb_spec confirmationMaxAttempts (sp_ConfirmationFailures (failed_once p))); cbn [fst].
  - by eapply delete_inv.
  - by apply failed_inv.
Qed.

(** ** Pruning *)

(** Pruning in any order [order] of the store's entries. *)
Lemma prune_in_spec order now s :
  store_inv s -> NoDup order.*1 -> (forall i p, (i, p) ∈ order -> plans s !! i = Some p) ->
  store_inv (prune_in order now s) /\
  forall i p, plans (prune_in order now s) !! i = Some p <->
    plans s !! i = Some p /\ ((i, p) ∈ order -> After now (sp_ExpiresAt p) = false).
Proof.
  revert s. induction order as [|[k q] order IH]; intros s I Hnd Hin.
  { split; [done|]. intros i p. split; [|by intros [? _]]. split; [done|]. by intros ?%elem_of_nil. }
  rewrite fmap_cons in Hnd. apply NoDup_cons in Hnd as [Hk Hnd]. cbn [fst] in Hk.
  change (prune_in ((k, q) :: order) now s) with (prune_in order now (prune_one now s (k, q))).
  unfold prune_one; cbn [fst snd].
  assert (plans s !! k = Some q) as Hq by (apply Hin; set_solver).
  assert (forall i p, (i, p) ∈ order -> i <> k) as Hne.
  { intros i p Hi ->. apply Hk. by apply (list_elem_of_fmap_2 fst) in Hi. }
  destruct (After now (sp_ExpiresAt q)) eqn:E.
  - destruct (delete_inv s k q q I Hq eq_refl eq_refl) as [I' HP].
    destruct (IH (delete_ s k q) I' Hnd) as [IH1 IH2].
    { intros i p Hi. rewrite HP. rewrite lookup_delete_ne; [apply Hin; set_solver|]. intros <-. by eapply Hne. }
    split; [done|]. intros i p. rewrite IH2, HP, lookup_delete_Some. split.
    + intros [[? ?] ?]. split; [done|]. intros [?|]%elem_of_cons; [naive_solver|auto].
    + intros [Hi Hl]. split; [|set_solver]. split; [|done]. intros <-.
      rewrite Hq in Hi. injection Hi as <-. rewrite Hl in E; [done|set_solver].
  - destruct (IH s I Hnd) as [IH1 IH2]; [set_solver|]. split; [done|].
    intros i p. rewrite IH2. split; [|set_solver].
    intros [? ?]. split; [done|]. intros [[= -> ->]|]%elem_of_cons; auto.
Qed.

Lemma prune_in_consts order now s :
  capacity (prune_in order now s) = capacity s /\ maxBytes (prune_in order now s) = maxBytes s /\
  maxSubjectBytes (prune_in order now s) = maxSubjectBytes s.
Proof.
  revert s. induction order as [|e order IH]; intros s; [done|]. cbn [prune_in foldl].
  destruct (IH (prune_one now s e)) as (? & ? & ?). unfold prune_in in *.
  unfold prune_one in *. destruct (After _ _); auto.
Qed.

(** A permutation of the entries qualifies as an order. *)
Lemma order_ok s order :
  order ≡ₚ map_to_list (plans s) ->
  NoDup order.*1 /\ forall i p, (i, p) ∈ order <-> plans s !! i = Some p.
Proof.
  intros Ho. split; [rewrite Ho; apply NoDup_fst_map_to_list|].
  intros i p. rewrite Ho. apply elem_of_map_to_list.
Qed.

Lemma prune_order_spec order now s :
  store_inv s -> order ≡ₚ map_to_list (plans s) ->
  store_inv (prune_in order now s) /\
  plans (prune_in order now s) = filter (fun e => After now (sp_ExpiresAt e.2) = false) (plans s).
Proof.
  intros I [Hnd Hin]%order_ok.
  destruct (prune_in_spec order now s I Hnd) as [I' HP]; [by intros; apply Hin|].
  split; [done|]. apply map_eq. intros i. apply option_eq. intros p.
  rewrite HP, map_lookup_filter_Some, Hin. cbn. naive_solver.
Qed.

(** Two stores within the invariant and with the same plans agree on the counters. *)
Lemma store_inv_determines s t :
  store_inv s -> store_inv t -> plans s = plans t ->
  capacity s = capacity t -> maxBytes s = maxBytes t -> maxSubjectBytes s = maxSubjectBytes t -> s = t.
Proof.
  intros [Hu Hs Hp _ _ _ _ _ _] [Hu' Hs' Hp' _ _ _ _ _ _] E ? ? ?.
  assert (subjectBytes s = subjectBytes t) as Es.
  { apply map_eq. intros k. pose proof (Hs k) as A. pose proof (Hs' k) as B. rewrite E in A. rewrite <- B in A.
    destruct (subjectBytes s !! k) eqn:X, (subjectBytes t !! k) eqn:Y; cbn in A; subst; try done;
      [apply Hp in X|apply Hp' in Y]; lia. }
  rewrite E, <- Hu' in Hu. destruct s, t; cbn in *; by subst.
Qed.

(** ** Creation *)

Lemma operation_json_nonempty `{GoLib} op data : operation_json op = Some data -> 0 < String.length data.
Proof.
  unfold operation_json. intros (obj & _ & (patch & _ & E)%bind_Some)%bind_Some. injection E as <-.
  rewrite length_append. cbn. lia.
Qed.

Lemma insert_inv s id p :
  store_inv s -> plans s !! id = None -> plan_ok p ->
  (Z.of_nat (size (plans s)) < capacity s)%Z ->
  (usedBytes s + sp_Size p <= maxBytes s)%Z ->
  (total (owned (sp_SubjectKey p)) (plans s) + sp_Size p <= Z.max (maxSubjectBytes s) (sp_Size p))%Z ->
  let used := default 0%Z (subjectBytes s !! sp_SubjectKey p) in
  store_inv (with_plans s (<[id := p]> (plans s)) (wrap64 (usedBytes s + sp_Size p))
               (<[sp_SubjectKey p := wrap64 (used + sp_Size p)]> (subjectBytes s))).
Proof.
  intros I Hid Hp Hcap Hbud Hlim used.
  destruct (inv_range s (sp_SubjectKey p) I) as [Hr1 Hr2].
  pose proof Hp as [Hpos _]. pose proof I as [Hu Hsub Hpo Hpl Hc Hb Hm Hms Hsh].
  unfold used. rewrite Hsub, !wrap64_id by (unfold int64_ok, int64_min, int64_max in *; lia).
  assert (forall P, total P (<[id := p]> (plans s)) = (if P p then sp_Size p else 0) + total P (plans s))%Z as Hins
    by (intros; by apply total_insert).
  split; cbn [plans usedBytes subjectBytes with_plans capacity maxBytes maxSubjectBytes]; try done.
  - rewrite Hins. unfold everyone at 1. lia.
  - intros sub. rewrite Hins. change (owned sub p) with (bool_decide (sp_SubjectKey p = sub)).
    case_bool_decide as Hsk; [subst sub; rewrite lookup_insert_eq; cbn; lia|].
    rewrite lookup_insert_ne by done. rewrite Hsub. lia.
  - apply map_Forall_insert_2; [lia|done].
  - by apply map_Forall_insert_2.
  - rewrite map_size_insert, Hid. lia.
  - intros sub. rewrite Hins. change (owned sub p) with (bool_decide (sp_SubjectKey p = sub)).
    case_bool_decide as Hsk.
    + subst sub. destruct (Z.le_gt_cases (sp_Size p + total (owned (sp_SubjectKey p)) (plans s)) (maxSubjectBytes s)); [by left|right].
      assert (forall i q, <[id := p]> (plans s) !! i = Some q -> sp_SubjectKey q = sp_SubjectKey p -> i = id) as Honly.
      { intros i q Hi Hk. destruct (decide (id = i)) as [<-|]; [done|]. rewrite lookup_insert_ne in Hi by done.
        assert (owned (sp_SubjectKey p) q = false) as Hf by (eapply total_zero; [exact Hpl|lia|exact Hi]).
        unfold owned in Hf. by apply bool_decide_eq_false in Hf. }
      intros i j q r Hi Hj Hq Hr. rewrite (Honly i q), (Honly j r); done.
    + destruct (Hsh sub) as [|Hone]; [left; lia|right].
      intros i j q r Hi Hj Hq Hr. apply (Hone i j q r); try done;
        [destruct (decide (id = i)) as [<-|]; [rewrite lookup_insert_eq in Hi|by rewrite lookup_insert_ne in Hi]
        |destruct (decide (id = j)) as [<-|]; [rewrite lookup_insert_eq in Hj|by rewrite lookup_insert_ne in Hj]]; congruence.
Qed.

Lemma prune_spec now s :
  store_inv s ->
  store_inv (prune now s) /\
  plans (prune now s) = filter (fun e => After now (sp_ExpiresAt e.2) = false) (plans s).
Proof. intros I. by apply prune_order_spec. Qed.

(** What [Create] does, branch by branch. *)
Definition new_plan (id code subject : string) (operation : Operation) (bytes expires : Z) : storedPlan := {|
  sp_Operation := operation; sp_SubjectKey := subject; sp_ExpiresAt := expires; sp_Size := bytes;
  sp_ConfirmationHash := confirmationHash id code; sp_ConfirmationFailures := 0
|}.

Section create.
Context {G : GoLib}.

Lemma create_cases s d subject operation :
  (exists e, PlanStore_Create s d subject operation = (s, Err e) /\
     forall r m, e <> ToolError r m) \/
  (exists m, PlanStore_Create s d subject operation = (prune (dr_now d) s, Err (ToolError "plan_capacity" m))) \/
  (exists data id code,
     operation_json operation = Some data /\ randomPlanID (dr_id d) = Ok id /\
     randomConfirmationCode (dr_code d) = Ok code /\
     let s1 := prune (dr_now d) s in
     let bytes := operation_size data in
     let p := new_plan id code subject operation bytes (dr_later d + planTTL) in
     let used := default 0%Z (subjectBytes s1 !! subject) in
     (Z.of_nat (size (plans s1)) < capacity s1)%Z /\ (bytes <= maxBytes s1)%Z /\
     (usedBytes s1 <= wrap64 (maxBytes s1 - bytes))%Z /\
     (used <= wrap64 (Z.max (maxSubjectBytes s1) bytes - bytes))%Z /\
     PlanStore_Create s d subject operation =
       (with_plans s1 (<[id := p]> (plans s1)) (wrap64 (usedBytes s1 + bytes))
          (<[subject := wrap64 (used + bytes)]> (subjectBytes s1)),
        Ok (id, code, (dr_later d + planTTL)%Z))).
Proof.
  unfold PlanStore_Create.
  destruct (operation_json operation) as [data|]; [|left; by eexists].
  destruct (dr_id d) as [b|e]; [|left; by eexists]. cbn [randomPlanID].
  destruct (dr_code d) as [n|e]; [|left; by eexists]. cbn [randomConfirmationCode].
  destruct (Z.leb_spec (capacity (prune (dr_now d) s)) (Z.of_nat (size (plans (prune (dr_now d) s)))));
    [right; left; by eexists|].
  destruct (_ || _) eqn:E; [right; left; by eexists|].
  destruct (wrap64 _ <? default _ _)%Z eqn:E2; [right; left; by eexists|].
  right; right. reflect_bools. do 3 eexists. do 3 (split; [done|]). cbn zeta. split_and!; [lia..|done].
Qed.

(** What a successful [Create] stored. *)
Lemma create_ok s d subject operation s' id code t :
  PlanStore_Create s d subject operation = (s', Ok (id, code, t)) ->
  t = (dr_later d + planTTL)%Z /\ randomConfirmationCode (dr_code d) = Ok code /\
  exists bytes, plans s' !! id = Some (new_plan id code subject operation bytes t).
Proof.
  intros Hc.
  destruct (create_cases s d subject operation) as [(e & He & _)|[(m & He)|(data & i & c & _ & Hi & Hcode & X)]]; [congruence..|].
  cbn zeta in X. destruct X as (_ & _ & _ & _ & He). rewrite He in Hc. injection Hc as <- <- <- <-.
  split_and!; [done..|]. eexists. cbn [plans with_plans]. by rewrite lookup_insert_eq.
Qed.

Lemma create_inv s d subject operation :
  store_inv s -> fresh_draw s (DoCreate d subject operation) ->
  store_inv (PlanStore_Create s d subject operation).1.
Proof.
  intros I [Hfresh Hfits]. destruct (prune_spec (dr_now d) s I) as [I1 HP1].
  destruct (create_cases s d subject operation) as [(e & -> & _)|[(m & ->)|(data & id & code & Hd & Hid & _ & H)]];
    [done|done|].
  cbn zeta in H. destruct H as (Hc & Hb & Hu & Hs & ->). cbn [fst].
  pose proof (operation_json_nonempty _ _ Hd) as Hlen. specialize (Hfits _ Hd).
  destruct (inv_range _ subject I1) as [Hr1 Hr2]. pose proof I1 as [_ Hsub _ _ _ _ Hm Hms _].
  assert (operation_size data = Z.of_nat (String.length data) * planStoreSizeSafetyFactor)%Z as Hsz.
  { unfold operation_size. apply wrap64_id. unfold int64_ok, int64_min, planStoreSizeSafetyFactor in *. lia. }
  unfold planStoreSizeSafetyFactor in *.
  unfold int64_max in *.
  rewrite wrap64_id in Hu by (unfold int64_ok, int64_min, int64_max; lia).
  rewrite wrap64_id in Hs by (unfold int64_ok, int64_min, int64_max; lia).
  apply (insert_inv _ id (new_plan id code subject operation (operation_size data) (dr_later d + planTTL)));
    cbn [sp_Size sp_SubjectKey new_plan]; try done.
  - rewrite HP1. apply map_lookup_filter_None. left. by apply Hfresh.
  - split; cbn; unfold confirmationMaxAttempts; lia.
  - lia.
  - rewrite Hsub in Hs. lia.
Qed.

Lemma new_store_inv cap : store_inv (NewPlanStore cap).
Proof.
  split; cbn [NewPlanStore plans usedBytes subjectBytes capacity maxBytes maxSubjectBytes];
    rewrite ?map_size_empty; try exact (map_Forall_empty _); try (split; done); try done.
  - lia.
  - intros subject. left. by rewrite total_empty.
Qed.

Lemma reachable_inv cap s : reachable cap s -> store_inv s.
Proof.
  induction 1 as [|s c _ IH Hf]; [apply new_store_inv|].
  destruct c as [d subject op|now id subject code]; cbn [store_step].
  - destruct (PlanStore_Create s d subject op) eqn:E. cbn. change p with (p, r).1. rewrite <- E. by apply create_inv.
  - destruct (PlanStore_Consume s now id subject code) eqn:E. cbn. change p with (p, r).1. rewrite <- E. by apply consume_inv.
Qed.
End create.

(** ** What the store promises

    A pending plan is an operation, its owner, its code, its expiry and the
    number of codes that may still be tried.  The abstract store holds the
    code itself, keeps no byte counters and may refuse to create. *)
Record pending := {
  pd_operation : Operation;
  pd_owner : string;
  pd_code : string;
  pd_expires : Z;
  pd_attempts : Z
}.
Abbreviation spec_store := (gmap string pending).

Definition spec_prune (now : Z) (m : spec_store) : spec_store :=
  filter (fun e => After now (pd_expires e.2) = false) m.

Definition one_attempt_less (p : pending) : pending := {|
  pd_operation := pd_operation p; pd_owner := pd_owner p; pd_code := pd_code p;
  pd_expires := pd_expires p; pd_attempts := pd_attempts p - 1
|}.

Inductive spec_create (m : spec_store) (d : draw) (subject : string) (operation : Operation) :
  spec_store -> result go_error (string * string * Z) -> Prop :=
| spec_refuse e : (forall r t, e <> ToolError r t) -> spec_create m d subject operation m (Err e)
| spec_full text :
    spec_create m d subject operation (spec_prune (dr_now d) m) (Err (ToolError "plan_capacity" text))
| spec_created id code :
    randomPlanID (dr_id d) = Ok id -> randomConfirmationCode (dr_code d) = Ok code ->
    let expires := (dr_later d + planTTL)%Z in
    spec_create m d subject operation
      (<[id := {| pd_operation := operation; pd_owner := subject; pd_code := code;
                  pd_expires := expires; pd_attempts := confirmationMaxAttempts |}]> (spec_prune (dr_now d) m))
      (Ok (id, code, expires)).

(** [None] is success; the other outcomes are named by the error code the client sees. *)
Definition spec_consume (m : spec_store) (now : Z) (id subject code : string) : spec_store * result string Operation :=
  if bool_decide (code = "") then (m, Err "confirmation_required")
  else if negb (validConfirmationCode code) then (m, Err "invalid_confirmation")
  else match m !! id with
       | None => (m, Err "invalid_plan")
       | Some p =>
         if (pd_expires p <? now)%Z then (delete id m, Err "expired_plan")
         else if bool_decide (pd_owner p <> subject) then (m, Err "identity_mismatch")
         else if bool_decide (pd_code p = code) then (delete id m, Ok (pd_operation p))
         else if (pd_attempts p <=? 1)%Z then (delete id m, Err "confirmation_locked")
         else (<[id := one_attempt_less p]> m, Err "invalid_confirmation")
       end.

(** The reason a client is told. *)
Definition outcome {A} (r : result go_error A) : result string A :=
  match r with
  | Ok a => Ok a
  | Err e => Err (match as_toolError e with Some (reason, _) => reason | None => "" end)
  end.

Definition plan_rel (id : string) (c : storedPlan) (p : pending) : Prop :=
  sp_Operation c = pd_operation p /\ sp_SubjectKey c = pd_owner p /\ sp_ExpiresAt c = pd_expires p /\
  sp_ConfirmationHash c = confirmationHash id (pd_code p) /\
  sp_ConfirmationFailures c = (confirmationMaxAttempts - pd_attempts p)%Z.

(** The concrete store represents the abstract one. *)
Definition represents (s : PlanStore) (m : spec_store) : Prop :=
  forall id, option_Forall2 (plan_rel id) (plans s !! id) (m !! id).

Lemma represents_delete s m id p : represents s m -> represents (delete_ s id p) (delete id m).
Proof.
  intros R i. cbn. destruct (decide (id = i)) as [<-|].
  - rewrite !lookup_delete_eq. constructor.
  - by rewrite !lookup_delete_ne.
Qed.

Lemma represents_insert s m id c p used subjects :
  represents s m -> plan_rel id c p ->
  represents (with_plans s (<[id := c]> (plans s)) used subjects) (<[id := p]> m).
Proof.
  intros R Hp i. cbn. destruct (decide (id = i)) as [<-|].
  - rewrite !lookup_insert_eq. by constructor.
  - by rewrite !lookup_insert_ne.
Qed.

Lemma represents_prune s m now :
  store_inv s -> represents s m -> represents (prune now s) (spec_prune now m).
Proof.
  intros I R i. destruct (prune_spec now s I) as [_ ->]. unfold spec_prune.
  rewrite !map_lookup_filter. destruct (R i) as [c p (Ho & Hs & He & Hh & Hf)|]; cbn; [|constructor].
  rewrite He. repeat case_guard; cbn; try done; constructor. by split_and!.
Qed.

Lemma consume_refines_aux s m now id subject code :
  store_inv s -> represents s m ->
  let '(s', r) := PlanStore_Consume s now id subject code in
  let '(m', r') := spec_consume m now id subject code in
  (outcome r = r' /\ represents s' m') \/
  exists p, m !! id = Some p /\ validConfirmationCode code = true /\ pd_code p <> code /\
    confirmationHash id (pd_code p) = confirmationHash id code.
Proof.
  intros I R. unfold PlanStore_Consume, spec_consume.
  destruct (bool_decide (code = "")); [by left|]. destruct (validConfirmationCode code) eqn:Hval; cbn [negb]; [|by left].
  pose proof (R id) as Rid. destruct (plans s !! id) as [c|] eqn:Ec, (m !! id) as [p|] eqn:Ep;
    inversion Rid as [? ? (Ho & Hs & He & Hh & Hf)|]; subst; [|by left].
  unfold After. rewrite He. destruct (_ <? now)%Z; [left; split; [reflexivity|by apply represents_delete]|].
  rewrite Hs. destruct (bool_decide (pd_owner p <> subject)); [by left|].
  destruct (inv_plans _ I _ _ Ec) as [_ Hb]. rewrite Hh.
  destruct (decide (pd_code p = code)) as [Hc|Hc].
  { rewrite (bool_decide_false (_ <> _)), (bool_decide_true (pd_code p = code)) by (rewrite Hc; tauto).
    left. split; [cbn [outcome]; by rewrite Ho|by apply represents_delete]. }
  rewrite (bool_decide_false (pd_code p = code)) by done.
  case_bool_decide as Hne.
  - unfold failed_once at 1. cbn [sp_ConfirmationFailures]. unfold confirmationMaxAttempts in *.
    rewrite wrap64_id by (unfold int64_ok, int64_min, int64_max; lia). rewrite Hf.
    destruct (Z.leb_spec 5 (5 - pd_attempts p + 1)), (Z.leb_spec (pd_attempts p) 1); try lia.
    + left. split; [reflexivity|by apply represents_delete].
    + left. split; [reflexivity|]. apply represents_insert; [done|].
      unfold failed_once, plan_rel, one_attempt_less, confirmationMaxAttempts.
      cbn [sp_Operation sp_SubjectKey sp_ExpiresAt sp_ConfirmationHash sp_ConfirmationFailures
           pd_operation pd_owner pd_expires pd_code pd_attempts].
      rewrite wrap64_id by (unfold int64_ok, int64_min, int64_max; lia). rewrite Hf. split_and!; try done. lia.
  - destruct (_ <=? 1)%Z; right; exists p; split_and!; done.
Qed.

Section refinement.
Context {G : GoLib}.

Lemma create_refines_aux s m d subject operation :
  store_inv s -> represents s m ->
  exists m', represents (PlanStore_Create s d subject operation).1 m' /\
    spec_create m d subject operation m' (PlanStore_Create s d subject operation).2.
Proof.
  intros I R.
  destruct (create_cases s d subject operation) as [(e & -> & He)|[(t & ->)|(data & id & code & Hd & Hid & Hcode & H)]].
  - exists m. split; [done|]. by constructor.
  - eexists. split; [by apply represents_prune|]. constructor.
  - cbn zeta in H. destruct H as (_ & _ & _ & _ & ->). eexists.
    split; [|by econstructor]. apply represents_insert; [by apply represents_prune|].
    by unfold plan_rel, new_plan.
Qed.

(** *** Runs of the abstract store *)

Inductive spec_step (m : spec_store) : command -> response -> spec_store -> Prop :=
| spec_step_create d subject operation m' r :
    spec_create m d subject operation m' r -> spec_step m (DoCreate d subject operation) (Created r) m'
| spec_step_consume now id subject code m' r :
    spec_consume m now id subject code = (m', outcome r) -> spec_step m (DoConsume now id subject code) (Consumed r) m'.

Inductive spec_runs (m : spec_store) : list command -> list response -> spec_store -> Prop :=
| spec_runs_nil : spec_runs m [] [] m
| spec_runs_cons c cs r rs m1 m2 :
    spec_step m c r m1 -> spec_runs m1 cs rs m2 -> spec_runs m (c :: cs) (r :: rs) m2.

Fixpoint fresh_run (s : PlanStore) (cs : list command) : Prop :=
  match cs with [] => True | c :: cs' => fresh_draw s c /\ fresh_run (store_step s c).1 cs' end.

(** A submitted code collides: it is a six-digit code other than the one that an earlier answer, among
    [rs0] or in this run, gave out for the same plan, and both have the same SHA-256 hash. *)
Definition collides (rs0 : list response) (cs : list command) (rs : list response) : Prop :=
  exists j now id subject code other t,
    cs !! j = Some (DoConsume now id subject code) /\ Created (Ok (id, other, t)) ∈ rs0 ++ take j rs /\
    validConfirmationCode code = true /\ other <> code /\ confirmationHash id other = confirmationHash id code.

(** The code of every pending plan was given out in an answer. *)
Definition given_out (rs : list response) (m : spec_store) : Prop :=
  forall id p, m !! id = Some p -> exists t, Created (Ok (id, pd_code p, t)) ∈ rs.

Lemma given_out_sub rs r m m' :
  given_out rs m -> (forall id p, m' !! id = Some p -> exists q, m !! id = Some q /\ pd_code q = pd_code p) -> given_out (rs ++ [r]) m'.
Proof.
  intros Hm Hsub id p Hp. destruct (Hsub id p Hp) as (q & Hq & <-). destruct (Hm id q Hq) as [t Ht]. exists t. rewrite elem_of_app. by left.
Qed.

Lemma spec_step_given_out rs m c r m' : given_out rs m -> spec_step m c r m' -> given_out (rs ++ [r]) m'.
Proof.
  intros Hm Hs.
  assert (forall now id p, spec_prune now m !! id = Some p -> exists q, m !! id = Some q /\ pd_code q = pd_code p) as Hprune.
  { intros now id p [Hp _]%map_lookup_filter_Some. by exists p. }
  destruct Hs as [d subject operation m' r Hc|now id subject code m' r Hc].
  - destruct Hc as [e _|text|id code _ _ expires]; [eapply given_out_sub; eauto|eapply given_out_sub; eauto|].
    intros i p Hp. destruct (decide (i = id)) as [->|Hne].
    + rewrite lookup_insert_eq in Hp. injection Hp as <-. eexists. rewrite elem_of_app. right. left.
    + rewrite lookup_insert_ne in Hp by done. eapply (given_out_sub rs _ m); eauto.
  - eapply given_out_sub; [done|]. intros i p Hp. unfold spec_consume in Hc.
    destruct (bool_decide (code = "")); [injection Hc as <- _; eauto|]. destruct (negb _); [injection Hc as <- _; eauto|].
    destruct (m !! id) as [q|] eqn:Eq; [|injection Hc as <- _; eauto].
    destruct (_ <? _)%Z; [injection Hc as <- _; apply lookup_delete_Some in Hp as [_ ?]; eauto|].
    destruct (bool_decide (_ <> subject)); [injection Hc as <- _; eauto|].
    destruct (bool_decide _); [injection Hc as <- _; apply lookup_delete_Some in Hp as [_ ?]; eauto|].
    destruct (_ <=? _)%Z; injection Hc as <- _; [apply lookup_delete_Some in Hp as [_ ?]; eauto|].
    destruct (decide (id = i)) as [->|Hne]; [|rewrite lookup_insert_ne in Hp by done; eauto].
    rewrite lookup_insert_eq in Hp. injection Hp as <-. by exists q.
Qed.

Lemma store_step_inv s c : store_inv s -> fresh_draw s c -> store_inv (store_step s c).1.
Proof.
  intros I Hf. destruct c as [d subject operation|now id subject code]; cbn [store_step].
  - pose proof (create_inv s d subject operation I Hf) as H. by destruct (PlanStore_Create s d subject operation).
  - pose proof (consume_inv s now id subject code I) as H. by destruct (PlanStore_Consume s now id subject code).
Qed.

(** One command: a forward simulation. *)
Lemma store_step_refines rs s m c r :
  store_inv s -> represents s m -> given_out rs m ->
  (exists m', spec_step m c (store_step s c).2 m' /\ represents (store_step s c).1 m') \/ collides rs [c] [r].
Proof.
  intros I R Hg. destruct c as [d subject operation|now id subject code]; cbn [store_step].
  - left. destruct (create_refines_aux s m d subject operation I R) as (m' & Hr & Hs).
    destruct (PlanStore_Create s d subject operation) as [s' r']. exists m'. by split; [constructor|].
  - pose proof (consume_refines_aux s m now id subject code I R) as H.
    destruct (PlanStore_Consume s now id subject code) as [s' r0].
    destruct (spec_consume m now id subject code) as [m' r'] eqn:E. destruct H as [[<- Hr]|(p & Hp & Hv & Hne & Hh)].
    + left. exists m'. by split; [constructor|].
    + right. destruct (Hg id p Hp) as [t Ht]. exists 0, now, id, subject, code, (pd_code p), t. rewrite elem_of_app. by split_and!; [|left|..].
Qed.

Lemma run_refines cs : forall rs s m,
  store_inv s -> represents s m -> given_out rs m -> fresh_run s cs ->
  (exists m', spec_runs m cs (run s cs).2 m' /\ represents (run s cs).1 m') \/ collides rs cs (run s cs).2.
Proof.
  induction cs as [|c cs IH]; intros rs s m I R Hg; cbn [fresh_run run]; [left; exists m; by split; [constructor|]|].
  intros [Hf Hfs]. pose proof (store_step_inv s c I Hf) as I1.
  destruct (store_step_refines rs s m c (store_step s c).2 I R Hg) as [(m1 & Hs1 & R1)|Hc].
  - pose proof (spec_step_given_out _ _ _ _ _ Hg Hs1) as Hg1. destruct (store_step s c) as [s1 r]. cbn [fst snd] in *.
    specialize (IH (rs ++ [r]) s1 m1 I1 R1 Hg1 Hfs). destruct (run s1 cs) as [s2 rs2]. cbn [fst snd] in *.
    destruct IH as [(m2 & Hs2 & R2)|(j & now & id & subject & code & other & t & Hj & Hin & H)]; [left; exists m2; split; [by econstructor|done]|right].
    exists (S j), now, id, subject, code, other, t. split; [done|]. split; [|done]. cbn [take]. by rewrite <- app_assoc in Hin.
  - right. destruct Hc as (j & now & id & subject & code & other & t & Hj & Hin & H).
    apply list_lookup_singleton_Some in Hj as [-> ->]. exists 0, now, id, subject, code, other, t. split; [done|]. split; [|done].
    rewrite elem_of_app in Hin |- *. destruct Hin as [?|[]%elem_of_nil]. by left.
Qed.
End refinement.

(** ** Codes *)

Lemma generated_code_valid n :
  (0 <= n < 900000)%Z -> validConfirmationCode (Itoa (wrap64 (n + 100000))) = true.
Proof.
  intros Hn. rewrite wrap64_id by (unfold int64_ok, int64_min, int64_max; lia). unfold Itoa.
  assert (exists p, (n + 100000)%Z = Z.pos p) as [p Hp] by (exists (Z.to_pos (n + 100000)); lia).
  rewrite Hp. change (pretty (Z.pos p)) with (pretty_N_go (N.pos p) "").
  assert (String.length (pretty_N_go (N.pos p) "") = 6) as Hl.
  { rewrite (length_pretty_N_go 5); [done|]. cbn. lia. }
  assert (all_digits (pretty_N_go (N.pos p) "") = true) as Hd by by apply all_digits_pretty_N_go.
  unfold validConfirmationCode. rewrite Hl. cbn [Nat.eqb negb].
  rewrite runes_ascii by by apply all_digits_ascii.
  eapply forallb_impl; [|exact Hd]. intros x. unfold is_digit, between.
  intros [?%N.leb_le ?%N.leb_le]%andb_true_iff. apply negb_true_iff, orb_false_iff.
  split; apply N.ltb_ge; lia.
Qed.

(** ** Absent plans stay absent *)

Lemma delete_absent s i p id : plans s !! id = None -> plans (delete_ s i p) !! id = None.
Proof. intros H. cbn. apply lookup_delete_None. by right. Qed.

Lemma prune_absent now s id : plans s !! id = None -> plans (prune now s) !! id = None.
Proof.
  unfold prune, prune_in. generalize (map_to_list (plans s)) as order. intros order. revert s.
  induction order as [|e order IH]; intros s H; [done|]. cbn [foldl]. apply IH.
  unfold prune_one. destruct (After _ _); [|done]. by apply delete_absent.
Qed.

Lemma consume_absent s now i subject code id :
  plans s !! id = None -> plans (PlanStore_Consume s now i subject code).1 !! id = None.
Proof.
  intros H. unfold PlanStore_Consume. destruct (bool_decide _); [done|]. destruct (negb _); [done|].
  destruct (plans s !! i) as [p|] eqn:E; [|done].
  destruct (After _ _); [by apply delete_absent|]. destruct (bool_decide (_ <> subject)); [done|].
  destruct (bool_decide _); [|by apply delete_absent].
  destruct (_ <=? _)%Z; [by apply delete_absent|]. cbn [fst plans with_plans].
  rewrite lookup_insert_ne; [done|]. congruence.
Qed.

(** The outcome of one attempt, as a condition on the store. *)
Lemma consume_ok_iff s now id subject code s' op :
  PlanStore_Consume s now id subject code = (s', Ok op) <->
  exists p, plans s !! id = Some p /\ (now <= sp_ExpiresAt p)%Z /\ sp_SubjectKey p = subject /\
    validConfirmationCode code = true /\ sp_ConfirmationHash p = confirmationHash id code /\
    op = sp_Operation p /\ s' = delete_ s id p.
Proof.
  unfold PlanStore_Consume. case_bool_decide as Hc.
  { split; [done|]. intros (p & _ & _ & _ & Hv & _). by subst code. }
  destruct (validConfirmationCode code); cbn [negb]; [|naive_solver].
  destruct (plans s !! id) as [p|]; [|naive_solver].
  unfold After. destruct (Z.ltb_spec (sp_ExpiresAt p) now).
  { split; [done|]. intros (q & [= <-] & ? & _). lia. }
  case_bool_decide as Hs; [naive_solver|].
  case_bool_decide as Hh.
  - destruct (_ <=? _)%Z; (split; [done|]); intros (q & [= <-] & _ & _ & _ & ? & _); done.
  - split.
    + intros [= <- <-]. exists p. by split_and!.
    + intros (q & [= <-] & _ & _ & _ & _ & -> & ->). done.
Qed.

Section absent.
Context {G : GoLib}.

Definition creates (id : string) (r : response) : Prop := exists code t, r = Created (Ok (id, code, t)).

Lemma step_absent s c id :
  plans s !! id = None ->
  plans (store_step s c).1 !! id = None \/ creates id (store_step s c).2.
Proof.
  intros H. destruct c as [d subject op|now i subject code]; cbn [store_step].
  - destruct (create_cases s d subject op) as [(e & -> & _)|[(t & ->)|(data & i & code & Hd & Hi & _ & X)]].
    + by left.
    + left. by apply prune_absent.
    + cbn zeta in X. destruct X as (_ & _ & _ & _ & ->). cbn [fst snd plans with_plans].
      destruct (decide (i = id)) as [->|Hne]; [right; by do 2 eexists|left].
      rewrite lookup_insert_ne by done. by apply prune_absent.
  - left. pose proof (consume_absent s now i subject code id H) as Hc.
    destruct (PlanStore_Consume s now i subject code). done.
Qed.

Lemma absent_until_created s cs id j t sub code op :
  plans s !! id = None ->
  cs !! j = Some (DoConsume t id sub code) -> (run s cs).2 !! j = Some (Consumed (Ok op)) ->
  exists k, k < j /\ exists r, (run s cs).2 !! k = Some r /\ creates id r.
Proof.
  revert s j. induction cs as [|c cs IH]; intros s j Hs Hc Hr; [done|].
  cbn [run] in *. pose proof (step_absent s c id Hs) as Hstep.
  destruct (store_step s c) as [s1 r] eqn:Es. destruct (run s1 cs) as [s2 rs] eqn:Er. cbn [fst snd] in *.
  destruct j as [|j]; cbn in Hc, Hr.
  - injection Hc as ->. injection Hr as ->. cbn [store_step] in Es.
    destruct (PlanStore_Consume s t id sub code) as [s' r'] eqn:Ec. injection Es as _ ->.
    apply consume_ok_iff in Ec as (p & ? & _). congruence.
  - destruct Hstep as [Habs|Hcr]; [|exists 0; split; [lia|by exists r]].
    destruct (IH s1 j Habs Hc) as (k & Hk & r' & Hr' & Hcr); [by rewrite Er|].
    rewrite Er in Hr'. exists (S k). split; [lia|]. by exists r'.
Qed.

Lemma attempts_absent s id subject (attempts : list (Z * string)) :
  plans s !! id = None ->
  plans (run s ((fun a => DoConsume a.1 id subject a.2) <$> attempts)).1 !! id = None.
Proof.
  revert s. induction attempts as [|[now code] rest IH]; intros s H; [done|].
  rewrite fmap_cons. cbn [run store_step fst snd].
  pose proof (consume_absent s now id subject code id H) as H1.
  destruct (PlanStore_Consume s now id subject code) as [s1 r]. specialize (IH s1 H1).
  destruct (run s1 _). done.
Qed.

(** A run that keeps trying wrong codes. *)
Lemma wrong_codes_lock_aux s id p (attempts : list (Z * string)) :
  store_inv s -> plans s !! id = Some p ->
  Forall (fun a => (a.1 <= sp_ExpiresAt p)%Z /\ validConfirmationCode a.2 = true /\
            sp_ConfirmationHash p <> confirmationHash id a.2) attempts ->
  (confirmationMaxAttempts <= sp_ConfirmationFailures p + Z.of_nat (length attempts))%Z ->
  plans (run s ((fun a => DoConsume a.1 id (sp_SubjectKey p) a.2) <$> attempts)).1 !! id = None.
Proof.
  revert s p. induction attempts as [|[now code] rest IH]; intros s p I Hp Hf Hn.
  { destruct (inv_plans _ I _ _ Hp) as [_ ?]. cbn [length] in Hn. lia. }
  apply Forall_cons in Hf as [(Ht & Hv & Hh) Hf]. cbn [fst snd] in *.
  rewrite fmap_cons. cbn [run store_step fst snd].
  pose proof (consume_inv s now id (sp_SubjectKey p) code I) as I'.
  destruct (inv_plans _ I _ _ Hp) as [_ Hb].
  assert (code <> "") as Hne by (intros ->; done).
  revert I'. unfold PlanStore_Consume. rewrite bool_decide_false, Hv, Hp by done. cbn [negb].
  unfold After. rewrite (proj2 (Z.ltb_ge _ _)) by done. rewrite !bool_decide_false by tauto.
  rewrite bool_decide_true by done.
  assert (sp_ConfirmationFailures (failed_once p) = sp_ConfirmationFailures p + 1)%Z as Hf1.
  { unfold failed_once. cbn [sp_ConfirmationFailures]. unfold confirmationMaxAttempts in Hb.
    apply wrap64_id. unfold int64_ok, int64_min, int64_max. lia. }
  destruct (_ <=? _)%Z; cbn [fst]; intros I'.
  - destruct (run (delete_ s id (failed_once p)) _) as [s2 rs] eqn:Er. cbn [fst].
    change s2 with (s2, rs).1. rewrite <- Er. apply attempts_absent. apply lookup_delete_eq.
  - destruct (run (with_plans _ _ _ _) _) as [s2 rs] eqn:Er. cbn [fst].
    change s2 with (s2, rs).1. rewrite <- Er.
    apply (IH _ (failed_once p)); [done|apply lookup_insert_eq|done|].
    rewrite Hf1. cbn [length] in Hn. lia.
Qed.

End absent.

Section consumed.
Context {G : GoLib}.

Lemma create_consume s d subject op s' id code t n :
  dr_code d = Ok n -> (0 <= n < 900000)%Z ->
  PlanStore_Create s d subject op = (s', Ok (id, code, t)) ->
  t = (dr_later d + planTTL)%Z /\
  forall now, (now <= t)%Z -> exists s'', PlanStore_Consume s' now id subject code = (s'', Ok op).
Proof.
  intros Hd Hn Hc. apply create_ok in Hc as (-> & Hcode & bytes & Hp).
  split; [done|]. intros now Hnow. eexists. apply consume_ok_iff. eexists. split; [exact Hp|]. split_and!; try done.
  rewrite Hd in Hcode. injection Hcode as <-. by apply generated_code_valid.
Qed.
End consumed.

(** ** Properties *)

Section properties.
Context {G : GoLib}.

(** Accounting: in every reachable state the byte counters are the exact
    sums of the stored plans, in total and per identity, no counter has
    wrapped, the number of plans and the bytes are within their limits, and
    an identity above its share owns a single plan. *)
Theorem plan_store_accounting cap s : reachable cap s -> store_inv s.
Proof. apply reachable_inv. Qed.

(** The result of pruning does not depend on the order in which Go visits
    the map: it keeps exactly the unexpired plans. *)
Theorem prune_order_irrelevant s order now :
  store_inv s -> order ≡ₚ map_to_list (plans s) ->
  prune_in order now s = prune now s /\
  plans (prune now s) = filter (fun e => After now (sp_ExpiresAt e.2) = false) (plans s).
Proof.
  intros I Ho. destruct (prune_order_spec order now s I Ho) as [I1 E1].
  destruct (prune_spec now s I) as [I2 E2]. split; [|done].
  destruct (prune_in_consts order now s) as (? & ? & ?).
  destruct (prune_in_consts (map_to_list (plans s)) now s) as (? & ? & ?).
  apply store_inv_determines; unfold prune in *; congruence.
Qed.

(** Refinement: [Consume] behaves as the abstract store, answer and state,
    unless the submitted code and the right code of that plan are two
    different codes with the same SHA-256 hash. *)
Theorem consume_refines s m now id subject code :
  store_inv s -> represents s m ->
  let '(s', r) := PlanStore_Consume s now id subject code in
  let '(m', r') := spec_consume m now id subject code in
  (outcome r = r' /\ represents s' m') \/
  exists p, m !! id = Some p /\ validConfirmationCode code = true /\ pd_code p <> code /\
    confirmationHash id (pd_code p) = confirmationHash id code.
Proof. apply consume_refines_aux. Qed.

(** Refinement: [Create] is one of the abstract outcomes. *)
Theorem create_refines s m d subject operation :
  store_inv s -> represents s m ->
  exists m', represents (PlanStore_Create s d subject operation).1 m' /\
    spec_create m d subject operation m' (PlanStore_Create s d subject operation).2.
Proof. apply create_refines_aux. Qed.

(** C21: Refinement over runs: whatever sequence of [Create] and [Consume] callers bring
    about, from a new store on, the answers are those of a run of the abstract store,
    which knows neither hashes nor byte counters, and the store represents its
    state; unless a submitted six-digit code has the SHA-256 hash of another code, the one that an
    earlier answer of this run gave out for the same plan. *)
Theorem plan_store_refines cap cs :
  fresh_run (NewPlanStore cap) cs ->
  let rs := (run (NewPlanStore cap) cs).2 in
  (exists m, spec_runs ∅ cs rs m /\ represents (run (NewPlanStore cap) cs).1 m) \/
  (exists i j now id subject code other t, i < j /\
     rs !! i = Some (Created (Ok (id, other, t))) /\ cs !! j = Some (DoConsume now id subject code) /\
     validConfirmationCode code = true /\ other <> code /\ confirmationHash id other = confirmationHash id code).
Proof.
  intros Hf rs. destruct (run_refines cs [] (NewPlanStore cap) ∅ (new_store_inv cap)) as [H|H]; [| |done|by left|right].
  - intros id. cbn [NewPlanStore plans]. rewrite !lookup_empty. constructor.
  - intros id p. by rewrite lookup_empty.
  - destruct H as (j & now & id & subject & code & other & t & Hj & Hin & H). apply list_elem_of_lookup in Hin as [i Hi].
    apply lookup_take_Some in Hi as [Hi Hij]. by exists i, j, now, id, subject, code, other, t.
Qed.

(** [Consume] gives the operation out exactly when a live plan has this ID,
    this owner and this code, and then the plan is gone. *)
Theorem consume_success s now id subject code s' op :
  PlanStore_Consume s now id subject code = (s', Ok op) <->
  exists p, plans s !! id = Some p /\ (now <= sp_ExpiresAt p)%Z /\ sp_SubjectKey p = subject /\
    validConfirmationCode code = true /\ sp_ConfirmationHash p = confirmationHash id code /\
    op = sp_Operation p /\ s' = delete_ s id p.
Proof. apply consume_ok_iff. Qed.

(** One-time use: if the same ID is consumed twice in a run, a plan was
    created under it in between. *)
Theorem plan_used_once s cs i j id t1 u1 c1 o1 t2 u2 c2 o2 :
  i < j ->
  cs !! i = Some (DoConsume t1 id u1 c1) -> (run s cs).2 !! i = Some (Consumed (Ok o1)) ->
  cs !! j = Some (DoConsume t2 id u2 c2) -> (run s cs).2 !! j = Some (Consumed (Ok o2)) ->
  exists k r, i < k < j /\ (run s cs).2 !! k = Some r /\ creates id r.
Proof.
  revert s i j. induction cs as [|c cs IH]; intros s i j Hij Hi Hri Hj Hrj; [done|].
  cbn [run] in *. destruct (store_step s c) as [s1 r] eqn:Es. destruct (run s1 cs) as [s2 rs] eqn:Er.
  cbn [fst snd] in *. destruct j as [|j]; [lia|]. cbn in Hj, Hrj.
  assert (rs = (run s1 cs).2) as Hrs by by rewrite Er.
  destruct i as [|i]; cbn in Hi, Hri.
  - injection Hi as ->. injection Hri as ->. cbn [store_step] in Es.
    destruct (PlanStore_Consume s t1 id u1 c1) as [s' r'] eqn:Ec. injection Es as -> ->.
    apply consume_ok_iff in Ec as (p & _ & _ & _ & _ & _ & _ & ->). subst rs.
    destruct (absent_until_created (delete_ s id p) cs id j t2 u2 c2 o2) as (k & Hk & r & Hr & Hcr);
      [apply lookup_delete_eq|done|done|].
    exists (S k), r. split; [lia|done].
  - subst rs. destruct (IH s1 i j) as (k & r' & Hk & Hr' & Hcr); [lia|done..|].
    exists (S k), r'. split; [lia|done].
Qed.

(** Lockout: once the wrong codes tried by the owner of a plan reach five,
    counting those before, the plan is gone. *)
Theorem five_wrong_codes_lock s id p (attempts : list (Z * string)) :
  store_inv s -> plans s !! id = Some p ->
  Forall (fun a => (a.1 <= sp_ExpiresAt p)%Z /\ validConfirmationCode a.2 = true /\
            sp_ConfirmationHash p <> confirmationHash id a.2) attempts ->
  (confirmationMaxAttempts <= sp_ConfirmationFailures p + Z.of_nat (length attempts))%Z ->
  plans (run s ((fun a => DoConsume a.1 id (sp_SubjectKey p) a.2) <$> attempts)).1 !! id = None.
Proof.
  intros I Hp Hf Hn. apply (wrong_codes_lock_aux s id p); done.
Qed.

(** The code [Create] draws passes the format check of [Consume]. *)
Theorem created_code_is_accepted s d subject op s' id code t n :
  dr_code d = Ok n -> (0 <= n < 900000)%Z ->
  PlanStore_Create s d subject op = (s', Ok (id, code, t)) ->
  t = (dr_later d + planTTL)%Z /\
  forall now, (now <= t)%Z -> exists s'', PlanStore_Consume s' now id subject code = (s'', Ok op).
Proof. apply create_consume. Qed.
End properties.

(** ** Witnesses *)

Module PlanStoreWitness.
#[local] Existing Instance plain_GoLib.

Definition demo_action : Action := {|
  a_GVR := {| Group := "apps"; Version := "v1"; Resource := "deployments" |}; a_Kind := "Deployment";
  a_Subresource := ""; a_Verb := "patch"; a_Action := "restart"; a_Namespaced := true |}.
Definition demo_op : Operation := {|
  op_Action := demo_action; op_Namespace := "prod"; op_Name := "web"; op_Object := None; op_Patch := VNull;
  op_PatchType := ""; op_Replicas := None; op_Command := []; op_Container := ""; op_Stdin := "";
  op_TimeoutSeconds := 0; op_GracePeriod := None; op_Force := false; op_TargetUID := "u1";
  op_ResourceVersion := "7"; op_ExpectedAbsent := false; op_Generation := 1 |}.
Definition demo_draw (b : N) (t : Z) : draw :=
  {| dr_id := Ok (replicate 24 b); dr_code := Ok 23456%Z; dr_now := t; dr_later := t |}.
Definition one_plan : PlanStore := (store_step (NewPlanStore 10) (DoCreate (demo_draw 1 100) "alice" demo_op)).1.
Definition two_plans : PlanStore := (store_step one_plan (DoCreate (demo_draw 2 200) "bob" demo_op)).1.
Definition demo_id (b : N) : string := base64_Encode RawURLEncoding (replicate 24 b).

Lemma demo_fits data :
  operation_json demo_op = Some data ->
  (Z.of_nat (String.length data) * planStoreSizeSafetyFactor <= int64_max)%Z.
Proof. intros E. injection E as <-. done. Qed.

Lemma one_plan_reachable : reachable 10 one_plan.
Proof.
  apply reach_step; [constructor|]. split; [|exact demo_fits]. intros id _. apply lookup_empty.
Qed.

Lemma one_plan_lookup :
  plans one_plan !! demo_id 1 = Some (new_plan (demo_id 1) "123456" "alice" demo_op 680 (100 + planTTL)).
Proof. vm_compute. reflexivity. Qed.

(** The abstract store of [one_plan]. *)
Definition one_pending : spec_store := {[ demo_id 1 :=
  {| pd_operation := demo_op; pd_owner := "alice"; pd_code := "123456";
     pd_expires := 100 + planTTL; pd_attempts := confirmationMaxAttempts |} ]}.

Lemma one_plan_represents : represents one_plan one_pending.
Proof.
  intros i. unfold one_pending.
  replace (plans one_plan) with
    (<[demo_id 1 := new_plan (demo_id 1) "123456" "alice" demo_op 680 (100 + planTTL)]> (∅ : gmap string storedPlan))
    by (vm_compute; reflexivity).
  destruct (decide (demo_id 1 = i)) as [<-|].
  - rewrite lookup_insert_eq, lookup_singleton_eq. constructor. by unfold plan_rel, new_plan.
  - rewrite lookup_insert_ne, lookup_singleton_ne, lookup_empty by done. constructor.
Qed.

Lemma plan_store_accounting_witness : store_inv two_plans /\ size (plans two_plans) = 2.
Proof.
  split; [|vm_compute; reflexivity]. apply (plan_store_accounting 10). unfold two_plans.
  apply reach_step; [apply one_plan_reachable|]. split; [|exact demo_fits].
  intros id [= <-]. vm_compute. reflexivity.
Defined.

Lemma prune_order_irrelevant_witness :
  prune_in (reverse (map_to_list (plans one_plan))) 50 one_plan = prune 50 one_plan /\
  plans (prune 50 one_plan) = filter (fun e => After 50 (sp_ExpiresAt e.2) = false) (plans one_plan).
Proof.
  apply (prune_order_irrelevant one_plan (reverse (map_to_list (plans one_plan))) 50).
  - apply (reachable_inv 10), one_plan_reachable.
  - apply reverse_Permutation.
Defined.

Lemma consume_refines_witness :
  let '(s', r) := PlanStore_Consume one_plan 150 (demo_id 1) "alice" "123456" in
  let '(m', r') := spec_consume one_pending 150 (demo_id 1) "alice" "123456" in
  (outcome r = r' /\ represents s' m') \/
  exists p, one_pending !! demo_id 1 = Some p /\ validConfirmationCode "123456" = true /\ pd_code p <> "123456" /\
    confirmationHash (demo_id 1) (pd_code p) = confirmationHash (demo_id 1) "123456".
Proof.
  exact (consume_refines one_plan one_pending 150 (demo_id 1) "alice" "123456"
           (reachable_inv 10 one_plan one_plan_reachable) one_plan_represents).
Defined.

Lemma create_refines_witness :
  exists m', represents (PlanStore_Create one_plan (demo_draw 2 200) "bob" demo_op).1 m' /\
    spec_create one_pending (demo_draw 2 200) "bob" demo_op m' (PlanStore_Create one_plan (demo_draw 2 200) "bob" demo_op).2.
Proof.
  exact (create_refines one_plan one_pending (demo_draw 2 200) "bob" demo_op
           (reachable_inv 10 one_plan one_plan_reachable) one_plan_represents).
Defined.

Lemma plan_store_refines_witness :
  let cs := [DoCreate (demo_draw 1 100) "alice" demo_op; DoConsume 150 (demo_id 1) "alice" "123456"] in
  let rs := (run (NewPlanStore 10) cs).2 in
  (exists m, spec_runs ∅ cs rs m /\ represents (run (NewPlanStore 10) cs).1 m) \/
  (exists i j now id subject code other t, i < j /\
     rs !! i = Some (Created (Ok (id, other, t))) /\ cs !! j = Some (DoConsume now id subject code) /\
     validConfirmationCode code = true /\ other <> code /\ confirmationHash id other = confirmationHash id code).
Proof.
  intros cs. apply (plan_store_refines 10 cs). split; [split; [intros id _; apply lookup_empty|exact demo_fits]|split; exact I].
Defined.

Lemma plan_used_once_witness :
  let again := [DoConsume 150 (demo_id 1) "alice" "123456"; DoCreate (demo_draw 1 160) "alice" demo_op;
                DoConsume 170 (demo_id 1) "alice" "123456"] in
  exists k r, 0 < k < 2 /\ (run one_plan again).2 !! k = Some r /\ creates (demo_id 1) r.
Proof.
  intros again. apply (plan_used_once one_plan again 0 2 (demo_id 1) 150 "alice" "123456" demo_op 170 "alice" "123456" demo_op);
    [lia|reflexivity|vm_compute; reflexivity|reflexivity|vm_compute; reflexivity].
Defined.

Lemma five_wrong_codes_lock_witness :
  plans (run one_plan ((fun a => DoConsume a.1 (demo_id 1) "alice" a.2) <$> replicate 5 (150%Z, "999999"))).1 !! demo_id 1 = None.
Proof.
  apply (five_wrong_codes_lock one_plan (demo_id 1)
           (new_plan (demo_id 1) "123456" "alice" demo_op 680 (100 + planTTL)) (replicate 5 (150%Z, "999999"))).
  - apply (reachable_inv 10), one_plan_reachable.
  - apply one_plan_lookup.
  - apply Forall_replicate. split; [done|]. split; [done|]. vm_compute. discriminate.
  - vm_compute. discriminate.
Defined.

Lemma created_code_is_accepted_witness :
  (100 + planTTL)%Z = (dr_later (demo_draw 1 100) + planTTL)%Z /\
  forall now, (now <= 100 + planTTL)%Z ->
    exists s'', PlanStore_Consume one_plan now (demo_id 1) "alice" "123456" = (s'', Ok demo_op).
Proof.
  apply (created_code_is_accepted (NewPlanStore 10) (demo_draw 1 100) "alice" demo_op one_plan (demo_id 1) "123456"
           (100 + planTTL) 23456); [reflexivity|lia|vm_compute; reflexivity].
Defined.
End PlanStoreWitness.
