(* ===== verification/Admission.v ===== *)
(** * Admission, rate limits and time budgets
    (src/internal/server/admission.go, ratelimit.go, timeouts.go, and the
    slots of authenticationMiddleware in auth.go)

    A request holds a slot of the global semaphore while it is served; one
    identity may hold at most half of the slots; streaming calls may hold
    all slots but one.  Channels used as counting semaphores are counters. *)

From Stdlib Require Import String.
From S2P Require Import Prelude GoStrings Json Errors Config.

(** ** [requestAdmission] *)

Record requestAdmission := {
  identities : gmap string Z;
  perIdentity : Z;
  streams : Z;      (* len(streams) *)
  streams_cap : Z   (* cap(streams) *)
}.

(** [concurrent] is a Go [int]; the sum wraps. *)
Definition newRequestAdmission (concurrent : Z) : requestAdmission := {|
  identities := ∅;
  perIdentity := Z.max 1 (Z.quot (wrap64 (concurrent + 1)) 2);
  streams := 0;
  streams_cap := Z.max 0 (wrap64 (concurrent - 1))
|}.

Definition with_identities (a : requestAdmission) (m : gmap string Z) : requestAdmission := {|
  identities := m; perIdentity := perIdentity a; streams := streams a; streams_cap := streams_cap a
|}.
Definition with_streams (a : requestAdmission) (n : Z) : requestAdmission := {|
  identities := identities a; perIdentity := perIdentity a; streams := n; streams_cap := streams_cap a
|}.

(** [a.identities[identity]]: zero when missing. *)
Definition held (a : requestAdmission) (identity : string) : Z := default 0%Z (identities a !! identity).

Definition acquireIdentity (a : requestAdmission) (identity : string) : requestAdmission * bool :=
  if (perIdentity a <=? held a identity)%Z then (a, false)
  else (with_identities a (<[identity := wrap64 (held a identity + 1)]> (identities a)), true).

Definition releaseIdentity (a : requestAdmission) (identity : string) : requestAdmission :=
  let n := wrap64 (held a identity - 1) in
  let m := <[identity := n]> (identities a) in
  with_identities a (if (n =? 0)%Z then delete identity m else m).

(** [acquireStream]; [None] is an [App] without admission, whose release does
    nothing.  The returned function is [releaseStream]. *)
Definition acquireStream (admission : option requestAdmission) : option requestAdmission * result go_error unit :=
  match admission with
  | None => (None, Ok ())
  | Some a =>
    if (streams_cap a =? 0)%Z then
      (Some a, Err (policyError "stream_disabled"
        "streaming requires maxConcurrent of at least two to reserve capacity for short requests"))
    else if (streams a <? streams_cap a)%Z then (Some (with_streams a (streams a + 1)), Ok ())
    else (Some a, Err (policyError "stream_capacity"
        "stream concurrency limit reached; capacity is reserved for short requests"))
  end.
Definition releaseStream (admission : option requestAdmission) : option requestAdmission :=
  (fun a => with_streams a (streams a - 1)) <$> admission.

(** ** The slots of a running server

    Each request in flight is at one point of [authenticationMiddleware] and of
    the tool handler behind it: it holds a semaphore slot, or also a place of
    its identity, or also a stream. *)
Inductive phase :=
| Slot
| Identified (identity : string)
| Streaming_ (identity : string).

Record slots := {
  semaphore : Z;
  semaphore_cap : Z;
  admission : requestAdmission;
  inflight : gmap nat phase
}.

Definition newSlots (maxConcurrent : Z) : slots := {|
  semaphore := 0; semaphore_cap := maxConcurrent;
  admission := newRequestAdmission maxConcurrent; inflight := ∅
|}.

Definition put (s : slots) (n : Z) (a : requestAdmission) (m : gmap nat phase) : slots :=
  {| semaphore := n; semaphore_cap := semaphore_cap s; admission := a; inflight := m |}.

Inductive slot_step (s : slots) : slots -> Prop :=
(* case a.semaphore <- struct{}{} *)
| take_slot r :
    inflight s !! r = None -> (semaphore s < semaphore_cap s)%Z ->
    slot_step s (put s (semaphore s + 1) (admission s) (<[r := Slot]> (inflight s)))
(* authentication or the rate limit failed, or the identity has no place *)
| drop_slot r :
    inflight s !! r = Some Slot ->
    slot_step s (put s (semaphore s - 1) (admission s) (delete r (inflight s)))
(* a.admission.acquireIdentity(identity) *)
| take_identity r identity a :
    inflight s !! r = Some Slot -> acquireIdentity (admission s) identity = (a, true) ->
    slot_step s (put s (semaphore s) a (<[r := Identified identity]> (inflight s)))
(* release, err := a.acquireStream() *)
| take_stream r identity a :
    inflight s !! r = Some (Identified identity) -> acquireStream (Some (admission s)) = (Some a, Ok ()) ->
    slot_step s (put s (semaphore s) a (<[r := Streaming_ identity]> (inflight s)))
(* defer release() *)
| drop_stream r identity a :
    inflight s !! r = Some (Streaming_ identity) -> releaseStream (Some (admission s)) = Some a ->
    slot_step s (put s (semaphore s) a (<[r := Identified identity]> (inflight s)))
(* defer a.admission.releaseIdentity(identity), then the semaphore *)
| drop_identity r identity :
    inflight s !! r = Some (Identified identity) ->
    slot_step s (put s (semaphore s) (releaseIdentity (admission s) identity) (<[r := Slot]> (inflight s))).

(** ** [identityRateLimiter] *)

Definition identityLimiterCapacity : nat := Z.to_nat 10000.
Definition identityLimiterIdleTTL : Z := 15 * minute.

(** [golang.org/x/time/rate]: a limiter of [requestsPerMinute / 60] events per
    second and a burst; [AllowN(now, 1)] updates it. *)
Class RateLib := {
  Limiter : Type;
  NewLimiter : Z -> Z -> Limiter;
  AllowN : Limiter -> Z -> bool * Limiter
}.

Section ratelimit.
Context {R : RateLib}.

Record identityLimitEntry := {
  limiter : Limiter;
  lastSeen : Z
}.

Record identityRateLimiter := {
  entries : gmap string identityLimitEntry;
  requestsPerMinute : Z;
  burst : Z;
  lastSweep : Z
}.

Definition newIdentityRateLimiter (rpm b : Z) : identityRateLimiter :=
  {| entries := ∅; requestsPerMinute := rpm; burst := b; lastSweep := 0 |}.

Definition with_entries (l : identityRateLimiter) (m : gmap string identityLimitEntry) (sweep : Z) : identityRateLimiter :=
  {| entries := m; requestsPerMinute := requestsPerMinute l; burst := burst l; lastSweep := sweep |}.

(** [prune]: deletions of distinct keys commute, so the visiting order of
    the map does not matter. *)
Definition idle (now : Z) (e : identityLimitEntry) : bool :=
  (identityLimiterIdleTTL <=? time_Sub now (lastSeen e))%Z.
Definition prune_entries (l : identityRateLimiter) (now : Z) : gmap string identityLimitEntry :=
  filter (fun kv => idle now kv.2 = false) (entries l).

Definition Allow_ (l : identityRateLimiter) (subject : string) (now : Z) : identityRateLimiter * (bool * string) :=
  if bool_decide (subject = "") then (l, (false, "invalid_identity"))
  else
  let l :=
    if time_IsZero (lastSweep l) || (minute <=? time_Sub now (lastSweep l))%Z
    then with_entries l (prune_entries l now) now else l in
  let found :=
    match entries l !! subject with
    | Some entry => Some (l, entry)
    | None =>
      if identityLimiterCapacity <=? size (entries l) then None
      else let entry := {| limiter := NewLimiter (requestsPerMinute l) (burst l); lastSeen := 0 |} in
           Some (with_entries l (<[subject := entry]> (entries l)) (lastSweep l), entry)
    end in
  match found with
  | None => (l, (false, "identity_capacity"))
  | Some (l, entry) =>
    let '(ok, limiter') := AllowN (limiter entry) now in
    let entry' := {| limiter := limiter'; lastSeen := if ok then now else lastSeen entry |} in
    (with_entries l (<[subject := entry']> (entries l)) (lastSweep l),
     if ok then (true, "") else (false, "identity_rate"))
  end.

(** [math.Ceil(60/float64(r))] for [1 <= r < 2^31]: the quotient is exact or
    more than its rounding error away from an integer, so it is the integer
    ceiling. *)
Definition RetryAfterSeconds (l : identityRateLimiter) : Z :=
  let rpm := Z.max 1 (requestsPerMinute l) in
  Z.max 1 ((60 + rpm - 1) / rpm).
End ratelimit.

(** ** Time budgets *)

Fixpoint saturating_from (total : Z) (values : list Z) : Z :=
  match values with
  | [] => total
  | v :: rest =>
    if (wrap64 (int64_max - total) <? v)%Z then int64_max
    else saturating_from (wrap64 (total + v)) rest
  end.
Definition saturatingDurationSum (values : list Z) : Z := saturating_from 0 values.

Section timeouts.
Context {Q : QuantityLib}.

Definition serverWriteTimeout (config : Config) : Z :=
  let l := Limits (cfg_Spec config) in
  let operationTimeout := Z.max (Z.max (RequestTimeout l) (StreamTimeout l)) (ExecTimeout l) in
  saturatingDurationSum [RequestTimeout l; RequestTimeout l; operationTimeout; (10 * second)%Z].

(** The deadline [timeoutContext] adds to a context: none when the budget is
    not positive. *)
Definition timeoutContext (now timeout : Z) (deadline : option Z) : option Z :=
  if (timeout <=? 0)%Z then deadline
  else Some (match deadline with Some d => Z.min d (now + timeout) | None => now + timeout end)%Z.
Definition requestContext (config : Config) (now : Z) (deadline : option Z) : option Z :=
  timeoutContext now (RequestTimeout (Limits (cfg_Spec config))) deadline.
End timeouts.

(** ** The invariant of the slots *)

Definition of_identity (identity : string) (p : phase) : Z :=
  match p with
  | Slot => 0
  | Identified i | Streaming_ i => if bool_decide (i = identity) then 1 else 0
  end.
Definition is_streaming (p : phase) : Z := match p with Streaming_ _ => 1 | _ => 0 end.

(** The entries of the identity table are exactly the positive counts. *)
Definition table_ok (a : requestAdmission) (m : gmap nat phase) : Prop :=
  (forall identity, held a identity = map_sum (of_identity identity) m) /\
  map_Forall (fun _ n => (0 < n <= perIdentity a)%Z) (identities a).

Record slots_inv (n : Z) (s : slots) : Prop := {
  si_cap : semaphore_cap s = n;
  si_semaphore : semaphore s = Z.of_nat (size (inflight s));
  si_full : (semaphore s <= n)%Z;
  si_table : table_ok (admission s) (inflight s);
  si_per : perIdentity (admission s) = Z.max 1 ((n + 1) / 2);
  si_streams : streams (admission s) = map_sum is_streaming (inflight s);
  si_streams_cap : streams_cap (admission s) = (n - 1)%Z;
  si_streams_full : (streams (admission s) <= n - 1)%Z
}.

Lemma held_range a m identity : table_ok a m -> (1 <= perIdentity a)%Z -> (0 <= held a identity <= perIdentity a)%Z.
Proof.
  intros [_ Hf] H1. unfold held. destruct (identities a !! identity) as [k|] eqn:E; cbn; [|lia].
  apply Hf in E. lia.
Qed.

Lemma of_identity_nonneg identity (m : gmap nat phase) : map_Forall (fun _ p => (0 <= of_identity identity p)%Z) m.
Proof. intros i p _. destruct p; cbn; try case_bool_decide; lia. Qed.

(** A change of one request that leaves the identity counts alone. *)
Lemma table_same a (m : gmap nat phase) r p q :
  table_ok a m -> m !! r = Some p -> (forall i, of_identity i q = of_identity i p) ->
  table_ok a (<[r := q]> m).
Proof.
  intros [Hh Hf] Hr Hq. split; [|done]. intros i. rewrite (map_sum_update _ _ _ p), Hq, Hh by done. lia.
Qed.

Lemma acquireIdentity_table a m r identity a' :
  table_ok a m -> (1 <= perIdentity a <= int64_max)%Z -> m !! r = Some Slot ->
  acquireIdentity a identity = (a', true) ->
  table_ok a' (<[r := Identified identity]> m) /\
  perIdentity a' = perIdentity a /\ streams a' = streams a /\ streams_cap a' = streams_cap a.
Proof.
  intros T Hp Hr H. pose proof (held_range a m identity T ltac:(lia)) as Hrange. destruct T as [Hh Hf].
  unfold acquireIdentity in H. destruct (Z.leb_spec (perIdentity a) (held a identity)) as [|Hlt]; [done|].
  injection H as <-. rewrite wrap64_id by (unfold int64_ok, int64_min, int64_max in *; lia).
  split; [|done]. split.
  - intros i. rewrite (map_sum_update _ _ _ Slot) by done. cbn [of_identity].
    unfold held at 1. cbn [identities with_identities]. case_bool_decide as Hi.
    + subst i. rewrite lookup_insert_eq. cbn [from_option]; unfold id. rewrite Hh. lia.
    + rewrite lookup_insert_ne by done. fold (held a i). rewrite Hh. lia.
  - apply map_Forall_insert_2; [|done]. cbn [perIdentity with_identities]. lia.
Qed.

Lemma releaseIdentity_table a m r identity :
  table_ok a m -> (1 <= perIdentity a <= int64_max)%Z -> m !! r = Some (Identified identity) ->
  table_ok (releaseIdentity a identity) (<[r := Slot]> m).
Proof.
  intros T Hp Hr. pose proof (held_range a m identity T ltac:(lia)) as Hrange. destruct T as [Hh Hf].
  assert (1 <= held a identity)%Z as Hpos.
  { rewrite Hh. pose proof (map_sum_lookup_le _ m r _ (of_identity_nonneg identity m) Hr) as Hle.
    cbn in Hle. rewrite bool_decide_true in Hle by done. lia. }
  unfold releaseIdentity. rewrite wrap64_id by (unfold int64_ok, int64_min, int64_max in *; lia).
  split.
  - intros i. rewrite (map_sum_update _ _ _ (Identified identity)) by done. cbn [of_identity].
    unfold held at 1. cbn [identities with_identities]. case_bool_decide as Hi.
    + subst i. rewrite <- Hh.
      destruct (Z.eqb_spec (held a identity - 1) 0); rewrite ?lookup_delete_eq, ?lookup_insert_eq; cbn; lia.
    + rewrite <- Hh. destruct (_ =? 0)%Z;
        rewrite ?lookup_delete_ne, ?lookup_insert_ne by done; fold (held a i); lia.
  - cbn [identities with_identities perIdentity].
    destruct (Z.eqb_spec (held a identity - 1) 0); [rewrite delete_insert_eq; by apply map_Forall_delete|].
    apply map_Forall_insert_2; [lia|done].
Qed.

Lemma slot_step_inv n s s' :
  (1 <= n < int64_max)%Z -> slots_inv n s -> slot_step s s' -> slots_inv n s'.
Proof.
  intros Hn [Hc Hs Hf Ht Hp Hst Hsc Hsf] Hstep.
  assert (1 <= perIdentity (admission s) <= int64_max)%Z as Hper.
  { rewrite Hp. assert ((n + 1) / 2 <= n)%Z by (apply Z.div_le_upper_bound; lia). lia. }
  destruct Hstep as [r Hr Hlt|r Hr|r i a Hr Ha|r i a Hr Ha|r i a Hr Ha|r i Hr]; cbn.
  - split; cbn; try done; try lia.
    + rewrite map_size_insert_None by done. lia.
    + destruct Ht as [Hh Hall]. split; [|done]. intros i. rewrite map_sum_insert by done. cbn. rewrite Hh. lia.
    + rewrite map_sum_insert by done. cbn. lia.
  - assert (0 < size (inflight s)) as Hpos
      by (destruct (size (inflight s)) eqn:E; [apply map_size_empty_inv in E; rewrite E in Hr; by rewrite lookup_empty in Hr|lia]).
    split; cbn; try done; try lia.
    + rewrite map_size_delete_Some by by eexists. lia.
    + destruct Ht as [Hh Hall]. split; [|done]. intros i. rewrite Hh, (map_sum_delete _ _ r Slot Hr). cbn. lia.
    + rewrite Hst, (map_sum_delete _ _ r Slot Hr). cbn. lia.
  - destruct (acquireIdentity_table _ _ r i a Ht Hper Hr Ha) as (Ht' & Hp' & Hs' & Hc').
    split; cbn; rewrite ?Hp', ?Hs', ?Hc', ?map_size_insert_Some by (by eexists); try done.
    rewrite (map_sum_update _ _ _ Slot) by done. cbn. lia.
  - unfold acquireStream in Ha. destruct (streams_cap (admission s) =? 0)%Z; [done|].
    destruct (Z.ltb_spec (streams (admission s)) (streams_cap (admission s))); [|done]. injection Ha as <-.
    split; cbn; rewrite ?map_size_insert_Some by (by eexists); try done; try lia.
    + by apply (table_same _ _ _ (Identified i)).
    + rewrite (map_sum_update _ _ _ (Identified i)) by done. cbn. lia.
  - injection Ha as <-. split; cbn; rewrite ?map_size_insert_Some by (by eexists); try done; try lia.
    + by apply (table_same _ _ _ (Streaming_ i)).
    + rewrite (map_sum_update _ _ _ (Streaming_ i)) by done. cbn. lia.
  - split; cbn; rewrite ?map_size_insert_Some by (by eexists); try done.
    + by apply releaseIdentity_table.
    + rewrite (map_sum_update _ _ _ (Identified i)) by done. cbn. lia.
Qed.

Lemma newSlots_inv n : (1 <= n < int64_max)%Z -> slots_inv n (newSlots n).
Proof.
  intros Hn. unfold int64_max in *.
  split; cbn; rewrite ?map_size_empty, ?map_sum_empty, ?wrap64_id by (unfold int64_ok, int64_min, int64_max; lia);
    try done; try lia.
  - rewrite Z.quot_div_nonneg by lia. lia.
Qed.

Lemma reachable_slots_inv n s : (1 <= n < int64_max)%Z -> rtc slot_step (newSlots n) s -> slots_inv n s.
Proof.
  intros Hn H. assert (slots_inv n (newSlots n)) as H0 by by apply newSlots_inv.
  revert H0. induction H; eauto using slot_step_inv.
Qed.

(** ** Lemmas on the limiter and the sums *)

Section limiter_lemmas.
Context {R : RateLib}.

(** The limiter after the sweep that may start a call. *)
Definition swept (l : identityRateLimiter) (now : Z) : identityRateLimiter :=
  if time_IsZero (lastSweep l) || (minute <=? time_Sub now (lastSweep l))%Z
  then with_entries l (prune_entries l now) now else l.

Lemma swept_lookup l now subject :
  entries (swept l now) !! subject = entries l !! subject \/
  (exists e, entries l !! subject = Some e /\ idle now e = true /\ entries (swept l now) !! subject = None).
Proof.
  unfold swept. destruct (_ || _); [|by left]. cbn. unfold prune_entries.
  rewrite map_lookup_filter. destruct (entries l !! subject) as [e|]; cbn; [|by left].
  destruct (idle now e) eqn:E; cbn; [right; exists e|left]; case_guard; cbn; try done.
Qed.

Lemma swept_size l now : size (entries (swept l now)) <= size (entries l).
Proof.
  unfold swept. destruct (_ || _); [|done]. cbn. unfold prune_entries.
  apply map_subseteq_size, map_filter_subseteq.
Qed.

(** A named identity is answered by its own bucket, old or new. *)
Definition bucket (l : identityRateLimiter) (subject : string) : identityLimitEntry :=
  default {| limiter := NewLimiter (requestsPerMinute l) (burst l); lastSeen := 0 |} (entries l !! subject).

Lemma Allow_cases l subject now :
  subject <> "" ->
  let l1 := swept l now in
  (entries l1 !! subject = None /\ identityLimiterCapacity <= size (entries l1) /\
     Allow_ l subject now = (l1, (false, "identity_capacity"))) \/
  ((is_Some (entries l1 !! subject) \/ size (entries l1) < identityLimiterCapacity) /\
   exists e, entries (Allow_ l subject now).1 = <[subject := e]> (entries l1) /\
     limiter e = (AllowN (limiter (bucket l1 subject)) now).2 /\
     (Allow_ l subject now).2 =
       if (AllowN (limiter (bucket l1 subject)) now).1 then (true, "") else (false, "identity_rate")).
Proof.
  intros Hne. unfold Allow_. rewrite bool_decide_false by done. fold (swept l now).
  unfold bucket. destruct (entries (swept l now) !! subject) as [e|] eqn:E.
  - right. split; [left; by eexists|]. cbn. destruct (AllowN (limiter e) now) as [ok lim]. cbn.
    eexists. split_and!; [done|done|]. by destruct ok.
  - destruct (Nat.leb_spec identityLimiterCapacity (size (entries (swept l now)))) as [Hle|Hlt].
    { by left. }
    right. split; [by right|].
    cbn. destruct (AllowN _ now) as [ok lim]. cbn. eexists.
    split_and!; [apply insert_insert_eq|done|]. by destruct ok.
Qed.
End limiter_lemmas.

Lemma saturating_from_spec total values :
  (0 <= total <= int64_max)%Z -> Forall (fun v => (0 <= v)%Z) values ->
  saturating_from total values = Z.min int64_max (foldr Z.add total values).
Proof.
  revert total. induction values as [|v values IH]; intros total Ht Hv; cbn [saturating_from foldr]; [lia|].
  apply Forall_cons in Hv as [Hv Hvs].
  assert (forall t, foldr Z.add t values = t + foldr Z.add 0 values)%Z as Hfold
    by (intros t; clear; induction values; cbn; lia).
  assert (0 <= foldr Z.add 0 values)%Z as Hnn by (clear -Hvs; induction Hvs; cbn; lia).
  rewrite (wrap64_id (int64_max - total)) by (unfold int64_ok, int64_min, int64_max in *; lia).
  destruct (Z.ltb_spec (int64_max - total) v).
  - rewrite Hfold. lia.
  - rewrite wrap64_id by (unfold int64_ok, int64_min, int64_max in *; lia).
    rewrite IH by (done || lia). rewrite Hfold, (Hfold total). lia.
Qed.

(** ** Properties *)

(** C32: In every state of the slots of a server with [maxConcurrent = n], at most
    [n] requests are in flight, at most [n - 1] of them stream, no identity
    holds more than half of the places (rounded up), and the counters of the
    code are exact.  Hence when all slots are taken, one is held by a request
    that does not stream. *)
Theorem slots_are_shared n s :
  (1 <= n < int64_max)%Z -> rtc slot_step (newSlots n) s ->
  semaphore s = Z.of_nat (size (inflight s)) /\ (semaphore s <= n)%Z /\
  streams (admission s) = map_sum is_streaming (inflight s) /\ (streams (admission s) <= n - 1)%Z /\
  (forall identity, held (admission s) identity = map_sum (of_identity identity) (inflight s) /\
     (map_sum (of_identity identity) (inflight s) <= Z.max 1 ((n + 1) / 2))%Z) /\
  (semaphore s = n -> exists r p, inflight s !! r = Some p /\ is_streaming p = 0%Z).
Proof.
  intros Hn H. pose proof (reachable_slots_inv n s Hn H) as [Hc Hs Hf Ht Hp Hst Hsc Hsf].
  split_and!; try done.
  - intros identity. split; [apply Ht|]. rewrite <- (proj1 Ht).
    rewrite <- Hp. apply (held_range _ _ _ Ht). lia.
  - intros Hfull.
    destruct (decide (map_Forall (fun _ p => (1 <= is_streaming p)%Z) (inflight s))) as [Hall|Hsome].
    + pose proof (map_sum_le (fun _ => 1%Z) is_streaming (inflight s) Hall) as Hle.
      rewrite map_sum_one in Hle. lia.
    + apply map_not_Forall in Hsome as (r & p & Hr & Hp'); [|intros; apply _].
      exists r, p. split; [done|]. destruct p; cbn in *; lia.
Qed.

(** Releasing a place undoes taking it, entry by entry of the table. *)
Theorem release_undoes_acquire a identity a' :
  map_Forall (fun _ n => (0 < n < int64_max)%Z) (identities a) ->
  acquireIdentity a identity = (a', true) -> releaseIdentity a' identity = a.
Proof.
  intros Hf H. unfold acquireIdentity in H. destruct (_ <=? _)%Z; [done|]. injection H as <-.
  assert (0 <= held a identity < int64_max)%Z as Hh.
  { unfold held. destruct (identities a !! identity) as [k|] eqn:E; cbn; [apply Hf in E; lia|done]. }
  unfold int64_max in *.
  rewrite (wrap64_id (held a identity + 1)) by (unfold int64_ok, int64_min, int64_max; lia).
  set (b := with_identities a _).
  assert (held b identity = held a identity + 1)%Z as Hb by (unfold b, held at 1; cbn; by rewrite lookup_insert_eq).
  unfold releaseIdentity. rewrite Hb, wrap64_id by (unfold int64_ok, int64_min, int64_max; lia).
  replace (held a identity + 1 - 1)%Z with (held a identity) by lia. unfold b, with_identities.
  destruct a as [m per st cap]; cbn in *. f_equal. rewrite insert_insert_eq.
  unfold held in *; cbn in *. destruct (m !! identity) as [k|] eqn:E; cbn in *.
  - destruct (Z.eqb_spec k 0); [apply Hf in E; lia|]. by apply insert_id.
  - by rewrite delete_insert_id.
Qed.

Section limiter_properties.
Context {R : RateLib}.

(** Isolation: a call for one identity is decided by that identity's own
    bucket and the capacity of the table only; it leaves the bucket of every
    other identity as it is, or drops it when it has been idle for 15
    minutes. *)
Theorem limiter_isolates l subject other now :
  subject <> "" -> other <> subject ->
  let l' := (Allow_ l subject now).1 in
  (entries l' !! other = entries l !! other \/
   exists e, entries l !! other = Some e /\ idle now e = true /\ entries l' !! other = None) /\
  ((Allow_ l subject now).2.1 = true ->
   (AllowN (limiter (bucket (swept l now) subject)) now).1 = true /\
   exists e, entries l' !! subject = Some e /\
     limiter e = (AllowN (limiter (bucket (swept l now) subject)) now).2).
Proof.
  intros Hne Hoth. cbn zeta.
  destruct (Allow_cases l subject now Hne) as [(_ & _ & ->)|(_ & e & He & Hl & Hr)].
  - split; [apply swept_lookup|done].
  - rewrite He. split; [rewrite lookup_insert_ne by done; apply swept_lookup|].
    rewrite Hr. intros Hok. split; [by destruct (AllowN _ now) as [[] ?]|].
    exists e. split; [apply lookup_insert_eq|done].
Qed.

(** The table never grows beyond its capacity. *)
Theorem limiter_bounded l subject now :
  size (entries l) <= identityLimiterCapacity ->
  size (entries (Allow_ l subject now).1) <= identityLimiterCapacity.
Proof.
  intros Hs. destruct (decide (subject = "")) as [->|Hne]; [done|].
  pose proof (swept_size l now).
  destruct (Allow_cases l subject now Hne) as [(_ & _ & ->)|([[e0 He0]|Hlt] & e & He & _)]; [cbn; lia| |].
  - rewrite He, map_size_insert_Some by (by eexists). lia.
  - rewrite He, map_size_insert. destruct (entries (swept l now) !! subject); unfold id; lia.
Qed.

(** [Retry-After] is the least number of seconds, at least one, in which the
    bucket of a positive rate gains a token. *)
Theorem retry_after_is_least l :
  (1 <= requestsPerMinute l)%Z ->
  (60 <= RetryAfterSeconds l * requestsPerMinute l)%Z /\
  forall k, (1 <= k)%Z -> (60 <= k * requestsPerMinute l)%Z -> (RetryAfterSeconds l <= k)%Z.
Proof.
  intros Hr. unfold RetryAfterSeconds. rewrite (Z.max_r 1 (requestsPerMinute l)) by lia.
  set (r := requestsPerMinute l) in *.
  pose proof (Z.div_mod (60 + r - 1) r ltac:(lia)) as Hd.
  pose proof (Z.mod_pos_bound (60 + r - 1) r ltac:(lia)) as Hm.
  set (q := ((60 + r - 1) / r)%Z) in *. split; [nia|]. intros k Hk Hk60. apply Z.max_lub; [lia|].
  destruct (Z.le_gt_cases q k) as [|Hgt]; [done|]. nia.
Qed.
End limiter_properties.

(** The write timeout of the HTTP server covers the wait for a slot, the
    authentication and the longest operation, with ten seconds to spare; the sum
    saturates instead of wrapping. *)
Theorem write_timeout_covers `{QuantityLib} config :
  let l := Limits (cfg_Spec config) in
  (0 <= RequestTimeout l)%Z -> (0 <= StreamTimeout l)%Z -> (0 <= ExecTimeout l)%Z ->
  serverWriteTimeout config =
    Z.min int64_max (2 * RequestTimeout l + Z.max (Z.max (RequestTimeout l) (StreamTimeout l)) (ExecTimeout l)
                     + 10 * second).
Proof.
  intros l H1 H2 H3. unfold serverWriteTimeout, saturatingDurationSum. fold l.
  rewrite saturating_from_spec.
  - cbn [foldr]. unfold second. lia.
  - unfold int64_max. lia.
  - repeat constructor; unfold second; lia.
Qed.

(** ** Witnesses *)

Module AdmissionWitness.
Export ConfigWitness.

(** A bucket that never refills. *)
#[export] Instance plain_Rate : RateLib := {|
  Limiter := Z; NewLimiter _ b := b; AllowN l _ := if (0 <? l)%Z then (true, (l - 1)%Z) else (false, l) |}.

(** A server of two slots serving a stream of alice. *)
Definition stage1 : slots := put (newSlots 2) 1 (newRequestAdmission 2) (<[0 := Slot]> ∅).
Definition stage2 : slots :=
  put stage1 1 (acquireIdentity (newRequestAdmission 2) "alice").1 (<[0 := Identified "alice"]> (inflight stage1)).
Definition stage3 : slots :=
  put stage2 1 (with_streams (admission stage2) 1) (<[0 := Streaming_ "alice"]> (inflight stage2)).

Lemma stage3_reachable : rtc slot_step (newSlots 2) stage3.
Proof.
  apply (rtc_l _ _ stage1); [by apply (take_slot (newSlots 2) 0)|].
  apply (rtc_l _ _ stage2); [by apply (take_identity stage1 0 "alice")|].
  apply (rtc_l _ _ stage3); [by apply (take_stream stage2 0 "alice")|]. apply rtc_refl.
Qed.

Lemma slots_are_shared_witness :
  semaphore stage3 = Z.of_nat (size (inflight stage3)) /\ (semaphore stage3 <= 2)%Z /\
  streams (admission stage3) = map_sum is_streaming (inflight stage3) /\ (streams (admission stage3) <= 2 - 1)%Z /\
  (forall identity, held (admission stage3) identity = map_sum (of_identity identity) (inflight stage3) /\
     (map_sum (of_identity identity) (inflight stage3) <= Z.max 1 ((2 + 1) / 2))%Z) /\
  (semaphore stage3 = 2%Z -> exists r p, inflight stage3 !! r = Some p /\ is_streaming p = 0%Z).
Proof. apply (slots_are_shared 2 stage3); [unfold int64_max; lia|exact stage3_reachable]. Defined.

Lemma release_undoes_acquire_witness :
  releaseIdentity (acquireIdentity (newRequestAdmission 4) "alice").1 "alice" = newRequestAdmission 4.
Proof.
  apply (release_undoes_acquire (newRequestAdmission 4) "alice"); [apply map_Forall_empty|reflexivity].
Defined.

Definition demo_limiter : identityRateLimiter := (Allow_ (newIdentityRateLimiter 120 2) "bob" 100).1.

Lemma limiter_isolates_witness :
  let l' := (Allow_ demo_limiter "alice" 200).1 in
  (entries l' !! "bob" = entries demo_limiter !! "bob" \/
   exists e, entries demo_limiter !! "bob" = Some e /\ idle 200 e = true /\ entries l' !! "bob" = None) /\
  ((Allow_ demo_limiter "alice" 200).2.1 = true ->
   (AllowN (limiter (bucket (swept demo_limiter 200) "alice")) 200).1 = true /\
   exists e, entries l' !! "alice" = Some e /\
     limiter e = (AllowN (limiter (bucket (swept demo_limiter 200) "alice")) 200).2).
Proof. apply (limiter_isolates demo_limiter "alice" "bob" 200); discriminate. Defined.

Lemma limiter_bounded_witness :
  size (entries (Allow_ demo_limiter "alice" 200).1) <= identityLimiterCapacity.
Proof. apply (limiter_bounded demo_limiter "alice" 200). apply Nat.leb_le. vm_compute. reflexivity. Defined.

Lemma retry_after_is_least_witness :
  (60 <= RetryAfterSeconds (newIdentityRateLimiter 7 1) * 7)%Z /\
  forall k, (1 <= k)%Z -> (60 <= k * 7)%Z -> (RetryAfterSeconds (newIdentityRateLimiter 7 1) <= k)%Z.
Proof. apply (retry_after_is_least (newIdentityRateLimiter 7 1)). cbn. lia. Defined.

Lemma write_timeout_covers_witness :
  serverWriteTimeout (demo_config ModeReadOnly) =
    Z.min int64_max (2 * (30 * second) + Z.max (Z.max (30 * second) (60 * second)) (30 * second) + 10 * second).
Proof. apply (write_timeout_covers (demo_config ModeReadOnly)); discriminate. Defined.
End AdmissionWitness.
