(* ===== verification/Regex.v ===== *)
(** * Regular expressions

    The fragment of Go's [regexp] the server uses, over the runes of a string:
    classes, sequence, alternation, bounded repetition and the anchor for the
    beginning of the text, with case folding expanded the way the regexp parser
    expands it.  [MatchString] looks for a match anywhere in the text. *)

From Stdlib Require Import String.
From S2P Require Import Prelude GoStrings.

Inductive regex :=
| Empty_
| Class (p : N -> bool)
| BeginText
| Seq (r1 r2 : regex)
| Alt (r1 r2 : regex).

(** [r?] and [r{0,n}]. *)
Definition Opt (r : regex) : regex := Alt r Empty_.
Fixpoint UpTo (n : nat) (r : regex) : regex :=
  match n with O => Empty_ | S k => Opt (Seq r (UpTo k r)) end.

Definition alternatives (rs : list regex) : regex :=
  match rs with
  | [] => Class (fun _ => false)
  | r :: rs' => foldl Alt r rs'
  end.

(** A literal under [(?i)]: each letter stands for its simple-folding orbit. *)
Definition folds (c r : N) : bool :=
  (r =? c)%N
  || (between 97 c 122 && (r =? c - 32)%N)
  || ((c =? 107)%N && (r =? 0x212A)%N)
  || ((c =? 115)%N && (r =? 0x17F)%N).
Definition fold_literal (s : string) : regex :=
  foldr (fun c r => Seq (Class (folds c)) r) Empty_ (bytes_of s).

Definition one_of (s : string) : regex := Class (fun r => bool_decide (r ∈ bytes_of s)).

(** [[:alnum:]] under [(?i)] also holds the two runes that fold to an ASCII letter. *)
Definition alnum_fold (r : N) : bool :=
  between 48 r 57 || between 65 r 90 || between 97 r 122 || (r =? 0x17F)%N || (r =? 0x212A)%N.

(** All ways to match a prefix of [text]: what is left, and whether the match
    is still at the beginning. *)
Fixpoint ends (r : regex) (start : bool) (text : list N) : list (bool * list N) :=
  match r with
  | Empty_ => [(start, text)]
  | Class p => match text with x :: rest => if p x then [(false, rest)] else [] | [] => [] end
  | BeginText => if start then [(start, text)] else []
  | Seq r1 r2 => flat_map (fun e => ends r2 e.1 e.2) (ends r1 start text)
  | Alt r1 r2 => ends r1 start text ++ ends r2 start text
  end.

Fixpoint search (r : regex) (start : bool) (text : list N) : bool :=
  match ends r start text with
  | _ :: _ => true
  | [] => match text with [] => false | _ :: rest => search r false rest end
  end.

Definition MatchString (r : regex) (s : string) : bool := search r true (runes s).

(** ** What an expression matches: [matches r before word], [before] the text
    to the left of the word. *)
Inductive matches : regex -> list N -> list N -> Prop :=
| m_empty pre : matches Empty_ pre []
| m_class p pre x : p x = true -> matches (Class p) pre [x]
| m_begin : matches BeginText [] []
| m_seq r1 r2 pre u v : matches r1 pre u -> matches r2 (pre ++ u) v -> matches (Seq r1 r2) pre (u ++ v)
| m_alt_l r1 r2 pre u : matches r1 pre u -> matches (Alt r1 r2) pre u
| m_alt_r r1 r2 pre u : matches r2 pre u -> matches (Alt r1 r2) pre u.

Definition at_start (pre : list N) : bool := match pre with [] => true | _ => false end.

Lemma at_start_snoc pre x : at_start (pre ++ [x]) = false.
Proof. by destruct pre. Qed.

Lemma ends_spec r pre text b rest :
  (b, rest) ∈ ends r (at_start pre) text <->
  exists word, text = word ++ rest /\ b = at_start (pre ++ word) /\ matches r pre word.
Proof.
  revert pre text b rest.
  induction r as [|p| |r1 IH1 r2 IH2|r1 IH1 r2 IH2]; intros pre text b rest; cbn [ends].
  - rewrite list_elem_of_singleton. split.
    + intros [= -> ->]. exists []. rewrite app_nil_r. split_and!; [done|done|constructor].
    + intros (w & -> & -> & Hm). inversion Hm; subst. by rewrite app_nil_r.
  - destruct text as [|x text]; [|destruct (p x) eqn:Hp].
    + split; [by intros ?%elem_of_nil|]. intros (w & Hw & _ & Hm). inversion Hm; subst. by destruct rest.
    + rewrite list_elem_of_singleton. split.
      * intros [= -> ->]. exists [x]. rewrite at_start_snoc. split_and!; [done|done|by constructor].
      * intros (w & Hw & -> & Hm). inversion Hm; subst. injection Hw as -> ->. by rewrite at_start_snoc.
    + split; [by intros ?%elem_of_nil|]. intros (w & Hw & _ & Hm). inversion Hm; subst.
      injection Hw as -> ->. congruence.
  - destruct pre as [|y pre]; cbn [at_start].
    + rewrite list_elem_of_singleton. split.
      * intros [= -> ->]. exists []. split_and!; [done|done|constructor].
      * intros (w & -> & -> & Hm). by inversion Hm; subst.
    + split; [by intros ?%elem_of_nil|]. intros (w & _ & _ & Hm). inversion Hm.
  - rewrite list_elem_of_In, in_flat_map. split.
    + intros ([b1 mid] & H1 & H2). rewrite <- list_elem_of_In in H1, H2.
      apply IH1 in H1 as (u & -> & -> & Hu). cbn [fst snd] in H2. apply IH2 in H2 as (v & -> & -> & Hv).
      exists (u ++ v). split_and!; [by rewrite <- app_assoc|by rewrite app_assoc|by constructor].
    + intros (w & -> & -> & Hm). inversion Hm as [| | |? ? ? u v Hu Hv| |]; subst.
      exists (at_start (pre ++ u), v ++ rest). rewrite <- !list_elem_of_In. split.
      * apply IH1. exists u. by rewrite app_assoc.
      * apply IH2. exists v. by rewrite app_assoc.
  - rewrite elem_of_app, IH1, IH2. split.
    + intros [(w & ? & ? & ?)|(w & ? & ? & ?)]; exists w; split_and!; try done;
        [by apply m_alt_l|by apply m_alt_r].
    + intros (w & ? & ? & Hm). inversion Hm; subst; [left|right]; eauto.
Qed.

Lemma search_spec r pre text :
  search r (at_start pre) text = true <->
  exists u word v, text = u ++ word ++ v /\ matches r (pre ++ u) word.
Proof.
  revert pre. induction text as [|x text IH]; intros pre; cbn [search].
  - destruct (ends r (at_start pre) []) as [|[b rest] l] eqn:E.
    + split; [done|]. intros (u & w & v & Ht & Hm). symmetry in Ht. apply app_eq_nil in Ht as [-> Ht].
      apply app_eq_nil in Ht as [-> ->]. rewrite app_nil_r in Hm.
      assert ((at_start pre, []) ∈ ends r (at_start pre) []) as Hin.
      { apply ends_spec. exists []. split_and!; [done|by rewrite app_nil_r|done]. }
      rewrite E in Hin. by apply elem_of_nil in Hin.
    + split; [intros _|done]. assert ((b, rest) ∈ ends r (at_start pre) []) as Hin by (rewrite E; left).
      apply ends_spec in Hin as (w & Hw & _ & Hm). exists [], w, rest. by rewrite app_nil_r.
  - destruct (ends r (at_start pre) (x :: text)) as [|[b rest] l] eqn:E.
    + rewrite <- (at_start_snoc pre x), IH. split.
      * intros (u & w & v & -> & Hm). exists (x :: u), w, v. by rewrite <- app_assoc in Hm.
      * intros (u & w & v & Ht & Hm). destruct u as [|y u].
        { assert ((at_start (pre ++ w), v) ∈ ends r (at_start pre) (x :: text)) as Hin.
          { apply ends_spec. exists w. rewrite app_nil_r in Hm. by split_and!. }
          rewrite E in Hin. by apply elem_of_nil in Hin. }
        injection Ht as -> ->. exists u, w, v. by rewrite <- app_assoc.
    + split; [intros _|done]. assert ((b, rest) ∈ ends r (at_start pre) (x :: text)) as Hin by (rewrite E; left).
      apply ends_spec in Hin as (w & Hw & _ & Hm). exists [], w, rest. by rewrite app_nil_r.
Qed.

(** [MatchString] reports exactly the texts that contain a word of the
    expression. *)
Lemma MatchString_spec r s :
  MatchString r s = true <-> exists u word v, runes s = u ++ word ++ v /\ matches r u word.
Proof. apply (search_spec r []). Qed.

(** ** Inversion rules for expressions built with the combinators *)

Lemma matches_seq r1 r2 pre w :
  matches (Seq r1 r2) pre w <-> exists u v, w = u ++ v /\ matches r1 pre u /\ matches r2 (pre ++ u) v.
Proof.
  split.
  - intros Hm. inversion Hm; subst. eauto.
  - intros (u & v & -> & ? & ?). by constructor.
Qed.

Lemma matches_alt r1 r2 pre w : matches (Alt r1 r2) pre w <-> matches r1 pre w \/ matches r2 pre w.
Proof.
  split; [intros Hm; inversion Hm; subst; auto|]. intros [?|?]; [by apply m_alt_l|by apply m_alt_r].
Qed.

Lemma matches_class p pre w : matches (Class p) pre w <-> exists x, w = [x] /\ p x = true.
Proof.
  split; [intros Hm; inversion Hm; subst; eauto|]. intros (x & -> & ?). by constructor.
Qed.

Lemma matches_empty pre w : matches Empty_ pre w <-> w = [].
Proof. split; [intros Hm; by inversion Hm|]. intros ->. constructor. Qed.

Lemma matches_begin pre w : matches BeginText pre w <-> pre = [] /\ w = [].
Proof. split; [intros Hm; by inversion Hm|]. intros [-> ->]. constructor. Qed.

(** [[class]{0,n}]: at most [n] runes of the class. *)
Lemma matches_upto n p pre w :
  matches (UpTo n (Class p)) pre w <-> length w <= n /\ Forall (fun x => p x = true) w.
Proof.
  revert pre w. induction n as [|n IH]; intros pre w; cbn [UpTo].
  - rewrite matches_empty. split; [intros ->; by split; [cbn|constructor]|].
    intros [Hl _]. destruct w; [done|cbn in Hl; lia].
  - unfold Opt. rewrite matches_alt, matches_empty, matches_seq. split.
    + intros [(u & v & -> & Hu & Hv)| ->]; [|split; [cbn; lia|constructor]].
      apply matches_class in Hu as (x & -> & Hx). apply IH in Hv as [? ?].
      split; [cbn; lia|by constructor].
    + intros [Hl Hf]. destruct w as [|x w]; [by right|left]. apply Forall_cons in Hf as [Hx Hf].
      exists [x], w. split_and!; [done|apply matches_class; eauto|]. apply IH. split; [cbn in Hl; lia|done].
Qed.

(** A folded literal matches the words that differ from it in case only. *)
Definition spells (s : string) (w : list N) : Prop := Forall2 (fun c r => folds c r = true) (bytes_of s) w.

Lemma matches_fold_literal s pre w : matches (fold_literal s) pre w <-> spells s w.
Proof.
  unfold fold_literal, spells. generalize (bytes_of s) as cs. intros cs. revert pre w.
  induction cs as [|c cs IH]; intros pre w; cbn [foldr].
  - rewrite matches_empty. split; [intros ->; constructor|intros Hf; by inversion Hf].
  - rewrite matches_seq. split.
    + intros (u & v & -> & (x & -> & Hx)%matches_class & Hv%IH). by constructor.
    + intros Hf. inversion Hf as [|? x ? v Hx Hv]; subst. exists [x], v.
      split_and!; [done|apply matches_class; eauto|by apply IH].
Qed.

Lemma matches_one_of s pre w : matches (one_of s) pre w <-> exists c, w = [c] /\ c ∈ bytes_of s.
Proof. unfold one_of. rewrite matches_class. by setoid_rewrite bool_decide_eq_true. Qed.

Lemma matches_alternatives rs pre w :
  matches (alternatives rs) pre w <-> exists r, r ∈ rs /\ matches r pre w.
Proof.
  assert (forall rs r, matches (foldl Alt r rs) pre w <-> exists r', r' ∈ r :: rs /\ matches r' pre w) as H.
  { clear rs. induction rs as [|r' rs IH]; intros r; cbn [foldl].
    - setoid_rewrite list_elem_of_singleton. naive_solver.
    - rewrite IH. split.
      + intros (q & Hq & Hm). apply elem_of_cons in Hq as [->|Hq].
        * apply matches_alt in Hm as [?|?]; [exists r|exists r']; set_solver.
        * exists q. set_solver.
      + intros (q & Hq & Hm). rewrite !elem_of_cons in Hq.
        destruct Hq as [->|[->|Hq]]; [exists (Alt r r')|exists (Alt r r')|exists q];
          rewrite ?matches_alt; set_solver. }
  destruct rs as [|r rs]; cbn [alternatives]; [|apply H].
  rewrite matches_class. split; [by intros (x & _ & ?)|]. intros (q & Hq & _). by apply elem_of_nil in Hq.
Qed.
