(* ===== verification/Redaction.v ===== *)
(** * Redaction and output bounds (src/internal/server/redaction.go)

    Every object the server returns passes through [redactResult], and every
    result through [boundedValue].  The functions copy a map before they change
    it, so the caller's object keeps its values; here a copy is the value itself. *)

From Stdlib Require Import Ascii String.
From S2P Require Import Prelude GoStrings Crypto Json Regex Errors Config Kube Policy.

Definition redacted_text : string := "<redacted>".

(** ** The two expressions *)

Definition split_word (a b : string) : regex := Seq (fold_literal a) (Seq (Opt (one_of "._-")) (fold_literal b)).
Definition assignment_tail : regex := Seq (UpTo 4 (Class (fun r => negb (alnum_fold r)))) (one_of ":=").

Definition sensitiveAnnotationAssignment : regex :=
  Seq (alternatives
         [split_word "api" "key"; fold_literal "token"; fold_literal "password"; fold_literal "passwd";
          fold_literal "secret"; split_word "access" "key"; split_word "private" "key";
          split_word "client" "secret"; fold_literal "credential"])
      assignment_tail.

Definition sensitiveBareKeyAssignment : regex :=
  Seq (Alt BeginText (Class (fun r => negb (alnum_fold r || (r =? 95)%N)))) (Seq (fold_literal "key") assignment_tail).

(** ** Redaction *)

Section redaction.
Context {G : GoLib}.

Definition sensitive_markers : list string :=
  ["api_key"; "apikey"; "token"; "password"; "passwd"; "secret"; "access_key"; "private_key"; "client_secret"; "credential"].

(** [strings.NewReplacer("-", "_", ".", "_", "/", "_")]. *)
Definition separator_to_underscore (c : Ascii.ascii) : Ascii.ascii :=
  if bool_decide (c ∈ ["-"%char; "."%char; "/"%char]) then "_"%char else c.

Definition sensitiveAnnotationName (name : string) : bool :=
  let normalized := map_bytes separator_to_underscore (ToLower name) in
  existsb (Contains normalized) sensitive_markers
  || bool_decide (normalized = "key") || HasSuffix normalized "_key" || Contains normalized "_key_".

Definition sensitive_annotation (key : string) (raw : value) : bool :=
  sensitiveAnnotationName key
  || match raw with
     | VStr text => MatchString sensitiveAnnotationAssignment text || MatchString sensitiveBareKeyAssignment text
     | _ => false
     end.

Definition redactAnnotationMap (v : value) : value :=
  match v with
  | VMap annotations =>
    VMap (map_entries (fun key raw => if sensitive_annotation key raw then VStr redacted_text else raw) annotations)
  | _ => v
  end.

Fixpoint redactSensitiveAnnotations (v : value) (metadata : bool) : value :=
  match v with
  | VMap typed =>
    VMap ((fix go (m : object) : object :=
      match m with
      | [] => []
      | (key, child) :: m' =>
        (key, if metadata && bool_decide (key = "annotations") then redactAnnotationMap child
              else redactSensitiveAnnotations child (bool_decide (key = "metadata"))) :: go m'
      end) typed)
  | VList typed =>
    VList ((fix go (l : list value) : list value :=
      match l with
      | [] => []
      | child :: l' => redactSensitiveAnnotations child false :: go l'
      end) typed)
  | _ => v
  end.

(** Every value of a map replaced by the marker. *)
Definition blank (m : object) : object := map_entries (fun _ _ => VStr redacted_text) m.

Definition redact_field (copy : object) (field : string) : object :=
  match obj_index copy field with
  | VMap values => obj_set copy field (VMap (blank values))
  | _ => copy
  end.

Definition redactSecret (secret : object) : object :=
  let copy := foldl redact_field secret ["data"; "stringData"; "binaryData"] in
  match obj_index copy "metadata" with
  | VMap metadata =>
    match obj_index metadata "annotations" with
    | VMap annotations => obj_set copy "metadata" (VMap (obj_set metadata "annotations" (VMap (blank annotations))))
    | _ => copy
    end
  | _ => copy
  end.

Definition redactSecretCollection (v : value) : value :=
  match v with
  | VMap obj =>
    match obj_index obj "items" with
    | VList items =>
      VMap (obj_set obj "items" (VList
        ((fun item => match item with VMap secret => VMap (redactSecret secret) | _ => item end) <$> items)))
    | _ => VMap (redactSecret obj)
    end
  | _ => v
  end.

Definition is_core (action : Action) (resource : string) : bool :=
  bool_decide (Group (a_GVR action) = "") && bool_decide (Resource (a_GVR action) = resource).

Definition redactResult (v : value) (action : Action) (policy : string) : result go_error value :=
  if is_core action "secrets" && bool_decide (policy = SensitiveReadDeny) then
    Err (policyError "sensitive_read_denied" "Secret reads are disabled by policy")
  else
  let result :=
    if is_core action "secrets" && bool_decide (policy = SensitiveReadRedact) then redactSecretCollection v else v in
  if is_core action "serviceaccounts" && bool_decide (a_Subresource action = "token")
     && negb (bool_decide (policy = SensitiveReadAllow)) then
    Err (policyError "sensitive_read_denied" "ServiceAccount token output requires sensitiveReads=Allow")
  else Ok (redactSensitiveAnnotations result false).

(** ** Bounded output *)

(** The first [n] bytes of [data]. *)
Definition take_bytes (n : Z) (data : string) : list N := take (Z.to_nat n) (bytes_of data).

Definition preview_bytes (limit : Z) (data : string) : Z :=
  let previewBytes := Z.quot (wrap64 (wrap64 (limit - 256) * 3)) 4 in
  let previewBytes := if (previewBytes <? 0)%Z then 0%Z else previewBytes in
  if (Z.of_nat (String.length data) <? previewBytes)%Z then Z.of_nat (String.length data) else previewBytes.

Definition boundedValue (v : value) (limit : Z) : value :=
  match Marshal v with
  | None => v
  | Some data =>
    if (Z.of_nat (String.length data) <=? limit)%Z then v
    else VMap [("truncated", VBool true); ("originalBytes", VInt (Z.of_nat (String.length data)));
               ("previewEncoding", VStr "base64-json-prefix");
               ("preview", VStr (base64_Encode RawStdEncoding (take_bytes (preview_bytes limit data) data)))]
  end.

Definition boundedOutput (v : object) (limit : Z) : object :=
  match boundedValue (VMap v) limit with
  | VMap output => output
  | bounded => [("value", bounded)]
  end.
End redaction.

(** ** What counts as a secret in an annotation *)

(** A word such as [token] or [api_key], in any case, the optional separator included. *)
Definition secret_word (w : list N) : Prop :=
  (exists s, s ∈ ["token"; "password"; "passwd"; "secret"; "credential"] /\ spells s w) \/
  (exists a b u sep v, (a, b) ∈ [("api", "key"); ("access", "key"); ("private", "key"); ("client", "secret")] /\
     w = u ++ sep ++ v /\ spells a u /\ spells b v /\ (sep = [] \/ exists c, sep = [c] /\ c ∈ bytes_of "._-")).

(** At most four separators, then a colon or an equals sign. *)
Definition assignment_sign (w : list N) : Prop :=
  exists sep c, w = sep ++ [c] /\ length sep <= 4 /\ Forall (fun r => alnum_fold r = false) sep /\ c ∈ bytes_of ":=".

(** The text assigns to a secret word, or to the word [key] standing alone. *)
Definition assigns_secret (text : list N) : Prop :=
  (exists pre w sign post, text = pre ++ w ++ sign ++ post /\ secret_word w /\ assignment_sign sign) \/
  (exists pre w sign post, text = pre ++ w ++ sign ++ post /\ spells "key" w /\ assignment_sign sign /\
     (pre = [] \/ exists pre' r, pre = pre' ++ [r] /\ alnum_fold r = false /\ r <> 95%N)).

Lemma matches_tail pre w : matches assignment_tail pre w <-> assignment_sign w.
Proof.
  unfold assignment_tail, assignment_sign. rewrite matches_seq. split.
  - intros (u & v & -> & [Hl Hf]%matches_upto & (c & -> & Hc)%matches_one_of).
    exists u, c. split_and!; [done|done| |done]. eapply Forall_impl; [exact Hf|]. intros x. apply negb_true_iff.
  - intros (sep & c & -> & Hl & Hf & Hc). exists sep, [c]. split_and!; [done| |apply matches_one_of; eauto].
    apply matches_upto. split; [done|]. eapply Forall_impl; [exact Hf|]. intros x. apply negb_true_iff.
Qed.

Lemma matches_split_word a b pre w :
  matches (split_word a b) pre w <->
  exists u sep v, w = u ++ sep ++ v /\ spells a u /\ spells b v /\ (sep = [] \/ exists c, sep = [c] /\ c ∈ bytes_of "._-").
Proof.
  unfold split_word, Opt. rewrite matches_seq. split.
  - intros (u & x & -> & Hu%matches_fold_literal & (sep & v & -> & Hs & Hv%matches_fold_literal)%matches_seq).
    exists u, sep, v. split_and!; [done..|]. rewrite matches_alt, matches_one_of, matches_empty in Hs. tauto.
  - intros (u & sep & v & -> & Hu & Hv & Hs). exists u, (sep ++ v).
    split_and!; [done|by apply matches_fold_literal|]. apply matches_seq. exists sep, v.
    split_and!; [done| |by apply matches_fold_literal]. rewrite matches_alt, matches_one_of, matches_empty. tauto.
Qed.

Lemma matches_secret_word pre w :
  matches (alternatives
    [split_word "api" "key"; fold_literal "token"; fold_literal "password"; fold_literal "passwd";
     fold_literal "secret"; split_word "access" "key"; split_word "private" "key";
     split_word "client" "secret"; fold_literal "credential"]) pre w <-> secret_word w.
Proof.
  rewrite matches_alternatives. unfold secret_word. split.
  - intros (r & Hr & Hm). rewrite !elem_of_cons, elem_of_nil in Hr.
    repeat destruct Hr as [->|Hr]; try done;
      first [ apply matches_split_word in Hm as (u & sep & v & -> & ? & ? & ?); right;
              eexists _, _, u, sep, v; split; [|done]; set_solver
            | apply matches_fold_literal in Hm; left; eexists; split; [|done]; set_solver ].
  - intros [(s & Hs & Hw)|(a & b & u & sep & v & Hab & -> & Hu & Hv & Hsep)].
    + exists (fold_literal s). rewrite matches_fold_literal. split; [|done].
      rewrite !elem_of_cons, elem_of_nil in Hs. repeat destruct Hs as [->|Hs]; try done; set_solver.
    + exists (split_word a b). rewrite matches_split_word. split; [|by exists u, sep, v].
      rewrite !elem_of_cons, elem_of_nil in Hab. repeat destruct Hab as [[= -> ->]|Hab]; try done; set_solver.
Qed.

(** The two expressions find exactly the texts that assign to a secret. *)
Lemma expressions_spec text :
  MatchString sensitiveAnnotationAssignment text || MatchString sensitiveBareKeyAssignment text = true <->
  assigns_secret (runes text).
Proof.
  rewrite orb_true_iff, !MatchString_spec. unfold assigns_secret, sensitiveAnnotationAssignment, sensitiveBareKeyAssignment.
  split; (intros [H|H]; [left|right]); revert H.
  - intros (u & w & v & -> & Hm). apply matches_seq in Hm as (x & y & -> & Hx%matches_secret_word & Hy%matches_tail).
    exists u, x, y, v. split_and!; [by rewrite <- app_assoc|done..].
  - intros (u & w & v & -> & Hm).
    apply matches_seq in Hm as (x & z & -> & Hx & (k & y & -> & Hk%matches_fold_literal & Hy%matches_tail)%matches_seq).
    exists (u ++ x), k, y, v. split_and!; [by rewrite <- !app_assoc|done|done|].
    apply matches_alt in Hx as [[-> ->]%matches_begin|(r & -> & Hr)%matches_class]; [by left|right].
    apply negb_true_iff, orb_false_iff in Hr as [? ?%N.eqb_neq]. by exists u, r.
  - intros (pre & w & sign & post & -> & Hw & Hs). exists pre, (w ++ sign), post. split; [by rewrite <- app_assoc|].
    apply matches_seq. exists w, sign. by rewrite matches_secret_word, matches_tail.
  - intros (pre & w & sign & post & -> & Hw & Hs & Hpre).
    assert (exists u x, pre = u ++ x /\ matches (Alt BeginText (Class (fun r => negb (alnum_fold r || (r =? 95)%N)))) u x)
      as (u & x & -> & Hx).
    { destruct Hpre as [->|(pre' & r & -> & Hr & Hne)].
      - exists [], []. split; [done|]. apply m_alt_l. constructor.
      - exists pre', [r]. split; [done|]. apply m_alt_r. constructor. by rewrite Hr, (proj2 (N.eqb_neq _ _)). }
    exists u, (x ++ w ++ sign), post. split; [by rewrite <- !app_assoc|].
    apply matches_seq. exists x, (w ++ sign). split_and!; [done|done|].
    apply matches_seq. exists w, sign. by rewrite matches_fold_literal, matches_tail.
Qed.

(** ** Lemmas on the structure of redaction *)

Section structure.
Context {G : GoLib}.

Lemma redact_VMap m md :
  redactSensitiveAnnotations (VMap m) md =
  VMap (map_entries (fun key child =>
    if md && bool_decide (key = "annotations") then redactAnnotationMap child
    else redactSensitiveAnnotations child (bool_decide (key = "metadata"))) m).
Proof. cbn [redactSensitiveAnnotations]. f_equal. induction m as [|[k v] m IH]; [done|]. cbn. by f_equal. Qed.

Lemma redact_VList l md :
  redactSensitiveAnnotations (VList l) md = VList ((fun v => redactSensitiveAnnotations v false) <$> l).
Proof. reflexivity. Qed.

(** [(key, raw)] is an entry of an annotation map somewhere in [v]; [md] says
    that [v] itself is the value of a [metadata] key. *)
Inductive annotation_in : value -> bool -> string -> value -> Prop :=
| here m annotations key raw :
    ("annotations", VMap annotations) ∈ m -> (key, raw) ∈ annotations ->
    annotation_in (VMap m) true key raw
| in_map m md k child key raw :
    (k, child) ∈ m -> ~ (md = true /\ k = "annotations") ->
    annotation_in child (bool_decide (k = "metadata")) key raw ->
    annotation_in (VMap m) md key raw
| in_list l md child key raw :
    child ∈ l -> annotation_in child false key raw -> annotation_in (VList l) md key raw.

Lemma elem_of_map_entries f (m : object) k v :
  (k, v) ∈ map_entries f m <-> exists w, (k, w) ∈ m /\ v = f k w.
Proof.
  unfold map_entries. rewrite list_elem_of_fmap. split.
  - intros ([k' w] & [= -> ->] & Hin). eauto.
  - intros (w & Hin & ->). by exists (k, w).
Qed.

(** An annotation of the output comes from one of the input. *)
Lemma redacted_annotation v md key raw :
  annotation_in (redactSensitiveAnnotations v md) md key raw ->
  exists raw0, annotation_in v md key raw0 /\
    raw = if sensitive_annotation key raw0 then VStr redacted_text else raw0.
Proof.
  revert md. induction v as [| | | | | |l IH|m IH] using value_ind'; intros md; try by inversion 1.
  - rewrite redact_VList. intros Hin. inversion Hin as [| |? ? child ? ? Hc Hch]; subst.
    apply list_elem_of_fmap in Hc as (child0 & -> & Hc). rewrite Forall_forall in IH.
    destruct (IH _ Hc false Hch) as (raw0 & ? & ->). exists raw0. split; [by eapply in_list|done].
  - rewrite redact_VMap. rewrite Forall_forall in IH. intros Hin.
    inversion Hin as [? annotations ? ? Ha Hr|? ? k child ? ? Hk Hn Hc|]; subst.
    + apply elem_of_map_entries in Ha as (w & Hw & Heq). rewrite bool_decide_true in Heq by done. cbn [andb] in Heq.
      destruct w; cbn [redactAnnotationMap] in Heq; try done. injection Heq as ->.
      apply elem_of_map_entries in Hr as (raw0 & Hr & ->). exists raw0. split; [by eapply here|done].
    + apply elem_of_map_entries in Hk as (w & Hw & ->).
      assert (md && bool_decide (k = "annotations") = false) as E.
      { destruct md; [|done]. cbn. apply bool_decide_eq_false. tauto. }
      rewrite E in Hc. destruct (IH _ Hw _ Hc) as (raw0 & ? & ->). exists raw0. split; [by eapply in_map|done].
Qed.

Lemma sensitive_annotation_iff key raw :
  sensitive_annotation key raw = true <->
  sensitiveAnnotationName key = true \/ exists text, raw = VStr text /\ assigns_secret (runes text).
Proof.
  unfold sensitive_annotation. rewrite orb_true_iff. apply or_iff_compat_l.
  destruct raw; try (split; [done|by intros (? & ? & _)]).
  rewrite expressions_spec. naive_solver.
Qed.

(** The marker itself is not sensitive text. *)
Lemma sensitive_redacted key : sensitive_annotation key (VStr redacted_text) = sensitiveAnnotationName key.
Proof.
  unfold sensitive_annotation.
  assert (MatchString sensitiveAnnotationAssignment redacted_text
          || MatchString sensitiveBareKeyAssignment redacted_text = false) as -> by (vm_compute; reflexivity).
  by rewrite orb_false_r.
Qed.

Lemma redactAnnotationMap_idem v : redactAnnotationMap (redactAnnotationMap v) = redactAnnotationMap v.
Proof.
  destruct v; try done. cbn [redactAnnotationMap]. f_equal. unfold map_entries. rewrite <- list_fmap_compose.
  apply list_fmap_ext. intros _ [k raw] _. cbn. f_equal.
  destruct (sensitive_annotation k raw) eqn:E; [|by rewrite E].
  by destruct (sensitive_annotation k (VStr redacted_text)).
Qed.

Lemma redactSensitiveAnnotations_idem v md :
  redactSensitiveAnnotations (redactSensitiveAnnotations v md) md = redactSensitiveAnnotations v md.
Proof.
  revert md. induction v as [| | | | | |l IH|m IH] using value_ind'; intros md; try done.
  - rewrite !redact_VList. f_equal. rewrite <- list_fmap_compose. apply list_fmap_ext.
    intros i v Hi. cbn. rewrite Forall_forall in IH. apply IH. by eapply list_elem_of_lookup_2.
  - rewrite !redact_VMap. f_equal. unfold map_entries. rewrite <- list_fmap_compose. apply list_fmap_ext.
    intros i [k v] Hi. cbn. f_equal. destruct (md && _); [apply redactAnnotationMap_idem|].
    rewrite Forall_forall in IH. apply (IH (k, v)). by eapply list_elem_of_lookup_2.
Qed.
End structure.

(** ** Secrets that differ in their values only *)

Definition secret_fields : list string := ["data"; "stringData"; "binaryData"].

(** The same keys, or the same value. *)
Definition keys_alike (v w : value) : Prop :=
  match v, w with VMap a, VMap b => keys a = keys b | _, _ => v = w end.
Definition metadata_alike (v w : value) : Prop :=
  match v, w with
  | VMap a, VMap b =>
    Forall2 (fun x y => x.1 = y.1 /\ if decide (x.1 = "annotations") then keys_alike x.2 y.2 else x.2 = y.2) a b
  | _, _ => v = w
  end.
Definition secret_alike (a b : object) : Prop :=
  Forall2 (fun x y => x.1 = y.1 /\
    if decide (x.1 ∈ secret_fields) then keys_alike x.2 y.2
    else if decide (x.1 = "metadata") then metadata_alike x.2 y.2 else x.2 = y.2) a b.

(** A Secret, or a list of Secrets. *)
Inductive collection_alike : value -> value -> Prop :=
| alike_one a b :
    wf_value (VMap a) -> wf_value (VMap b) -> as_list (obj_index a "items") = None ->
    secret_alike a b -> collection_alike (VMap a) (VMap b)
| alike_list m items items' :
    Forall2 (fun x y => x = y \/ exists a b, x = VMap a /\ y = VMap b /\ wf_value x /\ wf_value y /\ secret_alike a b)
      items items' ->
    collection_alike (VMap (obj_set m "items" (VList items))) (VMap (obj_set m "items" (VList items'))).

Definition blank_value (v : value) : value := match v with VMap m => VMap (blank m) | _ => v end.
Definition blank_annotations (v : value) : value :=
  match v with
  | VMap md => VMap (map_entries (fun k v => if bool_decide (k = "annotations") then blank_value v else v) md)
  | _ => v
  end.

(** What [redactSecret] does to each entry. *)
Definition secret_entry (k : string) (v : value) : value :=
  if bool_decide (k ∈ secret_fields) then blank_value v
  else if bool_decide (k = "metadata") then blank_annotations v else v.

Lemma blank_alike v w : keys_alike v w -> blank_value v = blank_value w.
Proof.
  destruct v, w; cbn; intros H; try done. f_equal. unfold blank, map_entries, keys in *.
  revert m0 H. induction m as [|[k v] m IH]; intros [|[k' v'] m'] H; try done.
  cbn in *. injection H as -> H. f_equal. by apply IH.
Qed.

Lemma annotations_alike v w : metadata_alike v w -> blank_annotations v = blank_annotations w.
Proof.
  destruct v, w; cbn; intros H; try done. f_equal. unfold map_entries.
  induction H as [|[k v] [k' v'] a b [Hk Hv] _ IH]; [done|]. cbn in *. subst k'. f_equal; [|done]. f_equal.
  case_decide; [rewrite bool_decide_true by done; by apply blank_alike|by rewrite bool_decide_false].
Qed.

Lemma entries_alike a b : secret_alike a b -> map_entries secret_entry a = map_entries secret_entry b.
Proof.
  unfold map_entries. induction 1 as [|[k v] [k' v'] a b [Hk Hv] _ IH]; [done|]. cbn in *. subst k'.
  f_equal; [|done]. f_equal. unfold secret_entry. case_decide as E1.
  { rewrite bool_decide_true by done. by apply blank_alike. }
  rewrite (bool_decide_false (_ ∈ _)) by done. case_decide; [rewrite bool_decide_true by done; by apply annotations_alike|].
  by rewrite bool_decide_false.
Qed.

(** Changing a field that may be there, entry by entry. *)
Lemma update_field (m : object) f (g : value -> value) :
  NoDup (keys m) -> (forall v, (forall o, v <> VMap o) -> g v = v) ->
  (match obj_index m f with VMap o => obj_set m f (g (VMap o)) | _ => m end) =
  map_entries (fun k v => if bool_decide (k = f) then g v else v) m.
Proof.
  intros Hnd Hg. unfold obj_index. destruct (obj_get m f) as [v|] eqn:E; cbn.
  - assert ((match v with VMap o => obj_set m f (g (VMap o)) | _ => m end) = obj_set m f (g v)) as ->.
    { assert (obj_set m f v = m) as Hid.
      { rewrite (obj_set_entries m f v v Hnd E). apply map_entries_id. intros k w Hin.
        case_bool_decide; [|done]. subst k. apply (obj_get_elem m f w Hnd) in Hin. congruence. }
      destruct v; try done; by rewrite Hg. }
    rewrite (obj_set_entries m f v (g v) Hnd E). apply map_entries_ext. intros k w Hin.
    case_bool_decide; [|done]. subst k. apply (obj_get_elem m f w Hnd) in Hin. congruence.
  - symmetry. apply map_entries_id. intros k w Hin. rewrite bool_decide_false; [done|]. intros ->.
    apply (obj_get_elem m f w Hnd) in Hin. congruence.
Qed.

Lemma redact_field_spec m f :
  NoDup (keys m) ->
  redact_field m f = map_entries (fun k v => if bool_decide (k = f) then blank_value v else v) m.
Proof.
  intros Hnd. rewrite <- (update_field m f blank_value Hnd); [done|].
  intros v Hv. destruct v; try done. by destruct (Hv m0).
Qed.

Lemma blank_annotations_spec v :
  wf_value v ->
  blank_annotations v =
  match v with
  | VMap metadata =>
    match obj_index metadata "annotations" with
    | VMap annotations => VMap (obj_set metadata "annotations" (VMap (blank annotations)))
    | _ => v
    end
  | _ => v
  end.
Proof.
  destruct v as [| | | | | | |md]; try done. intros [Hnd _]%wf_VMap. cbn [blank_annotations].
  rewrite <- (update_field md "annotations" blank_value Hnd).
  - by destruct (obj_index md "annotations").
  - intros v Hv. destruct v; try done. by destruct (Hv m).
Qed.

(** [redactSecret] rewrites each entry on its own. *)
Lemma redactSecret_spec secret : wf_value (VMap secret) -> redactSecret secret = map_entries secret_entry secret.
Proof.
  intros Hwf. pose proof Hwf as [Hnd Hall]%wf_VMap. unfold redactSecret. cbn [foldl].
  assert (forall f (m : object), NoDup (keys m) -> NoDup (keys (map_entries f m))) as Hkeys
    by (intros f m; by rewrite keys_map_entries).
  rewrite (redact_field_spec secret) by done. rewrite (redact_field_spec (map_entries _ _)) by auto.
  rewrite redact_field_spec by auto. rewrite !map_entries_compose.
  set (f := fun (k : string) (v : value) => _).
  assert (obj_index (map_entries f secret) "metadata" = obj_index secret "metadata") as Hmd.
  { unfold obj_index. rewrite obj_get_map_entries. by destruct (obj_get secret "metadata"). }
  pose proof (update_field (map_entries f secret) "metadata" blank_annotations) as Hup.
  rewrite Hmd in *. specialize (Hup (Hkeys _ _ Hnd)).
  etransitivity; [|etransitivity; [apply Hup|]].
  - destruct (obj_index secret "metadata") as [| | | | | | |md] eqn:E; try done.
    rewrite blank_annotations_spec.
    + destruct (obj_index md "annotations") eqn:Ea; try done;
        (symmetry; erewrite obj_set_entries; [|by apply Hkeys|rewrite obj_get_map_entries; unfold obj_index in E;
           destruct (obj_get secret "metadata"); cbn in E; [subst; done|done]]);
        apply map_entries_id; intros k w Hin; case_bool_decide; try done; subst k;
        apply (obj_get_elem _ _ _ (Hkeys f _ Hnd)) in Hin; rewrite obj_get_map_entries in Hin; unfold obj_index in E;
        destruct (obj_get secret "metadata"); cbn in E, Hin; by simplify_eq.
    + unfold obj_index in E. destruct (obj_get secret "metadata") as [v|] eqn:Eg; cbn in E; [subst|done].
      apply obj_get_Some_elem in Eg. rewrite Forall_forall in Hall. by apply (Hall _ Eg).
  - intros v Hv. destruct v; try done. by destruct (Hv m).
  - rewrite map_entries_compose. apply map_entries_ext. intros k v _. unfold f, secret_entry, secret_fields.
    destruct (decide (k = "data")) as [->|]; [done|]. destruct (decide (k = "stringData")) as [->|]; [done|].
    destruct (decide (k = "binaryData")) as [->|]; [done|].
    rewrite !(bool_decide_false (k = "data")), !(bool_decide_false (k = "stringData")),
      !(bool_decide_false (k = "binaryData")), (bool_decide_false (k ∈ _)) by (done || set_solver). done.
Qed.

Lemma redactSecret_alike a b :
  wf_value (VMap a) -> wf_value (VMap b) -> secret_alike a b -> redactSecret a = redactSecret b.
Proof. intros Ha Hb H. rewrite !redactSecret_spec by done. by apply entries_alike. Qed.

(** Entries other than the masked ones are the same in alike Secrets. *)
Lemma alike_items a b :
  secret_alike a b -> obj_index a "items" = obj_index b "items".
Proof.
  unfold obj_index. induction 1 as [|[k v] [k' v'] a b [Hk Hv] _ IH]; [done|]. cbn in *. subst k'.
  case_bool_decide as E; [|done]. subst k. cbn in Hv. by rewrite Hv.
Qed.

Lemma redactSecretCollection_alike v w : collection_alike v w -> redactSecretCollection v = redactSecretCollection w.
Proof.
  destruct 1 as [a b Ha Hb Hi H|m items items' H]; cbn [redactSecretCollection].
  - rewrite <- (alike_items a b H). destruct (obj_index a "items"); try done;
      f_equal; by apply redactSecret_alike.
  - rewrite !obj_index_set, !obj_set_set. do 3 f_equal.
    induction H as [|x y l l' Hxy _ IH]; [done|]. rewrite !fmap_cons. f_equal; [|done].
    destruct Hxy as [->|(a & b & -> & -> & ? & ? & ?)]; [done|]. f_equal. by apply redactSecret_alike.
Qed.

(** ** The size of a truncated result *)

Lemma b64_plain n : plain_byte (byte_of (b64_char RawStdEncoding n)) = true.
Proof.
  destruct (N.lt_ge_cases n 64) as [Hlt|Hge].
  - revert n Hlt. apply (below_64 (fun n => plain_byte (byte_of (b64_char RawStdEncoding n)))). by vm_compute.
  - unfold b64_char. rewrite !(proj2 (N.ltb_ge _ _)), (proj2 (N.eqb_neq _ _)) by lia. done.
Qed.

Lemma base64_plain l : forallb plain_byte (bytes_of (base64_Encode RawStdEncoding l)) = true.
Proof.
  induction l as [|x|x y|x y z l IH] using list_ind3; cbn [base64_Encode bytes_of forallb];
    rewrite ?b64_plain; done.
Qed.

Section bounded.
Context {G : GoLib}.

(** The preview is at most three quarters of what the limit leaves. *)
Lemma preview_bytes_range limit data :
  (256 <= limit <= 52428800)%Z -> (0 <= preview_bytes limit data <= (limit - 256) * 3 / 4)%Z.
Proof.
  intros Hl. unfold preview_bytes.
  rewrite !wrap64_id by (rewrite ?wrap64_id; unfold int64_ok, int64_min, int64_max; lia).
  rewrite Z.quot_div_nonneg by lia.
  assert (0 <= (limit - 256) * 3 / 4)%Z by (apply Z.div_pos; lia).
  destruct (Z.ltb_spec ((limit - 256) * 3 / 4) 0); [lia|].
  destruct (Z.ltb_spec (Z.of_nat (String.length data)) ((limit - 256) * 3 / 4)); lia.
Qed.

Lemma length_preview limit data :
  (256 <= limit <= 52428800)%Z ->
  (Z.of_nat (String.length (base64_Encode RawStdEncoding (take_bytes (preview_bytes limit data) data))) <= limit - 256)%Z.
Proof.
  intros Hl. rewrite length_base64_Encode. unfold take_bytes. rewrite length_take.
  pose proof (preview_bytes_range limit data Hl) as Hp.
  set (n := Nat.min _ _). assert (Z.of_nat n <= (limit - 256) * 3 / 4)%Z as Hn by (unfold n; lia).
  clearbody n. clear Hp. rewrite Nat2Z.inj_div. apply Z.lt_succ_r, Z.div_lt_upper_bound; [lia|].
  pose proof (Z.mul_div_le ((limit - 256) * 3) 4 ltac:(lia)). lia.
Qed.

Lemma Marshal_truncated n s :
  Marshal (VMap [("truncated", VBool true); ("originalBytes", VInt n);
                 ("previewEncoding", VStr "base64-json-prefix"); ("preview", VStr s)]) =
  Some ("{" +:+ (Join [json_member ("originalBytes", Itoa n); json_member ("preview", json_string s);
                       json_member ("previewEncoding", json_string "base64-json-prefix");
                       json_member ("truncated", "true")] "," +:+ "}")).
Proof. cbn [Marshal mbind option_bind]. reflexivity. Qed.
End bounded.

Section results.
Context {G : GoLib}.

Lemma redactResult_alike action v w :
  is_core action "secrets" = true -> collection_alike v w ->
  redactResult v action SensitiveReadRedact = redactResult w action SensitiveReadRedact.
Proof.
  intros Ha Hvw. unfold redactResult. rewrite Ha. cbn [andb].
  rewrite !(bool_decide_true (SensitiveReadRedact = SensitiveReadRedact)) by done.
  by rewrite (redactSecretCollection_alike v w Hvw).
Qed.

Lemma boundedValue_fits v limit data :
  (256 <= limit <= 52428800)%Z -> Marshal v = Some data -> (Z.of_nat (String.length data) <= int64_max)%Z ->
  (exists out, Marshal (boundedValue v limit) = Some out /\ (Z.of_nat (String.length out) <= limit)%Z) /\
  ((Z.of_nat (String.length data) <= limit)%Z -> boundedValue v limit = v).
Proof.
  intros Hl Hm Hfit. unfold boundedValue. rewrite Hm.
  destruct (Z.leb_spec (Z.of_nat (String.length data)) limit) as [Hle|Hgt]; [split; [eauto|done]|].
  split; [|lia]. eexists. split; [apply Marshal_truncated|].
  pose proof (length_preview limit data Hl) as Hp.
  pose proof (length_Itoa (Z.of_nat (String.length data)) ltac:(lia)) as Hi.
  unfold json_member. cbn [Join fst snd]. rewrite !length_append.
  rewrite (length_json_plain (base64_Encode _ _)) by apply base64_plain.
  rewrite !length_json_plain by (vm_compute; reflexivity). cbn [String.length]. lia.
Qed.

(** The same for [boundedOutput]. *)
Lemma boundedOutput_fits v limit data :
  (256 <= limit <= 52428800)%Z -> Marshal (VMap v) = Some data -> (Z.of_nat (String.length data) <= int64_max)%Z ->
  exists out, Marshal (VMap (boundedOutput v limit)) = Some out /\ (Z.of_nat (String.length out) <= limit)%Z.
Proof.
  intros Hl Hm Hfit. destruct (boundedValue_fits (VMap v) limit data Hl Hm Hfit) as [(out & Ho & Hle) _].
  exists out. split; [|done]. rewrite <- Ho. f_equal. unfold boundedOutput, boundedValue in *. rewrite Hm in *.
  by destruct (_ <=? _)%Z.
Qed.
End results.

(** ** Properties *)

Section properties.
Context {G : GoLib}.

(** Non-interference: under the Redact policy the result of a read of Secrets,
    one or a list, does not depend on any value of [data],
    [stringData], [binaryData] or of an annotation. *)
Theorem secret_values_do_not_leak action v w :
  is_core action "secrets" = true -> collection_alike v w ->
  redactResult v action SensitiveReadRedact = redactResult w action SensitiveReadRedact.
Proof. apply redactResult_alike. Qed.

(** Under the Deny policy a read of Secrets yields no value, and ServiceAccount
    tokens are given out under Allow only. *)
Theorem sensitive_results_are_denied action v policy out :
  redactResult v action policy = Ok out ->
  (is_core action "secrets" = true -> policy <> SensitiveReadDeny) /\
  (is_core action "serviceaccounts" = true -> a_Subresource action = "token" -> policy = SensitiveReadAllow).
Proof.
  unfold redactResult. intros H. split.
  - intros Hs ->. rewrite Hs in H. by rewrite bool_decide_true in H.
  - intros Hs Ht. destruct (_ && _); [done|]. rewrite Hs, Ht in H. cbn [andb] in H.
    rewrite (bool_decide_true ("token" = "token")) in H by done. cbn [andb] in H.
    case_bool_decide as Hp; [done|]. done.
Qed.

(** No annotation of a result, at any depth, keeps the value of a sensitive
    name or a text that assigns to a secret: it holds the marker instead. *)
Theorem annotations_are_redacted v action policy out key raw :
  redactResult v action policy = Ok out -> annotation_in out false key raw ->
  (raw = VStr redacted_text \/
   sensitiveAnnotationName key = false /\ forall text, raw = VStr text -> ~ assigns_secret (runes text)).
Proof.
  unfold redactResult. intros H Hin. destruct (_ && _); [done|]. destruct (_ && _ && _); [done|].
  injection H as <-. apply redacted_annotation in Hin as (raw0 & _ & ->).
  destruct (sensitive_annotation key raw0) eqn:E; [by left|right].
  apply not_true_iff_false in E. rewrite sensitive_annotation_iff in E.
  split; [apply not_true_iff_false; tauto|]. intros text ->. naive_solver.
Qed.

(** Redacting twice changes nothing: the marker is not taken for a secret. *)
Theorem annotation_redaction_idempotent v md :
  redactSensitiveAnnotations (redactSensitiveAnnotations v md) md = redactSensitiveAnnotations v md.
Proof. apply redactSensitiveAnnotations_idem. Qed.

(** For every limit a valid configuration yields, the JSON text of a bounded
    value is within the limit, and a value within the limit is passed unchanged. *)
Theorem bounded_value_fits v limit data :
  (256 <= limit <= 52428800)%Z -> Marshal v = Some data -> (Z.of_nat (String.length data) <= int64_max)%Z ->
  (exists out, Marshal (boundedValue v limit) = Some out /\ (Z.of_nat (String.length out) <= limit)%Z) /\
  ((Z.of_nat (String.length data) <= limit)%Z -> boundedValue v limit = v).
Proof. apply boundedValue_fits. Qed.
End properties.

(** ** Witnesses *)

Module RedactionWitness.
#[local] Existing Instance plain_GoLib.

Definition secrets (verb : string) : Action := {|
  a_GVR := {| Group := ""; Version := "v1"; Resource := "secrets" |}; a_Kind := "Secret";
  a_Subresource := ""; a_Verb := verb; a_Action := verb; a_Namespaced := true |}.
Definition secret (password note : string) : object :=
  [("kind", VStr "Secret"); ("data", VMap [("password", VStr password)]);
   ("metadata", VMap [("name", VStr "db"); ("annotations", VMap [("note", VStr note)])])].
Definition annotated (text : string) : value :=
  VMap [("metadata", VMap [("annotations", VMap [("note", VStr text)])])].

Lemma secret_wf p n : wf_value (VMap (secret p n)).
Proof.
  cbn. split_and!; try done; apply (bool_decide_unpack _); vm_compute; reflexivity.
Qed.

Lemma secret_values_do_not_leak_witness :
  redactResult (VMap (secret "hunter2" "x")) (secrets "get") SensitiveReadRedact =
  redactResult (VMap (secret "letmein" "y")) (secrets "get") SensitiveReadRedact.
Proof.
  apply secret_values_do_not_leak; [reflexivity|]. constructor; [apply secret_wf..|reflexivity|].
  repeat (apply Forall2_cons; split; [split; [reflexivity|]; vm_compute|]); try reflexivity; [|constructor].
  repeat (apply Forall2_cons; split; [split; [reflexivity|]; vm_compute; reflexivity|]). constructor.
Defined.

Lemma sensitive_results_are_denied_witness :
  (is_core (secrets "get") "secrets" = true -> SensitiveReadRedact <> SensitiveReadDeny) /\
  (is_core (secrets "get") "serviceaccounts" = true -> a_Subresource (secrets "get") = "token" ->
     SensitiveReadRedact = SensitiveReadAllow).
Proof.
  eapply (sensitive_results_are_denied (secrets "get") (VMap (secret "a" "b"))). reflexivity.
Defined.

Lemma annotations_are_redacted_witness :
  VStr "see wiki" = VStr redacted_text \/
  sensitiveAnnotationName "note" = false /\
    forall text, VStr "see wiki" = VStr text -> ~ assigns_secret (runes text).
Proof.
  apply (annotations_are_redacted (annotated "see wiki") (secrets "get") SensitiveReadAllow (annotated "see wiki")).
  - vm_compute. reflexivity.
  - eapply (in_map _ false "metadata"); [by left|by intros [? _]|]. eapply here; by left.
Defined.

Definition long_text : value := VStr (concat_strings (replicate 100 "0123456789")).

Lemma bounded_value_fits_witness :
  (exists out, Marshal (boundedValue long_text 512) = Some out /\ (Z.of_nat (String.length out) <= 512)%Z) /\
  ((Z.of_nat (String.length (default "" (Marshal long_text))) <= 512)%Z -> boundedValue long_text 512 = long_text).
Proof.
  apply (bounded_value_fits long_text 512 (default "" (Marshal long_text)));
    [lia|vm_compute; reflexivity|vm_compute; discriminate].
Defined.
End RedactionWitness.
