(* ===== verification/SafeWrite.v ===== *)
(** * SafeWrite payload checks (src/internal/server/safe_write.go)

    In SafeWrite mode the server inspects what a client asks to write, and
    what the dry run of the API server says the object would become.  A map is
    visited in the order of its entry list, which stands for any order Go may
    choose; whether a check passes does not depend on it. *)

From Stdlib Require Import Ascii String.
From S2P Require Import Prelude GoStrings Json Errors Kube Policy.

Definition unsafe (message : string) : result go_error unit := Err (policyError "unsafe_payload" message).

Definition numeric (v : value) : option number :=
  match v with
  | VFloat f => Some (NFloat f)
  | VInt z => Some (NInt z)
  | _ => None
  end.

(** [containsNumeric(value, 0)], the only use. *)
Definition containsZero (v : value) : bool :=
  match v with
  | VList items => existsb (fun item => match numeric item with Some n => number_zero n | None => false end) items
  | _ => false
  end.

Definition nonEmptyValue (v : value) : bool :=
  match v with
  | VNull => false
  | VStr s => negb (bool_decide (s = ""))
  | VList l => match l with [] => false | _ => true end
  | VMap m => match m with [] => false | _ => true end
  | _ => true
  end.

Definition positive (v : value) : bool :=
  match numeric v with Some n => number_pos n | None => false end.
Definition zero (v : value) : bool :=
  match numeric v with Some n => number_zero n | None => false end.

Definition isBool (v : value) (wanted : bool) : bool :=
  match v with VBool b => Bool.eqb b wanted | _ => false end.

(** ** Services *)

Definition validateSafeServicePort (v : value) : result go_error unit :=
  match v with
  | VMap port =>
    if positive (obj_index port "nodePort") then unsafe "Service nodePort is blocked in SafeWrite mode" else Ok ()
  | _ => Ok ()
  end.

Definition validateSafeServicePorts (v : value) : result go_error unit :=
  match v with
  | VList ports => first_error validateSafeServicePort ports
  | _ => Ok ()
  end.

Definition exposure_fields : list string := ["externalName"; "externalIPs"; "loadBalancerIP"; "loadBalancerClass"].

Definition validateSafeServiceSpec (spec : object) : result go_error unit :=
  let serviceType := string_or_zero (obj_index spec "type") in
  if bool_decide (serviceType <> "") && bool_decide (serviceType <> "ClusterIP") then
    unsafe "SafeWrite only permits ClusterIP Services"
  else
  _ ← first_error (fun field =>
        match obj_get spec field with
        | Some v => if nonEmptyValue v then unsafe ("Service spec." +:+ (field +:+ " is blocked in SafeWrite mode")) else Ok ()
        | None => Ok ()
        end) exposure_fields;
  _ ← validateSafeServicePorts (obj_index spec "ports");
  if positive (obj_index spec "healthCheckNodePort") then
    unsafe "Service healthCheckNodePort is blocked in SafeWrite mode"
  else Ok ().

Definition validateSafeServicePatchValue (segments : list string) (v : value) : result go_error unit :=
  match segments with
  | "spec" :: rest =>
    match rest with
    | [] => match v with VMap spec => validateSafeServiceSpec spec | _ => Ok () end
    | field :: tail =>
      if bool_decide (field ∈ ["type"; "externalName"; "externalIPs"; "loadBalancerIP"; "loadBalancerClass"; "healthCheckNodePort"]) then
        Err (OtherError ("spec." +:+ (field +:+ " may change Service exposure")))
      else if bool_decide (field = "ports") then
        if bool_decide ("nodePort" ∈ tail) then Err (OtherError "Service nodePort may not be changed")
        else match tail with
             | [] => validateSafeServicePorts v
             | [_] => validateSafeServicePort v
             | _ => Ok ()
             end
      else Ok ()
    end
  | _ => Ok ()
  end.

(** ** JSON pointers *)

(** The inner loop of [decodeJSONPointer]; [None] on an invalid escape. *)
Fixpoint decode_segment (raw : string) : option string :=
  match raw with
  | EmptyString => Some EmptyString
  | String c rest =>
    if bool_decide (c = "~"%char) then
      match rest with
      | String d rest' =>
        if bool_decide (d = "0"%char) then String "~"%char <$> decode_segment rest'
        else if bool_decide (d = "1"%char) then String "/"%char <$> decode_segment rest'
        else None
      | EmptyString => None
      end
    else String c <$> decode_segment rest
  end.

Definition decodeJSONPointer (path : string) : result go_error (list string) :=
  if negb (HasPrefix path "/") then
    Err (policyError "invalid_input" "JSON patch path must be an absolute JSON pointer")
  else
  match mapM decode_segment (Split (TrimPrefix path "/") "/"%char) with
  | Some segments => Ok segments
  | None => Err (policyError "invalid_input" "JSON patch path contains an invalid escape")
  end.

Definition blocked_segments : list string :=
  ["hostNetwork"; "hostPID"; "hostIPC"; "hostPath"; "hostPort"; "privileged";
   "allowPrivilegeEscalation"; "capabilities"; "ephemeralContainers"; "serviceAccountName";
   "serviceAccountToken"; "automountServiceAccountToken"; "shareProcessNamespace"; "nodeName";
   "runtimeClassName"; "sysctls"; "procMount"; "hostProcess"; "seLinuxOptions"; "secret";
   "secretRef"; "secretKeyRef"; "securityContext"; "runAsUser"; "runAsGroup"; "runAsNonRoot";
   "readOnlyRootFilesystem"; "seccompProfile"; "appArmorProfile"; "priorityClassName"; "fsGroup";
   "supplementalGroups"; "runAsUserName"; "gmsaCredentialSpec"; "gmsaCredentialSpecName"].

Section safewrite.
Context {G : GoLib}.

Definition profile_key (key : string) : bool :=
  Contains (ToLower key) "apparmor" || Contains (ToLower key) "seccomp".

Definition unsafePatchSegments (segments : list string) : bool :=
  existsb (fun segment => bool_decide (segment ∈ blocked_segments) || profile_key segment) segments.

(** ** Payloads *)

(** [strings.TrimPrefix(path+"."+key, ".")]. *)
Definition child_path (path key : string) : string := TrimPrefix (path +:+ ("." +:+ key)) ".".

Definition in_spec (path : string) : bool :=
  bool_decide (path = "spec") || HasPrefix path "spec." || Contains path ".spec.".

Definition switch_fields : list string :=
  ["hostNetwork"; "hostPID"; "hostIPC"; "privileged"; "allowPrivilegeEscalation"; "automountServiceAccountToken";
   "shareProcessNamespace"; "hostProcess"].
Definition present_fields : list string :=
  ["hostPath"; "ephemeralContainers"; "serviceAccountToken"; "secret"; "secretRef"; "secretKeyRef"; "sysctls"; "seLinuxOptions"].
Definition text_fields : list string :=
  ["nodeName"; "runtimeClassName"; "priorityClassName"; "procMount"; "gmsaCredentialSpec"; "gmsaCredentialSpecName"].

(** The [switch] of [validatePayloadField]: the message of the case that
    rejects, if one does. *)
Definition payload_switch (path key : string) (child : value) : option string :=
  let childPath := child_path path key in
  let inSpec := in_spec path in
  if bool_decide (key ∈ switch_fields) then
    if inSpec && bool_or_zero child then Some (childPath +:+ " is blocked in SafeWrite mode") else None
  else if bool_decide (key = "readOnlyRootFilesystem") then
    if inSpec && isBool child false then Some (childPath +:+ " may not disable the read-only root filesystem") else None
  else if bool_decide (key ∈ present_fields) then
    if inSpec && match child with VNull => false | _ => true end then Some (childPath +:+ " is blocked in SafeWrite mode") else None
  else if bool_decide (key = "serviceAccountName") then
    let name := string_or_zero child in
    if inSpec && bool_decide (name <> "") && bool_decide (name <> "default")
    then Some (childPath +:+ " may not select a non-default ServiceAccount") else None
  else if bool_decide (key = "hostPort") then
    if inSpec && positive child then Some (childPath +:+ " is blocked in SafeWrite mode") else None
  else if bool_decide (key ∈ ["runAsUser"; "runAsGroup"]) then
    if inSpec && zero child then Some (childPath +:+ " may not select root") else None
  else if bool_decide (key = "fsGroup") then
    if inSpec && zero child then Some (childPath +:+ " may not select the root group") else None
  else if bool_decide (key = "supplementalGroups") then
    if inSpec && containsZero child then Some (childPath +:+ " may not include the root group") else None
  else if bool_decide (key = "runAsNonRoot") then
    if inSpec && isBool child false then Some (childPath +:+ " may not disable non-root enforcement") else None
  else if bool_decide (key ∈ text_fields) then
    if inSpec && bool_decide (string_or_zero child <> "") then Some (childPath +:+ " is blocked in SafeWrite mode") else None
  else if bool_decide (key = "runAsUserName") then
    let name := string_or_zero child in
    if inSpec && bool_decide (name <> "") && negb (EqualFold name "ContainerUser")
    then Some (childPath +:+ " may only select ContainerUser") else None
  else if bool_decide (key = "add") then
    if HasSuffix path "capabilities" then Some (childPath +:+ " is blocked in SafeWrite mode") else None
  else if bool_decide (key = "type") then
    if (HasSuffix path "seccompProfile" || HasSuffix path "appArmorProfile") && EqualFold (string_or_zero child) "Unconfined"
    then Some (childPath +:+ " is blocked in SafeWrite mode") else None
  else None.

Definition validatePayloadField (path key : string) (child : value) : result go_error unit :=
  match payload_switch path key child with
  | Some message => unsafe message
  | None =>
    if profile_key key && EqualFold (Sprint child) "unconfined"
    then unsafe (child_path path key +:+ " is blocked in SafeWrite mode") else Ok ()
  end.

(** [fmt.Sprintf("%s[%d]", path, index)]. *)
Definition index_path (path : string) (index : nat) : string :=
  path +:+ ("[" +:+ (Itoa (Z.of_nat index) +:+ "]")).

Fixpoint walkPayload (v : value) (path : string) {struct v} : result go_error unit :=
  match v with
  | VMap typed =>
    (fix go (m : object) : result go_error unit :=
      match m with
      | [] => Ok ()
      | (key, child) :: m' =>
        _ ← validatePayloadField path key child;
        _ ← walkPayload child (child_path path key);
        go m'
      end) typed
  | VList typed =>
    (fix go (index : nat) (l : list value) : result go_error unit :=
      match l with
      | [] => Ok ()
      | child :: l' => _ ← walkPayload child (index_path path index); go (S index) l'
      end) 0 typed
  | _ => Ok ()
  end.

Definition validateSafePayload (v : value) : result go_error unit := walkPayload v "".

(** ** Patches *)

Definition validate_patch_entry (raw : value) : result go_error unit :=
  match raw with
  | VMap operation =>
    let op := string_or_zero (obj_index operation "op") in
    let path := string_or_zero (obj_index operation "path") in
    if negb (bool_decide (op ∈ ["add"; "remove"; "replace"; "test"])) || bool_decide (path = "") then
      unsafe "SafeWrite JSON patch only permits add, remove, replace, and test with an explicit path"
    else
    segments ← decodeJSONPointer path;
    if unsafePatchSegments segments then
      unsafe ("JSON patch path " +:+ (Quote path +:+ " is blocked in SafeWrite mode"))
    else match obj_get operation "value" with
         | Some patchValue => walkPayload patchValue (Join segments ".")
         | None => Ok ()
         end
  | _ => Err (policyError "invalid_input" "JSON patch entries must be objects")
  end.

Definition validateSafeJSONPatch (v : value) : result go_error unit :=
  match v with
  | VList operations => first_error validate_patch_entry operations
  | _ => Err (policyError "invalid_input" "JSON patch must be an array")
  end.

Definition validate_service_entry (raw : value) : result go_error unit :=
  let operation := map_or_nil raw in
  let path := string_or_zero (obj_index operation "path") in
  segments ← decodeJSONPointer path;
  match validateSafeServicePatchValue segments (obj_index operation "value") with
  | Err err => unsafe ("Service patch path " +:+ (Quote path +:+ (" is blocked in SafeWrite mode: " +:+ error_string err)))
  | Ok _ => Ok ()
  end.

(** A nil [object] is [None]. *)
Definition validateSafeServiceChange (obj : option object) (patch : value) (patchType : string) : result go_error unit :=
  _ ← match obj_index (default [] obj) "spec" with
      | VMap spec => validateSafeServiceSpec spec
      | _ => Ok ()
      end;
  if bool_decide (patchType = "json") then
    match patch with
    | VList operations => first_error validate_service_entry operations
    | _ => Ok ()
    end
  else match patch with
       | VMap patchMap =>
         match obj_index patchMap "spec" with
         | VMap spec => validateSafeServiceSpec spec
         | _ => Ok ()
         end
       | _ => Ok ()
       end.

Definition is_service (action : Action) : bool :=
  bool_decide (Group (a_GVR action) = "") && bool_decide (Resource (a_GVR action) = "services").

Definition validateSafeOperation (action : Action) (obj : option object) (patch : value) (patchType : string)
    : result go_error unit :=
  _ ← match obj with Some o => validateSafePayload (VMap o) | None => Ok () end;
  _ ← match patch with
      | VNull => Ok ()
      | _ => _ ← validateSafePayload patch;
             if bool_decide (patchType = "json") then validateSafeJSONPatch patch else Ok ()
      end;
  if is_service action then validateSafeServiceChange obj patch patchType else Ok ().

(** ** Transitions *)

Definition stringSet (v : value) : list string :=
  match v with
  | VList items => omap as_string items
  | VStrings items => items
  | _ => []
  end.

Definition preservesDroppedCapabilities (before after : value) : bool :=
  match before with
  | VMap beforeMap =>
    match stringSet (obj_index beforeMap "drop") with
    | [] => true
    | required =>
      match after with
      | VMap afterMap =>
        let present := stringSet (obj_index afterMap "drop") in
        forallb (fun capability => bool_decide (capability ∈ present)) required
      | _ => false
      end
    end
  | _ => true
  end.

Definition protectiveProfile (v : value) : bool :=
  match v with
  | VMap profile =>
    let profileType := string_or_zero (obj_index profile "type") in
    negb (bool_decide (profileType = "")) && negb (EqualFold profileType "unconfined")
  | _ => false
  end.

Definition is_nil (v : value) : bool := match v with VNull => true | _ => false end.

(** Whether going from [before] to [after] weakens the control named [key];
    [after] is [None] when the key is gone. *)
Definition weakened (key : string) (before : value) (after : option value) : bool :=
  let next := default VNull after in
  let same := match after with Some a => DeepEqual before a | None => false end in
  if bool_decide (key ∈ ["allowPrivilegeEscalation"; "automountServiceAccountToken"]) then
    isBool before false && negb (bool_decide (is_Some after) && isBool next false)
  else if bool_decide (key ∈ ["runAsNonRoot"; "readOnlyRootFilesystem"]) then
    isBool before true && negb (bool_decide (is_Some after) && isBool next true)
  else if bool_decide (key ∈ ["runAsUser"; "runAsGroup"; "fsGroup"]) then
    match numeric before with
    | Some n => negb (number_zero n) &&
        negb (bool_decide (is_Some after) && match numeric next with Some m => negb (number_zero m) | None => false end)
    | None => false
    end
  else if bool_decide (key = "runAsUserName") then
    match before with
    | VStr s => EqualFold s "ContainerUser" &&
        negb (bool_decide (is_Some after) && match next with VStr t => EqualFold t "ContainerUser" | _ => false end)
    | _ => false
    end
  else if bool_decide (key ∈ ["serviceAccountName"; "runtimeClassName"]) then
    match before with
    | VStr s => negb (bool_decide (s = "")) &&
        negb (bool_decide (is_Some after) && match next with VStr t => bool_decide (t = s) | _ => false end)
    | _ => false
    end
  else if bool_decide (key = "capabilities") then negb (preservesDroppedCapabilities before next)
  else if bool_decide (key ∈ ["seccompProfile"; "appArmorProfile"]) then protectiveProfile before && negb same
  else if bool_decide (key = "seLinuxOptions") then negb (is_nil before) && negb same
  else if profile_key key then
    match before with
    | VStr s => negb (bool_decide (s = "")) && negb (EqualFold s "unconfined") && negb same
    | _ => false
    end
  else false.

Definition validateSecurityControlTransition (key : string) (before : value) (after : option value)
    (path : string) (inSpec : bool) : result go_error unit :=
  if negb inSpec then Ok ()
  else if negb (weakened key before after) then Ok ()
  else unsafe (path +:+ " may not weaken an existing workload security control in SafeWrite mode").

Definition has_name (name : string) (candidate : value) : bool :=
  match obj_get (map_or_nil candidate) "name" with
  | Some (VStr n) => bool_decide (n = name)
  | _ => false
  end.

Definition matchingListValue (previous : value) (next : list value) (index : nat) : option value :=
  let by_name :=
    match previous with
    | VMap previousMap =>
      let name := string_or_zero (obj_index previousMap "name") in
      if bool_decide (name <> "") then List.find (has_name name) next else None
    | _ => None
    end in
  match by_name with
  | Some candidate => Some candidate
  | None => next !! index
  end.

Fixpoint walkSecurityTransition (before after : value) (path : string) {struct before} : result go_error unit :=
  match before with
  | VMap current =>
    let next := map_or_nil after in
    (fix go (m : object) : result go_error unit :=
      match m with
      | [] => Ok ()
      | (key, previousValue) :: m' =>
        let childPath := child_path path key in
        _ ← validateSecurityControlTransition key previousValue (obj_get next key) childPath (in_spec path);
        _ ← walkSecurityTransition previousValue (obj_index next key) childPath;
        go m'
      end) current
  | VList current =>
    let next := list_or_nil after in
    (fix go (index : nat) (l : list value) : result go_error unit :=
      match l with
      | [] => Ok ()
      | previousValue :: l' =>
        _ ← match matchingListValue previousValue next index with
            | None => Ok ()
            | Some nextValue => walkSecurityTransition previousValue nextValue (index_path path index)
            end;
        go (S index) l'
      end) 0 current
  | _ => Ok ()
  end.

Definition validateSafeTransition (before after : value) : result go_error unit :=
  _ ← validateSafePayload after;
  match before with
  | VNull => Ok ()
  | _ => walkSecurityTransition before after ""
  end.
End safewrite.

(** ** Declarative reading of the walks *)

Section walks.
Context {G : GoLib}.

(** The field [key] with value [child] stands in a map at path [p] of the
    value [v] found at [path]. *)
Inductive field_at : value -> string -> string -> string -> value -> Prop :=
| field_here m path key child :
    (key, child) ∈ m -> field_at (VMap m) path path key child
| field_in_map m path k v p key child :
    (k, v) ∈ m -> field_at v (child_path path k) p key child -> field_at (VMap m) path p key child
| field_in_list l path i v p key child :
    l !! i = Some v -> field_at v (index_path path i) p key child -> field_at (VList l) path p key child.

Lemma walkPayload_VMap m path :
  walkPayload (VMap m) path =
  first_error (fun kv => _ ← validatePayloadField path kv.1 kv.2; walkPayload kv.2 (child_path path kv.1)) m.
Proof.
  cbn [walkPayload]. induction m as [|[k v] m IH]; [done|]. cbn [first_error fst snd].
  destruct (validatePayloadField path k v) as [[]|]; [|done]. cbn.
  destruct (walkPayload v (child_path path k)) as [[]|]; [apply IH|done].
Qed.

(** The list walk, from index [i] on. *)
Lemma walkPayload_VList_ok l path i :
  ((fix go (index : nat) (l : list value) : result go_error unit :=
      match l with
      | [] => Ok ()
      | child :: l' => _ ← walkPayload child (index_path path index); go (S index) l'
      end) i l) = Ok () <->
  forall j v, l !! j = Some v -> walkPayload v (index_path path (i + j)) = Ok ().
Proof.
  revert i. induction l as [|v l IH]; intros i; [split; [by intros _ [|] ?|done]|].
  rewrite bind_unit_ok, IH. split.
  - intros [Hv Hl] [|j] w; cbn; [intros [= <-]; by rewrite Nat.add_0_r|].
    intros Hj. rewrite Nat.add_succ_r. by apply (Hl j).
  - intros H. split; [rewrite <- (Nat.add_0_r i); by apply (H 0)|].
    intros j w Hj. rewrite Nat.add_succ_comm. by apply (H (S j)).
Qed.

Lemma walkPayload_ok v path :
  walkPayload v path = Ok () <->
  forall p key child, field_at v path p key child -> validatePayloadField p key child = Ok ().
Proof.
  revert path. induction v as [| | | | | |l IH|m IH] using value_ind'; intros path;
    try (split; [by intros _ p k c H; inversion H|done]).
  - cbn [walkPayload]. rewrite walkPayload_VList_ok. rewrite Forall_forall in IH. split.
    + intros H p k c Hf. inversion Hf as [| |? ? i v ? ? ? Hi Hv]; subst.
      specialize (H i v Hi). rewrite IH in H by by eapply list_elem_of_lookup_2. eauto.
    + intros H j v Hj. rewrite IH by by eapply list_elem_of_lookup_2.
      intros p k c Hf. eapply H, field_in_list; eauto.
  - rewrite walkPayload_VMap, first_error_ok, Forall_forall. rewrite Forall_forall in IH. split.
    + intros H p k c Hf. inversion Hf as [? ? ? ? Hin|? ? k' v ? ? ? Hin Hv|]; subst.
      * specialize (H _ Hin). rewrite bind_unit_ok in H. by destruct H.
      * pose proof (H _ Hin) as H'. rewrite bind_unit_ok in H'. destruct H' as [_ Hw]. cbn in Hw.
        rewrite (IH _ Hin) in Hw. eauto.
    + intros H [k v] Hin. rewrite bind_unit_ok. cbn. split; [apply H; by constructor|].
      apply (IH _ Hin). intros p key child Hf. eapply H, field_in_map; eauto.
Qed.

(** What makes a field unsafe. *)
Inductive unsafe_field (path key : string) (child : value) : Prop :=
| uf_switch : in_spec path = true -> key ∈ switch_fields -> child = VBool true -> unsafe_field path key child
| uf_disable : in_spec path = true -> key ∈ ["readOnlyRootFilesystem"; "runAsNonRoot"] -> child = VBool false ->
    unsafe_field path key child
| uf_present : in_spec path = true -> key ∈ present_fields -> child <> VNull -> unsafe_field path key child
| uf_account name : in_spec path = true -> key = "serviceAccountName" -> child = VStr name ->
    name <> "" -> name <> "default" -> unsafe_field path key child
| uf_port : in_spec path = true -> key = "hostPort" -> positive child = true -> unsafe_field path key child
| uf_root : in_spec path = true -> key ∈ ["runAsUser"; "runAsGroup"; "fsGroup"] -> zero child = true ->
    unsafe_field path key child
| uf_groups items i : in_spec path = true -> key = "supplementalGroups" -> child = VList items ->
    i ∈ items -> zero i = true -> unsafe_field path key child
| uf_text s : in_spec path = true -> key ∈ text_fields -> child = VStr s -> s <> "" -> unsafe_field path key child
| uf_windows name : in_spec path = true -> key = "runAsUserName" -> child = VStr name -> name <> "" ->
    EqualFold name "ContainerUser" = false -> unsafe_field path key child
| uf_capability : key = "add" -> HasSuffix path "capabilities" = true -> unsafe_field path key child
| uf_profile_type s : key = "type" -> HasSuffix path "seccompProfile" = true \/ HasSuffix path "appArmorProfile" = true ->
    child = VStr s -> EqualFold s "Unconfined" = true -> unsafe_field path key child
| uf_profile : profile_key key = true -> EqualFold (Sprint child) "unconfined" = true -> unsafe_field path key child.

Lemma unsafe_field_rejected path key child : unsafe_field path key child -> validatePayloadField path key child <> Ok ().
Proof.
  intros H. unfold validatePayloadField.
  assert (payload_switch path key child <> None \/ profile_key key && EqualFold (Sprint child) "unconfined" = true) as Hs.
  { destruct H as [Hp Hk -> |Hp Hk -> |Hp Hk Hn|name Hp -> -> H1 H2|Hp -> Hv|Hp Hk Hv|items i Hp -> -> Hi Hz
      |s Hp Hk -> Hs|name Hp -> -> H1 H2| -> Hc|s -> Hc -> He|Hk He].
    12: by right; rewrite Hk, He.
    all: left; unfold payload_switch.
    - unfold switch_fields in Hk. rewrite !elem_of_cons, elem_of_nil in Hk.
      repeat destruct Hk as [->|Hk]; try done; decide_closed; by rewrite Hp.
    - rewrite !elem_of_cons, elem_of_nil in Hk. repeat destruct Hk as [->|Hk]; try done; decide_closed; by rewrite Hp.
    - unfold present_fields in Hk. rewrite !elem_of_cons, elem_of_nil in Hk.
      repeat destruct Hk as [->|Hk]; try done; decide_closed; rewrite Hp; by destruct child.
    - decide_closed. rewrite Hp. cbn [string_or_zero as_string default from_option].
      by rewrite !bool_decide_true.
    - decide_closed. by rewrite Hp, Hv.
    - rewrite !elem_of_cons, elem_of_nil in Hk.
      repeat destruct Hk as [->|Hk]; try done; decide_closed; by rewrite Hp, Hv.
    - decide_closed. rewrite Hp. assert (containsZero (VList items) = true) as ->; [|done].
      cbn. apply existsb_exists. exists i. split; [by apply list_elem_of_In|done].
    - unfold text_fields in Hk. rewrite !elem_of_cons, elem_of_nil in Hk.
      repeat destruct Hk as [->|Hk]; try done; decide_closed; rewrite Hp; cbn [string_or_zero as_string default from_option];
        by rewrite bool_decide_true.
    - decide_closed. rewrite Hp. cbn [string_or_zero as_string default from_option].
      unfold id. by rewrite bool_decide_true, H2.
    - decide_closed. by rewrite Hc.
    - decide_closed. cbn [string_or_zero as_string default from_option]. unfold id. rewrite He.
      destruct Hc as [->| ->]; [done|]. by rewrite orb_true_r. }
  destruct (payload_switch path key child); [done|]. destruct Hs as [?| ->]; done.
Qed.

Lemma string_or_zero_nonempty v s : string_or_zero v = s -> s <> "" -> v = VStr s.
Proof. destruct v; cbn; intros; by subst. Qed.

Lemma switch_unsafe path key child m : payload_switch path key child = Some m -> unsafe_field path key child.
Proof.
  unfold payload_switch. cbn zeta. intros H.
  repeat match type of H with
  | (if bool_decide _ then (if ?c then _ else None) else _) = _ =>
    case_bool_decide; [destruct c eqn:E; [|done]; clear H; repeat match type of E with (_ && _)%bool = true => apply andb_true_iff in E as [E ?] end|]
  end; [..|done].
  - apply uf_switch; try done. by destruct child as [|[]| | | | | |].
  - apply uf_disable; [done|set_solver|]. by destruct child as [|[]| | | | | |].
  - apply uf_present; [done..|]. by destruct child.
  - reflect_bools. eapply uf_account; [done|done|by apply string_or_zero_nonempty|done..].
  - by apply uf_port.
  - apply uf_root; [done|set_solver|done].
  - apply uf_root; [done|set_solver|done].
  - destruct child as [| | | | | |items|]; try done.
    match goal with H : containsZero _ = true |- _ => cbn in H; apply existsb_exists in H as (i & Hi & Hz) end.
    eapply uf_groups; [done..|by apply list_elem_of_In|done].
  - apply uf_disable; [done|set_solver|]. by destruct child as [|[]| | | | | |].
  - reflect_bools. eapply uf_text; [done|done|by apply string_or_zero_nonempty|done].
  - reflect_bools. eapply uf_windows; [done|done|by apply string_or_zero_nonempty|done..].
  - by apply uf_capability.
  - apply orb_true_iff in E. destruct child as [| | | |s| | |]; cbn in *; try done. by eapply uf_profile_type.
Qed.

Lemma validatePayloadField_ok path key child :
  validatePayloadField path key child = Ok () <-> ~ unsafe_field path key child.
Proof.
  split; [intros H1 H2; by apply unsafe_field_rejected in H2|]. intros Hn. unfold validatePayloadField.
  destruct (payload_switch path key child) eqn:E; [by apply switch_unsafe in E|].
  destruct (profile_key key && _) eqn:Ep; [|done]. apply andb_true_iff in Ep as [? ?].
  destruct Hn. by apply uf_profile.
Qed.

(** *** Transitions *)

(** The control [key] has the value [b] at path [p] of [before], and [a] in
    the matching place of [after]. *)
Inductive control_at : value -> value -> string -> string -> string -> value -> option value -> Prop :=
| control_here m after path key b :
    (key, b) ∈ m -> control_at (VMap m) after path path key b (obj_get (map_or_nil after) key)
| control_in_map m after path k v p key b a :
    (k, v) ∈ m -> control_at v (obj_index (map_or_nil after) k) (child_path path k) p key b a ->
    control_at (VMap m) after path p key b a
| control_in_list l after path i v w p key b a :
    l !! i = Some v -> matchingListValue v (list_or_nil after) i = Some w ->
    control_at v w (index_path path i) p key b a -> control_at (VList l) after path p key b a.

Lemma walkTransition_VMap m after path :
  walkSecurityTransition (VMap m) after path =
  first_error (fun kv =>
    _ ← validateSecurityControlTransition kv.1 kv.2 (obj_get (map_or_nil after) kv.1) (child_path path kv.1) (in_spec path);
    walkSecurityTransition kv.2 (obj_index (map_or_nil after) kv.1) (child_path path kv.1)) m.
Proof.
  cbn [walkSecurityTransition]. induction m as [|[k v] m IH]; [done|]. cbn [first_error fst snd].
  destruct (validateSecurityControlTransition _ _ _ _ _) as [[]|]; [|done]. cbn.
  destruct (walkSecurityTransition _ _ _) as [[]|]; [apply IH|done].
Qed.

Lemma walkTransition_VList_ok l next path i :
  ((fix go (index : nat) (l : list value) : result go_error unit :=
      match l with
      | [] => Ok ()
      | previousValue :: l' =>
        _ ← match matchingListValue previousValue next index with
            | None => Ok ()
            | Some nextValue => walkSecurityTransition previousValue nextValue (index_path path index)
            end;
        go (S index) l'
      end) i l) = Ok () <->
  forall j v w, l !! j = Some v -> matchingListValue v next (i + j) = Some w ->
    walkSecurityTransition v w (index_path path (i + j)) = Ok ().
Proof.
  revert i. induction l as [|v l IH]; intros i; [split; [by intros _ [|] ? ?|done]|].
  rewrite bind_unit_ok, IH. split.
  - intros [Hv Hl] [|j] u w; cbn; [intros [= <-]; rewrite Nat.add_0_r; intros Hm; by rewrite Hm in Hv|].
    rewrite Nat.add_succ_r. intros Hj Hm. by apply (Hl j).
  - intros H. split.
    + destruct (matchingListValue v next i) as [w|] eqn:E; [|done].
      specialize (H 0 v w eq_refl). rewrite Nat.add_0_r in H. auto.
    + intros j u w Hj Hm. specialize (H (S j) u w Hj). rewrite Nat.add_succ_r in H. auto.
Qed.

Lemma transition_ok key b a path inSpec :
  validateSecurityControlTransition key b a path inSpec = Ok () <-> (inSpec = true -> weakened key b a = false).
Proof. unfold validateSecurityControlTransition, unsafe. destruct inSpec, (weakened key b a); cbn; naive_solver. Qed.

Lemma walkSecurityTransition_ok before after path :
  walkSecurityTransition before after path = Ok () <->
  forall p key b a, control_at before after path p key b a -> in_spec p = true -> weakened key b a = false.
Proof.
  revert after path. induction before as [| | | | | |l IH|m IH] using value_ind'; intros after path;
    try (split; [by intros _ p k ? ? H; inversion H|done]).
  - etransitivity; [apply (walkTransition_VList_ok l (list_or_nil after) path 0)|].
    rewrite Forall_forall in IH. cbn [Nat.add]. split.
    + intros H p k b a Hf. inversion Hf as [| |? ? ? i v w ? ? ? ? Hi Hm Hv]; subst.
      specialize (H i v w Hi Hm). rewrite IH in H by by eapply list_elem_of_lookup_2. eauto.
    + intros H j v w Hj Hm. rewrite IH by by eapply list_elem_of_lookup_2.
      intros p k b a Hf. eapply H, control_in_list; eauto.
  - rewrite walkTransition_VMap, first_error_ok, Forall_forall. rewrite Forall_forall in IH. split.
    + intros H p k b a Hf. inversion Hf as [? ? ? ? ? Hin|? ? ? k' v ? ? ? ? Hin Hv|]; subst.
      * specialize (H _ Hin). rewrite bind_unit_ok, transition_ok in H. by destruct H.
      * pose proof (H _ Hin) as H'. rewrite bind_unit_ok in H'. destruct H' as [_ Hw]. cbn [fst snd] in Hw.
        rewrite (IH _ Hin) in Hw. eauto.
    + intros H [k v] Hin. rewrite bind_unit_ok, transition_ok. cbn [fst snd]. split; [apply H; by constructor|].
      apply (IH _ Hin). intros p key b a Hf. eapply H, control_in_map; eauto.
Qed.
End walks.

(** ** JSON pointers, from the other side *)

(** The escaping of RFC 6901. *)
Fixpoint escape_segment (s : string) : string :=
  match s with
  | EmptyString => EmptyString
  | String c rest =>
    if bool_decide (c = "~"%char) then String "~"%char (String "0"%char (escape_segment rest))
    else if bool_decide (c = "/"%char) then String "~"%char (String "1"%char (escape_segment rest))
    else String c (escape_segment rest)
  end.

Definition json_pointer (segments : list string) : string := "/" +:+ Join (escape_segment <$> segments) "/".

Lemma escape_no_slash s : has_char "/"%char (escape_segment s) = false.
Proof.
  induction s as [|c s IH]; [done|]. cbn [escape_segment].
  case_bool_decide as E1; [|case_bool_decide as E2]; cbn [has_char]; rewrite ?IH; try done.
  rewrite bool_decide_false by congruence. done.
Qed.

Lemma decode_escape s : decode_segment (escape_segment s) = Some s.
Proof.
  induction s as [|c s IH]; [done|]. cbn [escape_segment].
  case_bool_decide as E1; [subst; cbn; by rewrite IH|].
  case_bool_decide as E2; [subst; cbn; by rewrite IH|].
  cbn [decode_segment]. rewrite bool_decide_false by done. by rewrite IH.
Qed.

Lemma decode_segment_inv raw s :
  has_char "/"%char raw = false -> decode_segment raw = Some s -> raw = escape_segment s.
Proof.
  assert (forall n raw s, String.length raw <= n -> has_char "/"%char raw = false ->
            decode_segment raw = Some s -> raw = escape_segment s) as H; [|by apply (H (String.length raw))].
  clear. induction n as [|n IH]; intros [|c raw] s Hl Hs Hd; cbn in Hl; try lia.
  { by injection Hd as <-. } { by injection Hd as <-. }
  cbn [has_char] in Hs. apply orb_false_iff in Hs as [Hc Hs]. apply bool_decide_eq_false in Hc.
  cbn [decode_segment] in Hd. case_bool_decide as E1.
  - subst c. destruct raw as [|d raw]; [done|]. cbn [has_char] in Hs. apply orb_false_iff in Hs as [_ Hs].
    case_bool_decide as E2; [|case_bool_decide as E3; [|done]]; subst d;
      apply fmap_Some in Hd as (t & Ht & ->); apply IH in Ht; [|cbn in Hl; lia|done| |cbn in Hl; lia|done]; subst raw;
      cbn; done.
  - apply fmap_Some in Hd as (t & Ht & ->). apply IH in Ht; [|lia|done]. subst raw.
    cbn [escape_segment]. rewrite (bool_decide_false (c = "~"%char)), bool_decide_false by congruence. done.
Qed.

Lemma decodeJSONPointer_ok path segments :
  decodeJSONPointer path = Ok segments <-> path = json_pointer segments /\ segments <> [].
Proof.
  unfold decodeJSONPointer. split.
  - destruct (HasPrefix path "/") eqn:Hp; cbn [negb]; [|done].
    apply HasPrefix_spec in Hp as [rest ->]. rewrite TrimPrefix_append.
    destruct (mapM decode_segment (Split rest "/"%char)) as [segs|] eqn:E; [|done]. intros [= ->].
    apply mapM_Some in E. split.
    + unfold json_pointer. f_equal. rewrite <- (Join_Split rest "/"%char) at 1. f_equal.
      assert (Forall (fun p => has_char "/"%char p = false) (Split rest "/"%char)) as Hf.
      { apply Forall_forall. intros p. apply Split_no_sep. }
      induction E as [|raw s raws segs Hd _ IH]; [done|]. apply Forall_cons in Hf as [Hr Hf].
      rewrite fmap_cons. f_equal; [by apply decode_segment_inv|by apply IH].
    + intros ->. inversion E as [Hn|]. by apply (Split_nonempty rest "/"%char).
  - intros [-> Hne]. unfold json_pointer. rewrite HasPrefix_append, TrimPrefix_append. cbn [negb].
    rewrite Split_Join.
    + assert (mapM decode_segment (escape_segment <$> segments) = Some segments) as ->; [|done].
      apply mapM_Some. rewrite Forall2_fmap_l. apply Forall_Forall2_diag, Forall_true. apply decode_escape.
    + by destruct segments.
    + apply Forall_fmap, Forall_true. apply escape_no_slash.
Qed.

(** ** What a safe Service is *)

Record safe_service (spec : object) : Prop := {
  ss_type : forall s, obj_index spec "type" = VStr s -> s = "" \/ s = "ClusterIP";
  ss_exposure : forall field v, field ∈ exposure_fields -> obj_get spec field = Some v -> nonEmptyValue v = false;
  ss_ports : forall ports port, obj_index spec "ports" = VList ports -> VMap port ∈ ports ->
    positive (obj_index port "nodePort") = false;
  ss_health : positive (obj_index spec "healthCheckNodePort") = false
}.

Lemma unsafe_if (b : bool) m : (if b then unsafe m else Ok ()) = Ok () <-> b = false.
Proof. by destruct b. Qed.

Lemma validateSafeServicePort_ok v :
  validateSafeServicePort v = Ok () <-> forall port, v = VMap port -> positive (obj_index port "nodePort") = false.
Proof. destruct v as [| | | | | | |m]; cbn; rewrite ?unsafe_if; naive_solver. Qed.

Lemma validateSafeServicePorts_ok v :
  validateSafeServicePorts v = Ok () <->
  forall ports port, v = VList ports -> VMap port ∈ ports -> positive (obj_index port "nodePort") = false.
Proof.
  destruct v as [| | | | | |l|]; cbn; try (split; naive_solver).
  rewrite first_error_ok, Forall_forall. setoid_rewrite validateSafeServicePort_ok. naive_solver.
Qed.

Lemma exposure_ok spec :
  first_error (fun field =>
    match obj_get spec field with
    | Some v => if nonEmptyValue v then unsafe ("Service spec." +:+ (field +:+ " is blocked in SafeWrite mode")) else Ok ()
    | None => Ok ()
    end) exposure_fields = Ok () <->
  forall field v, field ∈ exposure_fields -> obj_get spec field = Some v -> nonEmptyValue v = false.
Proof.
  rewrite first_error_ok, Forall_forall. split.
  - intros H field v Hf Hv. specialize (H field Hf). rewrite Hv in H. by apply unsafe_if in H.
  - intros H field Hf. destruct (obj_get spec field) eqn:E; [|done]. apply unsafe_if. eauto.
Qed.

Lemma validateSafeServiceSpec_ok spec : validateSafeServiceSpec spec = Ok () <-> safe_service spec.
Proof.
  unfold validateSafeServiceSpec. cbn zeta.
  assert (bool_decide (string_or_zero (obj_index spec "type") <> "") &&
          bool_decide (string_or_zero (obj_index spec "type") <> "ClusterIP") = false <->
          forall s, obj_index spec "type" = VStr s -> s = "" \/ s = "ClusterIP") as Ht.
  { rewrite andb_false_iff, !bool_decide_eq_false. destruct (obj_index spec "type") as [| | | |s| | |]; cbn;
      try (split; [done|]; intros _; left; tauto).
    destruct (decide (s = "")), (decide (s = "ClusterIP")); naive_solver. }
  destruct (bool_decide _ && _).
  { split; [done|]. intros [H _ _ _]. apply Ht in H. done. }
  rewrite !bind_unit_ok, exposure_ok, validateSafeServicePorts_ok, unsafe_if.
  split; [intros (? & ? & ?); constructor; try done; by apply Ht|intros []; by split_and!].
Qed.

(** ** Properties *)

Section properties.
Context {G : GoLib}.

(** The decoder of JSON pointers inverts RFC 6901 escaping: it accepts exactly the
    pointers of non-empty segment lists and returns their segments. *)
Theorem json_pointer_round_trip path segments :
  decodeJSONPointer path = Ok segments <-> path = json_pointer segments /\ segments <> [].
Proof. apply decodeJSONPointer_ok. Qed.

(** Every operation of an accepted JSON patch is an add, remove, replace or test
    at a pointer none of whose segments names a security control, and its
    value holds no unsafe field at that place. *)
Theorem safe_json_patch v :
  validateSafeJSONPatch v = Ok () ->
  exists ops, v = VList ops /\ forall raw, raw ∈ ops ->
    exists operation segments, raw = VMap operation /\
      string_or_zero (obj_index operation "op") ∈ ["add"; "remove"; "replace"; "test"] /\
      string_or_zero (obj_index operation "path") = json_pointer segments /\ segments <> [] /\
      (forall s, s ∈ segments -> (s ∉ blocked_segments) /\ profile_key s = false) /\
      (forall w p key child, obj_get operation "value" = Some w ->
         field_at w (Join segments ".") p key child -> ~ unsafe_field p key child).
Proof.
  intros H. destruct v as [| | | | | |ops|]; try done. exists ops. split; [done|]. intros raw Hraw.
  cbn in H. rewrite first_error_ok, Forall_forall in H. specialize (H raw Hraw).
  destruct raw as [| | | | | | |operation]; try done. cbn [validate_patch_entry] in H. cbn zeta in H.
  destruct (negb _ || _) eqn:Eop; [done|]. reflect_bools.
  rewrite bind_ok in H. destruct H as (segments & Hp & H). apply decodeJSONPointer_ok in Hp as [Hp Hne].
  destruct (unsafePatchSegments segments) eqn:Eu; [done|].
  exists operation, segments. split_and!; try done.
  - intros s Hs. unfold unsafePatchSegments in Eu.
    assert (bool_decide (s ∈ blocked_segments) || profile_key s = false) as Hf.
    { apply not_true_iff_false. intros Ht. apply not_true_iff_false in Eu. apply Eu, existsb_exists.
      exists s. split; [by apply list_elem_of_In|done]. }
    reflect_bools. by split.
  - intros w p key child Hw Hf. rewrite Hw in H. rewrite walkPayload_ok in H.
    apply validatePayloadField_ok. eauto.
Qed.

(** A Service spec passes exactly when it exposes nothing outside the cluster:
    ClusterIP only, no external name or address, no node port. *)
Theorem safe_service_iff spec : validateSafeServiceSpec spec = Ok () <-> safe_service spec.
Proof. apply validateSafeServiceSpec_ok. Qed.

(** A pod spec at the path [template.spec] is not inspected: [in_spec] looks
    for a path that starts with [spec] or has [spec] between two dots, so the
    direct fields of a spec that ends its path are let through. *)
Theorem template_spec_is_not_inspected key child :
  key ∈ switch_fields ->
  validateSafePayload (VMap [("template", VMap [("spec", VMap [(key, VBool child)])])]) = Ok ().
Proof.
  unfold switch_fields. rewrite !elem_of_cons, elem_of_nil. intros Hk.
  repeat destruct Hk as [->|Hk]; try done; destruct child; vm_compute; reflexivity.
Qed.
End properties.

(** ** Witnesses *)

Module SafeWriteWitness.
#[local] Existing Instance plain_GoLib.

Definition demo_patch : value :=
  VList [VMap [("op", VStr "replace"); ("path", VStr "/spec/template/metadata/labels/a~1b"); ("value", VStr "v2")]].

Lemma safe_json_patch_witness :
  exists ops, demo_patch = VList ops /\ forall raw, raw ∈ ops ->
    exists operation segments, raw = VMap operation /\
      string_or_zero (obj_index operation "op") ∈ ["add"; "remove"; "replace"; "test"] /\
      string_or_zero (obj_index operation "path") = json_pointer segments /\ segments <> [] /\
      (forall s, s ∈ segments -> (s ∉ blocked_segments) /\ profile_key s = false) /\
      (forall w p key child, obj_get operation "value" = Some w ->
         field_at w (Join segments ".") p key child -> ~ unsafe_field p key child).
Proof. apply safe_json_patch. vm_compute. reflexivity. Defined.

Lemma template_spec_is_not_inspected_witness :
  validateSafePayload (VMap [("template", VMap [("spec", VMap [("hostNetwork", VBool true)])])]) = Ok ().
Proof. apply template_spec_is_not_inspected. by left. Defined.
End SafeWriteWitness.
