(* ===== verification/Confinement.v ===== *)
(** * What SafeWrite keeps out of workloads (src/internal/server/safe_write.go)

    SafeWrite.v models the checks as the code has them: a walk over all the
    maps of a payload that compares dotted paths and field names.  This file
    states what the checks are for in terms of the workloads of Kubernetes
    (docs/security.md, Policy): where a Pod, a controller with a Pod template
    and a CronJob keep their Pod specification, what the fields of that
    specification, of its containers and of their security contexts may be,
    and which of them an update may not give up.  Nothing here uses the
    paths or the field lists of the code.  A Pod specification that is kept
    elsewhere is outside the statements: [template_spec_is_not_inspected] of
    SafeWrite.v shows that the one of a PodTemplate is not checked. *)

From Stdlib Require Import Ascii String SpecFloat.
From S2P Require Import Prelude GoStrings Json Errors Kube Policy SafeWrite.

(** Membership in a closed list. *)
Ltac in_list := apply (bool_decide_unpack _); vm_compute; exact I.

(** ** Places in an object *)

(** The object under a key, empty when there is none, and the objects of the
    list under a key. *)
Definition sub (o : object) (k : string) : object := map_or_nil (obj_index o k).
Definition under (o : object) (path : list string) : object := fold_left sub path o.
Definition items (o : object) (k : string) : list value := list_or_nil (obj_index o k).

(** Pods; Deployments, StatefulSets, DaemonSets, ReplicaSets,
    ReplicationControllers and Jobs; CronJobs. *)
Definition pod_specs : list (list string) :=
  [["spec"]; ["spec"; "template"; "spec"]; ["spec"; "jobTemplate"; "spec"; "template"; "spec"]].
(** The annotations of the Pods that a controller and a CronJob make. *)
Definition template_annotations : list (list string) :=
  [["spec"; "template"; "metadata"; "annotations"];
   ["spec"; "jobTemplate"; "spec"; "template"; "metadata"; "annotations"]].

(** The annotations that chose a profile before the fields did. *)
Definition profile_annotation (key : string) : Prop :=
  exists container, key = "container.apparmor.security.beta.kubernetes.io/" +:+ container \/
    key = "container.seccomp.security.alpha.kubernetes.io/" +:+ container \/
    key = "seccomp.security.alpha.kubernetes.io/pod".

(** ** What the fields may hold *)

Definition is_zero (v : value) : Prop := v = VInt 0 \/ exists s, v = VFloat (S754_zero s).
Definition is_positive (v : value) : Prop :=
  (exists z, v = VInt z /\ (0 < z)%Z) \/ exists m e, v = VFloat (S754_finite false m e).
Definition is_number (v : value) : Prop := (exists z, v = VInt z) \/ exists f, v = VFloat f.

Definition unset (o : object) (k : string) : Prop := obj_index o k = VNull.
Definition blank (o : object) (k : string) : Prop := forall s, obj_get o k = Some (VStr s) -> s = "".
Definition not_on (o : object) (k : string) : Prop := obj_get o k <> Some (VBool true).
Definition not_off (o : object) (k : string) : Prop := obj_get o k <> Some (VBool false).
Definition not_root (o : object) (k : string) : Prop := forall v, obj_get o k = Some v -> ~ is_zero v.

(** The security context of a Pod or a container. *)
Record confined_context (c : object) : Prop := {
  cc_privileged : not_on c "privileged" /\ not_on c "allowPrivilegeEscalation";
  cc_root : not_root c "runAsUser" /\ not_root c "runAsGroup" /\ not_root c "fsGroup";
  cc_groups : forall v, v ∈ items c "supplementalGroups" -> ~ is_zero v;
  cc_non_root : not_off c "runAsNonRoot" /\ not_off c "readOnlyRootFilesystem";
  cc_capabilities : obj_get (sub c "capabilities") "add" = None;
  cc_seccomp : obj_get (sub c "seccompProfile") "type" <> Some (VStr "Unconfined");
  cc_apparmor : obj_get (sub c "appArmorProfile") "type" <> Some (VStr "Unconfined");
  cc_kernel : unset c "sysctls" /\ unset c "seLinuxOptions" /\ blank c "procMount";
  cc_windows : let w := sub c "windowsOptions" in
    not_on w "hostProcess" /\ blank w "gmsaCredentialSpec" /\ blank w "gmsaCredentialSpecName" /\
    obj_get w "runAsUserName" <> Some (VStr "ContainerAdministrator")
}.

Record confined_container (c : object) : Prop := {
  ct_context : confined_context (sub c "securityContext");
  ct_ports : forall p v, VMap p ∈ items c "ports" -> obj_get p "hostPort" = Some v -> ~ is_positive v;
  ct_env : forall e, VMap e ∈ items c "env" -> unset (sub e "valueFrom") "secretKeyRef";
  ct_env_from : forall e, VMap e ∈ items c "envFrom" -> unset e "secretRef"
}.

(** The two lists of containers a Pod can be made with. *)
Definition container_lists : list string := ["containers"; "initContainers"].

Record confined_pod (pod : object) : Prop := {
  cp_host : not_on pod "hostNetwork" /\ not_on pod "hostPID" /\ not_on pod "hostIPC" /\
    not_on pod "shareProcessNamespace";
  cp_class : blank pod "nodeName" /\ blank pod "runtimeClassName" /\ blank pod "priorityClassName";
  cp_account : not_on pod "automountServiceAccountToken" /\
    forall s, obj_get pod "serviceAccountName" = Some (VStr s) -> s = "" \/ s = "default";
  cp_ephemeral : unset pod "ephemeralContainers";
  cp_context : confined_context (sub pod "securityContext");
  cp_volumes : forall v, VMap v ∈ items pod "volumes" -> unset v "hostPath" /\ unset v "secret" /\
    forall s, VMap s ∈ items (sub v "projected") "sources" -> unset s "secret" /\ unset s "serviceAccountToken";
  cp_containers : forall k c, k ∈ container_lists -> VMap c ∈ items pod k -> confined_container c
}.

(** ** What an update keeps *)

Section keeps.
Context {G : GoLib}.

Definition drops (c : object) (capability : string) : Prop :=
  match obj_get (sub c "capabilities") "drop" with
  | Some (VList l) => VStr capability ∈ l
  | Some (VStrings l) => capability ∈ l
  | _ => False
  end.

(** The value is still there, and deeply equal. *)
Definition same_value (before after : object) (k : string) : Prop :=
  exists b a, obj_get before k = Some b /\ obj_get after k = Some a /\ DeepEqual b a = true.

Record keeps_context (b a : object) : Prop := {
  kc_on : forall k, k ∈ ["runAsNonRoot"; "readOnlyRootFilesystem"] ->
    obj_get b k = Some (VBool true) -> obj_get a k = Some (VBool true);
  kc_escalation : obj_get b "allowPrivilegeEscalation" = Some (VBool false) ->
    obj_get a "allowPrivilegeEscalation" = Some (VBool false);
  kc_ids : forall k v, k ∈ ["runAsUser"; "runAsGroup"; "fsGroup"] ->
    obj_get b k = Some v -> is_number v -> ~ is_zero v ->
    exists w, obj_get a k = Some w /\ is_number w /\ ~ is_zero w;
  kc_drops : forall capability, drops b capability -> drops a capability;
  kc_profiles : forall k type, k ∈ ["seccompProfile"; "appArmorProfile"] -> type ∈ ["RuntimeDefault"; "Localhost"] ->
    obj_get (sub b k) "type" = Some (VStr type) -> same_value b a k;
  kc_selinux : ~ unset b "seLinuxOptions" -> same_value b a "seLinuxOptions";
  kc_windows : obj_get (sub b "windowsOptions") "runAsUserName" = Some (VStr "ContainerUser") ->
    exists name, obj_get (sub a "windowsOptions") "runAsUserName" = Some (VStr name) /\
      EqualFold name "ContainerUser" = true
}.

Definition named (n : string) (v : value) : Prop := exists c, v = VMap c /\ obj_get c "name" = Some (VStr n).

(** The container [c'] that takes the place of [c], the entry [i] of the old
    list: the first of its name, or, when the new list has none of its name,
    the one in its position.  A container that the new list has neither for
    is gone. *)
Inductive succeeds (c : object) (i : nat) (new : list value) (c' : object) : Prop :=
| by_name n l1 l2 :
    obj_get c "name" = Some (VStr n) -> n <> "" -> new = l1 ++ VMap c' :: l2 ->
    named n (VMap c') -> (forall v, v ∈ l1 -> ~ named n v) -> succeeds c i new c'
| by_position :
    (forall n v, obj_get c "name" = Some (VStr n) -> n <> "" -> v ∈ new -> ~ named n v) ->
    new !! i = Some (VMap c') -> succeeds c i new c'.

Record keeps_pod (b a : object) : Prop := {
  kp_identity : forall k s, k ∈ ["serviceAccountName"; "runtimeClassName"] ->
    obj_get b k = Some (VStr s) -> s <> "" -> obj_get a k = Some (VStr s);
  kp_token : obj_get b "automountServiceAccountToken" = Some (VBool false) ->
    obj_get a "automountServiceAccountToken" = Some (VBool false);
  kp_context : keeps_context (sub b "securityContext") (sub a "securityContext");
  kp_containers : forall k i c c', k ∈ container_lists -> items b k !! i = Some (VMap c) ->
    succeeds c i (items a k) c' -> keeps_context (sub c "securityContext") (sub c' "securityContext")
}.

(** ** Paths below a top-level spec *)

Definition spec_path (path : string) : Prop := path = "spec" \/ exists t, path = "spec." +:+ t.

Lemma spec_path_in_spec path : spec_path path -> in_spec path = true.
Proof.
  unfold in_spec. intros [->|[t ->]]; [done|]. rewrite HasPrefix_append. by rewrite orb_true_r.
Qed.

Lemma child_path_spec path k : spec_path path -> child_path path k = path +:+ ("." +:+ k).
Proof. by intros [->|[t ->]]. Qed.

Lemma spec_path_child path k : spec_path path -> spec_path (child_path path k).
Proof.
  intros H. rewrite child_path_spec by done. right. destruct H as [->|[t ->]]; [by exists k|].
  exists (t +:+ ("." +:+ k)). by rewrite append_assoc.
Qed.

Lemma spec_path_item path k i : spec_path path -> spec_path (index_path (child_path path k) i).
Proof.
  intros H. right. rewrite child_path_spec by done. unfold index_path.
  destruct H as [->|[t ->]]; eexists; rewrite !append_assoc; [|done].
  change "spec" with ("spec" +:+ ""). rewrite append_assoc. done.
Qed.
End keeps.

(** ** Payloads *)

Section payloads.
Context {G : GoLib}.

(** No field of the object at [path], at any depth, is one the walk rejects. *)
Definition clean (o : object) (path : string) : Prop :=
  forall p key child, field_at (VMap o) path p key child -> ~ unsafe_field p key child.

Lemma clean_field o path k v : clean o path -> obj_get o k = Some v -> ~ unsafe_field path k v.
Proof. intros H Hk. apply (H path k v). constructor. by apply obj_get_Some_elem. Qed.

Lemma clean_sub o path k : clean o path -> clean (sub o k) (child_path path k).
Proof.
  intros H p key child. unfold sub, obj_index. destruct (obj_get o k) as [[]|] eqn:E; cbn;
    try (intros Hf; inversion Hf as [? ? ? ? Hin|? ? ? ? ? ? ? Hin|]; by apply elem_of_nil in Hin).
  intros Hf. apply (H p key child). eapply field_in_map; [by apply obj_get_Some_elem|done].
Qed.

Lemma clean_item o path k c :
  clean o path -> VMap c ∈ items o k -> exists i, clean c (index_path (child_path path k) i).
Proof.
  unfold items, obj_index. intros H Hc. destruct (obj_get o k) as [[| | | | | |l|]|] eqn:E; cbn in Hc;
    try by apply elem_of_nil in Hc.
  apply list_elem_of_lookup in Hc as [i Hi]. exists i. intros p key child Hf. apply (H p key child).
  eapply field_in_map; [by apply obj_get_Some_elem|]. by eapply field_in_list.
Qed.

Lemma positive_spec v : is_positive v -> positive v = true.
Proof. intros [(z & -> & Hz)|(m & e & ->)]; [by apply Z.ltb_lt|done]. Qed.

Lemma zero_spec v : is_zero v -> zero v = true.
Proof. by intros [->|[[] ->]]. Qed.

Section fields.
Context (o : object) (path : string) (Hclean : clean o path) (Hpath : spec_path path).
#[local] Hint Resolve spec_path_in_spec : core.

Lemma clean_not_on k : k ∈ switch_fields -> not_on o k.
Proof. intros Hk E. eapply clean_field; [done..|]. by apply uf_switch; auto. Qed.

Lemma clean_not_off k : k ∈ ["readOnlyRootFilesystem"; "runAsNonRoot"] -> not_off o k.
Proof. intros Hk E. eapply clean_field; [done..|]. by apply uf_disable; auto. Qed.

Lemma clean_unset k : k ∈ present_fields -> unset o k.
Proof.
  intros Hk. unfold unset, obj_index. destruct (obj_get o k) as [v|] eqn:E; [|done]. cbn.
  assert (v = VNull \/ v <> VNull) as [->|Hn] by (destruct v; [by left|by right..]); [done|]. exfalso. eapply clean_field; [done..|]. by apply uf_present; auto.
Qed.

Lemma clean_blank k : k ∈ text_fields -> blank o k.
Proof.
  intros Hk s E. destruct (decide (s = "")) as [|Hs]; [done|]. exfalso.
  eapply clean_field; [done..|]. by eapply uf_text; auto.
Qed.

Lemma clean_not_root k : k ∈ ["runAsUser"; "runAsGroup"; "fsGroup"] -> not_root o k.
Proof. intros Hk v E Hv. eapply clean_field; [done..|]. apply uf_root; auto using zero_spec. Qed.
End fields.

(** The rules of [fields] at a known place. *)
Ltac clean_value :=
  match goal with
  | |- not_on _ _ => eapply clean_not_on
  | |- not_off _ _ => eapply clean_not_off
  | |- unset _ _ => eapply clean_unset
  | |- blank _ _ => eapply clean_blank
  | |- not_root _ _ => eapply clean_not_root
  end; [eassumption|eassumption|in_list].

Lemma clean_profile c path k :
  clean c path -> spec_path path -> k ∈ ["seccompProfile"; "appArmorProfile"] ->
  obj_get (sub c k) "type" <> Some (VStr "Unconfined").
Proof.
  intros H Hp Hk E. eapply (clean_field _ _ _ _ (clean_sub c path k H) E). rewrite child_path_spec by done.
  eapply uf_profile_type; [done| |done|apply EqualFold_refl].
  rewrite !elem_of_cons, elem_of_nil in Hk. rewrite <- !(append_assoc path).
  destruct Hk as [->|[->|[]]]; [left|right]; apply HasSuffix_append.
Qed.

(** A clean object below a spec is a confined security context, wherever it
    stands: the rules do not depend on what surrounds it. *)
Lemma clean_context c path : clean c path -> spec_path path -> confined_context c.
Proof.
  intros H Hp. pose proof (clean_sub c path "windowsOptions" H) as Hw.
  pose proof (spec_path_child path "windowsOptions" Hp) as Hwp.
  split; cbn zeta; split_and?; try solve [clean_value].
  - intros v Hv Hz. unfold items, obj_index in Hv.
    destruct (obj_get c "supplementalGroups") as [[| | | | | |l|]|] eqn:E; cbn in Hv; try by apply elem_of_nil in Hv.
    eapply (clean_field c path _ _ H E). eapply uf_groups; [by apply spec_path_in_spec|done|done|exact Hv|by apply zero_spec].
  - destruct (obj_get (sub c "capabilities") "add") eqn:E; [|done]. exfalso.
    eapply (clean_field _ _ _ _ (clean_sub c path "capabilities" H) E). apply uf_capability; [done|].
    rewrite child_path_spec by done. rewrite <- append_assoc. apply HasSuffix_append.
  - eapply clean_profile; [done..|in_list].
  - eapply clean_profile; [done..|in_list].
  - intros E. eapply (clean_field _ _ _ _ Hw E). eapply uf_windows; [by apply spec_path_in_spec|done..|by vm_compute].
Qed.

Lemma clean_container c path : clean c path -> spec_path path -> confined_container c.
Proof.
  intros H Hp. split.
  - eapply clean_context; [by apply clean_sub|by apply spec_path_child].
  - intros p v Hin Hv Hpos. destruct (clean_item _ _ _ _ H Hin) as [i Hi].
    eapply (clean_field _ _ _ _ Hi Hv). apply uf_port; [|done|by apply positive_spec].
    by apply spec_path_in_spec, spec_path_item.
  - intros e Hin. destruct (clean_item _ _ _ _ H Hin) as [i Hi].
    apply (clean_sub _ _ "valueFrom") in Hi. eapply clean_unset; [exact Hi| |in_list].
    by apply spec_path_child, spec_path_item.
  - intros e Hin. destruct (clean_item _ _ _ _ H Hin) as [i Hi].
    eapply clean_unset; [exact Hi|by apply spec_path_item|in_list].
Qed.

Lemma clean_volume v path :
  clean v path -> spec_path path ->
  unset v "hostPath" /\ unset v "secret" /\
  forall s, VMap s ∈ items (sub v "projected") "sources" -> unset s "secret" /\ unset s "serviceAccountToken".
Proof.
  intros H Hp. split_and!; [clean_value..|]. intros s Hin.
  destruct (clean_item _ _ _ _ (clean_sub _ _ _ H) Hin) as [i Hi].
  split; (eapply clean_unset; [exact Hi|by apply spec_path_item, spec_path_child|in_list]).
Qed.

Lemma clean_pod pod path : clean pod path -> spec_path path -> confined_pod pod.
Proof.
  intros H Hp. split; split_and?; try solve [clean_value].
  - intros s E. destruct (decide (s = "")), (decide (s = "default")); auto. exfalso.
    eapply (clean_field _ _ _ _ H E). by eapply uf_account; [apply spec_path_in_spec|..].
  - eapply clean_context; [by apply clean_sub|by apply spec_path_child].
  - intros v Hin. destruct (clean_item _ _ _ _ H Hin) as [i Hi].
    eapply clean_volume; [exact Hi|by apply spec_path_item].
  - intros k c _ Hin. destruct (clean_item _ _ _ _ H Hin) as [i Hi].
    eapply clean_container; [exact Hi|by apply spec_path_item].
Qed.

(** Going down a list of keys. *)
Definition path_of (path : string) (keys : list string) : string := fold_left child_path keys path.

Lemma clean_under o path keys : clean o path -> clean (under o keys) (path_of path keys).
Proof. revert o path. induction keys as [|k keys IH]; intros o path H; [done|]. by apply IH, clean_sub. Qed.

Lemma validateSafePayload_clean o : validateSafePayload (VMap o) = Ok () -> clean o "".
Proof.
  unfold validateSafePayload. rewrite walkPayload_ok. intros H p key child Hf. by apply validatePayloadField_ok, H.
Qed.

Lemma pod_spec_path keys : keys ∈ pod_specs -> spec_path (path_of "" keys).
Proof.
  unfold pod_specs. rewrite !elem_of_cons, elem_of_nil. intros [->|[->|[->|[]]]];
    [by left|right; by exists "template.spec"|right; by exists "jobTemplate.spec.template.spec"].
Qed.

Lemma profile_annotation_key key : profile_annotation key -> profile_key key = true.
Proof.
  unfold profile_key. intros (container & [->|[->| ->]]).
  - rewrite (ToLower_append "container.apparmor.security.beta.kubernetes.io/") by done.
    apply orb_true_iff. left. apply Contains_spec.
    exists "container.", (".security.beta.kubernetes.io/" +:+ ToLower container). reflexivity.
  - rewrite (ToLower_append "container.seccomp.security.alpha.kubernetes.io/") by done.
    apply orb_true_iff. right. apply Contains_spec.
    exists "container.", (".security.alpha.kubernetes.io/" +:+ ToLower container). reflexivity.
  - by vm_compute.
Qed.

(** C30: An object that SafeWrite accepts, submitted or as the dry run returns it,
    runs no Pod that reaches for the host: the Pod specification of a Pod, of
    a controller or of a CronJob is [confined_pod] (no host namespace, path or
    port, no privileged container or added capability, no root user or group,
    no Secret or ServiceAccount token mounted or read, no chosen node, runtime
    class, priority class or account, no unconfined profile), and no profile
    annotation, on the object or on a template in it, is unconfined. *)
Theorem accepted_workload_is_confined o :
  validateSafePayload (VMap o) = Ok () ->
  (forall path, path ∈ pod_specs -> confined_pod (under o path)) /\
  (forall path key, profile_annotation key -> obj_get (under o path) key <> Some (VStr "unconfined")).
Proof.
  intros H%validateSafePayload_clean. split.
  - intros path Hp. eapply clean_pod; [by apply clean_under|by apply pod_spec_path].
  - intros path key Hk E. eapply (clean_field _ _ _ _ (clean_under _ _ path H) E).
    apply uf_profile; [by apply profile_annotation_key|apply EqualFold_refl].
Qed.
End payloads.

(** ** Transitions *)

Section transitions.
Context {G : GoLib}.

(** No control of the object at [path], at any depth, is weakened on the way
    to [o']. *)
Definition held (o o' : object) (path : string) : Prop :=
  forall p key b a, control_at (VMap o) (VMap o') path p key b a -> in_spec p = true -> weakened key b a = false.

Lemma control_at_after m w w' path p key b a :
  map_or_nil w = map_or_nil w' -> control_at (VMap m) w path p key b a -> control_at (VMap m) w' path p key b a.
Proof.
  intros E H. inversion H as [? ? ? ? ? Hin|? ? ? ? ? ? ? ? ? Hin Hc|]; subst.
  - rewrite E. by constructor.
  - rewrite E in Hc. by eapply control_in_map.
Qed.

Lemma control_at_nil w path p key b a : ~ control_at (VMap []) w path p key b a.
Proof. intros H. inversion H as [? ? ? ? ? Hin|? ? ? ? ? ? ? ? ? Hin|]; by apply elem_of_nil in Hin. Qed.

Lemma held_field o o' path k v :
  held o o' path -> spec_path path -> obj_get o k = Some v -> weakened k v (obj_get o' k) = false.
Proof.
  intros H Hp E. apply (H path k v (obj_get o' k)); [|by apply spec_path_in_spec].
  apply (control_here o (VMap o')). by apply obj_get_Some_elem.
Qed.

Lemma held_sub o o' path k : held o o' path -> held (sub o k) (sub o' k) (child_path path k).
Proof.
  intros H p key b a Hc. apply (H p key b a). unfold sub at 1, obj_index at 1 in Hc.
  destruct (obj_get o k) as [[]|] eqn:E; cbn in Hc; try by apply control_at_nil in Hc.
  eapply control_in_map; [by apply obj_get_Some_elem|]. by eapply control_at_after; [|exact Hc].
Qed.

Lemma held_under o o' path keys : held o o' path -> held (under o keys) (under o' keys) (path_of path keys).
Proof. revert o o' path. induction keys as [|k keys IH]; intros o o' path H; [done|]. by apply IH, held_sub. Qed.

Lemma has_name_named n v : has_name n v = true <-> named n v.
Proof.
  unfold has_name, named. destruct v as [| | | | | | |m]; try by (split; [done|intros (c & ? & ?)]).
  cbn [map_or_nil as_map default from_option]. unfold id.
  destruct (obj_get m "name") as [[| | | |s| | |]|] eqn:E; try (split; [done|intros (c & [= <-] & Hc); congruence]).
  rewrite bool_decide_eq_true. split; [intros ->; eauto|intros (c & [= <-] & Hc); congruence].
Qed.

Lemma find_first n l1 v l2 :
  named n v -> (forall w, w ∈ l1 -> ~ named n w) -> List.find (has_name n) (l1 ++ v :: l2) = Some v.
Proof.
  intros Hv Hl. induction l1 as [|w l1 IH]; cbn.
  - by apply has_name_named in Hv as ->.
  - destruct (has_name n w) eqn:E; [|apply IH; intros u Hu; apply Hl; by right].
    apply has_name_named in E. destruct (Hl w); [by left|done].
Qed.

Lemma find_none n l : (forall w, w ∈ l -> ~ named n w) -> List.find (has_name n) l = None.
Proof.
  intros H. destruct (List.find (has_name n) l) as [v|] eqn:E; [|done].
  apply List.find_some in E as [Hin Hn]. apply list_elem_of_In in Hin. apply has_name_named in Hn. by apply H in Hn.
Qed.

Lemma succeeds_matching c i new c' : succeeds c i new c' -> matchingListValue (VMap c) new i = Some (VMap c').
Proof.
  unfold matchingListValue. cbn zeta. intros [n l1 l2 Hn Hne -> Hc Hl|Hno Hi].
  - unfold obj_index. rewrite Hn. cbn. rewrite bool_decide_true by done. by rewrite (find_first n).
  - case_bool_decide as Hne; [|done]. rewrite find_none; [done|]. intros w Hw.
    apply (Hno _ w); [|done|done]. unfold obj_index in *. destruct (obj_get c "name") as [[]|]; try done.
Qed.

Lemma held_item o o' path k i c c' :
  held o o' path -> items o k !! i = Some (VMap c) -> succeeds c i (items o' k) c' ->
  held c c' (index_path (child_path path k) i).
Proof.
  intros H Hi Hs%succeeds_matching p key b a Hc. apply (H p key b a). unfold items, obj_index in Hi.
  destruct (obj_get o k) as [[| | | | | |l|]|] eqn:E; cbn in Hi; try done.
  eapply control_in_map; [by apply obj_get_Some_elem|]. by eapply control_in_list.
Qed.

(** *** Single controls *)

(** Opens [weakened] at a key of a closed list. *)
Ltac open_control Hw Hk :=
  rewrite ?elem_of_cons, ?elem_of_nil in Hk; unfold weakened in Hw; cbn zeta in Hw;
  repeat destruct Hk as [->|Hk]; try done; revert Hw; decide_closed.

Lemma weakened_true k a :
  k ∈ ["runAsNonRoot"; "readOnlyRootFilesystem"] -> weakened k (VBool true) a = false -> a = Some (VBool true).
Proof. intros Hk Hw. open_control Hw Hk; destruct a as [[|[]| | | | | |]|]; cbn; by intros. Qed.

Lemma weakened_false k a :
  k ∈ ["allowPrivilegeEscalation"; "automountServiceAccountToken"] ->
  weakened k (VBool false) a = false -> a = Some (VBool false).
Proof. intros Hk Hw. open_control Hw Hk; destruct a as [[|[]| | | | | |]|]; cbn; by intros. Qed.

Lemma weakened_identity k s a :
  k ∈ ["serviceAccountName"; "runtimeClassName"] -> s <> "" -> weakened k (VStr s) a = false -> a = Some (VStr s).
Proof.
  intros Hk Hs Hw. open_control Hw Hk; rewrite (bool_decide_false (s = "")) by done;
    destruct a as [[]|]; cbn; try done; case_bool_decide; by subst.
Qed.

Lemma zero_iff v : is_number v -> zero v = true <-> is_zero v.
Proof.
  intros Hn. split; [|apply zero_spec]. destruct Hn as [[z ->]|[f ->]]; unfold zero; cbn [numeric number_zero].
  - intros ->%Z.eqb_eq. by left.
  - destruct f as [s| | |s ? ?]; try (by destruct s); try done. intros _. right. by exists s.
Qed.

Lemma weakened_id k v a :
  k ∈ ["runAsUser"; "runAsGroup"; "fsGroup"] -> is_number v -> ~ is_zero v -> weakened k v a = false ->
  exists w, a = Some w /\ is_number w /\ ~ is_zero w.
Proof.
  intros Hk Hv Hz Hw. rewrite <- zero_iff in Hz by done.
  assert (exists n, numeric v = Some n /\ number_zero n = false) as (n & Hn & Hnz).
  { unfold zero in Hz. destruct Hv as [[z ->]|[f ->]]; cbn in *; eexists; (split; [done|]); by apply not_true_iff_false. }
  assert (exists w m, a = Some w /\ numeric w = Some m /\ number_zero m = false) as (w & m & -> & Hm & Hmz).
  { open_control Hw Hk; rewrite Hn, Hnz; destruct a as [w|]; cbn [default from_option]; unfold id; try done;
      destruct (numeric w) as [m|] eqn:Em; try done; cbn; intros Hw; exists w, m; by destruct (number_zero m). }
  exists w. assert (is_number w) by (destruct w; try done; [left|right]; by eexists).
  split_and!; [done..|]. rewrite <- zero_iff by done. unfold zero. by rewrite Hm, Hmz.
Qed.

Lemma weakened_same k v a :
  (k = "seLinuxOptions" /\ v <> VNull) \/
  (k ∈ ["seccompProfile"; "appArmorProfile"] /\ protectiveProfile v = true) ->
  weakened k v a = false -> exists w, a = Some w /\ DeepEqual v w = true.
Proof.
  intros [[-> Hv]|[Hk Hv]] Hw.
  - unfold weakened in Hw. cbn zeta in Hw. revert Hw. decide_closed.
    assert (is_nil v = false) as -> by (by destruct v). destruct a as [w|]; [|done]. intros ?%negb_false_iff. eauto.
  - open_control Hw Hk; rewrite Hv; destruct a as [w|]; cbn [andb]; try done; intros ?%negb_false_iff; eauto.
Qed.

Lemma drops_set c capability :
  drops c capability <-> capability ∈ stringSet (obj_index (sub c "capabilities") "drop").
Proof.
  unfold drops, obj_index. destruct (obj_get (sub c "capabilities") "drop") as [[| | | | |l|l|]|]; cbn;
    try (split; [done|by intros ?%elem_of_nil]); [done|].
  rewrite list_elem_of_omap. split; [intros H; by exists (VStr capability)|].
  intros (v & Hv & Hs). destruct v; try done. by injection Hs as <-.
Qed.

Lemma weakened_drops m a capability :
  weakened "capabilities" (VMap m) a = false ->
  capability ∈ stringSet (obj_index m "drop") ->
  exists m', a = Some (VMap m') /\ capability ∈ stringSet (obj_index m' "drop").
Proof.
  intros Hw Hin. unfold weakened in Hw. cbn zeta in Hw. revert Hw. decide_closed. cbn [preservesDroppedCapabilities].
  destruct (stringSet (obj_index m "drop")) as [|r rs]; [by apply elem_of_nil in Hin|].
  destruct a as [[| | | | | | |m']|]; try done. intros Hw%negb_false_iff.
  change (forallb (fun capability => bool_decide (capability ∈ stringSet (obj_index m' "drop"))) (r :: rs) = true) in Hw.
  exists m'. split; [done|]. rewrite forallb_forall in Hw. apply list_elem_of_In in Hin.
  specialize (Hw capability Hin). by apply bool_decide_eq_true in Hw.
Qed.

Lemma weakened_windows a :
  weakened "runAsUserName" (VStr "ContainerUser") a = false ->
  exists name, a = Some (VStr name) /\ EqualFold name "ContainerUser" = true.
Proof.
  unfold weakened. cbn zeta. decide_closed. rewrite EqualFold_refl.
  destruct a as [[]|]; cbn; try done. intros ?%negb_false_iff. eauto.
Qed.

Lemma weakened_annotation k s a :
  profile_annotation k -> s <> "" -> EqualFold s "unconfined" = false ->
  weakened k (VStr s) a = false -> exists w, a = Some w /\ DeepEqual (VStr s) w = true.
Proof.
  intros Hk Hs Hu Hw. assert (profile_key k = true) as Hp by by apply profile_annotation_key.
  assert (forall l, Forall (fun f => has_char "."%char f = false) l -> k ∉ l) as Hnot.
  { intros l Hl Hin. rewrite Forall_forall in Hl. specialize (Hl k Hin).
    destruct Hk as (c & [->|[->| ->]]); discriminate Hl. }
  assert (k <> "capabilities" /\ k <> "seLinuxOptions" /\ k <> "runAsUserName") as (H1 & H2 & H3).
  { by split_and!; intros ->; revert Hp; vm_compute. }
  revert Hw. unfold weakened. cbn zeta.
  rewrite !(bool_decide_false (k ∈ _)) by (apply Hnot; repeat constructor).
  rewrite (bool_decide_false (k = "runAsUserName")), (bool_decide_false (k = "capabilities")),
    (bool_decide_false (k = "seLinuxOptions")) by done.
  rewrite Hp, Hu. rewrite (bool_decide_false (s = "")) by done.
  destruct a as [w|]; cbn [negb andb]; [|done]. intros ?%negb_false_iff. eauto.
Qed.

(** *** Security contexts and Pods *)

Lemma held_same o o' path k v :
  held o o' path -> spec_path path -> obj_get o k = Some v ->
  (k = "seLinuxOptions" /\ v <> VNull) \/ (k ∈ ["seccompProfile"; "appArmorProfile"] /\ protectiveProfile v = true) ->
  same_value o o' k.
Proof.
  intros H Hp E Hk. destruct (weakened_same k v (obj_get o' k) Hk) as (w & Hw & Hd).
  { by eapply held_field. }
  by exists v, w.
Qed.

Lemma sub_get o k f v : obj_get (sub o k) f = Some v -> exists m, obj_get o k = Some (VMap m) /\ sub o k = m.
Proof. unfold sub, obj_index. destruct (obj_get o k) as [[]|]; cbn; try done. eauto. Qed.

Lemma held_context b a path : held b a path -> spec_path path -> keeps_context b a.
Proof.
  intros H Hp. split.
  - intros k Hk E. apply (weakened_true k); [done|]. by eapply held_field.
  - intros E. apply (weakened_false "allowPrivilegeEscalation"); [in_list|]. by eapply held_field.
  - intros k v Hk E. intros. apply (weakened_id k v); [done..|]. by eapply held_field.
  - intros capability Hd. pose proof Hd as Hd'. apply drops_set in Hd'. unfold drops in Hd.
    destruct (obj_get (sub b "capabilities") "drop") as [v|] eqn:E; [|done].
    apply sub_get in E as (m & Em & Es). rewrite Es in Hd'.
    destruct (weakened_drops m (obj_get a "capabilities") capability) as (m' & Ea & Hin); [by eapply held_field|done|].
    apply drops_set. unfold sub, obj_index. rewrite Ea. exact Hin.
  - intros k type Hk Ht E. pose proof E as E'. apply sub_get in E' as (m & Em & Es). rewrite Es in E.
    eapply held_same; [done..|]. right. split; [done|]. cbn. unfold obj_index. rewrite E.
    cbn [default from_option string_or_zero as_string]. unfold id.
    rewrite !elem_of_cons, elem_of_nil in Ht. destruct Ht as [->|[->|[]]]; by vm_compute.
  - unfold unset, obj_index. destruct (obj_get b "seLinuxOptions") as [v|] eqn:E; [|done]. cbn. intros Hn.
    eapply held_same; [done..|]. by left.
  - intros E. apply weakened_windows. eapply held_field; [by apply held_sub|by apply spec_path_child|done].
Qed.

Lemma held_pod b a path : held b a path -> spec_path path -> keeps_pod b a.
Proof.
  intros H Hp. split.
  - intros k s Hk E Hs. apply (weakened_identity k); [done..|]. by eapply held_field.
  - intros E. apply (weakened_false "automountServiceAccountToken"); [in_list|]. by eapply held_field.
  - eapply held_context; [by apply held_sub|by apply spec_path_child].
  - intros k i c c' _ Hi Hs. eapply held_context; [by eapply held_sub, held_item|].
    by apply spec_path_child, spec_path_item.
Qed.

Lemma template_path keys : keys ∈ template_annotations -> spec_path (path_of "" keys).
Proof.
  unfold template_annotations. rewrite !elem_of_cons, elem_of_nil. intros [->|[->|[]]];
    right; [by exists "template.metadata.annotations"|by exists "jobTemplate.spec.template.metadata.annotations"].
Qed.

(** C31: An update that SafeWrite accepts, from the live object to what the dry run
    says it becomes, leaves no Pod less protected: in the Pod specification of a
    Pod, a controller or a CronJob the account, the runtime class and the unmounted
    token stay, and the security context of the Pod and of every container that
    has a successor (the container of its name, or else of its position) keeps
    its non-root, no-escalation and read-only settings, its dropped
    capabilities, its profiles, SELinux options and Windows user; a field left
    out, set to null or lost with its parent counts as given up.  The profile
    annotations of a Pod template stay as well.  A container without a
    successor, and the annotations of the object itself, are not compared. *)
Theorem accepted_update_keeps_controls before after :
  validateSafeTransition (VMap before) (VMap after) = Ok () ->
  (forall path, path ∈ pod_specs -> keeps_pod (under before path) (under after path)) /\
  (forall path key s, path ∈ template_annotations -> profile_annotation key -> s <> "" ->
     EqualFold s "unconfined" = false -> obj_get (under before path) key = Some (VStr s) ->
     obj_get (under after path) key = Some (VStr s)).
Proof.
  unfold validateSafeTransition. rewrite bind_unit_ok, walkSecurityTransition_ok. intros [_ H].
  assert (held before after "") as Hh by exact H. split.
  - intros path Hp. eapply held_pod; [by apply held_under|by apply pod_spec_path].
  - intros path key s Hp Hk Hs Hu E.
    destruct (weakened_annotation key s (obj_get (under after path) key)) as (w & -> & Hd); [done..| |].
    { eapply held_field; [by apply held_under|by apply template_path|done]. }
    destruct w; try done. cbn in Hd. apply bool_decide_eq_true in Hd. by subst.
Qed.
End transitions.

(** ** Witnesses *)

Module ConfinementWitness.
#[local] Existing Instance plain_GoLib.

Definition web_container (image : string) : value :=
  VMap [("name", VStr "web"); ("image", VStr image);
        ("securityContext", VMap [("runAsNonRoot", VBool true); ("runAsUser", VInt 1000);
                                  ("allowPrivilegeEscalation", VBool false);
                                  ("capabilities", VMap [("drop", VList [VStr "ALL"])]);
                                  ("seccompProfile", VMap [("type", VStr "RuntimeDefault")])])].
Definition log_container : value := VMap [("name", VStr "log"); ("image", VStr "log:1")].

(** A Deployment, and a new version of it that puts a container first. *)
Definition deployment (containers : list value) : object :=
  [("kind", VStr "Deployment"); ("metadata", VMap [("name", VStr "web")]);
   ("spec", VMap [("template", VMap [("spec", VMap [("automountServiceAccountToken", VBool false);
                                                     ("containers", VList containers)])])])].
Definition old_web : object := deployment [web_container "web:1"].
Definition new_web : object := deployment [log_container; web_container "web:2"].

Lemma accepted_workload_is_confined_witness :
  confined_pod (under new_web ["spec"; "template"; "spec"]).
Proof.
  apply (accepted_workload_is_confined new_web); [vm_compute; reflexivity|].
  right. left.
Defined.

Lemma accepted_update_keeps_controls_witness :
  keeps_pod (under old_web ["spec"; "template"; "spec"]) (under new_web ["spec"; "template"; "spec"]).
Proof.
  apply (accepted_update_keeps_controls old_web new_web); [vm_compute; reflexivity|].
  right. left.
Defined.

(** The same update without the dropped capabilities is refused. *)
Example weaker_update_refused :
  validateSafeTransition (VMap old_web) (VMap (deployment [log_container; VMap [("name", VStr "web")]])) <> Ok ().
Proof. vm_compute. discriminate. Qed.
End ConfinementWitness.
