(* ===== verification/Auth.v ===== *)
(** * Authentication (src/internal/server/auth.go)

    Identities and their keys, TokenReview, the configuration of the clients
    that act for the caller, the limit on upstream responses, and the
    middleware every MCP request passes. *)

From stdpp Require Import sorting.
From Stdlib Require Import String.
From S2P Require Import Prelude GoStrings Crypto Json Errors Config Kube PlanStore Admission.

(** ** Identity keys *)

(** [sort.Strings]. *)
Definition sort_strings (l : list string) : list string := merge_sort String.le l.

(** What the hash is fed: the parts with a zero byte before each but the first. *)
Definition identity_parts (p : Principal) : list string := [Username p; P_UID p].
Definition subject_parts (p : Principal) : list string :=
  identity_parts p ++ sort_strings (Groups p) ++
  flat_map (fun key => key :: sort_strings (default [] (obj_get (Extra p) key))) (sort_strings (keys (Extra p))).

Definition hash_parts (parts : list string) : string := hex_EncodeToString (Sum256 (Join parts nul)).

Definition IdentityKey (p : Principal) : string := hash_parts (identity_parts p).
Definition SubjectKey (p : Principal) : string := hash_parts (subject_parts p).

(** ** Client configuration *)

(** The fields of [rest.Config] the server reads or sets. *)
Record rest_config := {
  BearerToken : string;
  BearerTokenFile : string;
  rc_Username : string;
  rc_Password : string;
  Impersonate : option string;
  UserAgent : string;
  rc_Timeout : Z;
  ResponseLimit : option Z
}.

Definition configWithTimeout (base : rest_config) (timeout : Z) : rest_config := {|
  BearerToken := BearerToken base; BearerTokenFile := BearerTokenFile base;
  rc_Username := rc_Username base; rc_Password := rc_Password base; Impersonate := Impersonate base;
  UserAgent := UserAgent base;
  rc_Timeout := if (rc_Timeout base <=? 0)%Z || (timeout <? rc_Timeout base)%Z then timeout else rc_Timeout base;
  ResponseLimit := ResponseLimit base
|}.

Definition maxDelegatedResourceResponseBytes : Z := Z.shiftl 8 20.

(** [configWithResponseLimit]: the transport is wrapped; the limit that bites
    first is the smallest. *)
Definition configWithResponseLimit (base : rest_config) (limit : Z) : rest_config := {|
  BearerToken := BearerToken base; BearerTokenFile := BearerTokenFile base;
  rc_Username := rc_Username base; rc_Password := rc_Password base; Impersonate := Impersonate base;
  UserAgent := UserAgent base; rc_Timeout := rc_Timeout base;
  ResponseLimit := Some (match ResponseLimit base with Some l => Z.min l limit | None => limit end)
|}.

(** The configuration of the caller's clients: the caller's token and nothing
    of the server's own credentials. *)
Definition delegated_config (base : rest_config) (operationTimeout : Z) (token : string) : rest_config := {|
  BearerToken := token; BearerTokenFile := ""; rc_Username := ""; rc_Password := ""; Impersonate := None;
  UserAgent := "supek8smcp/delegated-user";
  rc_Timeout := rc_Timeout (configWithTimeout base operationTimeout);
  ResponseLimit := ResponseLimit base
|}.

(** ** TokenReview *)

Record user_info := { ui_Username : string; ui_UID : string; ui_Groups : list string; ui_Extra : list (string * list string) }.
Record token_review := { tr_Error : string; tr_Authenticated : bool; tr_User : user_info }.

Record Authenticator := { base : rest_config; requestTimeout : Z; operationTimeout : Z }.

(** [Authenticate], given the answer to the review of [token] and the outcome
    of building the dynamic, discovery and core clients. *)
Definition Authenticate (a : Authenticator) (token : string) (review : result go_error token_review)
    (clients : rest_config -> result go_error unit) : result go_error Principal :=
  match review with
  | Err err => Err (AuthenticationError "tokenreview_error" (Some err))
  | Ok r =>
    if bool_decide (tr_Error r <> "") then
      Err (AuthenticationError "tokenreview_error" (Some (OtherError (tr_Error r))))
    else if negb (tr_Authenticated r) then Err (AuthenticationError "invalid_token" None)
    else
    let config := delegated_config (base a) (operationTimeout a) token in
    let discoveryConfig :=
      configWithResponseLimit (configWithTimeout config (requestTimeout a)) maxDelegatedResourceResponseBytes in
    match first_error clients [configWithResponseLimit config maxDelegatedResourceResponseBytes; discoveryConfig; config] with
    | Err err => Err (AuthenticationError "delegated_client_error" (Some err))
    | Ok _ =>
      Ok {| Username := ui_Username (tr_User r); P_UID := ui_UID (tr_User r); Groups := ui_Groups (tr_User r);
            Extra := ui_Extra (tr_User r); Token := token |}
    end
  end.

(** [serverToken] and [Ready]; [file] is the content of the token file. *)
Definition serverToken (b : option rest_config) (file : result go_error string) : result go_error string :=
  match b with
  | None => Err (OtherError "server Kubernetes configuration is unavailable")
  | Some config =>
    let from_file :=
      if bool_decide (BearerTokenFile config <> "") then
        match file with
        | Err err => Err err
        | Ok data => Ok (TrimSpace data)
        end
      else Ok "" in
    match from_file with
    | Err err => Err err
    | Ok token =>
      if bool_decide (token <> "") then Ok token
      else let token := TrimSpace (BearerToken config) in
           if bool_decide (token <> "") then Ok token
           else Err (OtherError "server Kubernetes credential is empty")
    end
  end.

Definition Ready (b : option rest_config) (file : result go_error string)
    (review : string -> result go_error token_review) : result go_error unit :=
  match serverToken b file with
  | Err err => Err (Wrapped "load TokenReview readiness credential" err)
  | Ok token =>
    match review token with
    | Err err => Err (Wrapped "TokenReview readiness check failed" err)
    | Ok r =>
      if bool_decide (tr_Error r <> "") then
        Err (OtherError ("TokenReview readiness check failed: " +:+ tr_Error r))
      else if negb (tr_Authenticated r) then
        Err (OtherError "TokenReview readiness credential was not authenticated")
      else Ok ()
    end
  end.

(** ** The response limit *)

Section body.
(** The wrapped body: [Read(buffer)] of a given length returns bytes and an
    error ([None] for nil), and moves on. *)
Context {S : Type} (Read_ : S -> nat -> list N * option go_error * S).

Record responseLimitBody := { rl_source : S; remaining : Z; exceeded : bool }.

Definition responseLimitBody_Read (b : responseLimitBody) (buffer : nat)
    : responseLimitBody * (list N * option go_error) :=
  if Nat.eqb buffer 0 then (b, ([], None))
  else if exceeded b then (b, ([], Some ResponseTooLarge))
  else if (remaining b =? 0)%Z then
    let '(read, err, s) := Read_ (rl_source b) 1 in
    match read with
    | _ :: _ => ({| rl_source := s; remaining := remaining b; exceeded := true |}, ([], Some ResponseTooLarge))
    | [] => ({| rl_source := s; remaining := remaining b; exceeded := exceeded b |}, ([], err))
    end
  else
  let length_ := if (remaining b + 1 <? Z.of_nat buffer)%Z then Z.to_nat (remaining b + 1) else buffer in
  let '(read, err, s) := Read_ (rl_source b) length_ in
  if (remaining b <? Z.of_nat (length read))%Z then
    ({| rl_source := s; remaining := 0; exceeded := true |},
     (take (Z.to_nat (remaining b)) read, Some ResponseTooLarge))
  else ({| rl_source := s; remaining := remaining b - Z.of_nat (length read); exceeded := exceeded b |}, (read, err)).

(** A caller's sequence of reads, with the bytes and errors it got. *)
Fixpoint read_all (b : responseLimitBody) (buffers : list nat) : responseLimitBody * list (list N * option go_error) :=
  match buffers with
  | [] => (b, [])
  | n :: rest =>
    let '(b1, r) := responseLimitBody_Read b n in
    let '(b2, rs) := read_all b1 rest in (b2, r :: rs)
  end.
End body.
Arguments responseLimitBody S : clear implicits.

(** [RoundTrip] of the limiting transport, for a response of the given
    declared length: [None] passes a watch through unlimited. *)
Definition limit_response {S} (limit contentLength : Z) (is_watch : bool) (source : S)
    : result go_error (S + responseLimitBody S) :=
  if is_watch then Ok (inl source)
  else if (limit <? contentLength)%Z then Err ResponseTooLarge
  else Ok (inr {| rl_source := source; remaining := limit; exceeded := false |}).

Section watch.
Context {G : GoLib}.

(** [value] is the [watch] query parameter. *)
Definition isWatchRequest (value : string) : bool :=
  bool_decide (value = "1") || EqualFold value "true".
End watch.

(** ** The middleware *)

Record http_request := { Origin : string; Authorization : string }.

(** What the environment answers during one request: whether the global
    limiter has a token, whether a slot came free before the deadline, the
    review of a token, the outcome of building clients, and the clock. *)
Record answers := {
  an_global : bool;
  an_slot : bool;
  an_review : string -> result go_error token_review;
  an_clients : rest_config -> result go_error unit;
  an_now : Z
}.

Inductive verdict :=
| Rejected (status : Z) (code : string) (retryAfter : option Z)
| Served (p : Principal).

(** An audit event: its name, decision and reason. *)
Abbreviation audit_event := (string * string * string)%type.

Definition authentication_failure (err : go_error) : Z * string * string :=
  match err with
  | AuthenticationError reason _ =>
    if bool_decide (reason <> "invalid_token") then (503%Z, "error", reason) else (401%Z, "deny", "invalid_token")
  | _ => (401%Z, "deny", "invalid_token")
  end.

Section middleware.
Context {R : RateLib}.

(** [authenticationMiddleware] up to the call of the next handler.  The two
    states are those while the next handler runs; [after_request] undoes the
    admission when it returns. *)
Definition authenticationMiddleware (a : Authenticator) (req : http_request) (ans : answers)
    (limiter : identityRateLimiter) (admission : option requestAdmission)
    : identityRateLimiter * option requestAdmission * verdict * list audit_event :=
  if bool_decide (Origin req <> "") then
    (limiter, admission, Rejected 403 "browser_origin" None, [("authentication", "deny", "browser_origin")])
  else
  let header := Authorization req in
  if negb (HasPrefix header "Bearer ") || (String.length header <=? 7) then
    (limiter, admission, Rejected 401 "missing_bearer" None, [("authentication", "deny", "missing_bearer")])
  else if negb (an_global ans) then
    (limiter, admission, Rejected 429 "global_rate" (Some 1%Z), [("request", "deny", "rate_limited")])
  else if negb (an_slot ans) then
    (limiter, admission, Rejected 503 "concurrency_timeout" (Some 1%Z), [("authentication", "error", "concurrency_timeout")])
  else
  let token := TrimSpace (TrimPrefix header "Bearer ") in
  match Authenticate a token (an_review ans token) (an_clients ans) with
  | Err err =>
    let '(status, decision, reason) := authentication_failure err in
    (limiter, admission, Rejected status reason None, [("authentication", decision, reason)])
  | Ok principal =>
    let allow := ("authentication", "allow", "authenticated") in
    let '(limiter', (allowed, reason)) := Allow_ limiter (IdentityKey principal) (an_now ans) in
    if negb allowed then
      (limiter', admission, Rejected 429 reason (Some (RetryAfterSeconds limiter')), [allow; ("request", "deny", "rate_limited")])
    else
    match admission with
    | None => (limiter', None, Served principal, [allow])
    | Some adm =>
      match acquireIdentity adm (IdentityKey principal) with
      | (adm', true) => (limiter', Some adm', Served principal, [allow])
      | (adm', false) =>
        (limiter', Some adm', Rejected 429 "identity_concurrency" (Some 1%Z), [allow; ("request", "deny", "rate_limited")])
      end
    end
  end.

Definition after_request (admission : option requestAdmission) (v : verdict) : option requestAdmission :=
  match v with
  | Served p => (fun adm => releaseIdentity adm (IdentityKey p)) <$> admission
  | Rejected _ _ _ => admission
  end.
End middleware.

(** ** Lemmas *)

Lemma sort_strings_perm l l' : l ≡ₚ l' -> sort_strings l = sort_strings l'.
Proof.
  intros H. apply (Sorted_unique String.le); try apply Sorted_merge_sort; try apply _.
  unfold sort_strings. by rewrite !merge_sort_Permutation.
Qed.

Lemma hex_digit_inj x y : (x < 16)%N -> (y < 16)%N -> hex_digit x = hex_digit y -> x = y.
Proof.
  intros Hx Hy H. apply (f_equal byte_of) in H. unfold hex_digit, byte_of, char_of in H.
  destruct (N.ltb_spec x 10), (N.ltb_spec y 10); rewrite !Ascii.N_ascii_embedding in H by lia; lia.
Qed.

Lemma hex_inj l1 l2 :
  is_bytes l1 -> is_bytes l2 -> hex_EncodeToString l1 = hex_EncodeToString l2 -> l1 = l2.
Proof.
  intros H1. revert l2. induction H1 as [|x l1 Hx _ IH]; intros l2 H2 E; destruct H2 as [|y l2 Hy H2]; try done.
  cbn in E. injection E as Ed Em E. f_equal; [|by apply IH].
  apply hex_digit_inj in Ed; [|apply N.Div0.div_lt_upper_bound; lia..].
  apply hex_digit_inj in Em; [|apply N.mod_lt; lia..].
  rewrite (N.div_mod x 16), (N.div_mod y 16) by lia. congruence.
Qed.

Lemma hash_parts_eq ps qs : hash_parts ps = hash_parts qs -> Sum256 (Join ps nul) = Sum256 (Join qs nul).
Proof. intros H. apply hex_inj in H; [done|apply sha256_sum_is_bytes..]. Qed.

(** A Kubernetes name holds no zero byte. *)
Definition no_nul (s : string) : Prop := has_char Ascii.zero s = false.

Lemma Join_nul_inj ps qs :
  ps <> [] -> qs <> [] -> Forall no_nul ps -> Forall no_nul qs -> Join ps nul = Join qs nul -> ps = qs.
Proof.
  intros Hp Hq Fp Fq E. rewrite <- (Split_Join ps Ascii.zero), <- (Split_Join qs Ascii.zero) by done.
  unfold nul in E. by rewrite E.
Qed.

(** The logged source: what it has delivered so far, and its state. *)
Definition logged {S} (Read_ : S -> nat -> list N * option go_error * S) (st : list N * S) (n : nat)
    : list N * option go_error * (list N * S) :=
  let '(bytes, err, s) := Read_ st.2 n in (bytes, err, (st.1 ++ bytes, s)).

Section body_lemmas.
Context {S : Type} (Read_ : S -> nat -> list N * option go_error * S).
Context (Read_short : forall s n, length (Read_ s n).1.1 <= n).

Definition too_large (err : option go_error) : bool := match err with Some ResponseTooLarge => true | _ => false end.

(** [got] has been handed to the caller so far; [failed] says that a read
    reported the limit. *)
Definition body_inv (limit : Z) (b : responseLimitBody (list N * S)) (got : list N) (failed : bool) : Prop :=
  (0 <= remaining b)%Z /\ (Z.of_nat (length got) + remaining b <= limit)%Z /\
  (exceeded b = false -> (rl_source b).1 = got) /\
  (exceeded b = true -> failed = true /\ exists dropped, (rl_source b).1 = got ++ dropped).

Lemma read_inv limit b got failed n :
  body_inv limit b got failed ->
  let '(b', (bytes, err)) := responseLimitBody_Read (logged Read_) b n in
  body_inv limit b' (got ++ bytes) (failed || too_large err).
Proof.
  intros (Hr & Hl & Hok & Hex). unfold responseLimitBody_Read.
  destruct (Nat.eqb n 0); [rewrite app_nil_r, orb_false_r; by split_and!|].
  destruct (exceeded b) eqn:Ee.
  { rewrite app_nil_r. destruct (Hex eq_refl) as [-> ?]. split_and!; try done; by rewrite Ee. }
  specialize (Hok eq_refl).
  destruct (Z.eqb_spec (remaining b) 0) as [Hz|Hnz].
  - unfold logged. pose proof (Read_short (rl_source b).2 1) as Hs.
    destruct (Read_ (rl_source b).2 1) as [[[|x bytes] err] s]; cbn [fst] in *; rewrite app_nil_r; unfold body_inv; cbn.
    + rewrite app_nil_r. split_and!; try done.
    + split_and!; try done. intros _. rewrite orb_true_r. split; [done|]. exists (x :: bytes). by rewrite Hok.
  - set (k := if (remaining b + 1 <? Z.of_nat n)%Z then Z.to_nat (remaining b + 1) else n). unfold logged. pose proof (Read_short (rl_source b).2 k) as Hs.
    destruct (Read_ (rl_source b).2 k) as [[bytes err] s]; cbn [fst snd] in *.
    destruct (Z.ltb_spec (remaining b) (Z.of_nat (length bytes))) as [Hgt|Hle]; unfold body_inv; cbn.
    + rewrite length_app, length_take. split_and!; [lia|lia|done|]. intros _. rewrite orb_true_r. split; [done|].
      exists (drop (Z.to_nat (remaining b)) bytes). by rewrite <- app_assoc, take_drop, Hok.
    + rewrite length_app. split_and!; [lia|lia|by rewrite Hok|]. done.
Qed.

Lemma read_all_inv limit b got failed buffers :
  body_inv limit b got failed ->
  let '(b', rs) := read_all (logged Read_) b buffers in
  body_inv limit b' (got ++ concat rs.*1) (failed || existsb too_large rs.*2).
Proof.
  revert b got failed. induction buffers as [|n rest IH]; intros b got failed I; cbn [read_all].
  { cbn. by rewrite app_nil_r, orb_false_r. }
  pose proof (read_inv limit b got failed n I) as I1.
  destruct (responseLimitBody_Read (logged Read_) b n) as [b1 [bytes err]].
  specialize (IH b1 _ _ I1). destruct (read_all (logged Read_) b1 rest) as [b2 rs]. cbn.
  by rewrite app_assoc, orb_assoc.
Qed.
End body_lemmas.

(** ** Properties *)

(** The key a plan or a cached schema is bound to does not depend on the order in
    which the API server lists groups, extra keys or extra values. *)
Theorem subject_key_order_free p q :
  Username p = Username q -> P_UID p = P_UID q -> Groups p ≡ₚ Groups q ->
  keys (Extra p) ≡ₚ keys (Extra q) ->
  (forall k, default [] (obj_get (Extra p) k) ≡ₚ default [] (obj_get (Extra q) k)) ->
  SubjectKey p = SubjectKey q.
Proof.
  intros Hn Hu Hg Hk Hv. unfold SubjectKey. f_equal. unfold subject_parts, identity_parts.
  rewrite Hn, Hu, (sort_strings_perm _ _ Hg), (sort_strings_perm _ _ Hk). do 2 f_equal.
  induction (sort_strings (keys (Extra q))) as [|k ks IH]; [done|]. cbn [flat_map].
  rewrite IH. by rewrite (sort_strings_perm _ _ (Hv k)).
Qed.

(** Two callers share an identity key, under which they are rate limited, only if
    they have the same name and UID or their hashes collide. *)
Theorem identity_key_identifies p q :
  no_nul (Username p) -> no_nul (P_UID p) -> no_nul (Username q) -> no_nul (P_UID q) ->
  IdentityKey p = IdentityKey q ->
  (Username p = Username q /\ P_UID p = P_UID q) \/
  (Join (identity_parts p) nul <> Join (identity_parts q) nul /\
   Sum256 (Join (identity_parts p) nul) = Sum256 (Join (identity_parts q) nul)).
Proof.
  intros H1 H2 H3 H4 H%hash_parts_eq.
  destruct (decide (Join (identity_parts p) nul = Join (identity_parts q) nul)) as [E|E]; [left|by right].
  apply Join_nul_inj in E; [by injection E|done|done|by repeat constructor..].
Qed.

(** The subject key does not tell groups from extra attributes: the parts are
    written one after the other with nothing that says where the groups end. *)
Theorem subject_key_confuses_groups_and_extra :
  exists p q, Username p = Username q /\ P_UID p = P_UID q /\ Groups p <> Groups q /\ SubjectKey p = SubjectKey q.
Proof.
  exists {| Username := "u"; P_UID := "1"; Groups := ["admins"; "scopes"]; Extra := []; Token := "" |},
         {| Username := "u"; P_UID := "1"; Groups := ["admins"]; Extra := [("scopes", [])]; Token := "" |}.
  split_and!; [done|done|done|]. unfold SubjectKey. f_equal.
Qed.

(** A limited response body hands out at most [limit] bytes over any sequence
    of reads of any reader, and never cuts silently: if a byte of the source is
    withheld, one of the reads reported the limit. *)
Theorem response_body_is_limited {S} (Read_ : S -> nat -> list N * option go_error * S) limit s buffers :
  (forall s n, length (Read_ s n).1.1 <= n) -> (0 <= limit)%Z ->
  let '(b, rs) := read_all (logged Read_) {| rl_source := ([], s); remaining := limit; exceeded := false |} buffers in
  (Z.of_nat (length (concat rs.*1)) <= limit)%Z /\
  exists withheld, (rl_source b).1 = concat rs.*1 ++ withheld /\
    (withheld <> [] -> exists r, r ∈ rs /\ r.2 = Some ResponseTooLarge).
Proof.
  intros Hs Hl.
  pose proof (read_all_inv Read_ Hs limit {| rl_source := ([], s); remaining := limit; exceeded := false |} [] false buffers) as H.
  destruct (read_all _ _ buffers) as [b rs]. destruct H as (Hr & Hlen & Hok & Hex).
  { unfold body_inv; cbn. by split_and!; [lia|lia| |]. }
  cbn [app orb] in *. split; [lia|]. destruct (exceeded b).
  - destruct (Hex eq_refl) as [Hf [dropped Hd]]. exists dropped. split; [done|]. intros _.
    apply existsb_exists in Hf as (e & He & Ht). apply list_elem_of_In, list_elem_of_fmap in He as (r & -> & Hin).
    exists r. split; [done|]. by destruct r.2 as [[]|].
  - exists []. rewrite app_nil_r. split; [by apply Hok|done].
Qed.

(** The clients that act for a caller carry the caller's token and none of the
    server's own credentials, and their timeout is positive and at most the
    operation timeout. *)
Theorem delegated_client_is_the_callers base_ timeout token :
  (0 < timeout)%Z ->
  let c := delegated_config base_ timeout token in
  BearerToken c = token /\ BearerTokenFile c = "" /\ rc_Username c = "" /\ rc_Password c = "" /\
  Impersonate c = None /\ (0 < rc_Timeout c <= timeout)%Z.
Proof.
  intros Ht c. split_and!; try done; unfold c, delegated_config, configWithTimeout; cbn;
    destruct (Z.leb_spec (rc_Timeout base_) 0), (Z.ltb_spec timeout (rc_Timeout base_)); cbn; lia.
Qed.

Section properties.
Context {R : RateLib}.

(** A request reaches a tool only with a bearer token that Kubernetes just
    reviewed as authenticated, without a browser origin, and within the rate and
    concurrency limits of its identity; the principal is the reviewed user with that very token. *)
Theorem served_request_was_reviewed a req ans limiter admission limiter' admission' p audit :
  authenticationMiddleware a req ans limiter admission = (limiter', admission', Served p, audit) ->
  Origin req = "" /\ an_global ans = true /\ an_slot ans = true /\
  audit = [("authentication", "allow", "authenticated")] /\
  (exists rest, Authorization req = "Bearer " +:+ rest /\ rest <> "" /\ Token p = TrimSpace rest) /\
  (exists r, an_review ans (Token p) = Ok r /\ tr_Error r = "" /\ tr_Authenticated r = true /\
     p = {| Username := ui_Username (tr_User r); P_UID := ui_UID (tr_User r); Groups := ui_Groups (tr_User r);
            Extra := ui_Extra (tr_User r); Token := Token p |}) /\
  (Allow_ limiter (IdentityKey p) (an_now ans)).2.1 = true /\
  (forall adm, admission = Some adm -> exists adm', admission' = Some adm' /\ acquireIdentity adm (IdentityKey p) = (adm', true)).
Proof.
  unfold authenticationMiddleware. case_bool_decide as Ho; [done|].
  destruct (HasPrefix (Authorization req) "Bearer ") eqn:Hb; cbn [negb orb]; [|done].
  destruct (Nat.leb_spec (String.length (Authorization req)) 7) as [|Hlen]; [done|].
  destruct (an_global ans) eqn:Hg; cbn [negb]; [|done]. destruct (an_slot ans) eqn:Hsl; cbn [negb]; [|done].
  apply HasPrefix_spec in Hb as [rest Hb]. rewrite Hb, TrimPrefix_append. rewrite Hb, length_append in Hlen.
  destruct (Authenticate a (TrimSpace rest) _ _) as [q|err] eqn:Ha; [|by destruct (authentication_failure err) as [[? ?] ?]].
  assert (exists r, an_review ans (TrimSpace rest) = Ok r /\ tr_Error r = "" /\ tr_Authenticated r = true /\
    q = {| Username := ui_Username (tr_User r); P_UID := ui_UID (tr_User r); Groups := ui_Groups (tr_User r);
           Extra := ui_Extra (tr_User r); Token := TrimSpace rest |}) as (r & Hr & He & Hau & Hq).
  { unfold Authenticate in Ha. destruct (an_review ans (TrimSpace rest)) as [r|]; [|done].
    case_bool_decide as He; [done|]. destruct (tr_Authenticated r) eqn:Hau; cbn [negb] in Ha; [|done].
    destruct (first_error _ _); [|done]. injection Ha as <-. exists r. by split_and!. }
  destruct (Allow_ limiter (IdentityKey q) (an_now ans)) as [l1 [allowed reason]] eqn:Hal.
  destruct allowed; cbn [negb]; [|done].
  assert (forall adm' (v : option requestAdmission), (l1, v, Served q, [("authentication", "allow", "authenticated")]) =
    (limiter', adm', Served p, audit) -> q = p /\ v = adm' /\ audit = [("authentication", "allow", "authenticated")]) as Hinj
    by (intros ? ? [= _ -> -> <-]; done).
  destruct admission as [adm|].
  - destruct (acquireIdentity adm (IdentityKey q)) as [adm' []] eqn:Hacq; [|done].
    intros (-> & <- & ->)%Hinj. subst p. cbn [Token] in *. split_and!; try done.
    + exists rest. split_and!; [done| |done]. intros ->. cbn in Hlen. lia.
    + exists r. by split_and!.
    + by rewrite Hal.
    + intros adm0 [= <-]. exists adm'. done.
  - intros (-> & <- & ->)%Hinj. subst p. cbn [Token] in *. split_and!; try done.
    + exists rest. split_and!; [done| |done]. intros ->. cbn in Hlen. lia.
    + exists r. by split_and!.
    + by rewrite Hal.
Qed.
End properties.

(** ** Witnesses *)

Module AuthWitness.
Export AdmissionWitness.

Definition user (groups : list string) (extra : list (string * list string)) : Principal :=
  {| Username := "alice"; P_UID := "7"; Groups := groups; Extra := extra; Token := "t" |}.

Lemma subject_key_order_free_witness :
  SubjectKey (user ["dev"; "ops"] [("a", ["1"; "2"]); ("b", [])]) =
  SubjectKey (user ["ops"; "dev"] [("b", []); ("a", ["2"; "1"])]).
Proof.
  apply subject_key_order_free; [reflexivity|reflexivity|apply Permutation_swap|apply Permutation_swap|].
  intros k. cbn. destruct (decide (k = "a")) as [->|Ha]; [cbn; apply Permutation_swap|].
  destruct (decide (k = "b")) as [->|Hb]; [reflexivity|]. by rewrite !bool_decide_false.
Defined.

Lemma identity_key_identifies_witness :
  let p := user ["dev"] [] in let q := user ["ops"] [] in
  (Username p = Username q /\ P_UID p = P_UID q) \/
  (Join (identity_parts p) nul <> Join (identity_parts q) nul /\
   Sum256 (Join (identity_parts p) nul) = Sum256 (Join (identity_parts q) nul)).
Proof. intros p q. apply (identity_key_identifies p q); vm_compute; reflexivity. Defined.

(** A source of five bytes, as many at a time as asked for. *)
Definition five (s : list N) (n : nat) : list N * option go_error * list N :=
  (take n s, if bool_decide (drop n s = []) then Some (OtherError "EOF") else None, drop n s).

Lemma response_body_is_limited_witness :
  let '(b, rs) := read_all (logged five) {| rl_source := ([], [1; 2; 3; 4; 5]%N); remaining := 3; exceeded := false |} [2; 2; 2] in
  (Z.of_nat (length (concat rs.*1)) <= 3)%Z /\
  exists withheld, (rl_source b).1 = concat rs.*1 ++ withheld /\
    (withheld <> [] -> exists r, r ∈ rs /\ r.2 = Some ResponseTooLarge).
Proof.
  apply (response_body_is_limited five 3 [1; 2; 3; 4; 5]%N [2; 2; 2]); [|lia].
  intros s n. unfold five. cbn. rewrite length_take. lia.
Defined.

Definition in_cluster : rest_config :=
  {| BearerToken := "server"; BearerTokenFile := "/var/run/token"; rc_Username := ""; rc_Password := "";
     Impersonate := None; UserAgent := ""; rc_Timeout := 0; ResponseLimit := None |}.

Lemma delegated_client_is_the_callers_witness :
  let c := delegated_config in_cluster (30 * second) "t" in
  BearerToken c = "t" /\ BearerTokenFile c = "" /\ rc_Username c = "" /\ rc_Password c = "" /\
  Impersonate c = None /\ (0 < rc_Timeout c <= 30 * second)%Z.
Proof. apply (delegated_client_is_the_callers in_cluster (30 * second) "t"). reflexivity. Defined.

Definition demo_auth : Authenticator := {| base := in_cluster; requestTimeout := 30 * second; operationTimeout := 60 * second |}.
Definition reviewed : token_review :=
  {| tr_Error := ""; tr_Authenticated := true;
     tr_User := {| ui_Username := "alice"; ui_UID := "7"; ui_Groups := ["dev"]; ui_Extra := [] |} |}.
Definition demo_answers : answers :=
  {| an_global := true; an_slot := true; an_review := fun _ => Ok reviewed; an_clients := fun _ => Ok (); an_now := 100 |}.
Definition demo_request : http_request := {| Origin := ""; Authorization := "Bearer t " |}.
Definition demo_outcome :=
  authenticationMiddleware demo_auth demo_request demo_answers (newIdentityRateLimiter 120 20) (Some (newRequestAdmission 4)).

Lemma served_request_was_reviewed_witness :
  Origin demo_request = "" /\ an_global demo_answers = true /\ an_slot demo_answers = true /\
  [("authentication", "allow", "authenticated")] = [("authentication", "allow", "authenticated")] /\
  (exists rest, Authorization demo_request = "Bearer " +:+ rest /\ rest <> "" /\ Token (user ["dev"] []) = TrimSpace rest) /\
  (exists r, an_review demo_answers (Token (user ["dev"] [])) = Ok r /\ tr_Error r = "" /\ tr_Authenticated r = true /\
     user ["dev"] [] = {| Username := ui_Username (tr_User r); P_UID := ui_UID (tr_User r); Groups := ui_Groups (tr_User r);
            Extra := ui_Extra (tr_User r); Token := Token (user ["dev"] []) |}) /\
  (Allow_ (newIdentityRateLimiter 120 20) (IdentityKey (user ["dev"] [])) (an_now demo_answers)).2.1 = true /\
  (forall adm, Some (newRequestAdmission 4) = Some adm -> exists adm', demo_outcome.1.1.2 = Some adm' /\
     acquireIdentity adm (IdentityKey (user ["dev"] [])) = (adm', true)).
Proof.
  apply (served_request_was_reviewed demo_auth demo_request demo_answers (newIdentityRateLimiter 120 20)
           (Some (newRequestAdmission 4)) demo_outcome.1.1.1 demo_outcome.1.1.2 (user ["dev"] [])
           [("authentication", "allow", "authenticated")]).
  vm_compute. reflexivity.
Defined.
End AuthWitness.
