(* ===== verification/Upstream.v ===== *)
(** * Upstream transports (src/internal/server/upstream.go, with the limiting transport of auth.go)

    Every client of the server sends its requests through a stack of
    transports: one that measures them by stage, one that limits the response,
    and, for discovery, one that ties the request to the tool call.  The first
    part follows one request through such a stack; the second is the tie
    itself, with the callback on the context of the call and the races between
    the end of the call and the request. *)

From Stdlib Require Import String Ascii.
From S2P Require Import Prelude GoStrings Crypto Json Errors Kube Auth.

(** ** Stages *)

Definition stage_of (path : string) : string :=
  if HasSuffix path "/tokenreviews" then "authentication"
  else if HasSuffix path "/selfsubjectaccessreviews" then "authorization"
  else if HasPrefix path "/openapi/" then "openapi"
  else if bool_decide (path = "/api") || bool_decide (path = "/apis")
          || (HasPrefix path "/api/" && Nat.eqb (CountByte path "/"%char) 2)
          || (HasPrefix path "/apis/" && Nat.leb (CountByte path "/"%char) 3)
  then "discovery" else "resource".

(** ** One request through the stack *)

(** What a request does to the network, the metrics and the call's context. *)
Inductive http_event :=
| Sent (path : string)
| Observed (stage : string)
| Counted (stage result : string)
| BodyClosed
| Tied
| Released.

Record response (B : Type) := { StatusCode : Z; ContentLength : Z; Body : B }.
Arguments StatusCode {B}. Arguments ContentLength {B}. Arguments Body {B}.
Definition with_body {B C} (r : response B) (body : C) : response C :=
  {| StatusCode := StatusCode r; ContentLength := ContentLength r; Body := body |}.

(** A round trip: the response or error, after the events it caused. *)
Definition trip (B : Type) : Type := result go_error (response B) * list http_event.

(** [runtimeMetrics]: a nil receiver counts nothing. *)
Definition observe (metrics : bool) (stage : string) : list http_event :=
  if metrics then [Observed stage] else [].

(** The metrics of a transport are those of its server, and not nil. *)
Definition upstreamTransport_RoundTrip {B} (path : string) (next : trip B) : trip B :=
  let stage := stage_of path in
  let result_ := match next.1 with Err _ => "error" | Ok r => if (400 <=? StatusCode r)%Z then "error" else "ok" end in
  (next.1, next.2 ++ observe true stage ++ [Counted stage result_]).

(** The limiting transport; [watch] is the query parameter of the request. *)
Definition responseLimitTransport_RoundTrip {G : GoLib} {B} (limit : Z) (watch : string) (next : trip B)
    : trip (B + responseLimitBody B) :=
  match next.1 with
  | Err err => (Err err, next.2)
  | Ok r =>
    match limit_response limit (ContentLength r) (isWatchRequest watch) (Body r) with
    | Ok body => (Ok (with_body r body), next.2)
    | Err err => (Err err, next.2 ++ [BodyClosed])
    end
  end.

(** A body whose [Close] releases the tie. *)
Record contextBody (B : Type) := { ReadCloser : B }.
Arguments ReadCloser {B}.
Definition contextBody_Close {B} (b : contextBody B) : list http_event := [BodyClosed; Released].

(** The tying transport: [ended] is the error of the call's context when the
    request starts. *)
Definition contextTransport_RoundTrip {B} (ended : option go_error) (next : trip B) : trip (contextBody B) :=
  match ended with
  | Some err => (Err err, [])
  | None =>
    match next.1 with
    | Err err => (Err err, [Tied] ++ next.2 ++ [Released])
    | Ok r => (Ok (with_body r {| ReadCloser := Body r |}), [Tied] ++ next.2)
    end
  end.

Section stacks.
Context {G : GoLib} {B : Type}.

(** The network: it is asked when the innermost transport is. *)
Definition network (path : string) (answer : result go_error (response B)) : trip B := (answer, [Sent path]).

(** [NewApp] wraps the base configuration, so every client of the server has
    this innermost; [Authenticate] limits the clients for objects and for
    discovery; [discoveryForContext] adds the tie outside. *)
Definition review_trip path answer : trip B := upstreamTransport_RoundTrip path (network path answer).
Definition dynamic_trip path watch answer : trip (B + responseLimitBody B) :=
  responseLimitTransport_RoundTrip maxDelegatedResourceResponseBytes watch (review_trip path answer).
Definition discoveryForContext_trip (ended : option go_error) path watch answer : trip (contextBody (B + responseLimitBody B)) :=
  contextTransport_RoundTrip ended (dynamic_trip path watch answer).
End stacks.

(** ** The tie to the call *)

(** The registration [context.AfterFunc] makes on the context of the call: waiting
    for its end, running in its own goroutine, done, or stopped before. *)
Inductive hook := Armed | Running | Ran | Stopped.

(** A request between the check of the context and the end of its body. *)
Inductive phase := Checked | InFlight | Open | Finished.

Record flight := {
  fl_phase : phase;
  fl_hook : option hook;
  (** whether the context the request was sent with is done *)
  fl_cancelled : bool
}.

(** The context of the call, and its requests. *)
Record call_context := { cc_ended : option go_error; cc_flights : list flight }.

Definition with_flight (s : call_context) (i : nat) (f : flight) : call_context :=
  {| cc_ended := cc_ended s; cc_flights := <[i := f]> (cc_flights s) |}.

(** [if err := t.ctx.Err(); err != nil { return nil, err }] *)
Definition enter (s : call_context) : call_context * option go_error :=
  match cc_ended s with
  | Some err => (s, Some err)
  | None => ({| cc_ended := None; cc_flights := cc_flights s ++ [{| fl_phase := Checked; fl_hook := None; fl_cancelled := false |}] |}, None)
  end.

(** [context.WithCancel], [context.AfterFunc] and the start of the inner round
    trip: on a context that is done the function is started at once. *)
Definition send (s : call_context) (f : flight) : flight :=
  {| fl_phase := InFlight; fl_hook := Some (match cc_ended s with Some _ => Running | None => Armed end);
     fl_cancelled := fl_cancelled f |}.

(** [stop(); cancel()]: a function that runs already is not stopped. *)
Definition release (f : flight) : flight :=
  {| fl_phase := Finished; fl_hook := (fun h => match h with Armed => Stopped | _ => h end) <$> fl_hook f; fl_cancelled := true |}.

(** The inner round trip returns. *)
Definition returned (failed : bool) (f : flight) : flight :=
  if failed then release f else {| fl_phase := Open; fl_hook := fl_hook f; fl_cancelled := fl_cancelled f |}.

(** The call ends: its context is done once and for all, and the functions
    waiting for that are started. *)
Definition end_call (err : go_error) (s : call_context) : call_context :=
  match cc_ended s with
  | Some _ => s
  | None => {| cc_ended := Some err;
               cc_flights := (fun f => {| fl_phase := fl_phase f;
                                          fl_hook := (fun h => match h with Armed => Running | _ => h end) <$> fl_hook f;
                                          fl_cancelled := fl_cancelled f |}) <$> cc_flights s |}
  end.

(** The started function cancels the request. *)
Definition run_hook (f : flight) : flight :=
  match fl_hook f with
  | Some Running => {| fl_phase := fl_phase f; fl_hook := Some Ran; fl_cancelled := true |}
  | _ => f
  end.

(** The request's own context ends, by the time-out of the client for one. *)
Definition request_ended (f : flight) : flight :=
  {| fl_phase := fl_phase f; fl_hook := fl_hook f; fl_cancelled := true |}.

Inductive tie_step (s : call_context) : call_context -> Prop :=
| step_enter : tie_step s (enter s).1
| step_send i f : cc_flights s !! i = Some f -> fl_phase f = Checked -> tie_step s (with_flight s i (send s f))
| step_returned i f failed : cc_flights s !! i = Some f -> fl_phase f = InFlight -> tie_step s (with_flight s i (returned failed f))
| step_close i f : cc_flights s !! i = Some f -> fl_phase f = Open \/ fl_phase f = Finished -> tie_step s (with_flight s i (release f))
| step_end err : tie_step s (end_call err s)
| step_hook i f : cc_flights s !! i = Some f -> tie_step s (with_flight s i (run_hook f))
| step_request_ended i f : cc_flights s !! i = Some f -> tie_step s (with_flight s i (request_ended f)).

Definition new_call : call_context := {| cc_ended := None; cc_flights := [] |}.

(** ** Lemmas: stages *)

Lemma length_Split (s : string) sep : length (Split s sep) = S (CountByte s sep).
Proof.
  induction s as [|c s IH]; [done|]. cbn [Split CountByte]. destruct (decide (c = sep)) as [->|Hne].
  - rewrite !bool_decide_true by done. cbn. by rewrite IH.
  - rewrite !bool_decide_false by congruence. destruct (Split s sep); cbn in *; [done|lia].
Qed.

(** The segments of a path under a fixed first segment. *)
Lemma HasPrefix_segment (path p : string) sep : has_char sep p = false ->
  HasPrefix path (String sep (p +:+ String sep "")) = true <-> exists rest, rest <> [] /\ Split path sep = "" :: p :: rest.
Proof.
  intros Hp. rewrite HasPrefix_spec. split.
  - intros (t & ->). exists (Split t sep). split; [apply Split_nonempty|].
    rewrite append_cons, append_assoc, append_cons. cbn [Split]. rewrite bool_decide_true by done. f_equal.
    change ("" +:+ t) with t. by rewrite Split_app_sep.
  - intros (rest & Hr & Hs). exists (Join rest (String sep "")). rewrite <- (Join_Split path sep), Hs.
    destruct rest as [|x rest]; [done|].
    change (Join ("" :: p :: x :: rest) (String sep "")) with (String sep (p +:+ String sep (Join (x :: rest) (String sep "")))).
    by rewrite append_cons, append_assoc, append_cons.
Qed.

Definition discovery_path (segments : list string) : Prop :=
  segments = [""; "api"] \/ segments = [""; "apis"] \/ (exists version, segments = [""; "api"; version]) \/
  (exists group, segments = [""; "apis"; group]) \/ (exists group version, segments = [""; "apis"; group; version]).

Lemma Split_eq (path : string) sep parts : Split path sep = parts -> path = Join parts (String sep "").
Proof. intros <-. by rewrite Join_Split. Qed.

(** A request is counted as discovery exactly when its path is one of the
    discovery documents of Kubernetes (the review suffixes come first). *)
Theorem stage_is_discovery_iff path :
  stage_of path = "discovery" <->
  HasSuffix path "/tokenreviews" = false /\ HasSuffix path "/selfsubjectaccessreviews" = false /\
  discovery_path (Split path "/"%char).
Proof.
  unfold stage_of. destruct (HasSuffix path "/tokenreviews"); [by split; [|intros [? _]]|].
  destruct (HasSuffix path "/selfsubjectaccessreviews"); [by split; [|intros (_ & ? & _)]|].
  pose proof (HasPrefix_segment path "api" "/"%char eq_refl) as Ha.
  pose proof (HasPrefix_segment path "apis" "/"%char eq_refl) as Hs.
  pose proof (HasPrefix_segment path "openapi" "/"%char eq_refl) as Ho.
  change (String "/" ("api" +:+ "/")) with "/api/" in Ha. change (String "/" ("apis" +:+ "/")) with "/apis/" in Hs.
  change (String "/" ("openapi" +:+ "/")) with "/openapi/" in Ho.
  pose proof (length_Split path "/"%char) as Hl.
  destruct (HasPrefix path "/openapi/").
  { destruct Ho as [Ho _]. destruct (Ho eq_refl) as (rest & Hr & E). split; [done|]. intros (_ & _ & Hd). rewrite E in Hd.
    by destruct Hd as [?|[?|[[? ?]|[[? ?]|(? & ? & ?)]]]]. }
  clear Ho. split.
  - intros Hd. split_and!; [done..|].
    destruct (_ || _) eqn:E in Hd; [|done]. rewrite !orb_true_iff, !andb_true_iff, !bool_decide_eq_true, Nat.eqb_eq, Nat.leb_le in E.
    destruct E as [[[->| ->]|[H1 H2]]|[H1 H2]]; [by left|by right; left| |].
    + apply Ha in H1 as (rest & Hr & E). rewrite E, H2 in Hl. destruct rest as [|v [|]]; [done| |done].
      right; right; left. exists v. exact E.
    + apply Hs in H1 as (rest & Hr & E). rewrite E in Hl. destruct rest as [|g [|v [|]]]; cbn in Hl; [done| | |lia].
      * right; right; right; left. exists g. exact E.
      * do 4 right. exists g, v. exact E.
  - intros (_ & _ & Hd). assert (forall b : bool, b = true -> (if b then "discovery" else "resource") = "discovery") as Hif by by intros ? ->.
    apply Hif. rewrite !orb_true_iff, !andb_true_iff, !bool_decide_eq_true, Nat.eqb_eq, Nat.leb_le.
    destruct Hd as [E|[E|[[v E]|[[g E]|(g & v & E)]]]]; rewrite E in Hl; cbn in Hl.
    + left; left; left. by rewrite (Split_eq _ _ _ E).
    + left; left; right. by rewrite (Split_eq _ _ _ E).
    + left; right. split; [|lia]. apply Ha. by eexists [_].
    + right. split; [|lia]. apply Hs. by eexists [_].
    + right. split; [|lia]. apply Hs. by eexists [_; _].
Qed.

(** ** Lemmas: the tie *)

(** What holds of every request of a call: the registration is there while the
    request is unfinished, it waits only while the call goes on, and a function
    that has run, or a request that is finished, leaves the request cancelled. *)
Record flight_ok (ended : option go_error) (f : flight) : Prop := {
  fo_checked : fl_phase f = Checked -> fl_hook f = None;
  fo_busy : fl_phase f = InFlight \/ fl_phase f = Open ->
    fl_hook f = Some Armed \/ fl_hook f = Some Running \/ fl_hook f = Some Ran;
  fo_finished : fl_phase f = Finished -> fl_cancelled f = true /\ fl_hook f <> Some Armed /\ is_Some (fl_hook f);
  fo_armed : fl_hook f = Some Armed -> ended = None;
  fo_started : fl_hook f = Some Running \/ fl_hook f = Some Ran -> ended <> None;
  fo_ran : fl_hook f = Some Ran -> fl_cancelled f = true
}.

Definition tie_inv (s : call_context) : Prop := Forall (flight_ok (cc_ended s)) (cc_flights s).

Lemma tie_inv_flight s i f : tie_inv s -> flight_ok (cc_ended s) f -> tie_inv (with_flight s i f).
Proof. intros Hs Hf. by apply Forall_insert. Qed.

Lemma release_ok ended f : flight_ok ended f -> is_Some (fl_hook f) -> flight_ok ended (release f).
Proof. intros [] [h Hh]. unfold release. rewrite Hh in *. by destruct h; constructor; cbn; try naive_solver. Qed.

Lemma tie_step_inv s s' : tie_step s s' -> tie_inv s -> tie_inv s'.
Proof.
  assert (forall i f, tie_inv s -> cc_flights s !! i = Some f -> flight_ok (cc_ended s) f) as Hget.
  { intros i f Hs Hi. by eapply Forall_lookup_1. }
  intros [|i f Hi Hp|i f failed Hi Hp|i f Hi Hp|err|i f Hi|i f Hi] Hs; try apply tie_inv_flight; try done.
  - unfold enter, tie_inv in *. destruct (cc_ended s) eqn:E; cbn [fst]; [by rewrite E|]. apply Forall_app. split; [done|].
    constructor; [|done]. by constructor; cbn; try naive_solver.
  - by constructor; cbn; destruct (cc_ended s); naive_solver.
  - destruct (Hget i f Hs Hi) as [H1 H2 H3 H4 H5 H6]. destruct failed; cbn [returned].
    + apply release_ok; [by eapply Hget|]. destruct (H2 (or_introl Hp)) as [->|[->| ->]]; eauto.
    + constructor; cbn; try naive_solver.
  - destruct (Hget i f Hs Hi) as [H1 H2 H3 H4 H5 H6]. apply release_ok; [by eapply Hget|]. destruct Hp as [Hp|Hp].
    + destruct (H2 (or_intror Hp)) as [->|[->| ->]]; eauto.
    + by apply H3.
  - unfold end_call. unfold tie_inv in *. destruct (cc_ended s) eqn:E; [by rewrite E|].
    cbn. apply Forall_fmap. eapply Forall_impl; [exact Hs|].
    intros f [H1 H2 H3 H4 H5 H6]. constructor; cbn; destruct (fl_hook f) as [[]|]; naive_solver.
  - destruct (Hget i f Hs Hi) as [H1 H2 H3 H4 H5 H6]. unfold run_hook. destruct (fl_hook f) as [[]|] eqn:Eh; try by constructor; rewrite ?Eh.
    constructor; cbn; naive_solver.
  - destruct (Hget i f Hs Hi) as [H1 H2 H3 H4 H5 H6]. constructor; cbn; naive_solver.
Qed.

Lemma tie_reachable_inv s : rtc tie_step new_call s -> tie_inv s.
Proof.
  assert (tie_inv new_call) as H0 by constructor. intros H. induction H as [|s1 s2 s3 H12 _ IH]; [done|].
  apply IH. by eapply tie_step_inv.
Qed.

Definition busy (f : flight) : bool := match fl_phase f with InFlight | Open => true | _ => false end.
Definition waiting (f : flight) : bool := match fl_hook f with Some Armed => true | _ => false end.

(** ** Properties *)

(** C24: The tie holds in both directions, whatever the order in which requests, their
    own time-outs and the end of the call happen: while the call goes on, its
    context keeps exactly one callback for each unfinished request and none
    for finished ones; once the call has ended, no request is sent any more, no
    callback is left waiting, and every unfinished request is cancelled or the
    function that cancels it is running; a finished request is released. *)
Theorem call_end_cancels_requests s :
  rtc tie_step new_call s ->
  (cc_ended s = None -> Forall (fun f => waiting f = busy f) (cc_flights s)) /\
  Forall (fun f => fl_phase f = Finished -> fl_cancelled f = true /\ waiting f = false) (cc_flights s) /\
  forall err, cc_ended s = Some err ->
    enter s = (s, Some err) /\
    Forall (fun f => waiting f = false /\
      (busy f = true -> fl_cancelled f = true \/ fl_hook f = Some Running /\ fl_cancelled (run_hook f) = true)) (cc_flights s).
Proof.
  intros Hs%tie_reachable_inv. unfold tie_inv in Hs. split_and!.
  - intros He. rewrite He in Hs. eapply Forall_impl; [exact Hs|]. intros f [H1 H2 H3 H4 H5 H6]. unfold waiting, busy.
    destruct (fl_phase f), (fl_hook f) as [[]|]; naive_solver.
  - eapply Forall_impl; [exact Hs|]. intros f [H1 H2 H3 H4 H5 H6] Hp. destruct (H3 Hp) as (? & ? & _). split; [done|].
    unfold waiting. by destruct (fl_hook f) as [[]|].
  - intros err He. split; [unfold enter; by rewrite He|]. rewrite He in Hs. eapply Forall_impl; [exact Hs|].
    intros f [H1 H2 H3 H4 H5 H6]. unfold waiting, busy, run_hook.
    destruct (fl_phase f), (fl_hook f) as [[]|]; naive_solver.
Qed.

(** A request for discovery, through its whole stack: after the end of the call
    nothing is sent; otherwise the request is sent once and counted once, under the
    stage of its path, as failed exactly when there was no answer or its status
    is 400 or more; an answer is limited unless it is a watch; and the tie to the
    call is released at once on every error and by [Close] otherwise. *)
Theorem discovery_request_is_tied {G : GoLib} {B} ended path watch (answer : result go_error (response B)) :
  let '(r, es) := discoveryForContext_trip ended path watch answer in
  match ended with
  | Some err => r = Err err /\ es = []
  | None =>
    exists post, es = [Tied; Sent path; Observed (stage_of path);
      Counted (stage_of path) (match answer with Ok a => if (StatusCode a <? 400)%Z then "ok" else "error" | Err _ => "error" end)] ++ post /\
    match r with
    | Ok out => post = [] /\ exists a, answer = Ok a /\ StatusCode out = StatusCode a /\ contextBody_Close (Body out) = [BodyClosed; Released] /\
        match ReadCloser (Body out) with
        | inl body => isWatchRequest watch = true /\ body = Body a
        | inr body => body = {| rl_source := Body a; remaining := maxDelegatedResourceResponseBytes; exceeded := false |} /\
            (ContentLength a <= maxDelegatedResourceResponseBytes)%Z
        end
    | Err err => (answer = Err err /\ post = [Released]) \/
        (err = ResponseTooLarge /\ isWatchRequest watch = false /\ post = [BodyClosed; Released])
    end
  end.
Proof.
  unfold discoveryForContext_trip, contextTransport_RoundTrip, dynamic_trip, responseLimitTransport_RoundTrip, review_trip,
    upstreamTransport_RoundTrip, network, limit_response, observe. cbn [fst snd app].
  destruct ended as [err|]; [done|]. destruct answer as [a|err]; cbn [fst snd app]; [|eexists; split; [reflexivity|by left]].
  rewrite Z.leb_antisym. destruct (isWatchRequest watch) eqn:Hw; cbn [fst snd app negb].
  - exists []. split; [by destruct (_ <? _)%Z|]. split; [done|]. exists a. by split_and!.
  - destruct (Z.ltb_spec maxDelegatedResourceResponseBytes (ContentLength a)); cbn [fst snd app].
    + exists [BodyClosed; Released]. split; [by destruct (_ <? _)%Z|]. right. by split_and!.
    + exists []. split; [by destruct (_ <? _)%Z|]. split; [done|]. exists a. by split_and!.
Qed.

(** ** Witnesses *)

Module UpstreamWitness.
Definition checked : flight := {| fl_phase := Checked; fl_hook := None; fl_cancelled := false |}.
Definition entered : call_context := (enter new_call).1.
Definition sent : call_context := with_flight entered 0 (send entered checked).
Definition ended_call : call_context := end_call Canceled sent.

Example ended_call_flights :
  cc_flights ended_call = [{| fl_phase := InFlight; fl_hook := Some Running; fl_cancelled := false |}].
Proof. reflexivity. Qed.

Lemma call_end_cancels_requests_witness :
  cc_ended ended_call = Some Canceled /\
  Forall (fun f => waiting f = false /\
    (busy f = true -> fl_cancelled f = true \/ fl_hook f = Some Running /\ fl_cancelled (run_hook f) = true)) (cc_flights ended_call).
Proof.
  split; [reflexivity|].
  refine (proj2 (proj2 (proj2 (call_end_cancels_requests ended_call _)) Canceled eq_refl)).
  apply (rtc_l _ _ entered); [apply step_enter|].
  apply (rtc_l _ _ sent); [by apply (step_send entered 0 checked)|].
  apply rtc_once. apply step_end.
Defined.
End UpstreamWitness.
