(* ===== verification/Remote.v ===== *)
(** * Remote commands (src/internal/server/remote.go)

    An [exec] or [attach] opens one stream to a container; its two outputs are
    collected in buffers that keep a bounded prefix. *)

From Stdlib Require Import String.
From S2P Require Import Prelude GoStrings Crypto Json Errors Config Kube Policy PlanStore.

(** ** [progressBuffer] *)

(** The notifications sent so far are kept, newest last. *)
Record progressBuffer := {
  pb_buffer : string;
  pb_limit : Z;
  pb_truncated : bool;
  pb_notified : list string
}.

Definition newProgressBuffer (limit : Z) : progressBuffer :=
  {| pb_buffer := ""; pb_limit := limit; pb_truncated := false; pb_notified := [] |}.

(** [data[:n]]. *)
Definition first_bytes (n : Z) (data : string) : string := substring 0 (Z.to_nat n) data.

Definition blen (s : string) : Z := Z.of_nat (String.length s).

Definition progressBuffer_Write (b : progressBuffer) (data : string) : progressBuffer * Z :=
  let original := blen data in
  let remaining := (pb_limit b - blen (pb_buffer b))%Z in
  if (remaining <=? 0)%Z then
    ({| pb_buffer := pb_buffer b; pb_limit := pb_limit b; pb_truncated := true; pb_notified := pb_notified b |}, original)
  else
  let '(data, truncated) :=
    if (remaining <? blen data)%Z then (first_bytes remaining data, true) else (data, pb_truncated b) in
  ({| pb_buffer := pb_buffer b +:+ data; pb_limit := pb_limit b; pb_truncated := truncated;
      pb_notified := if (0 <? blen data)%Z then pb_notified b ++ [data] else pb_notified b |}, original).

Definition write_all (b : progressBuffer) (chunks : list string) : progressBuffer :=
  foldl (fun b chunk => (progressBuffer_Write b chunk).1) b chunks.

(** ** Containers and time *)

Definition resolveContainer (p : pod) (requested : string) : result go_error string :=
  if bool_decide (requested ∈ pod_Containers p) then Ok requested
  else if bool_decide (requested <> "") then
    Err (policyError "invalid_input" "container does not exist")
  else
  let name := default "" (obj_get (pod_Annotations p) "kubectl.kubernetes.io/default-container") in
  if bool_decide (name <> "") && bool_decide (name ∈ pod_Containers p) then Ok name
  else match pod_Containers p with
       | first :: _ => Ok first
       | [] => Err (policyError "invalid_input" "Pod has no containers")
       end.

Section remote.
Context {Q : QuantityLib}.

(** [time.Duration(seconds) * time.Second] wraps. *)
Definition remoteTimeout (config : Config) (seconds : Z) : Z :=
  let maximum := ExecTimeout (Limits (cfg_Spec config)) in
  if (seconds <=? 0)%Z then maximum
  else
  let wanted := wrap64 (seconds * second) in
  if (maximum <? wanted)%Z then maximum else wanted.

Definition remote_request (operation : Operation) : stream_request := {|
  sr_verb := if bool_decide (a_Action (op_Action operation) = "attach") then "attach" else "exec";
  sr_namespace := op_Namespace operation; sr_pod := op_Name operation; sr_container := op_Container operation;
  sr_command := if bool_decide (a_Action (op_Action operation) = "attach") then [] else op_Command operation;
  sr_stdin := op_Stdin operation
|}.

(** What is made of the two outputs. *)
Definition remote_result (config : Config) (verb : string) (outcome : stream_outcome)
    : object * option go_error :=
  let half := Z.quot (MaxOutputBytes (Limits (cfg_Spec config))) 2 in
  let stdout := write_all (newProgressBuffer half) (so_stdout outcome) in
  let stderr := write_all (newProgressBuffer half) (so_stderr outcome) in
  let result := [("stdout", VStr (pb_buffer stdout)); ("stderr", VStr (pb_buffer stderr));
                 ("truncated", VBool (pb_truncated stdout || pb_truncated stderr))] in
  match so_error outcome with
  | None => (result, None)
  | Some (err, status) =>
    (result ++ [("error", VStr (error_string err))]
            ++ match status with Some n => [("exitCode", VInt n)] | None => [] end,
     Some (Wrapped ("remote " +:+ (verb +:+ " failed")) err))
  end.

(** [executeRemote]: a result together with an error when the stream failed. *)
Definition executeRemote (config : Config) (principal : Principal) (operation : Operation)
    : K (option object * option go_error) :=
  let r := remote_request operation in
  (let! outcome := request principal (Stream r) in
   match outcome with
   | Err err => kret (None, Some (Wrapped "create remote executor" err))
   | Ok out => let '(result, err) := remote_result config (sr_verb r) out in kret (Some result, err)
   end)%kube.
End remote.

(** ** Lemmas *)

Lemma blen_append s t : blen (s +:+ t) = (blen s + blen t)%Z.
Proof. unfold blen. rewrite length_append. lia. Qed.

Lemma first_bytes_append n s t :
  (0 <= n)%Z -> first_bytes (blen s + n) (s +:+ t) = s +:+ first_bytes n t.
Proof.
  intros Hn. unfold first_bytes, blen. rewrite Z2Nat.inj_add, Nat2Z.id by lia.
  induction s as [|c s IH]; cbn [String.length Nat.add]; [done|].
  rewrite !append_cons. cbn [substring]. by rewrite IH.
Qed.

Lemma first_bytes_all n s : (blen s <= n)%Z -> first_bytes n s = s.
Proof.
  unfold first_bytes, blen. intros Hn. assert (String.length s <= Z.to_nat n) as H by lia. revert H.
  generalize (Z.to_nat n) as k. clear. induction s as [|c s IH]; intros [|k] H; cbn in *; try done; try lia.
  by rewrite IH by lia.
Qed.

Lemma blen_first_bytes n s : (0 <= n)%Z -> blen (first_bytes n s) = Z.min n (blen s).
Proof.
  unfold first_bytes, blen. intros Hn. transitivity (Z.of_nat (Nat.min (Z.to_nat n) (String.length s))); [|lia].
  f_equal. generalize (Z.to_nat n) as k. clear. induction s as [|c s IH]; intros [|k]; cbn; try done. by rewrite IH.
Qed.

(** The buffer holds the first bytes of what was written, and its flag says
    whether some were dropped. *)
Definition buffer_holds (b : progressBuffer) (written : string) : Prop :=
  pb_buffer b = first_bytes (pb_limit b) written /\
  pb_truncated b = (pb_limit b <? blen written)%Z /\
  concat_strings (pb_notified b) = pb_buffer b.

Lemma concat_strings_snoc l s : concat_strings (l ++ [s]) = concat_strings l +:+ s.
Proof.
  induction l as [|t l IH]; cbn [concat_strings app foldr].
  - by rewrite append_nil_r.
  - fold (concat_strings (l ++ [s])) (concat_strings l). rewrite IH. by rewrite append_assoc.
Qed.

Lemma write_holds b written data :
  (0 <= pb_limit b)%Z -> data <> "" -> buffer_holds b written ->
  buffer_holds (progressBuffer_Write b data).1 (written +:+ data) /\
  pb_limit (progressBuffer_Write b data).1 = pb_limit b.
Proof.
  intros Hl Hd (Hb & Ht & Hn).
  assert (0 < blen data)%Z as Hpos by (unfold blen; destruct data; cbn; [done|lia]).
  assert (blen (pb_buffer b) = Z.min (pb_limit b) (blen written)) as Hlen by (rewrite Hb; by apply blen_first_bytes).
  assert (0 <= blen written)%Z by (unfold blen; lia).
  unfold progressBuffer_Write. destruct (Z.leb_spec (pb_limit b - blen (pb_buffer b)) 0) as [Hfull|Hroom].
  - cbn [fst pb_limit pb_buffer pb_truncated pb_notified]. split; [|done]. unfold buffer_holds; cbn.
    split_and!; [|rewrite blen_append; lia|done].
    rewrite Hb. assert (pb_limit b <= blen written)%Z as Hle by lia. clear -Hl Hle.
    unfold first_bytes, blen in *. assert (Z.to_nat (pb_limit b) <= String.length written) as H by lia. revert H.
    generalize (Z.to_nat (pb_limit b)) as k. clear. induction written as [|c s IH]; intros [|k] H; cbn in H; try lia; try done.
    + by destruct data.
    + rewrite append_cons. cbn. f_equal. apply IH. lia.
  - assert (pb_buffer b = written) as Hw by (rewrite Hb; apply first_bytes_all; lia).
    assert (pb_truncated b = false) as Hf by (rewrite Ht; lia).
    destruct (Z.ltb_spec (pb_limit b - blen (pb_buffer b)) (blen data)) as [Hcut|Hfit].
    + cbn [fst pb_limit pb_buffer pb_truncated pb_notified]. split; [|done]. unfold buffer_holds; cbn.
      split_and!.
      * rewrite Hw. rewrite <- first_bytes_append by lia. f_equal. lia.
      * rewrite blen_append. lia.
      * rewrite blen_first_bytes by lia. destruct (Z.ltb_spec 0 (Z.min (pb_limit b - blen (pb_buffer b)) (blen data))); [|lia].
        by rewrite concat_strings_snoc, Hn.
    + cbn [fst pb_limit pb_buffer pb_truncated pb_notified]. split; [|done]. unfold buffer_holds; cbn.
      split_and!.
      * rewrite first_bytes_all; [by rewrite Hw|]. rewrite blen_append. lia.
      * rewrite Hf, blen_append. lia.
      * destruct (Z.ltb_spec 0 (blen data)); [|lia]. by rewrite concat_strings_snoc, Hn.
Qed.

Lemma write_all_holds b written chunks :
  (0 <= pb_limit b)%Z -> Forall (fun c => c <> "") chunks -> buffer_holds b written ->
  buffer_holds (write_all b chunks) (written +:+ concat_strings chunks) /\ pb_limit (write_all b chunks) = pb_limit b.
Proof.
  intros Hl Hf. revert b written Hl. induction Hf as [|c chunks Hc _ IH]; intros b written Hl Hb.
  - cbn [concat_strings foldr write_all foldl]. by rewrite append_nil_r.
  - cbn [write_all foldl]. destruct (write_holds b written c Hl Hc Hb) as [Hb' Hl'].
    destruct (IH (progressBuffer_Write b c).1 (written +:+ c)) as [? ?]; [lia|done|].
    cbn [concat_strings foldr]. fold (concat_strings chunks). rewrite <- append_assoc. split; [done|].
    unfold write_all in *. congruence.
Qed.

Lemma resolveContainer_ok p requested name :
  resolveContainer p requested = Ok name -> name ∈ pod_Containers p /\ (requested <> "" -> name = requested).
Proof.
  unfold resolveContainer. case_bool_decide as H1; [by intros [= <-]|].
  case_bool_decide as H2; [done|]. cbn zeta.
  set (d := default "" _). destruct (bool_decide (d <> "") && bool_decide (d ∈ pod_Containers p)) eqn:E.
  - intros [= <-]. reflect_bools. by split.
  - destruct (pod_Containers p) as [|c cs]; [done|]. intros [= <-]. split; [left|done].
Qed.

Lemma resolveContainer_in p requested name : resolveContainer p requested = Ok name -> name ∈ pod_Containers p.
Proof. intros []%resolveContainer_ok. done. Qed.

(** ** Properties *)

(** The output buffer of a remote command keeps exactly the first [limit]
    bytes written to it in any number of pieces, reports truncation exactly
    when there were more, and the progress messages are the kept bytes. *)
Theorem output_buffer_keeps_prefix limit chunks :
  (0 <= limit)%Z -> Forall (fun c => c <> "") chunks ->
  let b := write_all (newProgressBuffer limit) chunks in
  let written := concat_strings chunks in
  pb_buffer b = first_bytes limit written /\ pb_truncated b = (limit <? blen written)%Z /\
  concat_strings (pb_notified b) = pb_buffer b /\ (blen (pb_buffer b) <= limit)%Z.
Proof.
  intros Hl Hf b written.
  destruct (write_all_holds (newProgressBuffer limit) "" chunks Hl Hf) as [(Hb & Ht & Hn) Hlim].
  { unfold buffer_holds; cbn. split_and!; [by destruct (Z.to_nat limit)|symmetry; apply Z.ltb_ge; unfold blen; cbn; lia|done]. }
  fold b in Hb, Ht, Hn, Hlim. rewrite Hlim in *. cbn [newProgressBuffer pb_limit] in *.
  change ("" +:+ concat_strings chunks) with written in *. split_and!; try done.
  rewrite Hb, blen_first_bytes by done. lia.
Qed.

(** The container of a remote command or a log read is one of the Pod, the
    requested one if one was requested. *)
Theorem resolved_container_exists p requested name :
  resolveContainer p requested = Ok name -> name ∈ pod_Containers p /\ (requested <> "" -> name = requested).
Proof. apply resolveContainer_ok. Qed.

Section properties.
Context {Q : QuantityLib}.

(** A remote command is never given more time than the configured maximum, and is
    given the requested seconds when they are positive and below it. *)
Theorem remote_timeout_bounded config seconds :
  (remoteTimeout config seconds <= ExecTimeout (Limits (cfg_Spec config)))%Z /\
  ((0 < seconds)%Z -> (seconds * second <= ExecTimeout (Limits (cfg_Spec config)) <= int64_max)%Z ->
   remoteTimeout config seconds = (seconds * second)%Z).
Proof.
  unfold remoteTimeout. split.
  - destruct (seconds <=? 0)%Z; [lia|]. destruct (Z.ltb_spec (ExecTimeout (Limits (cfg_Spec config))) (wrap64 (seconds * second))); lia.
  - intros Hs Hm. rewrite (proj2 (Z.leb_gt _ _)) by lia. unfold second in *.
    rewrite wrap64_id by (unfold int64_ok, int64_min in *; lia).
    by rewrite (proj2 (Z.ltb_ge _ _)) by lia.
Qed.

(** The product of seconds and nanoseconds is not guarded: a large enough
    request wraps to a negative budget, which is neither the requested time nor the maximum. *)
Theorem remote_timeout_wraps config :
  (0 < ExecTimeout (Limits (cfg_Spec config)))%Z -> (remoteTimeout config 9223372037 < 0)%Z.
Proof.
  intros H. unfold remoteTimeout. cbn [Z.leb].
  assert (wrap64 (9223372037 * second) = -9223372036709551616)%Z as -> by reflexivity.
  change (9223372037 <=? 0)%Z with false. cbn [Z.compare]. cbv zeta.
  rewrite (proj2 (Z.ltb_ge _ _)) by lia. lia.
Qed.
End properties.

(** ** Witnesses *)

Module RemoteWitness.
Export ConfigWitness.
#[local] Existing Instance plain_Quantity.

Lemma output_buffer_keeps_prefix_witness :
  let b := write_all (newProgressBuffer 4) ["ab"; "cde"; "f"] in
  let written := concat_strings ["ab"; "cde"; "f"] in
  pb_buffer b = first_bytes 4 written /\ pb_truncated b = (4 <? blen written)%Z /\
  concat_strings (pb_notified b) = pb_buffer b /\ (blen (pb_buffer b) <= 4)%Z.
Proof. apply output_buffer_keeps_prefix; [lia|by repeat constructor]. Defined.

Definition demo_pod : pod := {|
  pod_UID := "u1"; pod_ResourceVersion := "7"; pod_Labels := [];
  pod_Annotations := [("kubectl.kubernetes.io/default-container", "app")]; pod_Containers := ["proxy"; "app"] |}.

Lemma resolved_container_exists_witness : "app" ∈ pod_Containers demo_pod /\ ("" <> "" -> "app" = "").
Proof. apply resolved_container_exists. reflexivity. Defined.

Lemma remote_timeout_wraps_witness : (remoteTimeout (demo_config ModeDangerous) 9223372037 < 0)%Z.
Proof. apply remote_timeout_wraps. vm_compute. reflexivity. Defined.
End RemoteWitness.
