(* ===== verification/Operations.v ===== *)
(** * Plan and commit (src/internal/server/operations.go)

    [plan] checks, authorises and previews a write with server-side dry runs
    and stores it; [commit] takes the stored operation out, checks everything
    again and executes it.  Both are sequences of requests to the API server,
    in the monad of Kube.v; the plan store is accessed under its mutex, so
    [plan] and [commit] are given the store as it is at that moment. *)

From Stdlib Require Import String.
From S2P Require Import Prelude GoStrings Crypto Json Errors Config Kube Policy Capability PlanStore Admission Redaction SafeWrite Auth Remote.

(** ** Time stamps *)

(** The civil date of a day counted from 1 January of year 1. *)
Definition civil (days : Z) : Z * Z * Z :=
  let z := (days + 306)%Z in
  let era := (z / 146097)%Z in
  let doe := (z mod 146097)%Z in
  let yoe := ((doe - doe / 1460 + doe / 36524 - doe / 146096) / 365)%Z in
  let doy := (doe - (365 * yoe + yoe / 4 - yoe / 100))%Z in
  let mp := ((5 * doy + 2) / 153)%Z in
  let d := (doy - (153 * mp + 2) / 5 + 1)%Z in
  let m := (if mp <? 10 then mp + 3 else mp - 9)%Z in
  ((yoe + era * 400 + (if m <=? 2 then 1 else 0))%Z, m, d).

Definition digits (n : nat) (z : Z) : string :=
  let s := Itoa z in concat_strings (replicate (n - String.length s) "0") +:+ s.

(** [t.UTC().Format(time.RFC3339)]: times are nanoseconds after the zero time. *)
Definition rfc3339_seconds (t : Z) : string :=
  let secs := (t / second)%Z in
  let '(y, m, d) := civil (secs / 86400) in
  let s := (secs mod 86400)%Z in
  Join [digits 4 y; digits 2 m; digits 2 d] "-" +:+ ("T" +:+ Join [digits 2 (s / 3600); digits 2 (s / 60 mod 60); digits 2 (s mod 60)] ":").
Definition Format_RFC3339 (t : Z) : string := rfc3339_seconds t +:+ "Z".
(** [time.RFC3339Nano]: the fraction without trailing zeros. *)
Definition Format_RFC3339Nano (t : Z) : string :=
  let frac := (t mod second)%Z in
  rfc3339_seconds t +:+ ((if (frac =? 0)%Z then "" else "." +:+ TrimRight (digits 9 frac) "0") +:+ "Z").

(** ** Inputs and outputs *)

Record PlanInput := {
  pi_CapabilityID : string;
  pi_Namespace : string;
  pi_Name : string;
  pi_Object : option object;
  pi_Patch : value;
  pi_PatchType : string;
  pi_Replicas : option Z;
  pi_Command : list string;
  pi_Container : string;
  pi_Stdin : string;
  pi_TimeoutSeconds : Z;
  pi_GracePeriodSeconds : option Z;
  pi_Force : bool
}.

Record ConfirmationChallenge := { cc_Required : bool; cc_Code : string; cc_Instruction : string }.
Definition humanConfirmationInstruction : string :=
  "Show the operation preview and this code to the human. Do not call k8s.commit until the human repeats the code in a later user message.".

Record PlanOutput := {
  po_PlanID : string;
  po_ExpiresAt : string;
  po_Operation : object;
  po_Preview : value;
  po_Warnings : list string;
  po_Confirmation : ConfirmationChallenge
}.
Definition po_ConfirmationCode (o : PlanOutput) : string := cc_Code (po_Confirmation o).

Record CommitInput := { ci_PlanID : string; ci_ConfirmationCode : string }.
(** A nil [Result] is [VNull]; the empty output is [[]]. *)
Record CommitOutput := { co_Operation : object; co_Result : value }.

(** ** Pure helpers *)

Definition dynamicResource (action : Action) (namespace : string) : target :=
  {| t_gvr := a_GVR action; t_namespace := if a_Namespaced action then Some namespace else None |}.

Definition operationSummary (op : Operation) : object :=
  let action := op_Action op in
  [("action", VStr (a_Action action)); ("verb", VStr (a_Verb action));
   ("group", VStr (Group (a_GVR action))); ("version", VStr (Version (a_GVR action)));
   ("resource", VStr (ResourceName action)); ("namespace", VStr (op_Namespace op));
   ("name", VStr (op_Name op)); ("targetUID", VStr (op_TargetUID op)); ("resourceVersion", VStr (op_ResourceVersion op))].

Definition rejectOperatorManaged (labels : list (string * string)) : result go_error unit :=
  if bool_decide (default "" (obj_get labels "app.kubernetes.io/managed-by") = "supek8smcp-operator") then
    Err (policyError "managed_resource_denied" "operator-managed resources may not be mutated through Kubernetes MCP")
  else Ok ().

(** Field updates of the operation a preview points to. *)
Definition with_target (op : Operation) (uid rv : string) : Operation := {|
  op_Action := op_Action op; op_Namespace := op_Namespace op; op_Name := op_Name op; op_Object := op_Object op;
  op_Patch := op_Patch op; op_PatchType := op_PatchType op; op_Replicas := op_Replicas op; op_Command := op_Command op;
  op_Container := op_Container op; op_Stdin := op_Stdin op; op_TimeoutSeconds := op_TimeoutSeconds op;
  op_GracePeriod := op_GracePeriod op; op_Force := op_Force op; op_TargetUID := uid; op_ResourceVersion := rv;
  op_ExpectedAbsent := op_ExpectedAbsent op; op_Generation := op_Generation op |}.
Definition with_name (op : Operation) (name : string) : Operation := {|
  op_Action := op_Action op; op_Namespace := op_Namespace op; op_Name := name; op_Object := op_Object op;
  op_Patch := op_Patch op; op_PatchType := op_PatchType op; op_Replicas := op_Replicas op; op_Command := op_Command op;
  op_Container := op_Container op; op_Stdin := op_Stdin op; op_TimeoutSeconds := op_TimeoutSeconds op;
  op_GracePeriod := op_GracePeriod op; op_Force := op_Force op; op_TargetUID := op_TargetUID op;
  op_ResourceVersion := op_ResourceVersion op; op_ExpectedAbsent := op_ExpectedAbsent op; op_Generation := op_Generation op |}.
Definition with_object (op : Operation) (obj : object) : Operation := {|
  op_Action := op_Action op; op_Namespace := op_Namespace op; op_Name := op_Name op; op_Object := Some obj;
  op_Patch := op_Patch op; op_PatchType := op_PatchType op; op_Replicas := op_Replicas op; op_Command := op_Command op;
  op_Container := op_Container op; op_Stdin := op_Stdin op; op_TimeoutSeconds := op_TimeoutSeconds op;
  op_GracePeriod := op_GracePeriod op; op_Force := op_Force op; op_TargetUID := op_TargetUID op;
  op_ResourceVersion := op_ResourceVersion op; op_ExpectedAbsent := op_ExpectedAbsent op; op_Generation := op_Generation op |}.
Definition with_patch (op : Operation) (patch : value) : Operation := {|
  op_Action := op_Action op; op_Namespace := op_Namespace op; op_Name := op_Name op; op_Object := op_Object op;
  op_Patch := patch; op_PatchType := op_PatchType op; op_Replicas := op_Replicas op; op_Command := op_Command op;
  op_Container := op_Container op; op_Stdin := op_Stdin op; op_TimeoutSeconds := op_TimeoutSeconds op;
  op_GracePeriod := op_GracePeriod op; op_Force := op_Force op; op_TargetUID := op_TargetUID op;
  op_ResourceVersion := op_ResourceVersion op; op_ExpectedAbsent := op_ExpectedAbsent op; op_Generation := op_Generation op |}.
Definition with_container (op : Operation) (container : string) : Operation := {|
  op_Action := op_Action op; op_Namespace := op_Namespace op; op_Name := op_Name op; op_Object := op_Object op;
  op_Patch := op_Patch op; op_PatchType := op_PatchType op; op_Replicas := op_Replicas op; op_Command := op_Command op;
  op_Container := container; op_Stdin := op_Stdin op; op_TimeoutSeconds := op_TimeoutSeconds op;
  op_GracePeriod := op_GracePeriod op; op_Force := op_Force op; op_TargetUID := op_TargetUID op;
  op_ResourceVersion := op_ResourceVersion op; op_ExpectedAbsent := op_ExpectedAbsent op; op_Generation := op_Generation op |}.
Definition with_absent (op : Operation) : Operation := {|
  op_Action := op_Action op; op_Namespace := op_Namespace op; op_Name := op_Name op; op_Object := op_Object op;
  op_Patch := op_Patch op; op_PatchType := op_PatchType op; op_Replicas := op_Replicas op; op_Command := op_Command op;
  op_Container := op_Container op; op_Stdin := op_Stdin op; op_TimeoutSeconds := op_TimeoutSeconds op;
  op_GracePeriod := op_GracePeriod op; op_Force := op_Force op; op_TargetUID := op_TargetUID op;
  op_ResourceVersion := op_ResourceVersion op; op_ExpectedAbsent := true; op_Generation := op_Generation op |}.

Section operations.
Context {G : GoLib} {Q : QuantityLib} {U : UnstructuredLib}.

Definition defaultNamespace (config : Config) (capability : Capability) (namespace : string) : string :=
  if bool_decide (namespace <> "") || negb (c_Namespaced capability) then namespace
  else match Namespaces (Scope (cfg_Spec config)) with
       | first :: _ => first
       | [] => cfg_Namespace config
       end.

Definition operationObject (op : Operation) : result go_error object :=
  match op_Object op with
  | None => Err (policyError "invalid_input" "object is required")
  | Some obj =>
    match json_copy (VMap obj) with
    | Some (VMap copy) =>
      let object1 := u_SetGroupVersionKind copy (a_GVR (op_Action op)) (a_Kind (op_Action op)) in
      let object2 := if bool_decide (op_Name op <> "") then u_SetName object1 (op_Name op) else object1 in
      Ok (if a_Namespaced (op_Action op) then u_SetNamespace object2 (op_Namespace op) else object2)
    | _ => Err (policyError "invalid_input" "object is not valid JSON")
    end
  end.

Definition addPatchResourceVersion (body : value) (pt : patch_type) (resourceVersion : string) : result go_error value :=
  match pt with
  | JSONPatchType =>
    match json_copy body with
    | None => Err (policyError "invalid_input" "JSON patch is not valid JSON")
    | Some copy =>
      let precondition := VMap [("op", VStr "test"); ("path", VStr "/metadata/resourceVersion"); ("value", VStr resourceVersion)] in
      match copy with
      | VList operations => Ok (VList (precondition :: operations))
      | VNull => Ok (VList [precondition])
      | _ => Err (policyError "invalid_input" "JSON patch must be an array")
      end
    end
  | _ =>
    match body with
    | VMap obj =>
      let metadata := obj_set (map_or_nil (obj_index obj "metadata")) "resourceVersion" (VStr resourceVersion) in
      Ok (VMap (obj_set obj "metadata" (VMap metadata)))
    | _ => Err (policyError "invalid_input" "merge patch must be an object")
    end
  end.

Definition restart_body (now : Z) : value :=
  VMap [("spec", VMap [("template", VMap [("metadata", VMap [("annotations",
    VMap [("mcp.supek8smcp.io/restartedAt", VStr (Format_RFC3339Nano now))])])])])].

(** The tail of [preparePatch]: precondition and encoding. *)
Definition finish_patch (op : Operation) (body : value) (pt : patch_type) (subresources : list string)
    : result go_error (patch_type * string * list string) :=
  body ← (if bool_decide (op_ResourceVersion op <> "") then addPatchResourceVersion body pt (op_ResourceVersion op) else Ok body);
  match Marshal body with
  | None => Err (policyError "invalid_input" "patch is not valid JSON")
  | Some data => Ok (pt, data, subresources)
  end.

(** [preparePatch]: the request, and the operation with the generated patch
    of a restart filled in.  The clock is read for such a patch only. *)
Definition preparePatch (principal : Principal) (op : Operation)
    : K (result go_error (patch_type * string * list string) * Operation) :=
  let action := a_Action (op_Action op) in
  if bool_decide (action = "scale") then
    match op_Replicas op with
    | None => kret (Err (policyError "invalid_input" "replicas is required for scale"), op)
    | Some n => kret (finish_patch op (VMap [("spec", VMap [("replicas", VInt n)])]) MergePatchType ["scale"], op)
    end
  else if bool_decide (action = "restart") then
    match op_Patch op with
    | VNull =>
      (let! now := request principal Now in
       let op := with_patch op (restart_body now) in
       kret (finish_patch op (restart_body now) MergePatchType [], op))%kube
    | body => kret (finish_patch op body MergePatchType [], op)
    end
  else if bool_decide (action = "patch") then
    match op_Patch op with
    | VNull => kret (Err (policyError "invalid_input" "patch is required"), op)
    | body =>
      let pt := if bool_decide (op_PatchType op = "json") then JSONPatchType else MergePatchType in
      if negb (bool_decide (op_PatchType op ∈ [""; "merge"; "json"])) then
        kret (Err (policyError "invalid_input" "patchType must be merge or json"), op)
      else kret (finish_patch op body pt [], op)
    end
  else kret (finish_patch op (op_Patch op) MergePatchType [], op).
End operations.

Section handlers.
Context {G : GoLib} {Q : QuantityLib} {U : UnstructuredLib}.

(** What a case of the switch of [previewOperation] leaves: the operation as
    it changed it, the previous object, the preview and the warnings. *)
Record previewed := { pv_op : Operation; pv_previous : value; pv_preview : value; pv_warnings : list string }.

Definition preview_create (principal : Principal) (op : Operation) : K (result go_error previewed) :=
  let resource := dynamicResource (op_Action op) (op_Namespace op) in
  (ok? obj := operationObject op in
   if bool_decide (u_GetName obj = "") then
     kret (Err (policyError "invalid_input" "object.metadata.name is required"))
   else
   let op := if bool_decide (op_Name op = "") then with_name op (u_GetName obj) else op in
   let! current := request principal (Get resource (op_Name op) []) in
   match current with
   | Ok _ => kret (Err (policyError "conflict" "resource already exists"))
   | Err err =>
     if negb (IsNotFound err) then kret (Err err)
     else
     let op := with_absent op in
     let? created := request principal (Create resource obj true) in
     kret (Ok {| pv_op := op; pv_previous := VNull; pv_preview := VMap created; pv_warnings := [] |})
   end)%kube.

Definition preview_apply (principal : Principal) (op : Operation) : K (result go_error previewed) :=
  let resource := dynamicResource (op_Action op) (op_Namespace op) in
  (ok? obj := operationObject op in
   if bool_decide (u_GetName obj = "") then
     kret (Err (policyError "invalid_input" "object.metadata.name is required"))
   else
   let op := with_name op (u_GetName obj) in
   let! r := request principal (Get resource (op_Name op) []) in
   match r with
   | Err err =>
     if IsNotFound err then
       kret (Err (policyError "invalid_input" "apply target does not exist; use a create capability so creation remains atomic"))
     else kret (Err err)
   | Ok current =>
     guard? rejectOperatorManaged (u_GetLabels current) in
     let op := with_target op (u_GetUID current) (u_GetResourceVersion current) in
     let obj := u_SetResourceVersion obj (op_ResourceVersion op) in
     let op := with_object op obj in
     let data := default "" (Marshal (VMap obj)) in
     let? applied := request principal (Patch resource (op_Name op) ApplyPatchType data true (Some (op_Force op)) []) in
     kret (Ok {| pv_op := op; pv_previous := VMap current; pv_preview := VMap applied; pv_warnings := [] |})
   end)%kube.

Definition preview_patch (principal : Principal) (op : Operation) : K (result go_error previewed) :=
  let resource := dynamicResource (op_Action op) (op_Namespace op) in
  (let? current := request principal (Get resource (op_Name op) []) in
   guard? rejectOperatorManaged (u_GetLabels current) in
   let previous := if bool_decide (a_Action (op_Action op) <> "scale") then VMap current else VNull in
   let op := with_target op (u_GetUID current) (u_GetResourceVersion current) in
   let! prepared := preparePatch principal op in
   match prepared with
   | (Err err, _) => kret (Err err)
   | (Ok (pt, data, subresources), op) =>
     let? patched := request principal (Patch resource (op_Name op) pt data true None subresources) in
     kret (Ok {| pv_op := op; pv_previous := previous; pv_preview := VMap patched; pv_warnings := [] |})
   end)%kube.

Definition preview_update (principal : Principal) (op : Operation) : K (result go_error previewed) :=
  let resource := dynamicResource (op_Action op) (op_Namespace op) in
  (let? current := request principal (Get resource (op_Name op) []) in
   guard? rejectOperatorManaged (u_GetLabels current) in
   let op := with_target op (u_GetUID current) (u_GetResourceVersion current) in
   match operationObject op with
   | Err err => kret (Err err)
   | Ok obj =>
     let obj := u_SetResourceVersion obj (u_GetResourceVersion current) in
     let op := with_object op obj in
     let? updated := request principal (Update resource obj true) in
     kret (Ok {| pv_op := op; pv_previous := VMap current; pv_preview := VMap updated; pv_warnings := [] |})
   end)%kube.

Definition preview_delete (principal : Principal) (op : Operation) : K (result go_error previewed) :=
  let resource := dynamicResource (op_Action op) (op_Namespace op) in
  (let? current := request principal (Get resource (op_Name op) []) in
   guard? rejectOperatorManaged (u_GetLabels current) in
   let uid := u_GetUID current in
   let rv := u_GetResourceVersion current in
   let op := with_target op uid rv in
   let? _ := request principal (Delete resource (op_Name op)
     {| do_DryRun := true; do_GracePeriod := op_GracePeriod op; do_UID := uid; do_ResourceVersion := rv |}) in
   kret (Ok {| pv_op := op; pv_previous := VNull;
     pv_preview := VMap [("apiVersion", VStr (u_GetAPIVersion current)); ("kind", VStr (u_GetKind current));
       ("metadata", VMap [("name", VStr (u_GetName current)); ("uid", VStr uid); ("resourceVersion", VStr rv)])];
     pv_warnings := [] |}))%kube.

Definition preview_remote (principal : Principal) (op : Operation) : K (result go_error previewed) :=
  (let? p := request principal (GetPod (op_Namespace op) (op_Name op)) in
   guard? rejectOperatorManaged (pod_Labels p) in
   let op := with_target op (pod_UID p) (pod_ResourceVersion p) in
   match resolveContainer p (op_Container op) with
   | Err err => kret (Err err)
   | Ok container =>
     let op := with_container op container in
     if bool_decide (a_Action (op_Action op) = "exec") && bool_decide (op_Command op = []) then
       kret (Err (policyError "invalid_input" "command is required for exec"))
     else
     kret (Ok {| pv_op := op; pv_previous := VNull;
       pv_preview := VMap [("pod", VStr (op_Name op)); ("uid", VStr (pod_UID p)); ("container", VStr (op_Container op));
         ("command", VStrings (op_Command op)); ("stdinBytes", VInt (blen (op_Stdin op))); ("tty", VBool false)];
       pv_warnings := ["remote execution cannot be server-side dry-run; commit will open the stream after rechecking the Pod UID and RBAC"] |})
   end)%kube.

Definition preview_switch (principal : Principal) (op : Operation) : K (result go_error previewed) :=
  let action := a_Action (op_Action op) in
  if bool_decide (action = "create") then preview_create principal op
  else if bool_decide (action = "apply") then preview_apply principal op
  else if bool_decide (action ∈ ["patch"; "scale"; "restart"]) then preview_patch principal op
  else if bool_decide (action = "update") then preview_update principal op
  else if bool_decide (action = "delete") then preview_delete principal op
  else if bool_decide (action ∈ ["exec"; "attach"]) then preview_remote principal op
  else kret (Err (policyError "unsupported_operation" "operation is not implemented")).

(** The checks after the switch. *)
Definition preview_checks (config : Config) (p : previewed) : result go_error (Operation * value * list string) :=
  let action := op_Action (pv_op p) in
  _ ← (if bool_decide (Mode (cfg_Spec config) = ModeSafeWrite) then
         _ ← validateSafeTransition (pv_previous p) (pv_preview p);
         if is_service action then
           match pv_preview p with
           | VMap obj => validateSafeServiceChange (Some obj) VNull ""
           | _ => Ok ()
           end
         else Ok ()
       else Ok ());
  preview ← redactResult (pv_preview p) action (SensitiveReads (PolicyS (cfg_Spec config)));
  Ok (pv_op p, preview, pv_warnings p).

Definition previewOperation (config : Config) (principal : Principal) (op : Operation)
    : K (result go_error (Operation * value * list string)) :=
  (let? p := preview_switch principal op in kret (preview_checks config p))%kube.

(** ** Plan *)

Definition plan_actions : list string :=
  ["create"; "apply"; "patch"; "update"; "delete"; "scale"; "restart"; "exec"; "attach"].

(** [plan] up to the store: the operation to be stored, its preview and warnings. *)
Definition plan_prepare (config : Config) (codec : capabilityCodec) (principal : Principal) (input : PlanInput)
    : K (result go_error (Operation * value * list string)) :=
  (ok? capability := decode codec (pi_CapabilityID input) in
   let action := AsAction capability in
   if negb (Mutating action) || negb (bool_decide (a_Action action ∈ plan_actions)) then
     kret (Err (policyError "invalid_capability" "k8s.plan requires a supported write capability"))
   else
   let namespace := defaultNamespace config capability (pi_Namespace input) in
   let name :=
     match pi_Object input with
     | Some obj => if bool_decide (pi_Name input = "") then u_NestedString obj ["metadata"; "name"] else pi_Name input
     | None => pi_Name input
     end in
   if bool_decide (a_Action action <> "create") && bool_decide (name = "") then
     kret (Err (policyError "invalid_input" "name is required for this operation"))
   else if pi_Force input && bool_decide (Mode (cfg_Spec config) <> ModeDangerous) then
     kret (Err (policyError "mode_denied" "force apply requires Dangerous mode"))
   else
   let! authorized := Policy_CheckAndAuthorizeOperation config principal None action namespace name in
   guard? authorized.1 in
   guard? (if bool_decide (Mode (cfg_Spec config) = ModeSafeWrite)
           then validateSafeOperation action (pi_Object input) (pi_Patch input) (pi_PatchType input) else Ok ()) in
   previewOperation config principal
     {| op_Action := action; op_Namespace := namespace; op_Name := name; op_Object := pi_Object input;
        op_Patch := pi_Patch input; op_PatchType := pi_PatchType input; op_Replicas := pi_Replicas input;
        op_Command := pi_Command input; op_Container := pi_Container input; op_Stdin := pi_Stdin input;
        op_TimeoutSeconds := pi_TimeoutSeconds input; op_GracePeriod := pi_GracePeriodSeconds input;
        op_Force := pi_Force input; op_TargetUID := ""; op_ResourceVersion := ""; op_ExpectedAbsent := false;
        op_Generation := cfg_Generation config |})%kube.

Definition plan (config : Config) (codec : capabilityCodec) (store : PlanStore) (d : draw) (principal : Principal)
    (input : PlanInput) : K (PlanStore * result go_error PlanOutput) :=
  (let! prepared := plan_prepare config codec principal input in
   match prepared with
   | Err err => kret (store, Err err)
   | Ok (op, preview, warnings) =>
     match PlanStore_Create store d (SubjectKey principal) op with
     | (store', Err err) => kret (store', Err err)
     | (store', Ok (id, code, expires)) =>
       kret (store', Ok {| po_PlanID := id; po_ExpiresAt := Format_RFC3339 expires;
         po_Operation := operationSummary op;
         po_Preview := boundedValue preview (Z.quot (MaxOutputBytes (Limits (cfg_Spec config))) 2);
         po_Warnings := warnings;
         po_Confirmation := {| cc_Required := true; cc_Code := code; cc_Instruction := humanConfirmationInstruction |} |})
     end
   end)%kube.

(** ** Commit *)

Definition checkOperationPreconditions (principal : Principal) (op : Operation) : K (result go_error unit) :=
  let resource := dynamicResource (op_Action op) (op_Namespace op) in
  if op_ExpectedAbsent op then
    (let! r := request principal (Get resource (op_Name op) []) in
     match r with
     | Err err => if IsNotFound err then kret (Ok ()) else kret (Err err)
     | Ok _ => kret (Err (policyError "conflict" "resource was created after the plan"))
     end)%kube
  else if bool_decide (op_TargetUID op = "") then kret (Ok ())
  else
  (let? current := request principal (Get resource (op_Name op) []) in
   if bool_decide (u_GetUID current <> op_TargetUID op)
      || bool_decide (u_GetResourceVersion current <> op_ResourceVersion op) then
     kret (Err (policyError "conflict" "resource changed after the plan; create a new plan"))
   else kret (Ok ()))%kube.

(** An answered write: the object, or no result and the error. *)
Definition written (r : result go_error object) : option object * option go_error :=
  match r with Ok obj => (Some obj, None) | Err err => (None, Some err) end.

Definition executeOperation (config : Config) (principal : Principal) (op : Operation)
    : K (option object * option go_error) :=
  let action := a_Action (op_Action op) in
  let resource := dynamicResource (op_Action op) (op_Namespace op) in
  if bool_decide (action = "create") then
    match operationObject op with
    | Err err => kret (None, Some err)
    | Ok obj => (let! r := request principal (Create resource obj false) in kret (written r))%kube
    end
  else if bool_decide (action = "apply") then
    match operationObject op with
    | Err err => kret (None, Some err)
    | Ok obj =>
      let obj := u_SetResourceVersion obj (op_ResourceVersion op) in
      let data := default "" (Marshal (VMap obj)) in
      (let! r := request principal (Patch resource (op_Name op) ApplyPatchType data false (Some (op_Force op)) []) in
       kret (written r))%kube
    end
  else if bool_decide (action ∈ ["patch"; "scale"; "restart"]) then
    (let! prepared := preparePatch principal op in
     match prepared.1 with
     | Err err => kret (None, Some err)
     | Ok (pt, data, subresources) =>
       let! r := request principal (Patch resource (op_Name op) pt data false None subresources) in
       kret (written r)
     end)%kube
  else if bool_decide (action = "update") then
    match operationObject op with
    | Err err => kret (None, Some err)
    | Ok obj =>
      (let! r := request principal (Update resource (u_SetResourceVersion obj (op_ResourceVersion op)) false) in
       kret (written r))%kube
    end
  else if bool_decide (action = "delete") then
    (let! r := request principal (Delete resource (op_Name op)
       {| do_DryRun := false; do_GracePeriod := op_GracePeriod op; do_UID := op_TargetUID op;
          do_ResourceVersion := op_ResourceVersion op |}) in
     match r with
     | Err err => kret (None, Some err)
     | Ok _ => kret (Some [("deleted", VBool true); ("name", VStr (op_Name op)); ("uid", VStr (op_TargetUID op))], None)
     end)%kube
  else if bool_decide (action ∈ ["exec"; "attach"]) then executeRemote config principal op
  else kret (None, Some (policyError "unsupported_operation" "operation is not implemented")).

(** [commit] of an operation taken out of the store. *)
Definition output_value (o : CommitOutput) : value :=
  VMap ([("operation", VMap (co_Operation o))] ++ match co_Result o with VNull => [] | r => [("result", r)] end).

Definition commit_operation (config : Config) (principal : Principal) (op : Operation)
    : K (CommitOutput * option go_error) :=
  let output := {| co_Operation := operationSummary op; co_Result := VNull |} in
  if bool_decide (op_Generation op <> cfg_Generation config) then
    kret (output, Some (policyError "stale_plan" "server policy changed after the plan was created"))
  else
  (let! authorized := Policy_CheckAndAuthorizeOperation config principal None (op_Action op) (op_Namespace op) (op_Name op) in
   match authorized.1 with
   | Err err => kret (output, Some err)
   | Ok _ =>
     let! checked := checkOperationPreconditions principal op in
     match checked with
     | Err err => kret (output, Some err)
     | Ok _ =>
       let! validated := (if bool_decide (Mode (cfg_Spec config) = ModeSafeWrite)
                          then let! r := previewOperation config principal op in
                               kret (match r with Ok _ => Ok () | Err e => Err e end)
                          else kret (Ok ())) in
       match validated with
       | Err err => kret (output, Some err)
       | Ok _ =>
         let! executed := executeOperation config principal op in
         let '(result, executionErr) := executed in
         match result with
         | None => kret (output, executionErr)
         | Some obj =>
           match redactResult (VMap obj) (op_Action op) (SensitiveReads (PolicyS (cfg_Spec config))) with
           | Err err => kret (output, Some err)
           | Ok redacted =>
             let output := {| co_Operation := operationSummary op;
               co_Result := boundedValue redacted (Z.quot (MaxOutputBytes (Limits (cfg_Spec config))) 2) |} in
             match executionErr with
             | None => kret (output, None)
             | Some err =>
               match co_Result output with
               | VNull => kret (output, Some err)
               | _ => kret (output, errorWithDetails (Some err) (output_value output))
               end
             end
           end
         end
       end
     end
   end)%kube.

(** The stores and the admission at the two moments [commit] looks at them:
    [peek] when it asks whether the plan is a remote one, [store] when it
    consumes it. *)
Definition commit (config : Config) (peek : PlanStore) (admission : option requestAdmission) (store : PlanStore) (now : Z)
    (principal : Principal) (input : CommitInput) : K (PlanStore * (CommitOutput * option go_error)) :=
  let none := {| co_Operation := []; co_Result := VNull |} in
  let stream :=
    if isRemote peek (ci_PlanID input) (SubjectKey principal) then (acquireStream admission).2 else Ok () in
  match stream with
  | Err err => kret (store, (none, Some err))
  | Ok _ =>
    match PlanStore_Consume store now (ci_PlanID input) (SubjectKey principal) (ci_ConfirmationCode input) with
    | (store', Err err) => kret (store', (none, Some err))
    | (store', Ok op) =>
      (let! r := commit_operation config principal op in kret (store', r))%kube
    end
  end.
End handlers.

(** ** Traces of the handlers *)

(** A request of the principal that persists nothing. *)
Definition harmless (p : Principal) (e : event) : Prop := ev_principal e = p /\ ev_persists e = false.

Lemma authorization_harmless p e : authorization_event p e -> harmless p e.
Proof. done. Qed.

Section traces.
Context {G : GoLib} {Q : QuantityLib} {U : UnstructuredLib}.

Lemma preparePatch_harmless p op : emits (harmless p) (preparePatch p op).
Proof. unfold preparePatch. repeat emits_step; by split. Qed.

Lemma preview_switch_harmless p op : emits (harmless p) (preview_switch p op).
Proof.
  unfold preview_switch, preview_create, preview_apply, preview_patch, preview_update, preview_delete, preview_remote.
  repeat (emits_step || apply preparePatch_harmless); by split.
Qed.

Lemma previewOperation_harmless config p op : emits (harmless p) (previewOperation config p op).
Proof. unfold previewOperation. repeat (emits_step || apply preview_switch_harmless). Qed.

Lemma authorize_harmless config p cache action ns name :
  emits (harmless p) (Policy_CheckAndAuthorizeOperation config p cache action ns name).
Proof. eapply emits_weaken; [|apply CheckAndAuthorizeOperation_emits]. by apply authorization_harmless. Qed.

Lemma plan_prepare_harmless config codec p input : emits (harmless p) (plan_prepare config codec p input).
Proof.
  unfold plan_prepare. repeat (emits_step || apply authorize_harmless || apply previewOperation_harmless).
Qed.

Lemma preconditions_harmless p op : emits (harmless p) (checkOperationPreconditions p op).
Proof. unfold checkOperationPreconditions. repeat emits_step; by split. Qed.
End traces.

(** ** The request an operation stands for *)

Definition op_target (op : Operation) : target := dynamicResource (op_Action op) (op_Namespace op).

Section writes.
Context {G : GoLib} {Q : QuantityLib} {U : UnstructuredLib}.

(** The object of an operation: a copy of the given one, of the kind, with the name
    and in the namespace of the operation. *)
Definition planned_object (op : Operation) (obj : object) : Prop :=
  exists given copy, op_Object op = Some given /\ json_copy (VMap given) = Some (VMap copy) /\
    let typed := u_SetGroupVersionKind copy (a_GVR (op_Action op)) (a_Kind (op_Action op)) in
    let named := if bool_decide (op_Name op = "") then typed else u_SetName typed (op_Name op) in
    obj = if a_Namespaced (op_Action op) then u_SetNamespace named (op_Namespace op) else named.

(** The body of a patch, its type and the subresource it is for. *)
Inductive planned_patch (op : Operation) : patch_type -> value -> list string -> Prop :=
| planned_scale n :
    a_Action (op_Action op) = "scale" -> op_Replicas op = Some n ->
    planned_patch op MergePatchType (VMap [("spec", VMap [("replicas", VInt n)])]) ["scale"]
| planned_restart now :
    a_Action (op_Action op) = "restart" -> op_Patch op = VNull -> planned_patch op MergePatchType (restart_body now) []
| planned_restart_with :
    a_Action (op_Action op) = "restart" -> op_Patch op <> VNull -> planned_patch op MergePatchType (op_Patch op) []
| planned_merge :
    a_Action (op_Action op) = "patch" -> op_Patch op <> VNull -> op_PatchType op ∈ [""; "merge"] ->
    planned_patch op MergePatchType (op_Patch op) []
| planned_json :
    a_Action (op_Action op) = "patch" -> op_Patch op <> VNull -> op_PatchType op = "json" ->
    planned_patch op JSONPatchType (op_Patch op) [].

(** [body'] is the patch [body] that also demands the resource version [rv]. *)
Inductive demands_version (rv : string) : patch_type -> value -> value -> Prop :=
| demands_none pt body : rv = "" -> demands_version rv pt body body
| demands_merge m m' md :
    rv <> "" -> obj_get m' "metadata" = Some (VMap md) -> obj_get md "resourceVersion" = Some (VStr rv) ->
    (forall k, k <> "metadata" -> obj_get m' k = obj_get m k) ->
    (forall k, k <> "resourceVersion" -> obj_get md k = obj_get (map_or_nil (obj_index m "metadata")) k) ->
    demands_version rv MergePatchType (VMap m) (VMap m')
| demands_test body ops :
    rv <> "" -> json_copy body = Some (VList ops) \/ json_copy body = Some VNull /\ ops = [] ->
    demands_version rv JSONPatchType body
      (VList (VMap [("op", VStr "test"); ("path", VStr "/metadata/resourceVersion"); ("value", VStr rv)] :: ops)).

(** The one request that carries an operation out ([dry] for its dry run). *)
Definition planned_request (dry : bool) (op : Operation) {A} (c : call A) : Prop :=
  let action := a_Action (op_Action op) in
  match c with
  | Create t obj d => action = "create" /\ t = op_target op /\ d = dry /\ planned_object op obj
  | Patch t name ApplyPatchType data d force subs =>
    action = "apply" /\ t = op_target op /\ name = op_Name op /\ d = dry /\ force = Some (op_Force op) /\ subs = [] /\
    exists obj, planned_object op obj /\ data = default "" (Marshal (VMap (u_SetResourceVersion obj (op_ResourceVersion op))))
  | Patch t name pt data d force subs =>
    t = op_target op /\ name = op_Name op /\ d = dry /\ force = None /\
    exists body body', planned_patch op pt body subs /\ demands_version (op_ResourceVersion op) pt body body' /\ Marshal body' = Some data
  | Update t obj d =>
    action = "update" /\ t = op_target op /\ d = dry /\
    exists given, planned_object op given /\ obj = u_SetResourceVersion given (op_ResourceVersion op)
  | Delete t name opts =>
    action = "delete" /\ t = op_target op /\ name = op_Name op /\
    opts = {| do_DryRun := dry; do_GracePeriod := op_GracePeriod op; do_UID := op_TargetUID op; do_ResourceVersion := op_ResourceVersion op |}
  | Stream r =>
    action ∈ ["exec"; "attach"] /\
    r = {| sr_verb := action; sr_namespace := op_Namespace op; sr_pod := op_Name op; sr_container := op_Container op;
           sr_command := if bool_decide (action = "attach") then [] else op_Command op; sr_stdin := op_Stdin op |}
  | _ => False
  end.

(** At most one request persists, it is the last one, and it is bound. *)
Definition writes_at_most_once (p : Principal) (op : Operation) (es : list event) : Prop :=
  Forall (harmless p) es \/
  exists pre e, es = pre ++ [e] /\ Forall (harmless p) pre /\
    ev_principal e = p /\ ev_persists e = true /\ planned_request false op (ev_call e).

Lemma operationObject_planned op obj : operationObject op = Ok obj -> planned_object op obj.
Proof.
  unfold operationObject, planned_object. destruct (op_Object op) as [given|]; [|done].
  destruct (json_copy (VMap given)) as [[| | | | | | |copy]|] eqn:Ec; try done. intros [= <-].
  exists given, copy. split_and!; [done..|]. by repeat case_bool_decide.
Qed.

Lemma addPatchResourceVersion_demands body pt rv body' :
  rv <> "" -> pt <> ApplyPatchType -> addPatchResourceVersion body pt rv = Ok body' -> demands_version rv pt body body'.
Proof.
  intros Hrv Hpt. destruct pt; [| |done]; cbn [addPatchResourceVersion].
  - destruct body as [| | | | | | |m]; try done. intros [= <-].
    eapply demands_merge; [done|apply obj_get_set_eq|apply obj_get_set_eq|intros k Hk; by rewrite obj_get_set_ne..].
  - destruct (json_copy body) as [[]|] eqn:E; try done; intros [= <-]; apply demands_test; auto.
Qed.

(** The patch [finish_patch] makes of a body. *)
Lemma finish_patch_demands op body pt subs pt' data subs' :
  pt <> ApplyPatchType -> finish_patch op body pt subs = Ok (pt', data, subs') ->
  pt' = pt /\ subs' = subs /\ exists body', demands_version (op_ResourceVersion op) pt body body' /\ Marshal body' = Some data.
Proof.
  intros Hpt. unfold finish_patch. intros (b & Hb & H)%bind_ok. destruct (Marshal b) as [text|] eqn:Em; [|done].
  injection H as <- <- <-. split_and!; [done..|]. exists b. split; [|done]. case_bool_decide as Hrv.
  - by apply addPatchResourceVersion_demands.
  - injection Hb as <-. by apply demands_none.
Qed.

(** What [preparePatch] makes: the planned patch, and the operation with the patch of
    a restart filled in. *)
Definition prepared_as (op : Operation) (r : result go_error (patch_type * string * list string) * Operation) : Prop :=
  (r.2 = op \/ exists now, r.2 = with_patch op (restart_body now) /\ a_Action (op_Action op) = "restart" /\ op_Patch op = VNull) /\
  forall pt data subs, r.1 = Ok (pt, data, subs) -> pt <> ApplyPatchType /\
    exists body body', planned_patch op pt body subs /\ planned_patch r.2 pt body subs /\
      demands_version (op_ResourceVersion op) pt body body' /\ Marshal body' = Some data.

Lemma prepared_same op pt body subs :
  pt <> ApplyPatchType -> planned_patch op pt body subs -> prepared_as op (finish_patch op body pt subs, op).
Proof.
  intros Hpt Hp. split; [by left|]. cbn. intros pt' data subs' H.
  apply finish_patch_demands in H as (-> & -> & body' & ? & ?); [|done]. split; [done|]. by exists body, body'.
Qed.

Lemma preparePatch_satisfies p op :
  a_Action (op_Action op) ∈ ["patch"; "scale"; "restart"] ->
  satisfies (preparePatch p op) (fun r es => Forall (harmless p) es /\ prepared_as op r).
Proof.
  intros Ha. assert (forall err es, Forall (harmless p) es ->
    Forall (harmless p) es /\ prepared_as op (Err err : result go_error (patch_type * string * list string), op)) as Herr.
  { intros err es Hes. split; [done|]. by split; [left|]. }
  unfold preparePatch. case_bool_decide as Hs.
  { destruct (op_Replicas op) as [n|] eqn:Hn; satisfies_step; [|by apply Herr]. split; [done|]. apply prepared_same; [done|by constructor]. }
  case_bool_decide as Hr.
  { destruct (op_Patch op) eqn:Hp.
    2-8: satisfies_step; split; [done|]; rewrite <- Hp; apply prepared_same; [done|]; apply planned_restart_with; [done|by rewrite Hp].
    do 2 satisfies_step. split; [by repeat constructor|]. split; [right; by eexists|]. cbn. intros pt data subs H.
    apply finish_patch_demands in H as (-> & -> & body' & ? & ?); [|done]. split; [done|]. eexists _, body'.
    split_and!; [by apply planned_restart|by apply (planned_restart_with (with_patch op (restart_body a)))|done..]. }
  rewrite bool_decide_true by set_solver.
  destruct (op_Patch op) eqn:Hp; [by satisfies_step; apply Herr|..]; rewrite <- Hp; case_bool_decide as Ht; cbn [negb].
  all: satisfies_step; first [by apply Herr|split; [done|]].
  all: apply prepared_same; [by case_bool_decide|].
  all: case_bool_decide; [apply planned_json|apply planned_merge]; try done; try (by rewrite Hp); set_solver.
Qed.

Lemma writes_after p op pre e :
  Forall (harmless p) pre -> ev_principal e = p -> ev_persists e = true -> planned_request false op (ev_call e) ->
  writes_at_most_once p op (pre ++ [e]).
Proof. intros ? ? ? ?. right. exists pre, e. by split_and!. Qed.

Lemma remote_request_planned op :
  a_Action (op_Action op) ∈ ["exec"; "attach"] -> planned_request false op (Stream (remote_request op)).
Proof.
  intros Ha. split; [done|]. unfold remote_request. case_bool_decide as E; [by rewrite E|].
  apply elem_of_cons in Ha as [->|Ha]; [done|]. by apply list_elem_of_singleton in Ha.
Qed.

Lemma executeOperation_satisfies config p op :
  satisfies (executeOperation config p op) (fun _ es => writes_at_most_once p op es).
Proof.
  assert (forall err, satisfies (kret (None, Some err) : K (option object * option go_error)) (fun _ es => writes_at_most_once p op es)) as Hnone.
  { intros err. satisfies_step. by left. }
  unfold executeOperation. case_bool_decide.
  { destruct (operationObject op) as [obj|] eqn:Eo; [|done]. do 2 satisfies_step. apply (writes_after p op []); try done.
    split_and!; try done. by apply operationObject_planned. }
  case_bool_decide.
  { destruct (operationObject op) as [obj|] eqn:Eo; [|done]. do 2 satisfies_step. apply (writes_after p op []); try done.
    split_and!; try done. exists obj. split; [by apply operationObject_planned|done]. }
  case_bool_decide as Hp.
  { eapply satisfies_bind; [by apply preparePatch_satisfies|]. intros [r op'] es [Hes [_ Hr]]; cbn in *.
    destruct r as [[[pt data] subs]|]; [|by satisfies_step; rewrite app_nil_r; left].
    destruct (Hr _ _ _ eq_refl) as (Hpt & body & body' & Hb & _ & Hd & Hm). do 2 satisfies_step. apply writes_after; try done.
    destruct pt; [| |done]; split_and!; try done; by exists body, body'. }
  case_bool_decide.
  { destruct (operationObject op) as [obj|] eqn:Eo; [|done]. do 2 satisfies_step. apply (writes_after p op []); try done.
    split_and!; try done. exists obj. split; [by apply operationObject_planned|done]. }
  case_bool_decide; [by satisfies_step; satisfies_step; satisfies_step; apply (writes_after p op [])|].
  case_bool_decide as Hr; [|done]. unfold executeRemote.
  satisfies_step. repeat satisfies_step; by apply (writes_after p op []); [..|apply remote_request_planned].
Qed.
End writes.

(** ** What a preview leaves *)

Section previews.
Context {G : GoLib} {Q : QuantityLib} {U : UnstructuredLib}.

(** A stored operation is bound to what the cluster held: to the absence of
    the object, or to the UID and version of an object or Pod the caller
    read, which is not the operator's. *)
Inductive bound_to_live (p : Principal) (op : Operation) (es : list event) : Prop :=
| bound_absent err :
    op_ExpectedAbsent op = true -> a_Action (op_Action op) = "create" -> IsNotFound err = true ->
    Ev p (Get (op_target op) (op_Name op) []) (Err err) ∈ es -> bound_to_live p op es
| bound_object cur :
    Ev p (Get (op_target op) (op_Name op) []) (Ok cur) ∈ es ->
    op_TargetUID op = u_GetUID cur -> op_ResourceVersion op = u_GetResourceVersion cur ->
    rejectOperatorManaged (u_GetLabels cur) = Ok () -> bound_to_live p op es
| bound_pod live :
    a_Action (op_Action op) ∈ ["exec"; "attach"] ->
    Ev p (GetPod (op_Namespace op) (op_Name op)) (Ok live) ∈ es ->
    op_TargetUID op = pod_UID live -> op_ResourceVersion op = pod_ResourceVersion live ->
    rejectOperatorManaged (pod_Labels live) = Ok () -> op_Container op ∈ pod_Containers live -> bound_to_live p op es.

(** The previewed operation [op'] carries the change [op] asks for: it has the
    same payload, but that the object of an apply or update is the one that is sent,
    a restart without a patch has the generated one, and an unnamed container is named. *)
Record carries (op op' : Operation) : Prop := {
  ca_same : op_Action op' = op_Action op /\ op_Namespace op' = op_Namespace op /\ op_PatchType op' = op_PatchType op /\
    op_Replicas op' = op_Replicas op /\ op_Command op' = op_Command op /\ op_Stdin op' = op_Stdin op /\
    op_TimeoutSeconds op' = op_TimeoutSeconds op /\ op_GracePeriod op' = op_GracePeriod op /\ op_Force op' = op_Force op /\
    op_Generation op' = op_Generation op;
  ca_name : op_Name op <> "" -> op_Name op' = op_Name op;
  ca_object : if bool_decide (a_Action (op_Action op) ∈ ["apply"; "update"])
    then exists obj, planned_object op obj /\ op_Object op' = Some (u_SetResourceVersion obj (op_ResourceVersion op'))
    else op_Object op' = op_Object op;
  ca_patch : op_Patch op' = op_Patch op \/
    a_Action (op_Action op) = "restart" /\ op_Patch op = VNull /\ exists now, op_Patch op' = restart_body now;
  ca_container : op_Container op' = op_Container op \/ op_Container op = "" /\ a_Action (op_Action op) ∈ ["exec"; "attach"]
}.

(** The dry run of [op], which left [op']. *)
Definition previewed_as (op op' : Operation) {A} (c : call A) : Prop :=
  match c with
  | Create t obj d => a_Action (op_Action op) = "create" /\ t = op_target op /\ d = true /\ planned_object op obj
  | Patch t name ApplyPatchType data d force subs =>
    a_Action (op_Action op) = "apply" /\ t = op_target op /\ name = op_Name op' /\ d = true /\ force = Some (op_Force op) /\ subs = [] /\
    exists obj, op_Object op' = Some obj /\ data = default "" (Marshal (VMap obj))
  | Update t obj d => a_Action (op_Action op) = "update" /\ t = op_target op /\ d = true /\ op_Object op' = Some obj
  | c => planned_request true op' c
  end.

(** The API server accepted a write, and answered with [out] where the answer is an object. *)
Definition accepted_with (out : object) (e : event) : Prop :=
  match ev_call e in call A return A -> Prop with
  | Create _ _ _ | Patch _ _ _ _ _ _ _ | Update _ _ _ => fun r => r = Ok out
  | Delete _ _ _ => fun r => r = Ok ()
  | _ => fun _ => False
  end (ev_answer e).

Definition dry_run_of (p : Principal) (op op' : Operation) (out : object) (es : list event) : Prop :=
  exists e, e ∈ es /\ ev_principal e = p /\ previewed_as op op' (ev_call e) /\ accepted_with out e.

(** The object a validation compares with: none for a creation and for a
    scale, else the live object, which is not the operator's. *)
Definition compared_with (p : Principal) (op : Operation) (es : list event) (previous : value) : Prop :=
  (previous = VNull /\ a_Action (op_Action op) ∈ ["create"; "scale"]) \/
  (exists cur name, previous = VMap cur /\ Ev p (Get (op_target op) name []) (Ok cur) ∈ es /\
     (op_Name op <> "" -> name = op_Name op) /\ rejectOperatorManaged (u_GetLabels cur) = Ok ()).

Record preview_facts (p : Principal) (op : Operation) (pv : previewed) (es : list event) : Prop := {
  pf_carries : carries op (pv_op pv);
  pf_live : bound_to_live p (pv_op pv) es;
  pf_dry_run : (a_Action (op_Action op) ∉ ["exec"; "attach"]) -> exists out, dry_run_of p op (pv_op pv) out es /\
    (a_Action (op_Action op) <> "delete" -> pv_preview pv = VMap out /\ compared_with p op es (pv_previous pv))
}.
Definition previews (p : Principal) (op : Operation) (m : K (result go_error previewed)) : Prop :=
  satisfies m (fun r es => forall pv, r = Ok pv -> preview_facts p op pv es).

Lemma accepted_unit (r : result go_error unit) u : r = Ok u -> r = Ok ().
Proof. by destruct u. Qed.

Lemma bound_to_live_app p op pre es : bound_to_live p op es -> bound_to_live p op (pre ++ es).
Proof.
  intros []; [eapply bound_absent|eapply bound_object|eapply bound_pod]; try done; rewrite elem_of_app; by right.
Qed.

Lemma dry_run_of_app p op op' out pre es post : dry_run_of p op op' out es -> dry_run_of p op op' out (pre ++ es ++ post).
Proof. intros (e & He & H). exists e. rewrite !elem_of_app. auto. Qed.

Context {L : UnstructuredLaws}.

(** The name of the object is the name of the operation, or the object has none. *)
Lemma operationObject_name op obj :
  operationObject op = Ok obj -> u_GetName obj <> "" -> op_Name op <> "" -> u_GetName obj = op_Name op.
Proof.
  unfold operationObject. intros H Ho Hn. destruct (op_Object op); [|done].
  destruct (json_copy _) as [[| | | | | | |copy]|]; try done. rewrite bool_decide_true in H by done. injection H as <-.
  destruct (u_name_set (u_SetGroupVersionKind copy (a_GVR (op_Action op)) (a_Kind (op_Action op))) (op_Name op) Hn) as [E|E];
    destruct (a_Namespaced _); rewrite ?u_name_namespace in *; congruence.
Qed.

Lemma preview_create_facts p op : a_Action (op_Action op) = "create" -> previews p op (preview_create p op).
Proof.
  intros Ha. unfold previews, preview_create. repeat satisfies_step; intros pv E; simplify_eq/=; reflect_bools.
  constructor; cbn.
  - case_bool_decide as En; (constructor; cbn; [by split_and!|congruence|by rewrite Ha|by left|by left]).
  - eapply bound_absent; cbn; [done| |done|]; destruct (bool_decide (op_Name op = "")); (done || left).
  - intros _. eexists. split.
    { eexists. split; [right; left|]. split; [done|]. split; [|done]. cbn. split_and!; try done. by apply operationObject_planned. }
    intros _. split; [done|]. left. rewrite Ha. split; [done|]. set_solver.
Qed.

Lemma preview_apply_facts p op : a_Action (op_Action op) = "apply" -> previews p op (preview_apply p op).
Proof.
  intros Ha. unfold previews, preview_apply. repeat satisfies_step; intros pv E; simplify_eq/=; reflect_bools.
  constructor; cbn.
  - constructor; cbn; [by split_and!|by apply operationObject_name| |by left|by left].
    rewrite Ha. eexists. split; [by apply operationObject_planned|done].
  - eapply bound_object; cbn; [left|done..|]. by eapply accepted_unit.
  - intros _. eexists. split.
    { eexists. split; [right; left|]. split; [done|]. split; [|done]. cbn. split_and!; try done. by eexists. }
    intros _. split; [done|]. right. eexists _, _. split_and!; [done|left|by apply operationObject_name|by eapply accepted_unit].
Qed.

(** [preparePatch] changes at most the patch. *)
Lemma prepared_carries op r uid rv :
  a_Action (op_Action op) ∈ ["patch"; "scale"; "restart"] -> prepared_as (with_target op uid rv) r ->
  carries op r.2 /\ op_Name r.2 = op_Name op /\ op_TargetUID r.2 = uid /\ op_ResourceVersion r.2 = rv.
Proof.
  intros Ha [Hr _]. assert (bool_decide (a_Action (op_Action op) ∈ ["apply"; "update"]) = false) as Hn.
  { apply bool_decide_eq_false. intros [E|[E|[]%elem_of_nil]%elem_of_cons]%elem_of_cons; rewrite E in Ha; set_solver. }
  destruct Hr as [->|(now & -> & Hre & Hp)].
  - split_and!; try done. constructor; cbn; rewrite ?Hn; [by split_and!|done|done|by left|by left].
  - split_and!; try done. constructor; cbn; rewrite ?Hn; [by split_and!|done|done|right; split_and!; eauto|by left].
Qed.

Lemma preview_patch_facts p op :
  a_Action (op_Action op) ∈ ["patch"; "scale"; "restart"] -> previews p op (preview_patch p op).
Proof.
  intros Ha. unfold previews, preview_patch. satisfies_step. do 2 (satisfies_step; [|by satisfies_step]).
  eapply satisfies_bind; [by apply preparePatch_satisfies|]. intros [r op'] es [_ Hp].
  destruct (prepared_carries _ _ _ _ Ha Hp) as (Hc & En & Eu & Erv). destruct Hp as [_ Hp]. cbn in Hc, En, Eu, Erv, Hp.
  repeat satisfies_step; intros pv E; simplify_eq/=. destruct (Hp _ _ _ eq_refl) as (Hpt & body & body' & _ & Hb & Hd & Hm).
  assert (op_target op' = op_target op) as Et by (destruct (ca_same _ _ Hc) as (Ea & Ens & _); unfold op_target; by rewrite Ea, Ens).
  constructor; cbn; [done| |].
  - eapply bound_object; rewrite ?Et, ?En, ?Eu, ?Erv; [left|done..|by eapply accepted_unit].
  - intros _. eexists. split.
    + eexists. split; [rewrite !elem_of_cons, elem_of_app; right; right; left|]. split_and!; [done| |done].
      rewrite <- Erv in Hd. destruct p1; [| |done]; cbn; rewrite Et; (split_and!; [done..|by exists body, body']).
    + intros _. split; [done|]. destruct (decide (a_Action (op_Action op) = "scale")) as [Hs|Hs].
      * left. rewrite bool_decide_false by tauto. split; [done|]. rewrite Hs. set_solver.
      * right. eexists _, _. rewrite bool_decide_true by done. split_and!; [done|left|done|by eapply accepted_unit].
Qed.

Lemma preview_update_facts p op : a_Action (op_Action op) = "update" -> previews p op (preview_update p op).
Proof.
  intros Ha. unfold previews, preview_update. repeat satisfies_step; intros pv E; simplify_eq/=.
  constructor; cbn.
  - constructor; cbn; [by split_and!|done| |by left|by left].
    rewrite Ha. eexists. split; [by eapply (operationObject_planned (with_target op _ _))|done].
  - eapply bound_object; cbn; [left|done..|by eapply accepted_unit].
  - intros _. eexists. split.
    { eexists. split; [right; left|]. split; [done|]. split; [|done]. cbn. by split_and!. }
    intros _. split; [done|]. right. eexists _, _. split_and!; [done|left|done|by eapply accepted_unit].
Qed.

Lemma preview_delete_facts p op : a_Action (op_Action op) = "delete" -> previews p op (preview_delete p op).
Proof.
  intros Ha. unfold previews, preview_delete. repeat satisfies_step; intros pv E; simplify_eq/=.
  constructor; cbn.
  - constructor; cbn; [by split_and!|done|by rewrite Ha|by left|by left].
  - eapply bound_object; cbn; [left|done..|by eapply accepted_unit].
  - intros _. exists []. split; [|done]. eexists. split; [right; left|]. split; [done|]. split; [by cbn; split_and!|]. cbn. repeat match goal with u : unit |- _ => destruct u end. reflexivity.
Qed.

Lemma resolveContainer_requested pod requested container :
  resolveContainer pod requested = Ok container -> container = requested \/ requested = "".
Proof.
  unfold resolveContainer. case_bool_decide; [intros [= <-]; by left|]. case_bool_decide; [done|]. intros _. by right.
Qed.

Lemma preview_remote_facts p op :
  a_Action (op_Action op) ∈ ["exec"; "attach"] -> previews p op (preview_remote p op).
Proof.
  intros Ha. unfold previews, preview_remote. repeat satisfies_step; intros pv E; simplify_eq/=.
  assert (bool_decide (a_Action (op_Action op) ∈ ["apply"; "update"]) = false) as Hn.
  { apply bool_decide_eq_false. intros [E|[E|[]%elem_of_nil]%elem_of_cons]%elem_of_cons; rewrite E in Ha; set_solver. }
  constructor; cbn; [|eapply bound_pod; cbn; [done|left|done..| |]; [by eapply accepted_unit|by eapply resolveContainer_in]|done].
  constructor; cbn; rewrite ?Hn; [by split_and!|done|done|by left|].
  destruct (resolveContainer_requested _ _ _ ltac:(eassumption)) as [->| ->]; [by left|by right].
Qed.

Lemma preview_switch_facts p op : previews p op (preview_switch p op).
Proof.
  unfold preview_switch. case_bool_decide; [by apply preview_create_facts|].
  case_bool_decide; [by apply preview_apply_facts|]. case_bool_decide; [by apply preview_patch_facts|].
  case_bool_decide; [by apply preview_update_facts|]. case_bool_decide; [by apply preview_delete_facts|].
  case_bool_decide; [by apply preview_remote_facts|]. unfold previews. by satisfies_step.
Qed.
End previews.

(** ** What a commit has seen before it writes *)

Section checks.
Context {G : GoLib} {Q : QuantityLib} {U : UnstructuredLib}.

(** A dry run of the operation was answered with an object that the SafeWrite
    validation accepts as the successor of the live one. *)
Definition dry_run_is_safe (p : Principal) (op : Operation) (es : list event) : Prop :=
  exists op' previous out, carries op op' /\ dry_run_of p op op' out es /\ compared_with p op es previous /\
    validateSafeTransition previous (VMap out) = Ok () /\
    (is_service (op_Action op) = true -> validateSafeServiceChange (Some out) VNull "" = Ok ()).

(** The live object is the planned one. *)
Definition target_unchanged (p : Principal) (op : Operation) (es : list event) : Prop :=
  if op_ExpectedAbsent op then
    exists err, Ev p (Get (op_target op) (op_Name op) []) (Err err) ∈ es /\ IsNotFound err = true
  else op_TargetUID op <> "" ->
    exists cur, Ev p (Get (op_target op) (op_Name op) []) (Ok cur) ∈ es /\
      u_GetUID cur = op_TargetUID op /\ u_GetResourceVersion cur = op_ResourceVersion op.

Record write_checks (config : Config) (p : Principal) (op : Operation) (es : list event) : Prop := {
  wc_generation : op_Generation op = cfg_Generation config;
  wc_policy : Policy_CheckTarget config (op_Action op) (op_Namespace op) (op_Name op) = Ok ();
  wc_review : exists e, e ∈ es /\ allows p (op_Action op) (op_Namespace op) (op_Name op) e;
  wc_get_review : Mutating (op_Action op) = true ->
    exists e, e ∈ es /\ allows p (prerequisiteGetAction (op_Action op)) (op_Namespace op) (op_Name op) e;
  wc_target : target_unchanged p op es;
  wc_safe : Mode (cfg_Spec config) = ModeSafeWrite -> dry_run_is_safe p op es
}.

Lemma seen_later {P : event -> Prop} (es es' : list event) :
  (exists e, e ∈ es /\ P e) -> exists e, e ∈ es ++ es' /\ P e.
Proof. intros (e & ? & ?). exists e. rewrite elem_of_app. auto. Qed.

Lemma dry_run_is_safe_app p op pre es post : dry_run_is_safe p op es -> dry_run_is_safe p op (pre ++ es ++ post).
Proof.
  intros (op' & previous & out & Hca & Hd & Hc & H). exists op', previous, out.
  split_and!; [done|by apply dry_run_of_app| |apply H..]. destruct Hc as [Hc|(cur & name & ? & Hi & ?)]; [by left|right].
  exists cur, name. by rewrite !elem_of_app; auto.
Qed.

Lemma target_unchanged_app p op pre es post : target_unchanged p op es -> target_unchanged p op (pre ++ es ++ post).
Proof.
  unfold target_unchanged. destruct (op_ExpectedAbsent op).
  - intros (err & Hi & ?). exists err. by rewrite !elem_of_app; auto.
  - intros H Hu. destruct (H Hu) as (cur & Hi & ?). exists cur. by rewrite !elem_of_app; auto.
Qed.

Lemma preconditions_satisfies p op :
  satisfies (checkOperationPreconditions p op) (fun r es =>
    Forall (harmless p) es /\ (r = Ok () -> target_unchanged p op es)).
Proof.
  unfold checkOperationPreconditions, target_unchanged.
  repeat satisfies_step; (split; [by repeat constructor|]); intros ?; try done; reflect_bools.
  - eexists. split; [by left|done].
  - done.
  - intros _. eexists. split; [by left|]. by split; apply dec_stable.
Qed.

Context {L : UnstructuredLaws}.

Lemma previewOperation_sees config p op :
  Mode (cfg_Spec config) = ModeSafeWrite -> (a_Action (op_Action op) ∉ ["delete"; "exec"; "attach"]) ->
  satisfies (previewOperation config p op) (fun r es => forall x, r = Ok x -> dry_run_is_safe p op es).
Proof.
  intros Hm Ha. unfold previewOperation. eapply satisfies_bind; [by apply preview_switch_facts|].
  intros r es Hr. destruct r as [pv|]; [|by satisfies_step]. satisfies_step. rewrite app_nil_r. intros x Hx.
  destruct (Hr pv eq_refl) as [Hca _ Hd]. destruct Hd as (out & Hd & Hp); [set_solver|]. destruct Hp as [Hp Hc]; [set_solver|].
  unfold preview_checks in Hx. destruct (ca_same _ _ Hca) as [Ea _].
  rewrite bool_decide_true in Hx by done. rewrite Ea, Hp in Hx. apply bind_unit_ok in Hx as [Hx _].
  apply bind_unit_ok in Hx as [Ht Hs]. exists (pv_op pv), (pv_previous pv), out. split_and!; [done..|].
  intros Hi. by rewrite Hi in Hs.
Qed.

(** Two facts about the same run. *)
Lemma satisfies_and {A} (m : K A) (P R : A -> list event -> Prop) :
  satisfies m P -> satisfies m R -> satisfies m (fun a es => P a es /\ R a es).
Proof.
  intros HP HR w h. destruct (HP w h) as (es & E1 & ?), (HR w h) as (es' & E2 & ?).
  rewrite E1 in E2. apply app_inv_head in E2 as <-. eauto.
Qed.

(** What a commit leaves in the trace: nothing that persists, or one bound
    write after every check. *)
Definition committed (config : Config) (p : Principal) (op : Operation) (es : list event) : Prop :=
  Forall (harmless p) es \/
  exists pre e, es = pre ++ [e] /\ Forall (harmless p) pre /\ ev_principal e = p /\ ev_persists e = true /\
    planned_request false op (ev_call e) /\ write_checks config p op pre.

Lemma committed_writes config p op es : committed config p op es -> writes_at_most_once p op es.
Proof. intros [H|(pre & e & -> & ? & ? & ? & ? & _)]; [by left|by apply writes_after]. Qed.

Lemma write_checks_app config p op es post : write_checks config p op es -> write_checks config p op (es ++ post).
Proof.
  intros []. constructor; [done..| | | |].
  - by apply seen_later.
  - intros Hm. by apply seen_later, wc_get_review0.
  - by apply (target_unchanged_app p op []).
  - intros Hm. by apply (dry_run_is_safe_app p op []), wc_safe0.
Qed.

Lemma committed_intro config p op pre es :
  Forall (harmless p) pre -> write_checks config p op pre -> writes_at_most_once p op es ->
  committed config p op (pre ++ es).
Proof.
  intros Hp Hc [He|(pre' & e & -> & He & ?)]; [left; by apply Forall_app|right].
  exists (pre ++ pre'), e. rewrite app_assoc. split_and!; try tauto; [by apply Forall_app|].
  by apply write_checks_app.
Qed.

(** The validation of a SafeWrite commit. *)
Lemma validation_sees config p op :
  Policy_CheckTarget config (op_Action op) (op_Namespace op) (op_Name op) = Ok () ->
  satisfies (if bool_decide (Mode (cfg_Spec config) = ModeSafeWrite)
             then let! r := previewOperation config p op in
                  kret (match r with Ok _ => Ok () | Err e => Err e end)
             else kret (Ok ()))%kube
    (fun r es => Forall (harmless p) es /\
       (r = Ok () -> Mode (cfg_Spec config) = ModeSafeWrite -> dry_run_is_safe p op es)).
Proof.
  intros Hc. case_bool_decide as Hm; [|by satisfies_step].
  eapply satisfies_bind.
  { apply satisfies_and; [apply previewOperation_harmless|]. apply previewOperation_sees; [done|].
    destruct (CheckTarget_safewrite _ _ _ _ Hc Hm). set_solver. }
  intros r es [Hh Hs]. satisfies_step. rewrite app_nil_r. split; [done|]. intros Hr _. destruct r; [|done]. eauto.
Qed.

Lemma commit_operation_satisfies config p op :
  satisfies (commit_operation config p op) (fun _ es => committed config p op es).
Proof.
  unfold commit_operation. case_bool_decide as Hg; [by apply satisfies_ret; left|].
  eapply satisfies_bind; [apply CheckAndAuthorizeOperation_satisfies|].
  intros [r c] es1 (_ & H1 & Hr); cbn in H1, Hr |- *.
  destruct r as [[]|]; [|by satisfies_step; rewrite app_nil_r; left]. destruct (Hr eq_refl) as (Hpol & Ha & Hga).
  eapply satisfies_bind; [apply preconditions_satisfies|]. intros r es2 [H2 Ht].
  destruct r as [[]|]; [|by satisfies_step; left; rewrite app_nil_r; apply Forall_app]. specialize (Ht eq_refl).
  eapply satisfies_bind; [by apply validation_sees|]. intros r es3 [H3 Hs].
  destruct r as [[]|]; [|by satisfies_step; left; rewrite app_nil_r; repeat apply Forall_app_2].
  eapply satisfies_bind; [apply executeOperation_satisfies|]. intros [res err] es4 H4.
  assert (committed config p op (es1 ++ es2 ++ es3 ++ es4 ++ [])) as Hfinal.
  { rewrite app_nil_r. replace (es1 ++ es2 ++ es3 ++ es4) with ((es1 ++ es2 ++ es3) ++ es4) by (by rewrite <- !app_assoc).
    apply committed_intro; [by repeat apply Forall_app_2| |done]. constructor; [done..| | | |].
    - by apply seen_later.
    - intros Hm. destruct (Hga Hm) as [_ ?]. by apply seen_later.
    - by apply target_unchanged_app.
    - intros Hm. rewrite app_assoc, <- (app_nil_r es3). by apply dry_run_is_safe_app, Hs. }
  repeat satisfies_step; exact Hfinal.
Qed.
End checks.

(** ** What a plan has seen before it is stored *)

Section planned.
Context {G : GoLib} {Q : QuantityLib} {U : UnstructuredLib}.

(** The operation that the input of a plan asks for. *)
Definition asked_name (input : PlanInput) : string :=
  if bool_decide (pi_Name input <> "") then pi_Name input
  else match pi_Object input with Some obj => u_NestedString obj ["metadata"; "name"] | None => "" end.
Definition asked (config : Config) (c : Capability) (input : PlanInput) : Operation := {|
  op_Action := AsAction c; op_Namespace := defaultNamespace config c (pi_Namespace input); op_Name := asked_name input;
  op_Object := pi_Object input; op_Patch := pi_Patch input; op_PatchType := pi_PatchType input; op_Replicas := pi_Replicas input;
  op_Command := pi_Command input; op_Container := pi_Container input; op_Stdin := pi_Stdin input;
  op_TimeoutSeconds := pi_TimeoutSeconds input; op_GracePeriod := pi_GracePeriodSeconds input; op_Force := pi_Force input;
  op_TargetUID := ""; op_ResourceVersion := ""; op_ExpectedAbsent := false; op_Generation := cfg_Generation config |}.

(** What is known of an operation that [plan] accepts. *)
Record plan_checks (config : Config) (codec : capabilityCodec) (p : Principal) (input : PlanInput)
    (op : Operation) (es : list event) : Prop := {
  pc_asked : exists c, decode codec (pi_CapabilityID input) = Ok c /\ carries (asked config c input) op /\
    ((a_Action (op_Action op) ∉ ["exec"; "attach"]) -> exists out, dry_run_of p (asked config c input) op out es);
  pc_writes : Mutating (op_Action op) = true;
  pc_generation : op_Generation op = cfg_Generation config;
  pc_policy : permitted config (op_Action op) (op_Namespace op);
  pc_target : Policy_CheckTarget config (op_Action op) (op_Namespace op) (asked_name input) = Ok ();
  pc_force : op_Force op = true -> Mode (cfg_Spec config) = ModeDangerous;
  pc_payload : Mode (cfg_Spec config) = ModeSafeWrite ->
    validateSafeOperation (op_Action op) (pi_Object input) (pi_Patch input) (pi_PatchType input) = Ok ();
  pc_review : exists e, e ∈ es /\ allows p (op_Action op) (op_Namespace op) (asked_name input) e;
  pc_live : bound_to_live p op es
}.

Context {L : UnstructuredLaws}.

Lemma previewOperation_facts config p op :
  satisfies (previewOperation config p op) (fun r es => forall op' preview warnings, r = Ok (op', preview, warnings) ->
    carries op op' /\ bound_to_live p op' es /\
    ((a_Action (op_Action op) ∉ ["exec"; "attach"]) -> exists out, dry_run_of p op op' out es)).
Proof.
  unfold previewOperation. eapply satisfies_bind; [apply preview_switch_facts|]. intros r es Hr.
  destruct r as [pv|]; [|by satisfies_step]. satisfies_step. rewrite app_nil_r. intros op' preview warnings H.
  unfold preview_checks in H. apply bind_unit_ok in H as [_ H]. apply bind_ok in H as (x & _ & H).
  injection H as <- _ _. destruct (Hr pv eq_refl) as [Hc Hb Hd]. split_and!; [done..|].
  intros Ha. destruct (Hd Ha) as (out & ? & _). by exists out.
Qed.

Lemma plan_prepare_checks config codec p input :
  satisfies (plan_prepare config codec p input) (fun r es => forall op preview warnings,
    r = Ok (op, preview, warnings) -> plan_checks config codec p input op es).
Proof.
  unfold plan_prepare. destruct (decode codec (pi_CapabilityID input)) as [c|] eqn:Ed; [|by satisfies_step].
  set (name := match pi_Object input with Some obj => _ | None => _ end).
  assert (name = asked_name input) as ->.
  { unfold name, asked_name. destruct (pi_Object input); by repeat case_bool_decide. }
  fold (asked config c input). do 2 (satisfies_step; [by satisfies_step|]).
  destruct (pi_Force input && bool_decide (Mode (cfg_Spec config) <> ModeDangerous)) eqn:Hforce; [by satisfies_step|].
  eapply satisfies_bind; [apply CheckAndAuthorizeOperation_satisfies|]. intros [r cache] es1 (_ & _ & Hr); cbn in Hr |- *.
  destruct r as [[]|]; [|by satisfies_step]. destruct (Hr eq_refl) as (Hpol & (e & He & Ha) & _).
  destruct (if bool_decide (Mode (cfg_Spec config) = ModeSafeWrite) then _ else _) as [[]|] eqn:Hsafe; [|by satisfies_step].
  eapply satisfies_weaken; [apply previewOperation_facts|]. intros r es2 H op preview warnings E.
  destruct (H _ _ _ E) as (Hc & Hb & Hd). destruct (ca_same _ _ Hc) as (Eact & Ens & _ & _ & _ & _ & _ & _ & Ef & Egen).
  cbn in Eact, Ens, Egen, Ef, Hd. reflect_bools.
  constructor; rewrite ?Eact, ?Ens; [|done|done|by eapply CheckTarget_permitted|done| | | |].
  - exists c. split_and!; [done..|]. intros Hn. destruct (Hd Hn) as [out Ho]. exists out.
    rewrite <- (app_nil_r es2). by apply dry_run_of_app.
  - rewrite Ef. intros Hf. rewrite Hf in Hforce. cbn [andb] in Hforce. reflect_bools. by apply dec_stable.
  - intros Hm. by rewrite bool_decide_true in Hsafe.
  - exists e. rewrite elem_of_app. eauto.
  - by apply bound_to_live_app.
Qed.
End planned.

(** ** Properties *)

Section properties.
Context {G : GoLib} {Q : QuantityLib} {U : UnstructuredLib}.

(** Planning never changes the cluster: whatever the API server answers, every
    request of [plan] is made as the caller and is a read, a review or a dry run. *)
Theorem plan_never_persists config codec store d p input w h :
  exists es, (plan config codec store d p input w h).2 = h ++ es /\ Forall (harmless p) es.
Proof.
  assert (emits (harmless p) (plan config codec store d p input)) as H.
  { unfold plan. repeat (emits_step || apply plan_prepare_harmless). }
  destruct (H w h) as (es & ? & ?). eauto.
Qed.

Lemma plan_ok {L : UnstructuredLaws} config codec store d p input w h store' out h' :
  plan config codec store d p input w h = ((store', Ok out), h') ->
  exists op es, h' = h ++ es /\ plan_checks config codec p input op es /\ po_Operation out = operationSummary op /\
    PlanStore_Create store d (SubjectKey p) op =
      (store', Ok (po_PlanID out, po_ConfirmationCode out, (dr_later d + planTTL)%Z)).
Proof.
  unfold plan, kbind. destruct (plan_prepare_checks config codec p input w h) as (es & Hes & Hc).
  destruct (plan_prepare config codec p input w h) as [r h1]; cbn in Hes, Hc. subst h1.
  destruct r as [[[op preview] warnings]|]; [|done].
  destruct (PlanStore_Create store d (SubjectKey p) op) as [s r] eqn:Ec.
  destruct r as [[[id code] t]|]; [|done]. intros [= <- <- <-]. exists op, es. split_and!; [done|by eapply Hc|done|].
  unfold po_ConfirmationCode. cbn [po_PlanID po_Confirmation cc_Code]. by destruct (create_ok _ _ _ _ _ _ _ _ Ec) as [<- _].
Qed.

(** C7: A plan is stored only for an operation that this very call checked.  It is what
    the input asks for: the action of a handle the server signed, on the named
    object, with the payload of the input ([carries] says what the preview fills in); a
    dry run of exactly that was accepted, but for commands in containers.  The write is within
    the policy, not on an object of the operator by name, allowed to the caller by Kubernetes
    for the requested name, with a payload that is safe in SafeWrite mode, forced in Dangerous mode only,
    of the current generation of the policy, and bound to the live object the caller read
    (or to its absence).  It belongs to the caller. *)
Theorem planned_operation_is_checked {L : UnstructuredLaws} config codec store d p input w h store' out h' :
  plan config codec store d p input w h = ((store', Ok out), h') ->
  exists op es stored, h' = h ++ es /\ plan_checks config codec p input op es /\
    plans store' !! po_PlanID out = Some stored /\ sp_Operation stored = op /\ sp_SubjectKey stored = SubjectKey p /\
    po_Operation out = operationSummary op.
Proof.
  intros (op & es & -> & Hc & Ho & Hcreate)%plan_ok. destruct (create_ok _ _ _ _ _ _ _ _ Hcreate) as (_ & _ & bytes & Hl).
  exists op, es. eexists. by split_and!.
Qed.

(** C8: What is planned is what is committed: the plan ID and code that [plan] returns
    make [commit], until the plan expires and while there is a free stream, run
    the very operation that [plan] stored, which is what its input asks for and what was
    previewed; and in whatever environment, the only request by which that run can change the cluster
    is the one that stands for this operation. *)
Theorem planned_operation_is_committed {L : UnstructuredLaws} config codec store d p input w h store' out h' n peek adm now :
  plan config codec store d p input w h = ((store', Ok out), h') ->
  dr_code d = Ok n -> (0 <= n < 900000)%Z -> (now <= dr_later d + planTTL)%Z -> (acquireStream adm).2 = Ok () ->
  exists op es stored store'', h' = h ++ es /\ plan_checks config codec p input op es /\
    plans store' !! po_PlanID out = Some stored /\ sp_Operation stored = op /\
    forall w2 h2, commit config peek adm store' now p
        {| ci_PlanID := po_PlanID out; ci_ConfirmationCode := po_ConfirmationCode out |} w2 h2 =
      ((store'', (commit_operation config p op w2 h2).1), (commit_operation config p op w2 h2).2) /\
      exists es2, (commit_operation config p op w2 h2).2 = h2 ++ es2 /\ writes_at_most_once p op es2.
Proof.
  intros (op & es & -> & Hch & Ho & Hcreate)%plan_ok Hd Hn Hnow Hs.
  destruct (create_ok _ _ _ _ _ _ _ _ Hcreate) as (_ & _ & bytes & Hl).
  destruct (create_consume _ _ _ _ _ _ _ _ _ Hd Hn Hcreate) as [_ Hcons]. destruct (Hcons now Hnow) as [store'' Hc].
  exists op, es. eexists _, store''. split_and!; [done..|exact Hl|done|]. intros w2 h2. split.
  - unfold commit. rewrite Hs. cbn [ci_PlanID ci_ConfirmationCode].
    replace (if isRemote _ _ _ then Ok () else Ok ()) with (Ok () : result go_error unit) by (by destruct (isRemote _ _ _)).
    rewrite Hc. unfold kbind. by destruct (commit_operation config p op w2 h2).
  - destruct (commit_operation_satisfies config p op w2 h2) as (es2 & Hes & Hcm). exists es2. split; [done|]. by eapply committed_writes.
Qed.

(** A commit that finds no free stream leaves the plan in the store and sends nothing. *)
Theorem busy_server_keeps_plan config peek adm store now p input w h err :
  isRemote peek (ci_PlanID input) (SubjectKey p) = true -> (acquireStream adm).2 = Err err ->
  commit config peek adm store now p input w h =
    ((store, ({| co_Operation := []; co_Result := VNull |}, Some err)), h).
Proof. intros Hr Hs. unfold commit. by rewrite Hr, Hs. Qed.

(** A restart is not limited to the restart annotation: a [restart] operation that
    carries a patch sends that patch, with only the planned version added. *)
Theorem restart_applies_any_patch config p op patch data w h :
  a_Action (op_Action op) = "restart" -> op_Patch op = VMap patch -> op_ResourceVersion op <> "" ->
  let metadata := obj_set (map_or_nil (obj_index patch "metadata")) "resourceVersion" (VStr (op_ResourceVersion op)) in
  Marshal (VMap (obj_set patch "metadata" (VMap metadata))) = Some data ->
  exists answer, executeOperation config p op w h =
    (written answer, h ++ [Ev p (Patch (op_target op) (op_Name op) MergePatchType data false None []) answer]).
Proof.
  intros Ha Hp Hrv metadata Hd. unfold executeOperation, preparePatch, kbind, kret, finish_patch. rewrite Ha, Hp.
  decide_closed. cbn [fst addPatchResourceVersion]. rewrite bool_decide_true by done. cbn [mbind result_bind].
  fold metadata. rewrite Hd. unfold request. eexists. reflexivity.
Qed.

(** A commit that changes something has consumed a live plan of its caller. *)
Lemma commit_needs_plan {L : UnstructuredLaws} config peek adm store now p input w h store' r h' :
  commit config peek adm store now p input w h = ((store', r), h') ->
  exists es, h' = h ++ es /\
    (Forall (harmless p) es \/
     exists stored, plans store !! ci_PlanID input = Some stored /\ (now <= sp_ExpiresAt stored)%Z /\
       sp_SubjectKey stored = SubjectKey p /\ validConfirmationCode (ci_ConfirmationCode input) = true /\
       sp_ConfirmationHash stored = confirmationHash (ci_PlanID input) (ci_ConfirmationCode input) /\
       plans store' !! ci_PlanID input = None /\ committed config p (sp_Operation stored) es).
Proof.
  unfold commit. destruct (if isRemote _ _ _ then _ else _) as [?|err].
  2: { intros [= <- <- <-]. exists []. rewrite app_nil_r. split; [done|]. left. constructor. }
  destruct (PlanStore_Consume _ _ _ _ _) as [s' [op|err]] eqn:Ec.
  2: { intros [= <- <- <-]. exists []. rewrite app_nil_r. split; [done|]. left. constructor. }
  unfold kbind, kret. destruct (commit_operation_satisfies config p op w h) as (es & Hes & Hc).
  destruct (commit_operation config p op w h) as [out h1]. cbn in Hes, Hc. intros [= <- _ <-].
  exists es. split; [done|]. right. apply consume_ok_iff in Ec as (stored & ? & ? & ? & ? & ? & -> & ->).
  exists stored. split_and!; try done. apply lookup_delete_eq.
Qed.

(** C1: No write without approval: whatever the environment does, a [commit] sends
    at most one request that can change the cluster.  If it sends one, it is its
    last request, it is made as the caller, it is the planned change on the
    planned object, conditional on the planned version; the store held a live
    plan of this caller with this confirmation code, which is now gone; and
    before it, in the same call, the policy generation, the policy, Kubernetes
    RBAC and the live object were checked again, and in SafeWrite mode the
    validation accepted the API server's dry-run answer. *)
Theorem committed_write_was_approved {L : UnstructuredLaws} config peek adm store now p input w h store' r h' :
  commit config peek adm store now p input w h = ((store', r), h') ->
  exists es, h' = h ++ es /\
    (Forall (harmless p) es \/
     exists stored, plans store !! ci_PlanID input = Some stored /\ (now <= sp_ExpiresAt stored)%Z /\
       sp_SubjectKey stored = SubjectKey p /\ validConfirmationCode (ci_ConfirmationCode input) = true /\
       sp_ConfirmationHash stored = confirmationHash (ci_PlanID input) (ci_ConfirmationCode input) /\
       plans store' !! ci_PlanID input = None /\ committed config p (sp_Operation stored) es).
Proof. apply commit_needs_plan. Qed.
End properties.

(** ** Witnesses *)

Module OperationsWitness.
Export PolicyWitness.

Definition metadata_of (o : object) : object := map_or_nil (obj_index o "metadata").
Definition get_meta (key : string) (o : object) : string := string_or_zero (obj_index (metadata_of o) key).
(** A setter does nothing to metadata that are not a map. *)
Definition set_meta (key : string) (o : object) (s : string) : object :=
  match obj_get o "metadata" with
  | None | Some (VMap _) => obj_set o "metadata" (VMap (obj_set (metadata_of o) key (VStr s)))
  | _ => o
  end.
Fixpoint nested (o : object) (path : list string) : string :=
  match path with
  | [] => ""
  | [k] => string_or_zero (obj_index o k)
  | k :: path' => nested (map_or_nil (obj_index o k)) path'
  end.

(** Accessors over plain JSON objects. *)
#[export] Instance plain_Unstructured : UnstructuredLib := {|
  u_GetName := get_meta "name";
  u_GetLabels o := omap (fun kv => match kv.2 with VStr s => Some (kv.1, s) | _ => None end)
                        (map_or_nil (obj_index (metadata_of o) "labels"));
  u_GetUID := get_meta "uid";
  u_GetResourceVersion := get_meta "resourceVersion";
  u_GetAPIVersion o := string_or_zero (obj_index o "apiVersion");
  u_GetKind o := string_or_zero (obj_index o "kind");
  u_SetName := set_meta "name";
  u_SetNamespace := set_meta "namespace";
  u_SetResourceVersion := set_meta "resourceVersion";
  u_SetGroupVersionKind o gvr kind := obj_set (obj_set o "apiVersion" (VStr (Group gvr +:+ ("/" +:+ Version gvr)))) "kind" (VStr kind);
  u_NestedString := nested
|}.

Lemma metadata_of_set o key s :
  metadata_of (set_meta key o s) = obj_set (metadata_of o) key (VStr s) \/ set_meta key o s = o /\ metadata_of o = [].
Proof.
  assert (metadata_of (obj_set o "metadata" (VMap (obj_set (metadata_of o) key (VStr s)))) = obj_set (metadata_of o) key (VStr s)) as H.
  { unfold metadata_of at 1. by rewrite obj_index_set. }
  unfold set_meta. destruct (obj_get o "metadata") as [v|] eqn:E; [destruct v|]; try (by left);
    (right; split; [done|]; unfold metadata_of, obj_index; by rewrite E).
Qed.

#[export] Instance plain_UnstructuredLaws : UnstructuredLaws.
Proof.
  split; intros o n; [intros _|]; cbn; unfold get_meta.
  - destruct (metadata_of_set o "name" n) as [->|[-> ->]]; [left; by rewrite obj_index_set|by right].
  - destruct (metadata_of_set o "namespace" n) as [->|[-> _]]; [|done]. unfold obj_index. by rewrite obj_get_set_ne.
Qed.

Definition patch_cap : Capability := {|
  ID := ""; c_Group := "apps"; c_Version := "v1"; c_Resource := "deployments"; c_Subresource := "";
  c_Kind := "Deployment"; c_Action := "patch"; c_Verb := "patch"; c_Namespaced := true; Categories := [] |}.
Definition issued : string * capabilityCodec :=
  default ("", CapabilityWitness.fresh) (encode CapabilityWitness.fresh patch_cap).

Definition web : object :=
  [("apiVersion", VStr "apps/v1"); ("kind", VStr "Deployment");
   ("metadata", VMap [("name", VStr "web"); ("uid", VStr "u1"); ("resourceVersion", VStr "7")]);
   ("spec", VMap [("replicas", VInt 2)])].

(** A cluster that holds one Deployment and accepts every change of it. *)
Definition live_cluster : env := fun A h p c =>
  match c in call A return A with
  | Get _ _ _ | Patch _ _ _ _ _ _ _ => Ok web
  | c' => open_cluster _ h p c'
  end.

Definition paused : PlanInput := {|
  pi_CapabilityID := issued.1; pi_Namespace := "prod"; pi_Name := "web"; pi_Object := None;
  pi_Patch := VMap [("spec", VMap [("paused", VBool true)])]; pi_PatchType := "merge"; pi_Replicas := None;
  pi_Command := []; pi_Container := ""; pi_Stdin := ""; pi_TimeoutSeconds := 0;
  pi_GracePeriodSeconds := None; pi_Force := false |}.
Definition demo_draw : draw :=
  {| dr_id := Ok (replicate 24 1%N); dr_code := Ok 23456%Z; dr_now := 100; dr_later := 100 |}.

Definition planned : (PlanStore * result go_error PlanOutput) * list event :=
  plan (demo_config ModeSafeWrite) issued.2 (NewPlanStore 10) demo_draw alice paused live_cluster [].
Definition planned_store : PlanStore := planned.1.1.
Definition planned_out : PlanOutput :=
  match planned.1.2 with
  | Ok out => out
  | Err _ => {| po_PlanID := ""; po_ExpiresAt := ""; po_Operation := []; po_Preview := VNull; po_Warnings := [];
                po_Confirmation := {| cc_Required := false; cc_Code := ""; cc_Instruction := "" |} |}
  end.

Lemma planned_runs :
  plan (demo_config ModeSafeWrite) issued.2 (NewPlanStore 10) demo_draw alice paused live_cluster [] =
  ((planned_store, Ok planned_out), planned.2).
Proof. vm_compute. reflexivity. Qed.

Lemma planned_operation_is_checked_witness :
  exists op es stored, planned.2 = [] ++ es /\
    plan_checks (demo_config ModeSafeWrite) issued.2 alice paused op es /\
    plans planned_store !! po_PlanID planned_out = Some stored /\ sp_Operation stored = op /\
    sp_SubjectKey stored = SubjectKey alice /\ po_Operation planned_out = operationSummary op.
Proof. eapply planned_operation_is_checked. exact planned_runs. Defined.

Lemma planned_operation_is_committed_witness :
  exists op es stored store'', planned.2 = [] ++ es /\ plan_checks (demo_config ModeSafeWrite) issued.2 alice paused op es /\
    plans planned_store !! po_PlanID planned_out = Some stored /\ sp_Operation stored = op /\
    forall w2 h2, commit (demo_config ModeSafeWrite) planned_store None planned_store 200 alice
        {| ci_PlanID := po_PlanID planned_out; ci_ConfirmationCode := po_ConfirmationCode planned_out |} w2 h2 =
      ((store'', (commit_operation (demo_config ModeSafeWrite) alice op w2 h2).1),
       (commit_operation (demo_config ModeSafeWrite) alice op w2 h2).2) /\
      exists es2, (commit_operation (demo_config ModeSafeWrite) alice op w2 h2).2 = h2 ++ es2 /\ writes_at_most_once alice op es2.
Proof.
  eapply (planned_operation_is_committed _ _ _ _ _ _ _ _ _ _ _ 23456 planned_store None 200);
    [exact planned_runs|reflexivity|lia|vm_compute; discriminate|reflexivity].
Defined.

Definition demo_commit : CommitInput :=
  {| ci_PlanID := po_PlanID planned_out; ci_ConfirmationCode := po_ConfirmationCode planned_out |}.
Definition ran : (PlanStore * (CommitOutput * option go_error)) * list event :=
  commit (demo_config ModeSafeWrite) planned_store None planned_store 200 alice demo_commit live_cluster [].

(** The committed patch is the last of its requests, and nothing failed. *)
Example demo_commit_writes :
  ran.1.2.2 = None /\ (ev_persists <$> ran.2) = [false; false; false; false; false; false; false; true].
Proof. vm_compute. split; reflexivity. Qed.

Lemma committed_write_was_approved_witness :
  exists es, ran.2 = [] ++ es /\
    (Forall (harmless alice) es \/
     exists stored, plans planned_store !! ci_PlanID demo_commit = Some stored /\ (200 <= sp_ExpiresAt stored)%Z /\
       sp_SubjectKey stored = SubjectKey alice /\ validConfirmationCode (ci_ConfirmationCode demo_commit) = true /\
       sp_ConfirmationHash stored = confirmationHash (ci_PlanID demo_commit) (ci_ConfirmationCode demo_commit) /\
       plans ran.1.1 !! ci_PlanID demo_commit = None /\
       committed (demo_config ModeSafeWrite) alice (sp_Operation stored) es).
Proof.
  apply (committed_write_was_approved (demo_config ModeSafeWrite) planned_store None planned_store 200 alice demo_commit
           live_cluster [] ran.1.1 ran.1.2 ran.2). unfold ran. by destruct (commit _ _ _ _ _ _ _ _ _) as [[? ?] ?].
Defined.

(** A stored restart that carries a patch, and a stored command. *)
Definition stored_op (action : string) (patch : value) : Operation := {|
  op_Action := deployments "patch" action; op_Namespace := "prod"; op_Name := "web"; op_Object := None; op_Patch := patch;
  op_PatchType := ""; op_Replicas := None; op_Command := ["ls"]; op_Container := "app"; op_Stdin := "";
  op_TimeoutSeconds := 0; op_GracePeriod := None; op_Force := false; op_TargetUID := "u1";
  op_ResourceVersion := "7"; op_ExpectedAbsent := false; op_Generation := 3 |}.

Definition image_patch : object := [("spec", VMap [("image", VStr "evil")])].

Lemma restart_applies_any_patch_witness :
  exists answer, executeOperation (demo_config ModeDangerous) alice (stored_op "restart" (VMap image_patch)) live_cluster [] =
    (written answer, [] ++ [Ev alice (Patch (op_target (stored_op "restart" (VMap image_patch))) "web" MergePatchType
       (default "" (Marshal (VMap (image_patch ++ [("metadata", VMap [("resourceVersion", VStr "7")])])))) false None []) answer]).
Proof.
  apply (restart_applies_any_patch (demo_config ModeDangerous) alice (stored_op "restart" (VMap image_patch)) image_patch);
    [reflexivity|reflexivity|discriminate|vm_compute; reflexivity].
Defined.

Definition exec_store : PlanStore :=
  (PlanStore_Create (NewPlanStore 10) demo_draw (SubjectKey alice) (stored_op "exec" VNull)).1.
Definition exec_commit : CommitInput :=
  {| ci_PlanID := base64_Encode RawURLEncoding (replicate 24 1%N); ci_ConfirmationCode := "123456" |}.

Lemma busy_server_keeps_plan_witness :
  exists err, commit (demo_config ModeDangerous) exec_store (Some (newRequestAdmission 1)) exec_store 200 alice exec_commit
    live_cluster [] = ((exec_store, ({| co_Operation := []; co_Result := VNull |}, Some err)), []).
Proof. eexists. apply busy_server_keeps_plan; [vm_compute; reflexivity|reflexivity]. Defined.
End OperationsWitness.
