(* ===== verification/AuditTrail.v ===== *)
(** * The audit trail (src/internal/server/audit.go)

    What is counted and logged for an authentication, a rejected request and
    a tool call, and which target a call is said to have.  Counters, histograms
    and the log are sinks: a function that writes to them returns what it
    writes, in order.  Durations read from the clock are arguments. *)

From Stdlib Require Import String.
From S2P Require Import Prelude GoStrings Json Errors Config Kube Policy Capability PlanStore Auth Operations.

Definition auditSchemaVersion : string := "v1".

Record auditTarget := {
  at_Action : string; at_APIGroup : string; at_APIVersion : string; at_Resource : string;
  at_Namespace : string; at_Name : string; at_Streaming : bool
}.
Definition no_target : auditTarget := {|
  at_Action := ""; at_APIGroup := ""; at_APIVersion := ""; at_Resource := ""; at_Namespace := ""; at_Name := "";
  at_Streaming := false
|}.
(** [target.Streaming = b]. *)
Definition set_streaming (t : auditTarget) (b : bool) : auditTarget := {|
  at_Action := at_Action t; at_APIGroup := at_APIGroup t; at_APIVersion := at_APIVersion t; at_Resource := at_Resource t;
  at_Namespace := at_Namespace t; at_Name := at_Name t; at_Streaming := b
|}.

(** [slog.Attr]: a key and a value. *)
Inductive attr_value := AString (s : string) | AInt64 (z : Z) | ABool (b : bool).
Abbreviation attr := (string * attr_value)%type.

Inductive telemetry :=
| Inc (counter : string) (labels : list string)
| Observe (histogram : string) (labels : list string) (duration : Z)
| LogAttrs (message : string) (attributes : list attr).

(** ** Records *)

Section records.
Context {G : GoLib} {Q : QuantityLib}.

(** An attribute that is left out when it is empty. *)
Definition attr_unless_empty (key value : string) : list attr :=
  if bool_decide (value <> "") then [(key, AString value)] else [].

Definition actor_subject (p : Principal) : string :=
  let subject := IdentityKey p in
  if (16 <? String.length subject)%nat then substring 0 16 subject else subject.

Definition actor_attributes (principal : option Principal) : list attr :=
  match principal with
  | None => []
  | Some p => [("actor_username", AString (Username p)); ("actor_uid", AString (P_UID p)); ("actor_subject", AString (actor_subject p))]
  end.

Definition target_attributes (t : auditTarget) : list attr :=
  attr_unless_empty "action" (at_Action t) ++ attr_unless_empty "api_group" (at_APIGroup t)
  ++ attr_unless_empty "api_version" (at_APIVersion t) ++ attr_unless_empty "resource" (at_Resource t)
  ++ attr_unless_empty "target_namespace" (at_Namespace t) ++ attr_unless_empty "target_name" (at_Name t)
  ++ (if at_Streaming t then [("streaming", ABool true)] else []).

Definition emitAudit (config : Config) (principal : option Principal) (event tool : string) (target : auditTarget)
    (decision reason : string) (duration : Z) (extra : list attr) : telemetry :=
  LogAttrs "MCP security audit"
    ([("audit_schema", AString auditSchemaVersion); ("event", AString event); ("decision", AString decision);
      ("reason", AString reason); ("server_namespace", AString (cfg_Namespace config));
      ("server_name", AString (cfg_Name config)); ("mode", AString (Mode (cfg_Spec config)));
      ("duration_ms", AInt64 (Z.quot duration 1000000))]
     ++ actor_attributes principal ++ attr_unless_empty "tool" tool ++ target_attributes target ++ extra).

Definition recordAuthentication (config : Config) (principal : option Principal) (decision reason : string) (elapsed : Z)
    : list telemetry :=
  [Inc "supek8smcp_authentication_attempts_total" [decision; reason];
   Inc "supek8smcp_audit_events_total" ["authentication"; ""; decision; reason];
   emitAudit config principal "authentication" "" no_target decision reason elapsed []].

(** [elapsed] and [later] are the two readings of [time.Since(started)]. *)
Definition recordTool (config : Config) (principal : Principal) (tool : string) (target : auditTarget)
    (err : option go_error) (elapsed later : Z) : list telemetry :=
  let '(decision, reason) := auditOutcome err in
  [Inc "supek8smcp_tool_calls_total" [tool; tool_result err];
   Observe "supek8smcp_tool_duration_seconds" [tool] elapsed;
   Inc "supek8smcp_audit_events_total" ["tool_call"; tool; decision_string decision; reason];
   emitAudit config (Some principal) "tool_call" tool target (decision_string decision) reason later []].

Definition recordRateLimit (config : Config) (principal : option Principal) (reason : string) (elapsed : Z) : list telemetry :=
  [Inc "supek8smcp_rate_limit_rejections_total" [reason];
   Inc "supek8smcp_audit_events_total" ["request"; ""; "deny"; "rate_limited"];
   emitAudit config principal "request" "" no_target "deny" "rate_limited" elapsed [("rate_limit_reason", AString reason)]].
End records.

(** ** Targets *)

Definition stringValue (values : object) (key : string) : string := TrimSpace (string_or_zero (obj_index values key)).

Definition auditTargetFromSummary (summary : object) : auditTarget := {|
  at_Action := stringValue summary "action"; at_APIGroup := stringValue summary "group";
  at_APIVersion := stringValue summary "version"; at_Resource := stringValue summary "resource";
  at_Namespace := stringValue summary "namespace"; at_Name := stringValue summary "name"; at_Streaming := false
|}.

Section targets.
Context {Q : QuantityLib} {U : UnstructuredLib}.

Definition auditTargetForCapability (config : Config) (codec : capabilityCodec) (id namespace name : string) : auditTarget :=
  match decode codec id with
  | Err _ =>
    {| at_Action := ""; at_APIGroup := ""; at_APIVersion := ""; at_Resource := ""; at_Namespace := namespace; at_Name := name;
       at_Streaming := false |}
  | Ok capability =>
    let namespace := if bool_decide (namespace = "") then defaultNamespace config capability namespace else namespace in
    let resource := if bool_decide (c_Subresource capability <> "")
                    then c_Resource capability +:+ ("/" +:+ c_Subresource capability) else c_Resource capability in
    {| at_Action := c_Action capability; at_APIGroup := c_Group capability; at_APIVersion := c_Version capability;
       at_Resource := resource; at_Namespace := namespace; at_Name := name; at_Streaming := false |}
  end.

Definition auditTargetForPlan (config : Config) (codec : capabilityCodec) (input : PlanInput) : auditTarget :=
  let name := match pi_Object input with
              | Some obj => if bool_decide (pi_Name input = "") then u_NestedString obj ["metadata"; "name"] else pi_Name input
              | None => pi_Name input
              end in
  auditTargetForCapability config codec (pi_CapabilityID input) (pi_Namespace input) name.
End targets.

(** ** What a record says *)

(** The keys of a record, in order; those of the second half may be left out. *)
Definition audit_keys : list string :=
  ["audit_schema"; "event"; "decision"; "reason"; "server_namespace"; "server_name"; "mode"; "duration_ms";
   "actor_username"; "actor_uid"; "actor_subject"; "tool"; "action"; "api_group"; "api_version"; "resource";
   "target_namespace"; "target_name"; "streaming"].

(** An empty value is not logged. *)
Definition shown (s : string) : option attr_value := if bool_decide (s = "") then None else Some (AString s).

Lemma attr_get_here key value rest :
  obj_get rest key = None -> obj_get (attr_unless_empty key value ++ rest) key = shown value.
Proof.
  intros Hr. unfold attr_unless_empty, shown. destruct (decide (value = "")) as [->|Hv]; [by cbn|].
  rewrite bool_decide_true, bool_decide_false by done. cbn. by rewrite bool_decide_true.
Qed.

Lemma attr_get_other key value rest k : k <> key -> obj_get (attr_unless_empty key value ++ rest) k = obj_get rest k.
Proof.
  intros Hk. unfold attr_unless_empty. case_bool_decide; [|done]. cbn. by rewrite bool_decide_false.
Qed.

Lemma obj_get_missing {A} (l : list (string * A)) k : (k ∉ keys l) -> obj_get l k = None.
Proof.
  induction l as [|[k' v] l IH]; intros Hk; [done|]. cbn in *. apply not_elem_of_cons in Hk as [? ?].
  rewrite bool_decide_false by done. by apply IH.
Qed.

Lemma obj_get_app_missing {A} (l rest : list (string * A)) k : (k ∉ keys l) -> obj_get (l ++ rest) k = obj_get rest k.
Proof.
  induction l as [|[k' v] l IH]; intros Hk; [done|]. cbn in *. apply not_elem_of_cons in Hk as [? ?].
  rewrite bool_decide_false by done. by apply IH.
Qed.

Lemma keys_unless_empty key value : keys (attr_unless_empty key value) `sublist_of` [key].
Proof. unfold attr_unless_empty. case_bool_decide; cbn; repeat constructor. Qed.

(** Finds one attribute among those of the target. *)
Ltac target_field t :=
  repeat (rewrite attr_get_other by done); try apply attr_get_here;
  repeat (rewrite attr_get_other by done); by destruct (at_Streaming t).

Section faithful.
Context {G : GoLib} {Q : QuantityLib}.

Lemma target_keys t :
  keys (target_attributes t) `sublist_of`
    ["action"; "api_group"; "api_version"; "resource"; "target_namespace"; "target_name"; "streaming"].
Proof.
  unfold target_attributes, keys. rewrite !fmap_app.
  apply (sublist_app _ ["action"]); [apply keys_unless_empty|].
  apply (sublist_app _ ["api_group"]); [apply keys_unless_empty|].
  apply (sublist_app _ ["api_version"]); [apply keys_unless_empty|].
  apply (sublist_app _ ["resource"]); [apply keys_unless_empty|].
  apply (sublist_app _ ["target_namespace"]); [apply keys_unless_empty|].
  apply (sublist_app _ ["target_name"]); [apply keys_unless_empty|].
  destruct (at_Streaming t); repeat constructor.
Qed.

(** The attributes of a record without the extra ones. *)
Definition record_of (config : Config) (principal : option Principal) (event tool : string) (target : auditTarget)
    (decision reason : string) (duration : Z) (extra : list attr) : list attr :=
  match emitAudit config principal event tool target decision reason duration extra with
  | LogAttrs _ attributes => attributes
  | _ => []
  end.

Lemma record_keys config principal event tool target decision reason duration extra :
  keys (record_of config principal event tool target decision reason duration extra) `sublist_of` (audit_keys ++ keys extra).
Proof.
  unfold record_of, emitAudit, keys. rewrite !fmap_app. cbn [fmap list_fmap fst app]. unfold audit_keys. cbn [app].
  do 8 constructor. apply (sublist_app _ ["actor_username"; "actor_uid"; "actor_subject"]).
  { destruct principal; cbn; repeat constructor. }
  apply (sublist_app _ ["tool"]); [apply keys_unless_empty|].
  apply (sublist_app _ ["action"; "api_group"; "api_version"; "resource"; "target_namespace"; "target_name"; "streaming"]);
    [apply target_keys|done].
Qed.

Lemma record_lookup config p event tool t decision reason duration k :
  k ∈ ["action"; "api_group"; "api_version"; "resource"; "target_namespace"; "target_name"; "streaming"] ->
  obj_get (record_of config p event tool t decision reason duration []) k = obj_get (target_attributes t) k.
Proof.
  intros Hk. unfold record_of, emitAudit. rewrite app_nil_r.
  rewrite (obj_get_app_missing [_; _; _; _; _; _; _; _]) by (cbn; set_solver).
  rewrite obj_get_app_missing by (destruct p; cbn; set_solver).
  apply attr_get_other. set_solver.
Qed.

(** A record is readable and complete: no key occurs twice, so a log parser reads
    every attribute, the outcome and the actor are those given, and each part of
    the target is there exactly when it is not empty. *)
Theorem audit_record_is_faithful config p event tool t decision reason duration :
  let attributes := record_of config (Some p) event tool t decision reason duration [] in
  NoDup (keys attributes) /\
  obj_get attributes "event" = Some (AString event) /\ obj_get attributes "decision" = Some (AString decision) /\
  obj_get attributes "reason" = Some (AString reason) /\ obj_get attributes "mode" = Some (AString (Mode (cfg_Spec config))) /\
  obj_get attributes "actor_username" = Some (AString (Username p)) /\ obj_get attributes "actor_uid" = Some (AString (P_UID p)) /\
  obj_get attributes "tool" = shown tool /\
  obj_get attributes "action" = shown (at_Action t) /\ obj_get attributes "api_group" = shown (at_APIGroup t) /\
  obj_get attributes "api_version" = shown (at_APIVersion t) /\ obj_get attributes "resource" = shown (at_Resource t) /\
  obj_get attributes "target_namespace" = shown (at_Namespace t) /\ obj_get attributes "target_name" = shown (at_Name t) /\
  obj_get attributes "streaming" = (if at_Streaming t then Some (ABool true) else None).
Proof.
  intros attributes.
  assert (obj_get (target_attributes t) "tool" = None) as Ht.
  { apply obj_get_missing. intros Hin. eapply elem_of_sublist in Hin; [|apply target_keys]. set_solver. }
  assert (NoDup (keys attributes)) as Hnd.
  { eapply sublist_NoDup; [|apply record_keys]. by apply (bool_decide_unpack _). }
  assert (obj_get attributes "tool" = shown tool) as Htool.
  { unfold attributes, record_of, emitAudit. rewrite app_nil_r. by apply attr_get_here. }
  split_and!; try reflexivity; try done;
    unfold attributes; rewrite record_lookup by set_solver; unfold target_attributes; target_field t.
Qed.
End faithful.
