(* ===== verification/Catalog.v ===== *)
(** * The capability catalogue (src/internal/server/catalog.go and [search] in reads.go)

    Discovery lists what the cluster serves; the catalogue turns it into
    capabilities, keeps them for five minutes, and [searchCatalog] returns
    the pages of those the caller may use.  The cache is shared by all
    requests: [list_enter] is what one of them does under the mutex,
    [refresh] what the one that found the cache stale does after it. *)

From Stdlib Require Import String Ascii.
From S2P Require Import Prelude GoStrings Crypto Json Errors Config Kube Policy Capability Operations.

(** [schema.ParseGroupVersion] and [schema.GroupVersion.String] of apimachinery. *)
Class GroupVersionLib := {
  ParseGroupVersion : string -> result go_error (string * string);
  gv_String : string -> string -> string
}.

(** [sort.Slice] does not say where equal elements go, so it is an operation
    of which only the documented contract is known. *)
Class SortLib := { sort_Slice : forall A, (A -> A -> bool) -> list A -> list A }.
Arguments sort_Slice {_ A}.
Class SortLaws {S : SortLib} : Prop := {
  sort_Slice_perm A (less : A -> A -> bool) l : sort_Slice less l ≡ₚ l
}.

(** ** Preferred versions *)

Section discovery.
Context {V : GroupVersionLib}.

(** The version the server prefers for each group. *)
Definition preferred_version (group : APIGroup) : string :=
  if bool_decide (ag_PreferredGroupVersion group = "") && bool_decide (ag_PreferredVersion group <> "")
  then gv_String (ag_Name group) (ag_PreferredVersion group)
  else ag_PreferredGroupVersion group.

Definition preferred_map (groups : list (option APIGroup)) : gmap string string :=
  foldl (fun m g =>
    match g with
    | None => m
    | Some group =>
      if bool_decide (preferred_version group <> "") then <[ag_Name group := preferred_version group]> m else m
    end) ∅ groups.

Definition is_preferred (preferred : gmap string string) (l : APIResourceList) : bool :=
  match ParseGroupVersion (GroupVersion l) with
  | Err _ => false
  | Ok (group, _) =>
    match preferred !! group with
    | None => true
    | Some wanted => bool_decide (wanted = GroupVersion l)
    end
  end.

Definition preferredResourceLists (groups : list (option APIGroup)) (resources : list (option APIResourceList))
    : list APIResourceList :=
  let preferred := preferred_map groups in
  omap (fun r => match r with
                 | Some l => if is_preferred preferred l then Some l else None
                 | None => None
                 end) resources.

(** ** From discovery to actions *)

Record resourceInfo := {
  ri_kind : string; ri_namespaced : bool; ri_categories : list string; ri_verbs : list string
}.

Definition info_of (r : APIResource) (verbs : list string) : resourceInfo :=
  {| ri_kind := ar_Kind r; ri_namespaced := ar_Namespaced r; ri_categories := ar_Categories r; ri_verbs := verbs |}.

Definition base_key (group version name : string) : string := gv_String group version +:+ ("/" +:+ name).

Definition baseResources (resources : list APIResourceList) : gmap string resourceInfo :=
  foldl (fun m l =>
    match ParseGroupVersion (GroupVersion l) with
    | Err _ => m
    | Ok (group, version) =>
      foldl (fun m r => if Contains (ar_Name r) "/" then m
                        else <[base_key group version (ar_Name r) := info_of r (ar_Verbs r)]> m) m (APIResources l)
    end) ∅ resources.

Definition main_verbs : list string := ["get"; "list"; "watch"; "create"; "update"; "patch"; "delete"].

(** The name of the action a verb on a (sub)resource stands for, if any. *)
Definition verb_action (subresource verb : string) : option string :=
  if bool_decide (subresource = "") && negb (bool_decide (verb ∈ main_verbs)) then None
  else if bool_decide (subresource = "log") then
    if bool_decide (verb <> "get") then None else Some "logs"
  else if bool_decide (subresource ∈ ["exec"; "attach"]) then
    if bool_decide (verb <> "create") then None else Some subresource
  else if bool_decide (subresource = "scale") then
    if bool_decide (verb <> "patch") then None else Some "scale"
  else if bool_decide (subresource <> "") then None
  else Some verb.

Definition resource_actions (base : gmap string resourceInfo) (group version : string) (r : APIResource)
    : list (Action * list string) :=
  let '(name, rest) := SplitN2 (ar_Name r) "/"%char in
  let subresource := default "" rest in
  let info := default (info_of r []) (base !! base_key group version name) in
  let action resource sub verb act :=
    ({| a_GVR := {| Group := group; Version := version; Resource := resource |}; a_Kind := ri_kind info;
        a_Subresource := sub; a_Verb := verb; a_Action := act; a_Namespaced := ri_namespaced info |}, ri_categories info) in
  omap (fun verb => action name subresource verb <$> verb_action subresource verb) (ar_Verbs r)
  ++ (if bool_decide (subresource = "") && bool_decide ("patch" ∈ ri_verbs info) && bool_decide (group = "apps")
         && bool_decide (ar_Name r ∈ ["deployments"; "statefulsets"; "daemonsets"])
      then [action (ar_Name r) "" "patch" "restart"] else [])
  ++ (if bool_decide (subresource = "") && bool_decide ("patch" ∈ ri_verbs info)
      then [action (ar_Name r) "" "patch" "apply"] else []).

Definition catalog_actions (resources : list APIResourceList) : list (Action * list string) :=
  let base := baseResources resources in
  mjoin ((fun l =>
    match ParseGroupVersion (GroupVersion l) with
    | Err _ => []
    | Ok (group, version) => mjoin (resource_actions base group version <$> APIResources l)
    end) <$> resources).

(** The handles are issued in that order; [None] is the panic of [encode]. *)
Fixpoint issue (codec : capabilityCodec) (actions : list (Action * list string))
    : option (list Capability * capabilityCodec) :=
  match actions with
  | [] => Some ([], codec)
  | (a, categories) :: rest =>
    '(cap, codec1) ← capabilityFromAction codec a categories;
    '(caps, codec2) ← issue codec1 rest;
    Some (cap :: caps, codec2)
  end.

Definition sort_text (c : Capability) : string :=
  c_Group c +:+ ("/" +:+ (c_Version c +:+ ("/" +:+ (c_Resource c +:+ ("/" +:+ c_Action c))))).
Definition catalog_less (a b : Capability) : bool := String.ltb (sort_text a) (sort_text b).
End discovery.

(** ** The cache *)

(** [refreshing] says whether the channel is there; [lastPartial] may be nil. *)
Record catalogCache := {
  refreshing : bool;
  retryAt : Z;
  lastError : option go_error;
  lastPartial : option (list Capability);
  loadedAt : Z;
  items : list Capability;
  cacheTime : Z
}.

Definition newCatalogCache : catalogCache :=
  {| refreshing := false; retryAt := 0; lastError := None; lastPartial := None; loadedAt := 0; items := [];
     cacheTime := 5 * minute |}.

(** What a request finds under the mutex; [since] and [now] are the two
    readings of the clock. *)
Inductive entered :=
| Hit (caps : list Capability)
| Backoff (r : result go_error (list Capability))
| Pending
| Refresh.

Definition list_enter (c : catalogCache) (since now : Z) : catalogCache * entered :=
  if (time_Sub since (loadedAt c) <? cacheTime c)%Z && negb (time_IsZero (loadedAt c)) then (c, Hit (items c))
  else if (now <? retryAt c)%Z then
    (c, Backoff (if negb (time_IsZero (loadedAt c)) then Ok (items c)
                 else match lastPartial c, lastError c with
                      | Some partial, _ => Ok partial
                      | None, Some err => Err err
                      | None, None => Ok []
                      end))
  else if refreshing c then (c, Pending)
  else ({| refreshing := true; retryAt := retryAt c; lastError := lastError c; lastPartial := lastPartial c;
           loadedAt := loadedAt c; items := items c; cacheTime := cacheTime c |}, Refresh).

(** The deferred end of a refresh. *)
Definition list_leave (c : catalogCache) : catalogCache :=
  {| refreshing := false; retryAt := retryAt c; lastError := lastError c; lastPartial := lastPartial c;
     loadedAt := loadedAt c; items := items c; cacheTime := cacheTime c |}.

Definition discover_error (err : go_error) : go_error := Wrapped "discover Kubernetes resources" err.

Definition note_failure (c : catalogCache) (err : go_error) (now : Z) : catalogCache :=
  {| refreshing := refreshing c; retryAt := now + 5 * second; lastError := Some (discover_error err); lastPartial := None;
     loadedAt := loadedAt c; items := items c; cacheTime := cacheTime c |}.

Definition note_partial (c : catalogCache) (caps : list Capability) : catalogCache :=
  {| refreshing := refreshing c; retryAt := retryAt c; lastError := lastError c; lastPartial := Some caps;
     loadedAt := loadedAt c; items := items c; cacheTime := cacheTime c |}.

Definition publish (c : catalogCache) (codec : capabilityCodec) (caps : list Capability) (now : Z)
    : catalogCache * capabilityCodec :=
  ({| refreshing := refreshing c; retryAt := 0; lastError := None; lastPartial := None;
      loadedAt := now; items := caps; cacheTime := cacheTime c |}, retain codec (caps ++ items c)).

Section refresh.
Context {V : GroupVersionLib} {S : SortLib}.

(** The refresh itself, up to the deferred [list_leave]; [None] is the panic. *)
Definition refresh (c : catalogCache) (codec : capabilityCodec) (principal : Principal)
    : K (option (catalogCache * capabilityCodec * result go_error (list Capability))) :=
  (let! answer := request principal Discover in
   match answer with
   | Err err => kret (Some (c, codec, Err err))
   | Ok found =>
     let! done := request principal CtxErr in
     match done with
     | Some err => kret (Some (c, codec, Err err))
     | None =>
       let resources := preferredResourceLists (dc_groups found) (dc_lists found) in
       let build (k : list Capability -> capabilityCodec -> K _) :=
         match issue codec (catalog_actions resources) with
         | None => kret None
         | Some (caps, codec') => k (sort_Slice catalog_less caps) codec'
         end in
       match dc_error found with
       | Some err =>
         let! now := request principal Now in
         let failed := note_failure c err now in
         if negb (time_IsZero (loadedAt c)) then kret (Some (failed, codec, Ok (items c)))
         else match resources with
              | [] => kret (Some (failed, codec, Err (discover_error err)))
              | _ => build (fun caps codec' => kret (Some (note_partial failed caps, codec', Ok caps)))
              end
       | None =>
         build (fun caps codec' =>
           let! now := request principal Now in
           let '(c', codec'') := publish c codec' caps now in
           kret (Some (c', codec'', Ok caps)))
       end
     end
   end)%kube.

(** One attempt of [list]: [None] as the answer means that a refresh is
    pending; the request waits for it (or for its deadline) and tries again. *)
Definition list_attempt (c : catalogCache) (codec : capabilityCodec) (principal : Principal)
    : K (option (catalogCache * capabilityCodec * option (result go_error (list Capability)))) :=
  (let! done := request principal CtxErr in
   match done with
   | Some err => kret (Some (c, codec, Some (Err err)))
   | None =>
     let! since := request principal Now in
     let! now := request principal Now in
     match list_enter c since now with
     | (c', Hit caps) => kret (Some (c', codec, Some (Ok caps)))
     | (c', Backoff r) => kret (Some (c', codec, Some r))
     | (c', Pending) => kret (Some (c', codec, None))
     | (c', Refresh) =>
       let! r := refresh c' codec principal in
       kret (match r with
             | None => None
             | Some (c'', codec', answer) => Some (list_leave c'', codec', Some answer)
             end)
     end
   end)%kube.
End refresh.

(** ** Cursors *)

Definition encodeCursor (index : Z) : string := base64_Encode RawURLEncoding (bytes_of (Itoa index)).

Definition decodeCursor (cursor : string) : result go_error Z :=
  if bool_decide (cursor = "") then Ok 0%Z
  else match base64_Decode RawURLEncoding cursor with
       | None => Err (policyError "invalid_cursor" "cursor is not valid")
       | Some data =>
         match Atoi (string_of_bytes data) with
         | None => Err (policyError "invalid_cursor" "cursor is not valid")
         | Some index => if (index <? 0)%Z then Err (policyError "invalid_cursor" "cursor is not valid") else Ok index
         end
       end.

(** ** Search *)

Definition searchAuthorizationCheckLimit : nat := 100.

Record catalogSearchFilter := {
  f_Query : string; f_Action : string; f_ExactKind : string; f_ExactResource : string;
  f_APIGroup : string; f_Version : string; f_Namespace : string; f_Name : string
}.

Section search.
Context {G : GoLib} {Q : QuantityLib}.

Definition matchesExactResource (c : Capability) (wanted : string) : bool :=
  EqualFold (c_Resource c) wanted
  || (bool_decide (c_Subresource c <> "") && EqualFold (c_Resource c +:+ ("/" +:+ c_Subresource c)) wanted).

Definition haystack (c : Capability) : string :=
  ToLower (Join [c_Group c; c_Version c; c_Resource c; c_Kind c; c_Action c; Join (Categories c) " "] " ").

(** The [continue] statements of the filter loop, in order. *)
Definition filter_matches (f : catalogSearchFilter) (c : Capability) : bool :=
  let query := ToLower (TrimSpace (f_Query f)) in
  let wantedAction := TrimSpace (f_Action f) in
  let trimmed := TrimSpace (f_APIGroup f) in
  let wantedGroup := if EqualFold trimmed "core" then "" else trimmed in
  if bool_decide (wantedAction <> "") && negb (EqualFold (c_Action c) wantedAction) && negb (EqualFold (c_Verb c) wantedAction) then false
  else if bool_decide (f_ExactKind f <> "") && negb (EqualFold (c_Kind c) (TrimSpace (f_ExactKind f))) then false
  else if bool_decide (f_ExactResource f <> "") && negb (matchesExactResource c (TrimSpace (f_ExactResource f))) then false
  else if bool_decide (f_APIGroup f <> "") && negb (EqualFold (c_Group c) wantedGroup) then false
  else if bool_decide (f_Version f <> "") && negb (EqualFold (c_Version c) (TrimSpace (f_Version f))) then false
  else if bool_decide (query <> "") && negb (Contains (haystack c) query) then false
  else true.

Definition search_namespace (config : Config) (f : catalogSearchFilter) (action : Action) : string :=
  match Namespaces (Scope (cfg_Spec config)) with
  | first :: _ => if a_Namespaced action && bool_decide (f_Namespace f = "") then first else f_Namespace f
  | [] => f_Namespace f
  end.

(** The loop over [filtered[index:]]. *)
Fixpoint search_loop (config : Config) (principal : Principal) (f : catalogSearchFilter) (limit : Z)
    (rest : list Capability) (checks : nat) (found : list Capability) (index : Z) (cache : option auth_cache)
    : K (result go_error (list Capability * Z)) :=
  match rest with
  | [] => kret (Ok (found, index))
  | cap :: rest' =>
    if (limit <=? Z.of_nat (length found))%Z then kret (Ok (found, index))
    else
    (let! done := request principal CtxErr in
     match done with
     | Some err => kret (Err err)
     | None =>
       let action := AsAction cap in
       let namespace := search_namespace config f action in
       if (searchAuthorizationCheckLimit <=? checks)%nat then kret (Ok (found, index))
       else
       let! r := Policy_CheckAndAuthorizeOperation config principal cache action namespace (f_Name f) in
       match r with
       | (Ok _, cache) =>
         search_loop config principal f limit rest' (S checks) (found ++ [cap]) (index + 1) cache
       | (Err err, cache) =>
         match as_toolError err with
         | None => kret (Err err)
         | Some _ => search_loop config principal f limit rest' (S checks) found (index + 1) cache
         end
       end
     end)%kube
  end.

Definition searchCatalog (config : Config) (principal : Principal) (caps : list Capability) (f : catalogSearchFilter)
    (cursor : string) (limit : Z) : K (result go_error (list Capability * string)) :=
  (let! done := request principal CtxErr in
   match done with
   | Some err => kret (Err err)
   | None =>
     ok? start := decodeCursor cursor in
     let filtered := List.filter (filter_matches f) caps in
     if (Z.of_nat (length filtered) <? start)%Z then
       kret (Err (policyError "invalid_cursor" "cursor is outside the result set"))
     else
     let? page := search_loop config principal f limit (drop (Z.to_nat start) filtered) 0 [] start (Some withAuthorizationCache) in
     let next := if (page.2 <? Z.of_nat (length filtered))%Z then encodeCursor page.2 else "" in
     let! done := request principal CtxErr in
     match done with
     | Some err => kret (Err err)
     | None => kret (Ok (page.1, next))
     end
   end)%kube.

(** [search], on the capabilities [list] answered. *)
Definition search_limit (config : Config) (requested : Z) : Z :=
  let maximum := MaxListItems (Limits (cfg_Spec config)) in
  if (requested <=? 0)%Z || (maximum <? requested)%Z then Z.min maximum 20 else requested.

Definition search (config : Config) (principal : Principal) (listed : result go_error (list Capability))
    (f : catalogSearchFilter) (cursor : string) (limit : Z) : K (result go_error (list Capability * string)) :=
  (ok? caps := listed in searchCatalog config principal caps f cursor (search_limit config limit))%kube.
End search.

(** ** Lemmas: cursors *)

Lemma decode_encodeCursor i : (0 <= i <= int64_max)%Z -> decodeCursor (encodeCursor i) = Ok i /\ encodeCursor i <> "".
Proof.
  intros Hi.
  assert (base64_Decode RawURLEncoding (encodeCursor i) = Some (bytes_of (Itoa i))) as Hd.
  { apply base64_round_trip; [apply good_URL|apply bytes_of_is_bytes]. }
  assert (encodeCursor i <> "") as Hne.
  { intros E. rewrite E in Hd. injection Hd as Hd. pose proof (Atoi_Itoa i Hi) as Ha.
    destruct (Itoa i); [|done]. by vm_compute in Ha. }
  split; [|done]. unfold decodeCursor. rewrite bool_decide_false by done.
  rewrite Hd, string_of_bytes_of, Atoi_Itoa by done. by rewrite (proj2 (Z.ltb_ge _ _)) by lia.
Qed.

(** ** Lemmas: authorization within one search *)

Section cached.
Context {G : GoLib} {Q : QuantityLib}.

(** The capability may be used by [p]: by the policy, and by reviews among [es]. *)
Definition usable (config : Config) (p : Principal) (f : catalogSearchFilter) (es : list event) (cap : Capability) : Prop :=
  let a := AsAction cap in
  let ns := search_namespace config f a in
  permitted config a ns /\ allowed_in p es (authorizationKey a ns (f_Name f)) /\
  (Mutating a = true -> allowed_in p es (authorizationKey (prerequisiteGetAction a) ns (f_Name f))).

Lemma usable_app config p f es es' cap : usable config p f es cap -> usable config p f (es ++ es') cap.
Proof. intros (? & ? & ?). split_and!; eauto using allowed_in_app. Qed.

Lemma CheckAndAuthorizeOperation_usable config p f es0 cache cap :
  cache_backed p es0 cache ->
  satisfies (Policy_CheckAndAuthorizeOperation config p cache (AsAction cap)
               (search_namespace config f (AsAction cap)) (f_Name f))
    (answers_from p es0 cache (fun es => usable config p f es cap)).
Proof.
  intros Hc. eapply satisfies_weaken; [by apply CheckAndAuthorizeOperation_backed|].
  intros r es (H1 & H2 & H3 & H4). split_and!; [done..|]. intros Hr. destruct (H4 Hr) as (Ht & Ha & Hm).
  split_and!; [by eapply CheckTarget_permitted|done|]. intros HM. by destruct (Hm HM).
Qed.

(** What the loop adds: a selection, in order, of the capabilities it went
    over, all of them usable. *)
Lemma search_loop_satisfies config p f limit rest : forall checks found index cache es0,
  cache_backed p es0 cache ->
  satisfies (search_loop config p f limit rest checks found index cache) (fun r es =>
    Forall (authorization_event p) es /\
    forall found' index', r = Ok (found', index') ->
      exists n more, index' = (index + Z.of_nat n)%Z /\ n <= length rest /\ found' = found ++ more /\
        more `sublist_of` take n rest /\ Forall (usable config p f (es0 ++ es)) more).
Proof.
  assert (forall (found : list Capability) (index : Z) (rest : list Capability) es0 es, Forall (authorization_event p) es ->
    Forall (authorization_event p) es /\
    forall found' index', (Ok (found, index) : result go_error _) = Ok (found', index') ->
      exists n more, index' = (index + Z.of_nat n)%Z /\ n <= length rest /\ found' = found ++ more /\
        more `sublist_of` take n rest /\ Forall (usable config p f (es0 ++ es)) more) as Hstop.
  { intros found index rest0 es0 es Hes. split; [done|]. intros found' index' [= <- <-]. exists 0, [].
    rewrite app_nil_r. split_and!; [lia|lia|done|apply sublist_nil_l|constructor]. }
  induction rest as [|cap rest IH]; intros checks found index cache es0 Hc; cbn [search_loop].
  { satisfies_step. by apply Hstop. }
  destruct (_ <=? _)%Z; [satisfies_step; by apply Hstop|].
  satisfies_step. destruct a as [err|]; [satisfies_step; split; [by repeat constructor|done]|].
  destruct (_ <=? _)%nat; [satisfies_step; apply Hstop; by repeat constructor|].
  eapply satisfies_bind.
  { apply (CheckAndAuthorizeOperation_usable config p f (es0 ++ [Ev p CtxErr None]) cache cap). by apply cache_backed_app. }
  intros [r c1] es1 (H1 & _ & Hc1 & Hu); cbn in Hc1, Hu.
  assert (authorization_event p (Ev p CtxErr None)) as Hctx by done.
  destruct r as [u|err].
  - eapply satisfies_weaken; [by apply IH|]. intros r es2 [H2 Hr]. split; [constructor; [done|by apply Forall_app]|].
    intros found' index' ->. destruct (Hr _ _ eq_refl) as (n & more & -> & Hn & -> & Hs & Hf).
    rewrite <- !app_assoc in Hf. exists (S n), (cap :: more). cbn [length take].
    split_and!; [lia|lia|by rewrite <- app_assoc|by constructor|].
    constructor; [|done]. destruct u. specialize (Hu eq_refl). eapply usable_app in Hu. rewrite <- !app_assoc in Hu. exact Hu.
  - destruct (as_toolError err); [|satisfies_step; rewrite app_nil_r; split; [by constructor|done]].
    eapply satisfies_weaken; [by apply IH|]. intros r es2 [H2 Hr]. split; [constructor; [done|by apply Forall_app]|].
    intros found' index' ->. destruct (Hr _ _ eq_refl) as (n & more & -> & Hn & -> & Hs & Hf).
    rewrite <- !app_assoc in Hf. exists (S n), more. cbn [length take]. split_and!; [lia|lia|done|by constructor|done].
Qed.
End cached.

(** ** Lemmas: paging through a quiet cluster *)

Section paging.
Context {G : GoLib} {Q : QuantityLib}.
Context (w : env) (p : Principal) (config : Config) (f : catalogSearchFilter).

(** The answers of the cluster to [p] do not change, and no deadline passes. *)
Context (reviews : ResourceAttributes -> result go_error review_status).
Definition steady : Prop :=
  (forall h, w _ h p CtxErr = None) /\ (forall h k, w _ h p (Review k) = reviews k).

(** The outcome of the check of one capability there. *)
Definition verdict (cap : Capability) : result go_error unit :=
  let a := AsAction cap in
  let ns := search_namespace config f a in
  _ ← Policy_CheckTarget config a ns (f_Name f);
  _ ← (if Mutating a then Policy_CheckTarget config (prerequisiteGetAction a) ns (f_Name f) else Ok ());
  _ ← review_result (reviews (authorizationKey a ns (f_Name f)));
  if Mutating a then review_result (reviews (authorizationKey (prerequisiteGetAction a) ns (f_Name f))) else Ok ().

Definition offered (cap : Capability) : bool := is_ok (verdict cap).

Definition coherent (cache : auth_cache) : Prop :=
  forall k r, cache_get cache k = Some r -> r = review_result (reviews k).

Context (Hw : steady).

Lemma Authorize_steady cache action ns name h :
  coherent cache ->
  exists cache' h', Policy_Authorize p (Some cache) action ns name w h =
    ((review_result (reviews (authorizationKey action ns name)), Some cache'), h') /\ coherent cache'.
Proof.
  intros Hc. destruct Hw as [Hctx Hrev]. unfold Policy_Authorize, authorize, kbind, request, kret. rewrite Hctx.
  cbn [mbind option_bind]. destruct (cache_get cache (authorizationKey action ns name)) as [r|] eqn:E.
  - rewrite (Hc _ _ E). eauto.
  - rewrite Hrev. cbn. eexists _, _. split; [done|]. intros k r. cbn [cache_get].
    case_bool_decide; [intros [= <-]; by subst|by apply Hc].
Qed.

Lemma Check_steady cache cap h :
  coherent cache ->
  exists cache' h', Policy_CheckAndAuthorizeOperation config p (Some cache) (AsAction cap)
      (search_namespace config f (AsAction cap)) (f_Name f) w h = ((verdict cap, Some cache'), h') /\ coherent cache'.
Proof.
  intros Hc. unfold Policy_CheckAndAuthorizeOperation, verdict.
  destruct (Policy_CheckTarget config (AsAction cap) _ _) as [[]|]; [|cbn; eauto]. cbn [mbind result_bind].
  destruct (if Mutating (AsAction cap) then Policy_CheckTarget _ _ _ _ else _) as [[]|]; [|cbn; eauto]. cbn [mbind result_bind].
  unfold kbind. destruct (Authorize_steady cache (AsAction cap) (search_namespace config f (AsAction cap)) (f_Name f) h Hc)
    as (c1 & h1 & -> & Hc1).
  destruct (review_result _) as [[]|]; [|cbn; eauto]. cbn [mbind result_bind].
  destruct (Mutating (AsAction cap)); [by apply Authorize_steady|cbn; eauto].
Qed.

(** Policy and RBAC refusals are the only failures. *)
Definition refusals_only (caps : list Capability) : Prop :=
  Forall (fun cap => match verdict cap with Ok _ => True | Err err => is_Some (as_toolError err) end) caps.

Lemma search_loop_steady limit rest : forall checks found index cache h,
  coherent cache -> refusals_only rest ->
  exists n h', (search_loop config p f limit rest checks found index (Some cache) w h) =
    (Ok (found ++ List.filter offered (take n rest), (index + Z.of_nat n)%Z), h') /\ n <= length rest /\
    (rest <> [] -> (Z.of_nat (length found) < limit)%Z -> checks < searchAuthorizationCheckLimit -> 0 < n).
Proof.
  induction rest as [|cap rest IH]; intros checks found index cache h Hc Hr; cbn [search_loop].
  { exists 0, h. unfold kret. cbn. rewrite app_nil_r, Z.add_0_r. split_and!; [done|lia|done]. }
  destruct (Z.leb_spec limit (Z.of_nat (length found))).
  { exists 0, h. unfold kret. cbn. rewrite app_nil_r, Z.add_0_r. split_and!; [done|lia|lia]. }
  unfold kbind at 1, request at 1. destruct Hw as [Hctx _]. rewrite Hctx. cbn iota.
  destruct (Nat.leb_spec searchAuthorizationCheckLimit checks).
  { eexists 0, _. unfold kret. cbn. rewrite app_nil_r, Z.add_0_r. split_and!; [done|lia|lia]. }
  unfold kbind at 1. destruct (Check_steady cache cap (h ++ [Ev p CtxErr None]) Hc) as (c1 & h1 & -> & Hc1).
  apply Forall_cons in Hr as [Hv Hr]. destruct (verdict cap) as [u|err] eqn:Ev_.
  - destruct (IH (S checks) (found ++ [cap]) (index + 1)%Z c1 h1 Hc1 Hr) as (n & h' & -> & Hn & _).
    exists (S n), h'. cbn [take List.filter]. unfold offered at 2. rewrite Ev_. cbn [is_ok].
    rewrite <- app_assoc. replace (index + 1 + Z.of_nat n)%Z with (index + Z.of_nat (S n))%Z by lia. split_and!; [done|cbn; lia|lia].
  - destruct Hv as [t Ht]. rewrite Ht.
    destruct (IH (S checks) found (index + 1)%Z c1 h1 Hc1 Hr) as (n & h' & -> & Hn & _).
    exists (S n), h'. cbn [take List.filter]. unfold offered at 2. rewrite Ev_. cbn [is_ok].
    replace (index + 1 + Z.of_nat n)%Z with (index + Z.of_nat (S n))%Z by lia. split_and!; [done|cbn; lia|lia].
Qed.

(** All pages: each search starts at the cursor of the one before. *)
Fixpoint all_pages (fuel : nat) (caps : list Capability) (limit : Z) (cursor : string) : option (list Capability) :=
  match fuel with
  | O => None
  | S fuel' =>
    match (searchCatalog config p caps f cursor limit w []).1 with
    | Ok (page, next) => if bool_decide (next = "") then Some page else app page <$> all_pages fuel' caps limit next
    | Err _ => None
    end
  end.

Lemma all_pages_from caps limit fuel : forall start cursor,
  let filtered := List.filter (filter_matches f) caps in
  (0 < limit)%Z -> (Z.of_nat (length filtered) <= int64_max)%Z -> refusals_only filtered ->
  decodeCursor cursor = Ok (Z.of_nat start) -> start <= length filtered -> length filtered - start < fuel ->
  all_pages fuel caps limit cursor = Some (List.filter offered (drop start filtered)).
Proof.
  induction fuel as [|fuel IH]; intros start cursor filtered Hl Hmax Hr Hcur Hs Hf; [lia|]. cbn [all_pages].
  unfold searchCatalog, kbind at 1, request at 1. destruct Hw as [Hctx Hrev]. rewrite Hctx. cbn iota. rewrite Hcur.
  fold filtered. rewrite (proj2 (Z.ltb_ge _ _)) by lia. rewrite Nat2Z.id. unfold kbind at 1.
  destruct (search_loop_steady limit (drop start filtered) 0 [] (Z.of_nat start) withAuthorizationCache
              ([] ++ [Ev p CtxErr None])) as (n & h' & -> & Hn & Hprog).
  { by intros k r. }
  { by apply Forall_drop. }
  cbn iota. unfold kbind, request, kret. cbn [fst snd]. rewrite Hctx. cbn [app fst]. rewrite length_drop in Hn.
  destruct (Z.ltb_spec (Z.of_nat start + Z.of_nat n) (Z.of_nat (length filtered))) as [Hlt|Hge].
  - destruct (decode_encodeCursor (Z.of_nat start + Z.of_nat n)%Z) as [Hd Hne]; [lia|].
    rewrite bool_decide_false by done.
    assert (0 < n) as Hpos.
    { apply Hprog; [|cbn; lia|unfold searchAuthorizationCheckLimit; lia].
      intros E. apply (f_equal length) in E. rewrite length_drop in E. cbn in E. lia. }
    rewrite (IH (start + n) _); fold filtered; [|done..|rewrite Hd; f_equal; lia|lia|lia].
    cbn [fmap option_fmap option_map]. f_equal.
    rewrite <- List.filter_app, <- drop_drop. by rewrite take_drop.
  - rewrite bool_decide_true by done. by rewrite take_ge by (rewrite length_drop; lia).
Qed.
End paging.

(** ** Lemmas: handles of the snapshot *)

Section handles.
Context {V : GroupVersionLib} {S : SortLib} {SL : SortLaws}.

(** The handle of [cap] is live and stands for the same JSON text. *)
Definition decodable (codec : capabilityCodec) (cap : Capability) : Prop :=
  exists cap', decode codec (ID cap) = Ok cap' /\ capability_json (with_ID cap' "") = capability_json (with_ID cap "").

Record catalog_inv (c : catalogCache) (codec : capabilityCodec) : Prop := {
  ci_codec : codec_inv codec;
  ci_items : Forall (decodable codec) (items c);
  ci_partial : forall caps, lastPartial c = Some caps -> Forall (decodable codec) caps
}.

Lemma decodable_encode codec cap0 id codec' cap :
  codec_inv codec -> encode codec cap0 = Some (id, codec') -> decodable codec cap -> decodable codec' cap.
Proof.
  intros Hi He (cap' & Hd & Hj).
  assert (codec_inv codec') as Hi' by eauto using codec_step_inv, step_encode.
  unfold decode in Hd. destruct (HasPrefix (ID cap) "cap_") eqn:Ep; [|done]. cbn [negb] in Hd.
  destruct (handles codec !! ID cap) as [h|] eqn:Eh; [|done]. injection Hd as <-.
  destruct (encode_keeps_payload codec codec' (ID cap) h) as (h' & Eh' & Hp); [by exists cap0, id|done|].
  exists (with_ID (capability h') (ID cap)). unfold decode. rewrite Ep, Eh'. cbn [negb]. split; [done|].
  rewrite with_ID_twice in *. destruct (Hi _ _ Eh) as [E1 _], (Hi' _ _ Eh') as [E2 _]. congruence.
Qed.

Lemma decodable_retain codec caps cap : ID cap ∈ ID <$> caps -> decodable codec cap -> decodable (retain codec caps) cap.
Proof.
  intros Hin (cap' & Hd & Hj). exists cap'. split; [|done]. unfold decode in *.
  destruct (negb _); [done|]. destruct (handles codec !! ID cap) as [h|] eqn:Eh; [|done].
  by rewrite (proj2 (retain_lookup codec caps (ID cap) h)).
Qed.

Lemma capabilityFromAction_decodable codec a categories cap codec' :
  codec_inv codec -> capabilityFromAction codec a categories = Some (cap, codec') ->
  codec_inv codec' /\ decodable codec' cap /\ AsAction cap = a /\ (forall x, decodable codec x -> decodable codec' x).
Proof.
  unfold capabilityFromAction. intros Hi H. destruct (encode codec _) as [[id c']|] eqn:He; [|done]. injection H as <- <-.
  split_and!; [by eauto using codec_step_inv, step_encode| |by destruct a as [[] ? ? ? ? ?]|].
  - apply encode_spec in He as ((n & _ & ->) & _ & ->). eexists.
    unfold decode. cbn [ID with_ID handles]. rewrite handle_id_prefix, lookup_insert_eq. by cbn [negb].
  - intros x. by eapply decodable_encode.
Qed.

Lemma issue_decodable actions : forall codec caps codec',
  codec_inv codec -> issue codec actions = Some (caps, codec') ->
  codec_inv codec' /\ Forall (decodable codec') caps /\ AsAction <$> caps = actions.*1 /\
  (forall x, decodable codec x -> decodable codec' x).
Proof.
  induction actions as [|[a categories] actions IH]; intros codec caps codec' Hi H; cbn [issue] in H.
  { injection H as <- <-. by split_and!. }
  destruct (capabilityFromAction codec a categories) as [[cap c1]|] eqn:E1; [|done]. cbn [mbind option_bind] in H.
  destruct (issue c1 actions) as [[caps' c2]|] eqn:E2; [|done]. injection H as <- <-.
  destruct (capabilityFromAction_decodable _ _ _ _ _ Hi E1) as (Hi1 & Hd1 & Ha & Hk1).
  destruct (IH _ _ _ Hi1 E2) as (Hi2 & Hd2 & Hl & Hk2).
  split_and!; [done|by constructor; auto|by cbn; rewrite Ha, Hl|auto].
Qed.

Lemma publish_inv c codec caps now :
  catalog_inv c codec -> Forall (decodable codec) caps ->
  catalog_inv (publish c codec caps now).1 (publish c codec caps now).2 /\
  Forall (decodable (publish c codec caps now).2) (items c).
Proof.
  intros [Hi Hit _] Hc. cbn [publish fst snd].
  assert (forall l, Forall (decodable codec) l -> (forall x, x ∈ l -> x ∈ caps ++ items c) ->
    Forall (decodable (retain codec (caps ++ items c))) l) as Hr.
  { intros l Hl Hsub. rewrite Forall_forall in *. intros x Hx. apply decodable_retain; [|by apply Hl].
    by apply list_elem_of_fmap_2, Hsub. }
  split; [constructor; cbn|].
  - eauto using codec_step_inv, step_retain.
  - apply Hr; [done|]. intros x Hx. rewrite elem_of_app. by left.
  - done.
  - apply Hr; [done|]. intros x Hx. rewrite elem_of_app. by right.
Qed.

(** What a refresh or an attempt leaves: the invariant, a decodable answer and
    the handles of the snapshot before it. *)
Definition keeps_handles (c : catalogCache) (c' : catalogCache) (codec' : capabilityCodec)
    (answer : result go_error (list Capability)) : Prop :=
  catalog_inv c' codec' /\ (forall caps, answer = Ok caps -> Forall (decodable codec') caps) /\
  Forall (decodable codec') (items c).

Lemma note_failure_inv c codec err now : catalog_inv c codec -> catalog_inv (note_failure c err now) codec.
Proof. by intros []; constructor. Qed.

Lemma inv_weaken c codec codec' :
  codec_inv codec' -> (forall x, decodable codec x -> decodable codec' x) -> catalog_inv c codec -> catalog_inv c codec'.
Proof.
  intros Hi Hk [_ Hit Hp]. constructor; [done|by eapply Forall_impl|]. intros caps E.
  by eapply Forall_impl; [apply Hp|].
Qed.

Lemma Forall_sorted codec caps : Forall (decodable codec) caps -> Forall (decodable codec) (sort_Slice catalog_less caps).
Proof. intros H. by rewrite sort_Slice_perm. Qed.

Lemma refresh_satisfies c codec p :
  catalog_inv c codec ->
  satisfies (refresh c codec p) (fun r _ => forall c' codec' answer,
    r = Some (c', codec', answer) -> keeps_handles c c' codec' answer).
Proof.
  intros Hc. unfold refresh. pose proof Hc as [Hi Hit _].
  satisfies_step. destruct a as [found|err]; [|by satisfies_step; intros ? ? ? [= <- <- <-]].
  satisfies_step. destruct a as [err|]; [by satisfies_step; intros ? ? ? [= <- <- <-]|].
  set (actions := catalog_actions _).
  assert (forall caps codec1, issue codec actions = Some (caps, codec1) ->
    catalog_inv c codec1 /\ Forall (decodable codec1) (sort_Slice catalog_less caps)) as Hissue.
  { intros caps codec1 E. destruct (issue_decodable _ _ _ _ Hi E) as (Hi1 & Hd & _ & Hk).
    split; [by eapply inv_weaken|by apply Forall_sorted]. }
  destruct (issue codec actions) as [[caps codec1]|].
  - destruct (Hissue _ _ eq_refl) as [Hc1 Hd]. destruct (dc_error found) as [err|].
    + satisfies_step. destruct (negb _).
      { satisfies_step. intros ? ? ? [= <- <- <-]. split_and!; [by apply note_failure_inv|by intros ? [= <-]|done]. }
      satisfies_step; satisfies_step; intros ? ? ? [= <- <- <-].
      * split_and!; [by apply note_failure_inv|done..].
      * split_and!; [|by intros ? [= <-]|by destruct Hc1].
        destruct Hc1 as [Hi1 Hit1 _]. constructor; cbn; [done..|]. by intros ? [= <-].
    + satisfies_step. destruct (publish_inv c codec1 (sort_Slice catalog_less caps) a Hc1 Hd) as [Hp Hold].
      assert (items (publish c codec1 (sort_Slice catalog_less caps) a).1 = sort_Slice catalog_less caps) as Ei by done.
      destruct (publish _ _ _ _) as [c2 codec2]. cbn in Hp, Hold, Ei. satisfies_step. intros ? ? ? [= <- <- <-].
      split_and!; [done| |done]. intros ? [= <-]. rewrite <- Ei. by destruct Hp.
  - destruct (dc_error found) as [err|]; [|by satisfies_step].
    satisfies_step. destruct (negb _).
    { satisfies_step. intros ? ? ? [= <- <- <-]. split_and!; [by apply note_failure_inv|by intros ? [= <-]|done]. }
    satisfies_step; satisfies_step; [|done]. intros ? ? ? [= <- <- <-].
    split_and!; [by apply note_failure_inv|done..].
Qed.

Lemma list_enter_inv c since now codec c' e :
  catalog_inv c codec -> list_enter c since now = (c', e) ->
  catalog_inv c' codec /\ items c' = items c /\
  match e with
  | Hit caps | Backoff (Ok caps) => Forall (decodable codec) caps
  | _ => True
  end.
Proof.
  intros Hc H. pose proof Hc as [Hi Hit Hp]. unfold list_enter in H.
  destruct (_ && _); [injection H as <- <-; by split_and!|].
  destruct (_ <? _)%Z.
  { injection H as <- <-. split_and!; [done..|]. destruct (negb _); [done|].
    destruct (lastPartial c) as [partial|] eqn:E; [by apply Hp|]. destruct (lastError c); [done|constructor]. }
  destruct (refreshing c); injection H as <- <-; [by split_and!|]. split_and!; [by constructor|done..].
Qed.

Lemma list_attempt_satisfies c codec p :
  catalog_inv c codec ->
  satisfies (list_attempt c codec p) (fun r _ => forall c' codec' answer,
    r = Some (c', codec', answer) ->
    keeps_handles c c' codec' (default (Ok []) answer)).
Proof.
  intros Hc. unfold list_attempt. pose proof Hc as [_ Hit _].
  satisfies_step. destruct a as [err|]; [by satisfies_step; intros ? ? ? [= <- <- <-]|].
  do 2 satisfies_step. destruct (list_enter c a a0) as [c1 e] eqn:E.
  destruct (list_enter_inv _ _ _ codec _ _ Hc E) as (Hc1 & Ei & He).
  destruct e as [caps|[caps|err]| |].
  - satisfies_step. intros ? ? ? [= <- <- <-]. split_and!; [done|by intros ? [= <-]|done].
  - satisfies_step. intros ? ? ? [= <- <- <-]. split_and!; [done|by intros ? [= <-]|done].
  - by satisfies_step; intros ? ? ? [= <- <- <-].
  - satisfies_step. intros ? ? ? [= <- <- <-]. split_and!; [done|by intros ? [= <-]|done].
  - eapply satisfies_bind; [by apply refresh_satisfies|]. intros r es Hr. satisfies_step.
    destruct r as [[[c2 codec2] answer]|]; [|done]. intros ? ? ? [= <- <- <-].
    destruct (Hr _ _ _ eq_refl) as ([H1 H2 H3] & Hans & Hold). rewrite Ei in Hold. split_and!; [by constructor|done..].
Qed.
End handles.

(** ** Lemmas: what the catalogue offers *)

Lemma has_char_append c s t : has_char c (s +:+ t) = has_char c s || has_char c t.
Proof. induction s as [|d s IH]; [done|]. rewrite append_cons. cbn [has_char]. rewrite IH. by destruct (bool_decide _). Qed.

Lemma append_char_inj c a b n m :
  has_char c n = false -> has_char c m = false -> a +:+ String c n = b +:+ String c m -> a = b /\ n = m.
Proof.
  intros Hn Hm. revert b. induction a as [|x a IH]; intros [|y b] E; rewrite ?append_cons in E.
  - by injection E.
  - injection E as -> ->. change (b +:+ String y m) with (b +:+ (String y "" +:+ m)) in Hn.
    rewrite !has_char_append in Hn. cbn [has_char] in Hn. rewrite bool_decide_true in Hn by done. by destruct (has_char y b).
  - injection E as -> <-. change (a +:+ String c n) with (a +:+ (String c "" +:+ n)) in Hm.
    rewrite !has_char_append in Hm. cbn [has_char] in Hm. rewrite bool_decide_true in Hm by done. by destruct (has_char c a).
  - injection E as -> E. apply IH in E as [-> ->]. done.
Qed.

Lemma SplitN2_spec s sep a rest :
  SplitN2 s sep = (a, rest) ->
  has_char sep a = false /\ s = match rest with None => a | Some b => a +:+ String sep b end.
Proof.
  revert a rest. induction s as [|c s IH]; intros a rest E; cbn [SplitN2] in E.
  { by injection E as <- <-. }
  case_bool_decide as Hc.
  - injection E as <- <-. by subst.
  - destruct (SplitN2 s sep) as [a' r'] eqn:Es. injection E as <- <-. destruct (IH _ _ eq_refl) as [Hh ->].
    cbn [has_char]. rewrite Hh, bool_decide_false by congruence. split; [done|]. by destruct r'; rewrite ?append_cons.
Qed.

Lemma Contains_slash s : Contains s "/" = has_char "/"%char s.
Proof.
  induction s as [|c s IH]; [done|]. cbn [Contains has_char]. rewrite IH. f_equal.
  unfold HasPrefix. cbn [String.prefix]. destruct (ascii_dec "/" c) as [<-|Hc]; [by destruct s|by rewrite bool_decide_false by done].
Qed.

(** A printed group version parses back to what was parsed from the server's text. *)
Class GroupVersionLaws {V : GroupVersionLib} : Prop := {
  gv_round_trip s g v : ParseGroupVersion s = Ok (g, v) -> ParseGroupVersion (gv_String g v) = Ok (g, v)
}.

Section offers.
Context {V : GroupVersionLib}.

(** Which actions stand for which verbs. *)
Definition names_action (sub verb act : string) : Prop :=
  (sub = "" /\ verb ∈ main_verbs /\ act = verb) \/ (sub = "" /\ verb = "patch" /\ act ∈ ["apply"; "restart"]) \/
  (sub = "log" /\ verb = "get" /\ act = "logs") \/ (sub ∈ ["exec"; "attach"] /\ verb = "create" /\ act = sub) \/
  (sub = "scale" /\ verb = "patch" /\ act = "scale").

(** The API server lists this verb for the resource [name] of the group version. *)
Definition serves (resources : list APIResourceList) (group version name verb : string) : Prop :=
  exists l r, l ∈ resources /\ ParseGroupVersion (GroupVersion l) = Ok (group, version) /\
    r ∈ APIResources l /\ ar_Name r = name /\ verb ∈ ar_Verbs r.

(** No listed name ends in its only slash. *)
Definition well_named (resources : list APIResourceList) : Prop :=
  forall l r, l ∈ resources -> r ∈ APIResources l -> (SplitN2 (ar_Name r) "/"%char).2 <> Some "".

Lemma verb_action_names sub verb act : verb_action sub verb = Some act -> names_action sub verb act.
Proof.
  unfold verb_action, names_action. intros H.
  destruct (bool_decide (sub = "") && _) eqn:E1; [done|].
  case_bool_decide; [case_bool_decide; [done|]; injection H as <-; naive_solver|].
  case_bool_decide; [case_bool_decide; [done|]; injection H as <-; naive_solver|].
  case_bool_decide; [case_bool_decide; [done|]; injection H as <-; naive_solver|].
  case_bool_decide as Hs; [done|]. injection H as <-. left. apply dec_stable in Hs || idtac.
  subst sub. cbn in E1. apply negb_false_iff, bool_decide_eq_true in E1. done.
Qed.

Definition base_entry (resources : list APIResourceList) (k : string) (info : resourceInfo) : Prop :=
  exists l r g v, l ∈ resources /\ ParseGroupVersion (GroupVersion l) = Ok (g, v) /\ r ∈ APIResources l /\
    Contains (ar_Name r) "/" = false /\ k = base_key g v (ar_Name r) /\ info = info_of r (ar_Verbs r).

Lemma fold_entries (resources : list APIResourceList) l g v rs : forall m : gmap string resourceInfo,
  l ∈ resources -> ParseGroupVersion (GroupVersion l) = Ok (g, v) -> rs ⊆ APIResources l ->
  map_Forall (base_entry resources) m ->
  map_Forall (base_entry resources)
    (foldl (fun m r => if Contains (ar_Name r) "/" then m
                       else <[base_key g v (ar_Name r) := info_of r (ar_Verbs r)]> m) m rs).
Proof.
  induction rs as [|r rs IH]; intros m Hl Hp Hsub Hm; [done|]. cbn [foldl]. apply IH; [done..|set_solver|].
  destruct (Contains (ar_Name r) "/") eqn:E; [done|]. apply map_Forall_insert_2; [|done].
  exists l, r, g, v. split_and!; try done. apply Hsub. left.
Qed.

Lemma baseResources_entries resources : map_Forall (base_entry resources) (baseResources resources).
Proof.
  unfold baseResources.
  assert (forall ls (m : gmap string resourceInfo), ls ⊆ resources -> map_Forall (base_entry resources) m ->
    map_Forall (base_entry resources) (foldl (fun m l =>
      match ParseGroupVersion (GroupVersion l) with
      | Err _ => m
      | Ok (group, version) =>
        foldl (fun m r => if Contains (ar_Name r) "/" then m
                          else <[base_key group version (ar_Name r) := info_of r (ar_Verbs r)]> m) m (APIResources l)
      end) m ls)) as H; [|by apply H; [|apply map_Forall_empty]].
  induction ls as [|l ls IH]; intros m Hsub Hm; [done|]. cbn [foldl]. apply IH; [set_solver|].
  destruct (ParseGroupVersion (GroupVersion l)) as [[g v]|] eqn:E; [|done].
  eapply fold_entries; try done. apply Hsub. left.
Qed.

Context {L : GroupVersionLaws}.

Lemma base_key_inj s g v n s' g' v' n' :
  ParseGroupVersion s = Ok (g, v) -> ParseGroupVersion s' = Ok (g', v') ->
  has_char "/"%char n = false -> has_char "/"%char n' = false ->
  base_key g v n = base_key g' v' n' -> g = g' /\ v = v' /\ n = n'.
Proof.
  intros H H' Hn Hn' E. unfold base_key in E. apply append_char_inj in E as [E ->]; [|done..].
  apply gv_round_trip in H, H'. rewrite E, H' in H. by injection H as -> ->.
Qed.

(** A known base resource serves every verb its entry lists. *)
Lemma base_serves resources s g v name info verb :
  ParseGroupVersion s = Ok (g, v) -> has_char "/"%char name = false ->
  baseResources resources !! base_key g v name = Some info -> verb ∈ ri_verbs info -> serves resources g v name verb.
Proof.
  intros Hs Hn (l & r & g' & v' & Hl & Hp & Hr & Hc & Hk & ->)%baseResources_entries Hv.
  rewrite Contains_slash in Hc. destruct (base_key_inj _ _ _ _ _ _ _ _ Hs Hp Hn Hc Hk) as (<- & <- & ->).
  exists l, r. by split_and!.
Qed.

Lemma resource_actions_offered resources l r g v a cats :
  well_named resources -> l ∈ resources -> ParseGroupVersion (GroupVersion l) = Ok (g, v) -> r ∈ APIResources l ->
  (a, cats) ∈ resource_actions (baseResources resources) g v r ->
  names_action (a_Subresource a) (a_Verb a) (a_Action a) /\
  serves resources (Group (a_GVR a)) (Version (a_GVR a)) (ResourceName a) (a_Verb a).
Proof.
  intros Hw Hl Hp Hr H. unfold resource_actions in H. specialize (Hw l r Hl Hr).
  destruct (SplitN2 (ar_Name r) "/"%char) as [name rest] eqn:Es. destruct (SplitN2_spec _ _ _ _ Es) as [Hn Hname].
  cbn [snd] in Hw. set (info := default _ _) in H. rewrite !elem_of_app in H.
  assert (forall act, default "" rest = "" /\ "patch" ∈ ri_verbs info -> act ∈ ["apply"; "restart"] ->
    (a, cats) = ({| a_GVR := {| Group := g; Version := v; Resource := ar_Name r |}; a_Kind := ri_kind info;
       a_Subresource := ""; a_Verb := "patch"; a_Action := act; a_Namespaced := ri_namespaced info |}, ri_categories info) ->
    names_action (a_Subresource a) (a_Verb a) (a_Action a) /\
    serves resources (Group (a_GVR a)) (Version (a_GVR a)) (ResourceName a) (a_Verb a)) as Hpatch.
  { intros act [Hsub Hv] Hact [= -> ->]. cbn. split; [right; left; by split_and!|].
    destruct rest as [sub|]; [by destruct Hw; cbn in Hsub; subst|]. subst name. unfold info in Hv.
    destruct (baseResources resources !! base_key g v (ar_Name r)) as [known|] eqn:Ek; [|by apply elem_of_nil in Hv].
    eapply base_serves; eauto. }
  destruct H as [H|[H|H]].
  - apply list_elem_of_omap in H as (verb & Hv & H). destruct (verb_action (default "" rest) verb) as [act|] eqn:Ea; [|done].
    injection H as <- <-. cbn. split; [by apply verb_action_names|]. exists l, r. split_and!; try done.
    unfold ResourceName; cbn. rewrite Hname. destruct rest as [sub|]; cbn; [|done].
    rewrite bool_decide_false by congruence. done.
  - destruct (_ && _ && _ && _) eqn:E; [|by apply elem_of_nil in H]. reflect_bools. apply list_elem_of_singleton in H.
    eapply (Hpatch "restart"); [done|set_solver|done].
  - destruct (_ && _) eqn:E; [|by apply elem_of_nil in H]. reflect_bools. apply list_elem_of_singleton in H.
    eapply (Hpatch "apply"); [done|set_solver|done].
Qed.

Lemma catalog_actions_offered resources a cats :
  well_named resources -> (a, cats) ∈ catalog_actions resources ->
  names_action (a_Subresource a) (a_Verb a) (a_Action a) /\
  serves resources (Group (a_GVR a)) (Version (a_GVR a)) (ResourceName a) (a_Verb a).
Proof.
  intros Hw H. unfold catalog_actions in H. apply list_elem_of_join in H as (acts & Ha & H).
  apply list_elem_of_fmap in H as (l & -> & Hl). destruct (ParseGroupVersion (GroupVersion l)) as [[g v]|] eqn:Ep;
    [|by apply elem_of_nil in Ha].
  apply list_elem_of_join in Ha as (ras & Ha & H). apply list_elem_of_fmap in H as (r & -> & Hr).
  by eapply resource_actions_offered.
Qed.
End offers.

(** ** Properties *)

(** Cursors are read back: [decodeCursor] inverts [encodeCursor] on every index
    of a Go slice, and a cursor is never the empty string that means the start. *)
Theorem cursor_round_trip i :
  (0 <= i <= int64_max)%Z -> decodeCursor (encodeCursor i) = Ok i /\ encodeCursor i <> "".
Proof. apply decode_encodeCursor. Qed.

(** The catalogue invents nothing: every action it offers is named as the table
    of verbs says, and the API server listed its verb for its very resource (an
    apply and a restart are patches of the object itself). *)
Theorem catalog_offers_discovered {V : GroupVersionLib} {L : GroupVersionLaws} resources a cats :
  well_named resources -> (a, cats) ∈ catalog_actions resources ->
  names_action (a_Subresource a) (a_Verb a) (a_Action a) /\
  serves resources (Group (a_GVR a)) (Version (a_GVR a)) (ResourceName a) (a_Verb a).
Proof. apply catalog_actions_offered. Qed.

(** Handles survive a refresh: an attempt to list keeps every capability of the
    snapshot, of a partial answer and of its own answer decodable, and the
    handles of the snapshot it replaced as well, whatever discovery answers. *)
Theorem listed_handles_decode {V : GroupVersionLib} {S : SortLib} {SL : SortLaws} c codec p w h c' codec' answer h' :
  catalog_inv c codec -> list_attempt c codec p w h = (Some (c', codec', answer), h') ->
  catalog_inv c' codec' /\ (forall caps, answer = Some (Ok caps) -> Forall (decodable codec') caps) /\
  Forall (decodable codec') (items c).
Proof.
  intros Hc Hrun. destruct (list_attempt_satisfies c codec p Hc w h) as (es & _ & Hk).
  rewrite Hrun in Hk. destruct (Hk _ _ _ eq_refl) as (Hi & Ha & Hold). split_and!; [done| |done].
  intros caps ->. by apply Ha.
Qed.

Section search_properties.
Context {G : GoLib} {Q : QuantityLib}.

(** C27: Search shows a caller only what the caller may use: in every environment the
    page is a selection, in order, of the capabilities that match the filter,
    each permitted by the policy and allowed to the caller by a review of this
    search (and [get] as well, for a write).  A search changes nothing. *)
Theorem search_results_are_usable config p caps f cursor limit w h page next h' :
  searchCatalog config p caps f cursor limit w h = (Ok (page, next), h') ->
  exists es, h' = h ++ es /\ Forall (authorization_event p) es /\
    page `sublist_of` List.filter (filter_matches f) caps /\ Forall (usable config p f es) page.
Proof.
  assert (satisfies (searchCatalog config p caps f cursor limit) (fun r es =>
    Forall (authorization_event p) es /\ forall page next, r = Ok (page, next) ->
      page `sublist_of` List.filter (filter_matches f) caps /\ Forall (usable config p f es) page)) as H.
  { unfold searchCatalog. satisfies_step. destruct a as [err|]; [satisfies_step; by repeat constructor|].
    destruct (decodeCursor cursor) as [start|]; [|satisfies_step; by repeat constructor].
    destruct (_ <? _)%Z; [satisfies_step; by repeat constructor|].
    eapply satisfies_bind; [apply (search_loop_satisfies config p f limit _ 0 [] start (Some withAuthorizationCache) [Ev p CtxErr None]); by intros c k [= <-]|].
    intros r es [Hes Hr]. destruct r as [[found index]|err]; [|satisfies_step; rewrite app_nil_r; by repeat constructor].
    satisfies_step. destruct a as [err|]; satisfies_step;
      (split; [constructor; [done|]; apply Forall_app; by repeat constructor|]); [done|]. intros page' next' [= <- _].
    destruct (Hr _ _ eq_refl) as (n & more & _ & _ & -> & Hs & Hu). cbn [app]. split.
    - etrans; [exact Hs|]. etrans; [apply sublist_take|]. apply sublist_drop.
    - eapply Forall_impl; [exact Hu|]. intros cap Hc. rewrite app_comm_cons. by apply usable_app. }
  intros Hrun. destruct (H w h) as (es & Hes & Hf & Hp). rewrite Hrun in Hes, Hp. cbn in Hes, Hp.
  exists es. destruct (Hp _ _ eq_refl). by split_and!.
Qed.

(** C28: Paging is complete: on a quiet cluster where nothing but policy and RBAC
    refuses, following the cursors to the end terminates (a page advances by at
    least one) and yields every usable capability that matches, once, in order. *)
Theorem pages_cover_the_catalog w p config f reviews caps limit :
  steady w p reviews -> (0 < limit)%Z -> (Z.of_nat (length caps) <= int64_max)%Z ->
  refusals_only config f reviews caps ->
  all_pages w p config f (S (length caps)) caps limit "" =
    Some (List.filter (offered config f reviews) (List.filter (filter_matches f) caps)).
Proof.
  intros Hw Hl Hmax Hr. pose proof (List.filter_length_le (filter_matches f) caps) as Hle.
  rewrite (all_pages_from w p config f reviews Hw caps limit (S (length caps)) 0 ""); cbn [drop]; try done; try lia.
  apply Forall_forall. intros cap [Hin _]%list_elem_of_In%List.filter_In. unfold refusals_only in Hr.
  rewrite Forall_forall in Hr. by apply Hr, list_elem_of_In.
Qed.
End search_properties.

(** ** Witnesses *)

Module CatalogWitness.
Export PolicyWitness.

Definition plain_parse (s : string) : result go_error (string * string) :=
  match Split s "/"%char with
  | [v] => Ok ("", v)
  | [g; v] => Ok (g, v)
  | _ => Err (OtherError "unexpected GroupVersion string")
  end.
#[export] Instance plain_GroupVersion : GroupVersionLib := {|
  ParseGroupVersion := plain_parse;
  gv_String g v := if bool_decide (g = "") then v else g +:+ String "/"%char v
|}.

#[export] Instance plain_GroupVersionLaws : GroupVersionLaws.
Proof.
  split. cbn. unfold plain_parse. intros s g v H. pose proof (fun p => Split_no_sep s "/"%char p) as Hno.
  destruct (Split s "/"%char) as [|a [|b [|]]]; try done; injection H as <- <-; case_bool_decide as Hg; try done.
  - rewrite Split_single; [done|]. apply Hno. left.
  - subst. rewrite Split_single; [done|]. apply Hno. right. left.
  - rewrite Split_app_sep, Split_single; [done| |]; apply Hno; [right; left|left].
Qed.

Fixpoint insert_by {A} (less : A -> A -> bool) (x : A) (l : list A) : list A :=
  match l with
  | [] => [x]
  | y :: l' => if less y x then y :: insert_by less x l' else x :: l
  end.
#[export] Instance plain_Sort : SortLib := {| sort_Slice A less l := foldr (insert_by less) [] l |}.
Lemma insert_by_perm {A} (less : A -> A -> bool) x l : insert_by less x l ≡ₚ x :: l.
Proof. induction l as [|y l IH]; cbn; [done|]. destruct (less y x); [rewrite IH; constructor|done]. Qed.
#[export] Instance plain_SortLaws : SortLaws.
Proof. split. intros A less l. cbn. induction l as [|x l IH]; cbn; [done|]. by rewrite insert_by_perm, IH. Qed.

Definition apps : APIResourceList := {|
  GroupVersion := "apps/v1";
  APIResources := [
    {| ar_Name := "deployments"; ar_Kind := "Deployment"; ar_Namespaced := true;
       ar_Verbs := ["get"; "patch"; "deletecollection"]; ar_Categories := ["all"] |};
    {| ar_Name := "deployments/scale"; ar_Kind := "Scale"; ar_Namespaced := true;
       ar_Verbs := ["get"; "patch"]; ar_Categories := [] |}] |}.

(** The offered actions: get, patch, restart, apply and scale. *)
Example apps_actions : (fun x => a_Action x.1) <$> catalog_actions [apps] = ["get"; "patch"; "restart"; "apply"; "scale"].
Proof. vm_compute. reflexivity. Qed.

Lemma cursor_round_trip_witness : decodeCursor (encodeCursor 40) = Ok 40%Z /\ encodeCursor 40 <> "".
Proof. apply cursor_round_trip. unfold int64_max. lia. Defined.

Definition scale_action : Action := {|
  a_GVR := {| Group := "apps"; Version := "v1"; Resource := "deployments" |}; a_Kind := "Deployment";
  a_Subresource := "scale"; a_Verb := "patch"; a_Action := "scale"; a_Namespaced := true |}.

Lemma catalog_offers_discovered_witness :
  names_action "scale" "patch" "scale" /\ serves [apps] "apps" "v1" "deployments/scale" "patch".
Proof.
  apply (catalog_offers_discovered [apps] scale_action ["all"]).
  - intros l r Hl Hr. apply list_elem_of_singleton in Hl as ->. cbn [APIResources apps] in Hr.
    rewrite !elem_of_cons, elem_of_nil in Hr. destruct Hr as [->|[->|[]]]; vm_compute; discriminate.
  - apply list_elem_of_lookup. exists 4. vm_compute. reflexivity.
Defined.

(** A cluster that serves the list above. *)
Definition discovering : env := fun A h p c =>
  match c in call A return A with
  | Discover => Ok {| dc_groups := []; dc_lists := [Some apps]; dc_error := None |}
  | Now => 1000%Z
  | c' => open_cluster _ h p c'
  end.
Definition attempt : option (catalogCache * capabilityCodec * option (result go_error (list Capability))) * list event :=
  Eval vm_compute in list_attempt newCatalogCache CapabilityWitness.fresh alice discovering [].
Definition attempt_cache : catalogCache := Eval vm_compute in match attempt.1 with Some (c, _, _) => c | None => newCatalogCache end.
Definition attempt_codec : capabilityCodec := Eval vm_compute in match attempt.1 with Some (_, k, _) => k | None => CapabilityWitness.fresh end.
Definition attempt_answer : option (result go_error (list Capability)) := Eval vm_compute in match attempt.1 with Some (_, _, a) => a | None => None end.

Lemma listed_handles_decode_witness :
  catalog_inv attempt_cache attempt_codec /\
  (forall caps, attempt_answer = Some (Ok caps) -> Forall (decodable attempt_codec) caps) /\
  Forall (decodable attempt_codec) (items newCatalogCache).
Proof.
  apply (listed_handles_decode newCatalogCache CapabilityWitness.fresh alice discovering [] attempt_cache attempt_codec
           attempt_answer attempt.2).
  - constructor; [apply map_Forall_empty|constructor|done].
  - vm_compute. reflexivity.
Defined.

(** Search over the catalogue just listed. *)
Definition listed : list Capability := Eval vm_compute in match attempt_answer with Some (Ok caps) => caps | _ => [] end.
Definition any_filter : catalogSearchFilter := {|
  f_Query := "deployment"; f_Action := ""; f_ExactKind := ""; f_ExactResource := ""; f_APIGroup := "apps"; f_Version := "";
  f_Namespace := ""; f_Name := "" |}.
Definition found : result go_error (list Capability * string) * list event :=
  Eval vm_compute in searchCatalog (demo_config ModeReadOnly) alice listed any_filter "" 2 open_cluster [].
Definition found_page : list Capability * string := Eval vm_compute in match found.1 with Ok page => page | Err _ => ([], "") end.

Lemma search_results_are_usable_witness :
  length found_page.1 = 1 /\
  exists es, found.2 = [] ++ es /\ Forall (authorization_event alice) es /\
    found_page.1 `sublist_of` List.filter (filter_matches any_filter) listed /\
    Forall (usable (demo_config ModeReadOnly) alice any_filter es) found_page.1.
Proof.
  split; [vm_compute; reflexivity|].
  apply (search_results_are_usable (demo_config ModeReadOnly) alice listed any_filter "" 2 open_cluster [] found_page.1
           found_page.2 found.2). vm_compute. reflexivity.
Defined.

Definition all_allowed (_ : ResourceAttributes) : result go_error review_status :=
  Ok {| Allowed := true; EvaluationError := ""; ReviewReason := "" |}.

Lemma pages_cover_the_catalog_witness :
  all_pages open_cluster alice (demo_config ModeSafeWrite) any_filter (S (length listed)) listed 2 "" =
    Some (List.filter (offered (demo_config ModeSafeWrite) any_filter all_allowed)
            (List.filter (filter_matches any_filter) listed)).
Proof.
  apply pages_cover_the_catalog; [done|lia|vm_compute; discriminate|].
  unfold refusals_only. rewrite Forall_forall. intros cap Hc. apply list_elem_of_lookup in Hc as [i Hi].
  do 5 (destruct i as [|i]; [vm_compute in Hi; injection Hi as <-; vm_compute; eauto|]). by vm_compute in Hi.
Defined.
End CatalogWitness.
