(* ===== verification/ReadOutput.v ===== *)
(** * Shaping of read results (src/internal/server/read_output.go)

    What [k8s.read] returns: the object without managed fields and
    annotations, whole, projected to field paths, summarised or as a table.

    A Go map that is filled step by step is a value passed along.  The maps
    reachable from an argument are only ever given the value they already
    hold ([setValueAtPath] writes through an aliased subtree the value that
    was read from it), so passing values is faithful. *)

From Stdlib Require Import String Ascii.
From S2P Require Import Prelude GoStrings Json Errors Config Kube Policy Operations.

Definition readOutputSummary : string := "summary".
Definition readOutputTable : string := "table".
Definition readOutputFull : string := "full".
Definition maxReadFieldPaths : nat := 32.

Record readOutputOptions := {
  mode : string; omitManagedFields : bool; omitAnnotations : bool; fieldPaths : list string
}.

Record ReadInput := {
  ri_CapabilityID : string; ri_Namespace : string; ri_Name : string; ri_LabelSelector : string; ri_FieldSelector : string;
  ri_Cursor : string; ri_ResourceVersion : string; ri_Limit : Z; ri_OutputMode : string;
  ri_OmitManagedFields : option bool; ri_OmitAnnotations : option bool; ri_FieldPaths : list string;
  ri_Follow : bool; ri_Container : string; ri_TailLines : option Z; ri_SinceSeconds : option Z
}.

(** ** Options *)

Definition defaultTrue (v : option bool) : bool := default true v.

(** [time.Parse(time.RFC3339, s)], as nanoseconds after the zero time. *)
Class TimeLib := { ParseRFC3339 : string -> option Z }.

Section options.
Context {G : GoLib}.

Definition validateReadFieldPath (path : string) : result go_error unit :=
  if bool_decide (path = "") || (256 <? String.length path)%nat then
    Err (policyError "invalid_input" "fieldPaths entries must contain between 1 and 256 characters")
  else
  let parts := Split path "."%char in
  if (32 <? length parts)%nat then
    Err (policyError "invalid_input" ("field path " +:+ (Quote path +:+ " is too deep")))
  else first_error (fun part =>
    if bool_decide (part = "") || bool_decide (part = "*") || ContainsAny part "[]/" then
      Err (policyError "invalid_input" ("field path " +:+ (Quote path +:+ " must use dot-separated object keys")))
    else Ok ()) parts.

(** The loop over [input.FieldPaths]: trimmed, validated, without repetition. *)
Fixpoint collect_paths (raws : list string) (paths : list string) : result go_error (list string) :=
  match raws with
  | [] => Ok paths
  | raw :: raws' =>
    let path := TrimSpace raw in
    match validateReadFieldPath path with
    | Err err => Err err
    | Ok _ => collect_paths raws' (if bool_decide (path ∈ paths) then paths else paths ++ [path])
    end
  end.

Definition normalizeReadOutputOptions (action : Action) (input : ReadInput) : result go_error readOutputOptions :=
  let requested := ToLower (TrimSpace (ri_OutputMode input)) in
  let mode :=
    if bool_decide (requested = "") then
      if bool_decide (a_Action action = "list") || bool_decide (a_Action action = "watch") then readOutputSummary else readOutputFull
    else requested in
  if negb (bool_decide (mode ∈ [readOutputSummary; readOutputTable; readOutputFull])) then
    Err (policyError "invalid_input" "outputMode must be summary, table, or full")
  else if bool_decide (a_Action action = "logs")
          && (bool_decide (ri_OutputMode input <> "") || bool_decide (ri_FieldPaths input <> [])
              || bool_decide (ri_OmitManagedFields input <> None) || bool_decide (ri_OmitAnnotations input <> None)) then
    Err (policyError "invalid_input" "output shaping options are not supported for Pod logs")
  else if bool_decide (mode = readOutputTable) && bool_decide (ri_FieldPaths input <> []) then
    Err (policyError "invalid_input" "fieldPaths cannot be combined with outputMode=table")
  else if (maxReadFieldPaths <? length (ri_FieldPaths input))%nat then
    Err (policyError "invalid_input" "fieldPaths accepts at most 32 paths")
  else
  paths ← collect_paths (ri_FieldPaths input) [];
  Ok {| mode := mode; omitManagedFields := defaultTrue (ri_OmitManagedFields input);
        omitAnnotations := defaultTrue (ri_OmitAnnotations input); fieldPaths := paths |}.
End options.

(** ** Cleaning *)

Definition omitted (options : readOutputOptions) (metadata : bool) (key : string) : bool :=
  metadata && ((bool_decide (key = "managedFields") && omitManagedFields options)
               || (bool_decide (key = "annotations") && omitAnnotations options)).

Fixpoint cleanKubernetesValue (options : readOutputOptions) (v : value) (metadata : bool) {struct v} : value :=
  match v with
  | VMap m =>
    VMap ((fix go (m : object) : object :=
             match m with
             | [] => []
             | kv :: m' =>
               if omitted options metadata kv.1 then go m'
               else (kv.1, cleanKubernetesValue options kv.2 (bool_decide (kv.1 = "metadata"))) :: go m'
             end) m)
  | VList l =>
    VList ((fix go (l : list value) : list value :=
              match l with [] => [] | x :: l' => cleanKubernetesValue options x false :: go l' end) l)
  | _ => v
  end.

(** ** Projection *)

Fixpoint valueAtPath (v : value) (parts : list string) : option value :=
  match parts with
  | [] => Some v
  | part :: rest =>
    match v with
    | VMap m => match obj_get m part with Some next => valueAtPath next rest | None => None end
    | _ => None
    end
  end.

(** [parts] is not empty: it comes from [strings.Split]. *)
Fixpoint setValueAtPath (m : object) (parts : list string) (v : value) : object :=
  match parts with
  | [] => m
  | [part] => obj_set m part v
  | part :: rest => obj_set m part (VMap (setValueAtPath (map_or_nil (obj_index m part)) rest v))
  end.

Definition projectObject (m : object) (paths : list string) : object * bool :=
  foldl (fun '(output, foundAny) path =>
    let parts := Split path "."%char in
    match valueAtPath (VMap m) parts with
    | None => (output, foundAny)
    | Some v => (setValueAtPath output parts v, true)
    end) ([], false) paths.

Section shape.
Context {G : GoLib} {T : TimeLib}.

(** ** Scalars *)

Definition scalarString (v : value) : string :=
  match v with VStr s => s | VNull => "" | _ => Sprint v end.

Definition numberValue (v : value) : spec_float :=
  match v with
  | VFloat f => f
  | VInt z => float_of_Z z
  | _ => ParseFloat (Sprint v)
  end.

Definition boolValue (v : value) : bool := bool_or_zero v.

(** [int64(f)]: towards zero; what does not fit gives the smallest [int64], as
    the hardware conversion of amd64 does. *)
Definition int64_of_float (f : spec_float) : Z :=
  match f with
  | S754_zero _ => 0
  | S754_finite s m e =>
    let magnitude := if (0 <=? e)%Z then Z.shiftl (Zpos m) e else Z.shiftr (Zpos m) (- e) in
    let z := if s then (- magnitude)%Z else magnitude in
    if ((int64_min <=? z) && (z <=? int64_max))%Z then z else int64_min
  | _ => int64_min
  end.

Definition copyString (output : object) (outputKey : string) (input : object) (inputKey : string) : object :=
  let v := scalarString (obj_index input inputKey) in
  if bool_decide (v <> "") then obj_set output outputKey (VStr v) else output.

Definition copyNumber (output : object) (outputKey : string) (input : object) (inputKey : string) : object :=
  match obj_get input inputKey with
  | Some v => obj_set output outputKey (VFloat (numberValue v))
  | None => output
  end.

Definition omitEmptySummaryValues (input : object) : object :=
  List.filter (fun kv => match kv.2 with VStr s => negb (bool_decide (s = "")) | VNull => false | _ => true end) input.

(** ** Age *)

Definition hour : Z := 60 * minute.
Definition day : Z := 24 * hour.
Definition year : Z := 365 * day.

(** [now] is the clock when the age is computed. *)
Definition objectAge (metadata : object) (now : Z) : string :=
  let created := scalarString (obj_index metadata "creationTimestamp") in
  if bool_decide (created = "") then ""
  else match ParseRFC3339 created with
       | None => created
       | Some timestamp =>
         let duration := Z.max 0 (time_Sub now timestamp) in
         if (year <=? duration)%Z then Itoa (Z.quot duration year) +:+ "y"
         else if (day <=? duration)%Z then Itoa (Z.quot duration day) +:+ "d"
         else if (hour <=? duration)%Z then Itoa (Z.quot duration hour) +:+ "h"
         else if (minute <=? duration)%Z then Itoa (Z.quot duration minute) +:+ "m"
         else Itoa (Z.quot duration second) +:+ "s"
       end.

(** ** Summaries *)

Definition containerStateReason (container : object) : string :=
  let state := map_or_nil (obj_index container "state") in
  let reason field := scalarString (obj_index (map_or_nil (obj_index state field)) "reason") in
  or_string (reason "waiting") (reason "terminated").

Record container_state := { cs_ready : Z; cs_total : Z; cs_restarts : Z; cs_reason : string }.

Definition count_container (main : bool) (s : container_state) (raw : value) : container_state :=
  let container := map_or_nil raw in {|
  cs_ready := if main && boolValue (obj_index container "ready") then cs_ready s + 1 else cs_ready s;
  cs_total := cs_total s;
  cs_restarts := wrap64 (cs_restarts s + int64_of_float (numberValue (obj_index container "restartCount")));
  cs_reason := or_string (cs_reason s) (containerStateReason container) |}.

Definition podContainerState (status : object) : container_state :=
  let init := list_or_nil (obj_index status "initContainerStatuses") in
  let main := list_or_nil (obj_index status "containerStatuses") in
  let s := foldl (count_container false) {| cs_ready := 0; cs_total := 0; cs_restarts := 0; cs_reason := "" |} init in
  foldl (count_container true)
    {| cs_ready := cs_ready s; cs_total := Z.of_nat (length main); cs_restarts := cs_restarts s; cs_reason := cs_reason s |} main.

Definition addPodSummary (output spec status : object) : object :=
  let output := copyString output "phase" status "phase" in
  let output := copyString output "node" spec "nodeName" in
  let s := podContainerState status in
  let output := obj_set output "ready" (VStr (Itoa (cs_ready s) +:+ ("/" +:+ Itoa (cs_total s)))) in
  let output := obj_set output "restartCount" (VInt (cs_restarts s)) in
  let reason := or_string (scalarString (obj_index status "reason")) (cs_reason s) in
  if bool_decide (reason <> "") then obj_set output "reason" (VStr reason) else output.

Definition addWorkloadSummary (output spec status : object) : object :=
  let output := copyNumber output "desired" spec "replicas" in
  let output := copyNumber output "ready" status "readyReplicas" in
  let output := copyNumber output "available" status "availableReplicas" in
  copyNumber output "updated" status "updatedReplicas".

Definition addEventSummary (output object_ : object) : object :=
  let output := copyString output "type" object_ "type" in
  let output := copyString output "reason" object_ "reason" in
  let output := copyString output "message" object_ "message" in
  let output := copyNumber output "count" object_ "count" in
  let seen field := scalarString (obj_index object_ field) in
  let lastSeen := or_string (seen "eventTime") (or_string (seen "lastTimestamp") (seen "firstTimestamp")) in
  let output := if bool_decide (lastSeen <> "") then obj_set output "lastSeen" (VStr lastSeen) else output in
  let regarding := match as_map (obj_index object_ "regarding") with
                   | Some m => m
                   | None => map_or_nil (obj_index object_ "involvedObject")
                   end in
  let name := scalarString (obj_index regarding "name") in
  if bool_decide (name <> "") then
    obj_set output "object" (VStr (Trim (Join [scalarString (obj_index regarding "kind"); name] "/") "/"))
  else output.

Definition summarizeMetricContainers (items : list value) : list value :=
  (fun raw =>
     let container := map_or_nil raw in
     VMap ([("name", obj_index container "name")]
           ++ match as_map (obj_index container "usage") with Some usage => [("usage", VMap usage)] | None => [] end)) <$> items.

Definition set_nonempty (output : object) (key v : string) : object :=
  if bool_decide (v <> "") then obj_set output key (VStr v) else output.

(** The switch on the kind. *)
Definition add_kind_summary (kind : string) (output object_ spec status : object) : object :=
  let k := ToLower kind in
  if bool_decide (k = "pod") then addPodSummary output spec status
  else if bool_decide (k ∈ ["deployment"; "replicaset"; "statefulset"]) then addWorkloadSummary output spec status
  else if bool_decide (k = "daemonset") then
    let output := copyNumber output "desired" status "desiredNumberScheduled" in
    let output := copyNumber output "ready" status "numberReady" in
    let output := copyNumber output "available" status "numberAvailable" in
    copyNumber output "updated" status "updatedNumberScheduled"
  else if bool_decide (k = "event") then addEventSummary output object_
  else if bool_decide (k = "service") then
    let output := copyString output "type" spec "type" in
    copyString output "clusterIP" spec "clusterIP"
  else if bool_decide (k ∈ ["podmetrics"; "nodemetrics"]) then
    let output := copyString output "timestamp" object_ "timestamp" in
    let output := copyString output "window" object_ "window" in
    match as_list (obj_index object_ "containers") with
    | Some containers => obj_set output "containers" (VList (summarizeMetricContainers containers))
    | None => output
    end
  else
    let output := copyString output "phase" status "phase" in
    let output := copyString output "reason" status "reason" in
    addWorkloadSummary output spec status.

Definition summarizeKubernetesObject (object_ : object) (fallbackKind : string) (now : Z) : object :=
  let metadata := map_or_nil (obj_index object_ "metadata") in
  let status := map_or_nil (obj_index object_ "status") in
  let spec := map_or_nil (obj_index object_ "spec") in
  let kind := or_string (scalarString (obj_index object_ "kind")) fallbackKind in
  let output := [("name", VStr (scalarString (obj_index metadata "name")));
                 ("namespace", VStr (scalarString (obj_index metadata "namespace"))); ("kind", VStr kind)] in
  let output := set_nonempty output "resourceVersion" (scalarString (obj_index metadata "resourceVersion")) in
  let output := set_nonempty output "apiVersion" (scalarString (obj_index object_ "apiVersion")) in
  let output := set_nonempty output "age" (objectAge metadata now) in
  omitEmptySummaryValues (add_kind_summary kind output object_ spec status).

(** ** Lists *)

Definition compactListMetadata (object_ : object) : object :=
  let metadata := map_or_nil (obj_index object_ "metadata") in
  omap (fun field =>
    match obj_get metadata field with
    | Some v => if bool_decide (scalarString v <> "") then Some (field, v) else None
    | None => None
    end) ["continue"; "remainingItemCount"; "resourceVersion"].

Definition listEnvelope (object_ : object) : object :=
  omap (fun field => pair field <$> obj_get object_ field) ["apiVersion"; "kind"]
  ++ match compactListMetadata object_ with [] => [] | metadata => [("metadata", VMap metadata)] end.

(** The items that are objects, each with the clock reading of its summary. *)
Definition object_items (items : list value) : list (nat * object) :=
  omap (fun '(i, raw) => pair i <$> as_map raw) (imap pair items).

Definition summarizeKubernetesResponse (object_ : object) (action : Action) (clock : nat -> Z) : object :=
  match as_list (obj_index object_ "items") with
  | None => summarizeKubernetesObject object_ (a_Kind action) (clock 0)
  | Some items =>
    obj_set (listEnvelope object_) "items"
      (VList ((fun '(i, item) => VMap (summarizeKubernetesObject item (a_Kind action) (clock i))) <$> object_items items))
  end.

Definition summaryTableColumns (kind : string) : list string :=
  let k := ToLower kind in
  if bool_decide (k = "pod") then ["name"; "namespace"; "phase"; "ready"; "restartCount"; "reason"; "node"; "age"]
  else if bool_decide (k ∈ ["deployment"; "replicaset"; "statefulset"; "daemonset"]) then
    ["name"; "namespace"; "desired"; "ready"; "available"; "updated"; "age"]
  else if bool_decide (k = "event") then ["type"; "reason"; "object"; "message"; "count"; "lastSeen"]
  else if bool_decide (k = "service") then ["name"; "namespace"; "type"; "clusterIP"; "age"]
  else ["name"; "namespace"; "kind"; "phase"; "reason"; "age"].

Definition tableKubernetesResponse (object_ : object) (action : Action) (clock : nat -> Z) : object :=
  let list_items := as_list (obj_index object_ "items") in
  let items := default [VMap object_] list_items in
  let kind :=
    if bool_decide (a_Kind action = "") then
      match items with VMap first :: _ => scalarString (obj_index first "kind") | _ => "" end
    else a_Kind action in
  let columns := summaryTableColumns kind in
  let rows := (fun '(i, item) =>
    let summary := summarizeKubernetesObject item kind (clock i) in
    VList (obj_index summary <$> columns)) <$> object_items items in
  [("kind", VStr kind); ("columns", VStrings columns); ("rows", VList rows)]
  ++ match list_items with
     | Some _ => match compactListMetadata object_ with [] => [] | metadata => [("metadata", VMap metadata)] end
     | None => []
     end.

Definition projectKubernetesResponse (object_ : object) (paths : list string) : result go_error object :=
  match as_list (obj_index object_ "items") with
  | None =>
    match projectObject object_ paths with
    | (projected, true) => Ok projected
    | (_, false) => Err (policyError "field_path_not_found" "none of the requested fieldPaths exist in the object")
    end
  | Some items =>
    let projections := (fun item => projectObject item paths) <$> omap as_map items in
    if bool_decide (items <> []) && negb (existsb snd projections) then
      Err (policyError "field_path_not_found" "none of the requested fieldPaths exist in the list items")
    else Ok (obj_set (listEnvelope object_) "items" (VList (VMap ∘ fst <$> projections)))
  end.

Definition shapeReadOutput (v : value) (action : Action) (options : readOutputOptions) (clock : nat -> Z)
    : result go_error object :=
  match cleanKubernetesValue options v false with
  | VMap object_ =>
    if bool_decide (fieldPaths options <> []) then projectKubernetesResponse object_ (fieldPaths options)
    else if bool_decide (mode options = readOutputFull) then Ok object_
    else if bool_decide (mode options = readOutputTable) then Ok (tableKubernetesResponse object_ action clock)
    else Ok (summarizeKubernetesResponse object_ action clock)
  | _ => Err (policyError "invalid_output" "Kubernetes response is not an object")
  end.
End shape.

(** ** Lemmas: projection *)

(** [v] holds nothing that [w] does not hold at the same place. *)
Inductive projects : value -> value -> Prop :=
| projects_same v : projects v v
| projects_map m m' :
    (forall k v, obj_get m k = Some v -> exists v', obj_get m' k = Some v' /\ projects v v') ->
    projects (VMap m) (VMap m').

Lemma obj_set_same {A} (m : list (string * A)) k v : obj_get m k = Some v -> obj_set m k v = m.
Proof.
  induction m as [|[k' v'] m IH]; cbn; [done|]. case_bool_decide as E; [intros [= ->]; by subst|].
  intros H. by rewrite IH.
Qed.

Lemma projects_lookup m m' k v :
  projects (VMap m) (VMap m') -> obj_get m k = Some v -> exists v', obj_get m' k = Some v' /\ projects v v'.
Proof. inversion 1; subst; [|eauto]. intros ?. exists v. split; [done|constructor]. Qed.

Lemma projects_set m m' k v v' :
  projects (VMap m) (VMap m') -> obj_get m' k = Some v' -> projects v v' -> projects (VMap (obj_set m k v)) (VMap m').
Proof.
  intros Hm Hk Hv. constructor. intros k0 v0 H. destruct (decide (k = k0)) as [<-|Hne].
  - rewrite obj_get_set_eq in H. injection H as <-. eauto.
  - rewrite obj_get_set_ne in H by done. by eapply projects_lookup.
Qed.

(** The map the source has at [part], seen from a projection of the source. *)
Lemma projects_next out m part md :
  projects (VMap out) (VMap m) -> obj_get m part = Some (VMap md) ->
  projects (VMap (map_or_nil (obj_index out part))) (VMap md) /\
  forall v, obj_get out part = Some v -> v = VMap (map_or_nil (obj_index out part)).
Proof.
  intros Hp Hm. unfold obj_index. destruct (obj_get out part) as [v|] eqn:E; cbn.
  - destruct (projects_lookup _ _ _ _ Hp E) as (v' & Hv' & Hpv). rewrite Hm in Hv'. injection Hv' as <-.
    inversion Hpv; subst; cbn; (split; [done|by intros ? [= <-]]).
  - split; [|done]. constructor. by intros k v.
Qed.

(** Writing at a path the value the source has there: the result is still a
    projection, it has that value, and it keeps every value of the source it had. *)
Lemma set_source_value parts : forall out m v,
  parts <> [] -> projects (VMap out) (VMap m) -> valueAtPath (VMap m) parts = Some v ->
  let out' := setValueAtPath out parts v in
  projects (VMap out') (VMap m) /\ valueAtPath (VMap out') parts = Some v /\
  forall q u, valueAtPath (VMap out) q = Some u -> valueAtPath (VMap m) q = Some u -> valueAtPath (VMap out') q = Some u.
Proof.
  induction parts as [|part rest IH]; intros out m v Hne Hp Hv; [done|].
  cbn [valueAtPath] in Hv. destruct (obj_get m part) as [next|] eqn:En; [|done].
  destruct rest as [|part' rest'].
  - cbn in Hv. injection Hv as ->. cbn [setValueAtPath]. split_and!.
    + eapply projects_set; [done..|constructor].
    + cbn. by rewrite obj_get_set_eq.
    + intros [|k q] u Ho Hs; cbn in *.
      * injection Ho as <-. injection Hs as ->. by rewrite obj_set_same.
      * destruct (decide (part = k)) as [<-|Hk]; [by rewrite obj_get_set_eq; rewrite En in Hs|by rewrite obj_get_set_ne].
  - assert (exists md, next = VMap md) as [md ->] by (destruct next; try done; eauto).
    destruct (projects_next _ _ _ _ Hp En) as [Hpn Hout].
    destruct (IH (map_or_nil (obj_index out part)) md v) as (Hp' & Hv' & Hq); [done..|].
    change (setValueAtPath out (part :: part' :: rest') v)
      with (obj_set out part (VMap (setValueAtPath (map_or_nil (obj_index out part)) (part' :: rest') v))).
    set (sub := setValueAtPath _ (part' :: rest') v) in *. clearbody sub. split_and!.
    + by eapply projects_set.
    + cbn [valueAtPath]. by rewrite obj_get_set_eq.
    + intros [|k q] u Ho Hs.
      * cbn in Ho, Hs. injection Ho as <-. injection Hs as ->. cbn.
        assert (map_or_nil (obj_index out part) = md) as Emd by (unfold obj_index; by rewrite En).
        assert (VMap sub = VMap md) as [= ->]; [|by rewrite obj_set_same].
        assert (Some (VMap sub) = Some (VMap md)) as [= ->]; [|done]. apply (Hq []); [by cbn; rewrite Emd|done].
      * cbn [valueAtPath] in *. destruct (decide (part = k)) as [<-|Hk]; [|by rewrite obj_get_set_ne].
        rewrite obj_get_set_eq. rewrite En in Hs. destruct (obj_get out part) as [w|] eqn:Eo; [|done].
        rewrite (Hout w eq_refl) in Ho. by apply Hq.
Qed.

Definition path_found (m : object) (path : string) : Prop := is_Some (valueAtPath (VMap m) (Split path "."%char)).

Lemma projectObject_spec m paths :
  let '(out, found) := projectObject m paths in
  projects (VMap out) (VMap m) /\
  (forall path v, path ∈ paths -> valueAtPath (VMap m) (Split path "."%char) = Some v ->
     valueAtPath (VMap out) (Split path "."%char) = Some v) /\
  (found = true <-> exists path, path ∈ paths /\ path_found m path).
Proof.
  unfold projectObject.
  set (step := fun '(output, foundAny) path => _ : object * bool).
  assert (forall done_ out found,
    projects (VMap out) (VMap m) ->
    (forall path v, path ∈ done_ -> valueAtPath (VMap m) (Split path "."%char) = Some v ->
       valueAtPath (VMap out) (Split path "."%char) = Some v) ->
    (found = true <-> exists path, path ∈ done_ /\ path_found m path) ->
    let '(out', found') := foldl step (out, found) paths in
    projects (VMap out') (VMap m) /\
    (forall path v, path ∈ done_ ++ paths -> valueAtPath (VMap m) (Split path "."%char) = Some v ->
       valueAtPath (VMap out') (Split path "."%char) = Some v) /\
    (found' = true <-> exists path, path ∈ done_ ++ paths /\ path_found m path)) as H.
  { induction paths as [|path paths IH]; intros done_ out found Hp Hd Hf; cbn [foldl]; [by rewrite app_nil_r|].
    replace (done_ ++ path :: paths) with ((done_ ++ [path]) ++ paths) by (by rewrite <- app_assoc).
    unfold step at 2. cbn. destruct (valueAtPath (VMap m) (Split path "."%char)) as [v|] eqn:Ev.
    - destruct (set_source_value (Split path "."%char) out m v) as (Hp' & Hv' & Hq); [apply Split_nonempty|done..|].
      apply IH; [done| |].
      + intros q u Hin Hu. rewrite elem_of_app, list_elem_of_singleton in Hin. destruct Hin as [Hin| ->].
        * apply Hq; [by apply Hd|done].
        * rewrite Ev in Hu. by injection Hu as <-.
      + split; [intros _|done]. exists path. split; [rewrite elem_of_app; right; left|by exists v].
    - apply IH; [done| |].
      + intros q u Hin Hu. rewrite elem_of_app, list_elem_of_singleton in Hin. destruct Hin as [Hin| ->]; [by apply Hd|congruence].
      + rewrite Hf. split; intros (q & Hin & Hq); exists q; rewrite elem_of_app, list_elem_of_singleton in *; [by auto|].
        destruct Hin as [?| ->]; [done|]. destruct Hq as [u Hu]. congruence. }
  specialize (H [] [] false). cbn [app] in H. apply H.
  - constructor. by intros k v.
  - by intros path v ?%elem_of_nil.
  - split; [done|]. by intros (path & ?%elem_of_nil & _).
Qed.

(** ** Lemmas: cleaning *)

(** A path no step of which is omitted, and whether it ends below [metadata]. *)
Fixpoint kept (options : readOutputOptions) (metadata : bool) (parts : list string) : bool :=
  match parts with
  | [] => true
  | part :: rest => negb (omitted options metadata part) && kept options (bool_decide (part = "metadata")) rest
  end.
Fixpoint ends_in_metadata (metadata : bool) (parts : list string) : bool :=
  match parts with
  | [] => metadata
  | part :: rest => ends_in_metadata (bool_decide (part = "metadata")) rest
  end.

Lemma clean_VMap options m metadata k :
  exists m', cleanKubernetesValue options (VMap m) metadata = VMap m' /\
    obj_get m' k = if omitted options metadata k then None
                   else (fun v => cleanKubernetesValue options v (bool_decide (k = "metadata"))) <$> obj_get m k.
Proof.
  cbn [cleanKubernetesValue]. eexists. split; [done|].
  induction m as [|[k' v'] m IH]; cbn.
  { by destruct (omitted options metadata k). }
  destruct (decide (k = k')) as [<-|Hk].
  - rewrite (bool_decide_true (k = k)) by done. destruct (omitted options metadata k) eqn:Eo; [by rewrite IH|].
    cbn [obj_get fst snd]. by rewrite (bool_decide_true (k = k)).
  - rewrite (bool_decide_false (k = k')) by done. destruct (omitted options metadata k'); [done|].
    cbn [obj_get fst snd]. by rewrite (bool_decide_false (k = k')).
Qed.

Lemma clean_path options parts : forall v metadata,
  valueAtPath (cleanKubernetesValue options v metadata) parts =
  if kept options metadata parts
  then (fun u => cleanKubernetesValue options u (ends_in_metadata metadata parts)) <$> valueAtPath v parts
  else None.
Proof.
  induction parts as [|part rest IH]; intros v metadata; [done|].
  destruct v as [| | | | | | |m]; try (cbn; by destruct (_ && _)).
  destruct (clean_VMap options m metadata part) as (m' & -> & E). cbn [valueAtPath kept ends_in_metadata]. rewrite E.
  destruct (omitted options metadata part); [done|]. cbn [negb andb].
  destruct (obj_get m part) as [next|]; cbn [fmap option_fmap option_map]; [apply IH|]. by destruct (kept _ _ _).
Qed.

(** ** Lemmas: options *)

Section option_lemmas.
Context {G : GoLib}.

(** What a field path looks like once it was accepted. *)
Definition valid_path (path : string) : Prop :=
  path <> "" /\ String.length path <= 256 /\ length (Split path "."%char) <= 32 /\
  Forall (fun part => part <> "" /\ part <> "*" /\ ContainsAny part "[]/" = false) (Split path "."%char).

Lemma validateReadFieldPath_ok path : validateReadFieldPath path = Ok () <-> valid_path path.
Proof.
  unfold validateReadFieldPath, valid_path. case_bool_decide as He; [cbn; naive_solver|]. cbn [orb].
  destruct (Nat.ltb_spec 256 (String.length path)); [split; [done|]; intros (_ & ? & _); lia|].
  destruct (Nat.ltb_spec 32 (length (Split path "."%char))); [split; [done|]; intros (_ & _ & ? & _); lia|].
  rewrite first_error_ok. split.
  - intros Hf. split_and!; [done..|]. eapply Forall_impl; [exact Hf|]. intros part Hp. cbn in Hp.
    destruct (_ || _) eqn:E; [done|]. by reflect_bools.
  - intros (_ & _ & _ & Hf). eapply Forall_impl; [exact Hf|]. intros part (H1 & H2 & H3). cbn.
    by rewrite H3, !bool_decide_false.
Qed.

Lemma collect_paths_ok raws : forall paths out,
  collect_paths raws paths = Ok out -> NoDup paths -> Forall valid_path paths ->
  NoDup out /\ Forall valid_path out /\ length out <= length paths + length raws /\
  (forall path, path ∈ out <-> path ∈ paths \/ path ∈ TrimSpace <$> raws).
Proof.
  induction raws as [|raw raws IH]; intros paths out H Hn Hv; cbn [collect_paths] in H.
  { injection H as <-. split_and!; [done..|lia|set_solver]. }
  destruct (validateReadFieldPath (TrimSpace raw)) as [[]|] eqn:Ev; [|done]. apply validateReadFieldPath_ok in Ev.
  case_bool_decide as Hin.
  - destruct (IH _ _ H Hn Hv) as (? & ? & Hl & He). split_and!; [done..|cbn; lia|]. intros path. rewrite He. set_solver.
  - destruct (IH _ _ H) as (? & ? & Hl & He).
    { apply NoDup_app. split_and!; [done|set_solver|apply NoDup_singleton]. }
    { apply Forall_app. by split; [|apply Forall_singleton]. }
    rewrite length_app in Hl. cbn in Hl. split_and!; [done..|cbn; lia|]. intros path. rewrite He. set_solver.
Qed.
End option_lemmas.

(** ** Properties *)

Section properties.
Context {G : GoLib}.

(** Projection is exact: every requested field path that exists in the object has
    its value in the output, whatever other paths were requested and in
    whichever order, the output holds nothing the object does not hold at the
    same place, and the request fails exactly when no path exists. *)
Theorem projection_is_exact m paths :
  let out := (projectObject m paths).1 in
  projects (VMap out) (VMap m) /\
  (forall path v, path ∈ paths -> valueAtPath (VMap m) (Split path "."%char) = Some v ->
     valueAtPath (VMap out) (Split path "."%char) = Some v) /\
  ((projectObject m paths).2 = true <-> exists path, path ∈ paths /\ path_found m path).
Proof. pose proof (projectObject_spec m paths) as H. by destruct (projectObject m paths). Qed.

(** Cleaning removes exactly the fields it should: at every path of the cleaned
    value stands the cleaned value of the original, unless a step of the path is
    [managedFields] or [annotations] directly below [metadata] and is to be omitted. *)
Theorem cleaning_is_exact options v metadata parts :
  valueAtPath (cleanKubernetesValue options v metadata) parts =
  if kept options metadata parts
  then (fun u => cleanKubernetesValue options u (ends_in_metadata metadata parts)) <$> valueAtPath v parts
  else None.
Proof. apply clean_path. Qed.

(** C39: Accepted output options are in range: a known mode, at most 32 distinct field
    paths, each the trimmed text of a requested one with 1 to 32 non-empty plain
    parts in at most 256 bytes, and none together with a table. *)
Theorem accepted_options_are_valid action input o :
  normalizeReadOutputOptions action input = Ok o ->
  mode o ∈ [readOutputSummary; readOutputTable; readOutputFull] /\
  NoDup (fieldPaths o) /\ Forall valid_path (fieldPaths o) /\ length (fieldPaths o) <= maxReadFieldPaths /\
  (forall path, path ∈ fieldPaths o <-> path ∈ TrimSpace <$> ri_FieldPaths input) /\
  (mode o = readOutputTable -> fieldPaths o = []).
Proof.
  unfold normalizeReadOutputOptions. set (m := if bool_decide (ToLower _ = "") then _ else _).
  case_bool_decide as Hm; [|done]. cbn [negb]. destruct (_ && _); [done|]. destruct (bool_decide (m = _) && _) eqn:Et; [done|].
  destruct (Nat.ltb_spec maxReadFieldPaths (length (ri_FieldPaths input))) as [|Hlen]; [done|]. intros H.
  apply bind_ok in H as (paths & Hp & H). injection H as <-. cbn [mode fieldPaths].
  destruct (collect_paths_ok _ _ _ Hp (NoDup_nil_2) (Forall_nil_2 _)) as (Hn & Hv & Hl & He). cbn in Hl.
  split_and!; [done..|lia|intros path; rewrite He; set_solver|]. intros ->. rewrite bool_decide_true in Et by done.
  cbn [andb] in Et. reflect_bools. apply dec_stable in Et. rewrite Et in Hp. by injection Hp.
Qed.

(** A table row has one cell for each column. *)
Theorem table_is_rectangular {T : TimeLib} object_ action clock :
  exists kind rows rest, tableKubernetesResponse object_ action clock =
    [("kind", VStr kind); ("columns", VStrings (summaryTableColumns kind)); ("rows", VList rows)] ++ rest /\
    Forall (fun row => exists cells, row = VList cells /\ length cells = length (summaryTableColumns kind)) rows.
Proof.
  eexists _, _, _. split; [reflexivity|]. apply Forall_fmap, Forall_forall. intros [i item] _. cbn.
  eexists. split; [done|]. by rewrite length_fmap.
Qed.
End properties.

Module ReadOutputWitness.
#[local] Existing Instance plain_GoLib.

Definition list_action : Action := {|
  a_GVR := {| Group := ""; Version := "v1"; Resource := "pods" |}; a_Kind := "Pod"; a_Subresource := "";
  a_Verb := "list"; a_Action := "list"; a_Namespaced := true |}.
Definition list_input (paths : list string) : ReadInput := {|
  ri_CapabilityID := ""; ri_Namespace := ""; ri_Name := ""; ri_LabelSelector := ""; ri_FieldSelector := ""; ri_Cursor := "";
  ri_ResourceVersion := ""; ri_Limit := 0; ri_OutputMode := "full"; ri_OmitManagedFields := None; ri_OmitAnnotations := None;
  ri_FieldPaths := paths; ri_Follow := false; ri_Container := ""; ri_TailLines := None; ri_SinceSeconds := None |}.
Definition two_paths : readOutputOptions :=
  {| mode := "full"; omitManagedFields := true; omitAnnotations := true; fieldPaths := ["metadata.name"; "spec"] |}.

Lemma accepted_options_are_valid_witness :
  mode two_paths ∈ [readOutputSummary; readOutputTable; readOutputFull] /\
  NoDup (fieldPaths two_paths) /\ Forall valid_path (fieldPaths two_paths) /\ length (fieldPaths two_paths) <= maxReadFieldPaths /\
  (forall path, path ∈ fieldPaths two_paths <->
     path ∈ TrimSpace <$> ri_FieldPaths (list_input [" metadata.name"; "spec"; "metadata.name"])) /\
  (mode two_paths = readOutputTable -> fieldPaths two_paths = []).
Proof.
  apply (accepted_options_are_valid list_action (list_input [" metadata.name"; "spec"; "metadata.name"])).
  vm_compute. reflexivity.
Defined.
End ReadOutputWitness.
