(* ===== verification/Reads.v ===== *)
(** * Reads, watches and logs (src/internal/server/reads.go)

    [read] checks and authorises a read, makes it with the caller's own
    clients, redacts and shapes what comes back and bounds its size.  A watch
    is a loop over the events the environment delivers; a log is the bytes of
    a stream and the error that ends it.  Progress notifications are requests
    too, made when the request carries a progress token. *)

From Stdlib Require Import String Ascii.
From S2P Require Import Prelude GoStrings Crypto Json Errors Config Kube Policy Capability PlanStore Admission.
From S2P Require Import Redaction SafeWrite Auth Remote Operations ReadOutput.

(** ** Field selectors: [k8s.io/apimachinery/pkg/fields] *)

Class FieldsLib := {
  selector : Type;
  ParseSelector : string -> option selector;
  selector_Empty : selector -> bool;
  RequiresExactMatch : selector -> string -> option string;
  OneTermEqualSelector : string -> string -> selector;
  AndSelectors : selector -> selector -> selector;
  selector_String : selector -> string
}.
Class FieldsLaws {F : FieldsLib} : Prop := {
  exact_one_term field v : RequiresExactMatch (OneTermEqualSelector field v) field = Some v;
  exact_and s field v : RequiresExactMatch s field = None ->
    RequiresExactMatch (AndSelectors s (OneTermEqualSelector field v)) field = Some v
}.

Section selectors.
Context {F : FieldsLib}.

Definition named_selector (raw name : string) : result go_error selector :=
  match ParseSelector raw with
  | None => Err (policyError "invalid_input" "fieldSelector is not valid")
  | Some sel =>
    if selector_Empty sel then Ok (OneTermEqualSelector "metadata.name" name)
    else match RequiresExactMatch sel "metadata.name" with
         | Some selectedName =>
           if bool_decide (selectedName <> name) then
             Err (policyError "invalid_input" "fieldSelector metadata.name must match name")
           else Ok sel
         | None => Ok (AndSelectors sel (OneTermEqualSelector "metadata.name" name))
         end
  end.
Definition namedFieldSelector (raw name : string) : result go_error string := selector_String <$> named_selector raw name.
End selectors.

Definition kubernetesListPageLimit : Z := 8.
Definition subresources (action : Action) : list string :=
  if bool_decide (a_Subresource action = "") then [] else [a_Subresource action].

Section limits.
Context {Q : QuantityLib}.

Definition kubernetesListLimit (config : Config) (requested : Z) : Z :=
  let maximum := MaxListItems (Limits (cfg_Spec config)) in
  let requested := if (requested <=? 0)%Z || (maximum <? requested)%Z then maximum else requested in
  Z.min requested kubernetesListPageLimit.
End limits.

(** ** Progress *)

Definition compactProgress {G : GoLib} (v : value) (limit : Z) : string :=
  let data := default "" (Marshal v) in
  if (limit <? blen data)%Z then first_bytes limit data +:+ "..." else data.

(** Nothing is sent without a token; a failure to send is ignored. *)
Definition notifyProgress (principal : Principal) (progress : Z) (message : string) : K unit :=
  (let! token := request principal ProgressToken in
   match token with None => kret () | Some t => request principal (NotifyProgress t progress message) end)%kube.

(** ** Logs *)

Definition newline : string := String (ascii_of_nat 10) "".
Definition carriage_return : string := String (ascii_of_nat 13) "".
Definition normalizeLogLine (line : string) : string := TrimSuffix (TrimSuffix line newline) carriage_return.

(** What successive [ReadString('\n')] return: the lines with their delimiter,
    and the rest, which comes with the error that ends the stream. *)
Fixpoint read_lines (data : string) : list string * string :=
  match data with
  | EmptyString => ([], "")
  | String c data' =>
    let '(lines, rest) := read_lines data' in
    if bool_decide (c = ascii_of_nat 10) then (String c "" :: lines, rest)
    else match lines with
         | line :: lines' => (String c line :: lines', rest)
         | [] => ([], String c rest)
         end
  end.

Section logs.
Context {G : GoLib} {Q : QuantityLib}.

(** [io.LimitReader(reader, limit+1)]: an error of the stream is seen when the
    limit does not end it first. *)
Definition limited_data (limit : Z) (s : log_stream) : string := first_bytes (limit + 1) (ls_data s).
Definition limited_end (limit : Z) (s : log_stream) : option go_error :=
  if (blen (ls_data s) <=? limit)%Z then ls_end s else None.

(** A nil [[]string] is nil in the result. *)
Definition log_result (lines : list string) (truncated : bool) : object :=
  [("logs", match lines with [] => VNull | _ => VStrings lines end); ("truncated", VBool truncated)].

(** The body of the loop for one [raw]: the lines and bytes so far, or the lines of
    a truncated result. *)
Definition log_step (config : Config) (lines : list string) (size : Z) (raw : string) : (list string * Z) + list string :=
  let limits := Limits (cfg_Spec config) in
  if bool_decide (raw = "") then inl (lines, size)
  else if (MaxListItems limits <=? Z.of_nat (length lines))%Z then inr lines
  else
  let remaining := (MaxOutputBytes limits - size)%Z in
  if (remaining <? blen raw)%Z then
    inr (if (0 <? remaining)%Z then lines ++ [normalizeLogLine (first_bytes remaining raw)] else lines)
  else inl (lines ++ [normalizeLogLine raw], (size + blen raw)%Z).

(** The lines, which are announced as they come, and the result. *)
Fixpoint log_loop (config : Config) (lines : list string) (size : Z) (raws : list string) (rest : string)
    (err : option go_error) : list string * result go_error object :=
  match raws with
  | raw :: raws' =>
    match log_step config lines size raw with
    | inr lines' => (lines', Ok (log_result lines' true))
    | inl (lines', size') => log_loop config lines' size' raws' rest err
    end
  | [] =>
    match log_step config lines size rest with
    | inr lines' => (lines', Ok (log_result lines' true))
    | inl (lines', _) =>
      (lines', match err with
               | None | Some Canceled | Some DeadlineExceeded => Ok (log_result lines' false)
               | Some e => Err e
               end)
    end
  end.

(** One notification for each line, counted from [count]. *)
Fixpoint notify_lines (principal : Principal) (count : Z) (lines : list string) : K unit :=
  match lines with
  | [] => kret ()
  | line :: lines' =>
    (let! _ := notifyProgress principal (count + 1) (compactProgress (VStr line) 4096) in
     notify_lines principal (count + 1) lines')%kube
  end.

Definition followed_logs (config : Config) (s : log_stream) : list string * result go_error object :=
  let limit := MaxOutputBytes (Limits (cfg_Spec config)) in
  let '(raws, rest) := read_lines (limited_data limit s) in
  log_loop config [] 0 raws rest (limited_end limit s).

Definition one_shot_logs (config : Config) (s : log_stream) : result go_error object :=
  let limit := MaxOutputBytes (Limits (cfg_Spec config)) in
  match limited_end limit s with
  | Some err => Err err
  | None =>
    let data := limited_data limit s in
    Ok [("logs", VStr (first_bytes (Z.min (blen data) limit) data)); ("truncated", VBool (limit <? blen data)%Z)]
  end.

Definition logs (config : Config) (principal : Principal) (namespace : string) (input : ReadInput) : K (result go_error object) :=
  if bool_decide (ri_Name input = "") then kret (Err (policyError "invalid_input" "name is required for logs"))
  else
  let options := {| lg_Container := ri_Container input; lg_Follow := ri_Follow input; lg_TailLines := ri_TailLines input;
                    lg_SinceSeconds := ri_SinceSeconds input |} in
  (let? stream := request principal (Logs namespace (ri_Name input) options) in
   if ri_Follow input then
     let '(lines, r) := followed_logs config stream in
     let! _ := notify_lines principal 0 lines in kret r
   else kret (one_shot_logs config stream))%kube.
End logs.

(** ** Watches *)

Definition watchResult (events : list value) (ended resourceVersion : string) (truncated : bool) : object :=
  [("events", VList events); ("ended", VStr ended)]
  ++ (if bool_decide (resourceVersion <> "") then [("resourceVersion", VStr resourceVersion)] else [])
  ++ (if truncated then [("truncated", VBool true)] else []).

Section reads.
Context {G : GoLib} {Q : QuantityLib} {U : UnstructuredLib} {F : FieldsLib} {T : TimeLib}.

Definition kubernetesObjectResourceVersion (o : object) : string :=
  scalarString (obj_index (map_or_nil (obj_index o "metadata")) "resourceVersion").

(** The entry of one event; its object may be an error of the conversion. *)
Definition watch_entry (config : Config) (action : Action) (options : readOutputOptions) (clock : nat -> Z)
    (type : string) (converted : result go_error object) : result go_error (object * string) :=
  let o := match converted with Ok o => o | Err err => [("error", VStr (error_string err))] end in
  let version := kubernetesObjectResourceVersion o in
  redacted ← redactResult (VMap o) action (SensitiveReads (PolicyS (cfg_Spec config)));
  shaped ← (if bool_decide (type = "ERROR") then
              Ok (match cleanKubernetesValue options redacted false with
                  | VMap m => m
                  | _ => [("error", VStr "Kubernetes watch returned an invalid Status object")]
                  end)
            else shapeReadOutput redacted action options clock);
  Ok ([("type", VStr type); ("object", VMap shaped)]
      ++ (if bool_decide (version <> "") then [("resourceVersion", VStr version)] else []), version).

(** The loop, with room for [room] more entries. *)
Fixpoint watch_loop (config : Config) (principal : Principal) (action : Action) (options : readOutputOptions)
    (clock : nat -> nat -> Z) (room : nat) (items : list value) (bytes : Z) (version : string) : K (result go_error object) :=
  match room with
  | O => kret (Ok (watchResult items "item limit reached" version false))
  | S room' =>
    (let! next := request principal NextEvent in
     match next with
     | StreamDone err => kret (Ok (watchResult items (error_string err) version false))
     | ChannelClosed => kret (Ok (watchResult items "watch closed" version false))
     | WatchEvent type converted =>
       ok? entry := watch_entry config action options (clock (length items)) type converted in
       let version := or_string entry.2 version in
       let size := blen (default "" (Marshal (VMap entry.1))) in
       if (MaxOutputBytes (Limits (cfg_Spec config)) <? bytes + size)%Z then
         kret (Ok (watchResult items "output limit reached" version true))
       else
       let! _ := notifyProgress principal (Z.of_nat (length items) + 1) (compactProgress (VMap entry.1) 4096) in
       watch_loop config principal action options clock room' (items ++ [VMap entry.1]) (bytes + size) version
     end)%kube
  end.

Definition watch (config : Config) (principal : Principal) (action : Action) (namespace : string) (input : ReadInput)
    (options : readOutputOptions) (clock : nat -> nat -> Z) : K (result go_error object) :=
  (let? _ := request principal (Watch (dynamicResource action namespace)
     {| wo_LabelSelector := ri_LabelSelector input; wo_FieldSelector := ri_FieldSelector input;
        wo_ResourceVersion := ri_ResourceVersion input |}) in
   watch_loop config principal action options clock (Z.to_nat (MaxListItems (Limits (cfg_Spec config)))) [] 0
     (ri_ResourceVersion input))%kube.

(** ** [read] *)

Definition read_with_container (input : ReadInput) (container : string) : ReadInput := {|
  ri_CapabilityID := ri_CapabilityID input; ri_Namespace := ri_Namespace input; ri_Name := ri_Name input;
  ri_LabelSelector := ri_LabelSelector input; ri_FieldSelector := ri_FieldSelector input; ri_Cursor := ri_Cursor input;
  ri_ResourceVersion := ri_ResourceVersion input; ri_Limit := ri_Limit input; ri_OutputMode := ri_OutputMode input;
  ri_OmitManagedFields := ri_OmitManagedFields input; ri_OmitAnnotations := ri_OmitAnnotations input;
  ri_FieldPaths := ri_FieldPaths input; ri_Follow := ri_Follow input; ri_Container := container;
  ri_TailLines := ri_TailLines input; ri_SinceSeconds := ri_SinceSeconds input |}.
Definition read_with_selector (input : ReadInput) (field : string) : ReadInput := {|
  ri_CapabilityID := ri_CapabilityID input; ri_Namespace := ri_Namespace input; ri_Name := ri_Name input;
  ri_LabelSelector := ri_LabelSelector input; ri_FieldSelector := field; ri_Cursor := ri_Cursor input;
  ri_ResourceVersion := ri_ResourceVersion input; ri_Limit := ri_Limit input; ri_OutputMode := ri_OutputMode input;
  ri_OmitManagedFields := ri_OmitManagedFields input; ri_OmitAnnotations := ri_OmitAnnotations input;
  ri_FieldPaths := ri_FieldPaths input; ri_Follow := ri_Follow input; ri_Container := ri_Container input;
  ri_TailLines := ri_TailLines input; ri_SinceSeconds := ri_SinceSeconds input |}.

(** The default container of a log read, which needs [get] on the Pod. *)
Definition resolve_logs (config : Config) (principal : Principal) (action : Action) (namespace : string) (input : ReadInput)
    : K (result go_error ReadInput) :=
  if bool_decide (a_Action action = "logs") && bool_decide (ri_Name input = "") then
    kret (Err (policyError "invalid_input" "name is required for logs"))
  else if bool_decide (a_Action action = "logs") && bool_decide (ri_Container input = "") then
    (let? _ := Policy_CheckAndAuthorize config principal (prerequisiteGetAction action) namespace (ri_Name input) in
     let? p := request principal (GetPod namespace (ri_Name input)) in
     kret (read_with_container input <$> resolveContainer p ""))%kube
  else kret (Ok input).

(** A named list or watch selects the name. *)
Definition select_name (action : Action) (input : ReadInput) : result go_error ReadInput :=
  if (bool_decide (a_Action action = "list") || bool_decide (a_Action action = "watch")) && bool_decide (ri_Name input <> "")
  then read_with_selector input <$> namedFieldSelector (ri_FieldSelector input) (ri_Name input)
  else Ok input.

(** Redaction, shaping and the bound on what a get or a list returned. *)
Definition finish_read (config : Config) (action : Action) (options : readOutputOptions) (clock : nat -> Z) (o : object)
    : result go_error object :=
  redacted ← redactResult (VMap o) action (SensitiveReads (PolicyS (cfg_Spec config)));
  output ← shapeReadOutput redacted action options clock;
  Ok (boundedOutput output (MaxOutputBytes (Limits (cfg_Spec config)))).

Definition bounded_read (config : Config) (r : result go_error object) : result go_error object :=
  (fun o => boundedOutput o (MaxOutputBytes (Limits (cfg_Spec config)))) <$> r.

(** The switch on the action. *)
Definition perform (config : Config) (principal : Principal) (action : Action) (namespace : string) (input : ReadInput)
    (options : readOutputOptions) (clock : nat -> nat -> Z) : K (result go_error object) :=
  let act := a_Action action in
  if bool_decide (act = "get") then
    if bool_decide (ri_Name input = "") then kret (Err (policyError "invalid_input" "name is required for get"))
    else (let? o := request principal (Get (dynamicResource action namespace) (ri_Name input) (subresources action)) in
          kret (finish_read config action options (clock 0) o))%kube
  else if bool_decide (act = "list") then
    (let? o := request principal (List_ (dynamicResource action namespace)
       {| lo_LabelSelector := ri_LabelSelector input; lo_FieldSelector := ri_FieldSelector input;
          lo_Limit := kubernetesListLimit config (ri_Limit input); lo_Continue := ri_Cursor input |}) in
     kret (finish_read config action options (clock 0) o))%kube
  else if bool_decide (act = "watch") then
    (let! r := watch config principal action namespace input options clock in kret (bounded_read config r))%kube
  else
    (let! r := logs config principal namespace input in kret (bounded_read config r))%kube.

Definition streams_read (action : Action) (input : ReadInput) : bool :=
  bool_decide (a_Action action = "watch") || (bool_decide (a_Action action = "logs") && ri_Follow input).

(** [read], given the admission when it asks for a stream. *)
Definition read (config : Config) (codec : capabilityCodec) (admission : option requestAdmission) (principal : Principal)
    (input : ReadInput) (clock : nat -> nat -> Z) : K (result go_error object) :=
  (ok? capability := decode codec (ri_CapabilityID input) in
   let action := AsAction capability in
   if Mutating action || negb (bool_decide (a_Action action ∈ ["get"; "list"; "watch"; "logs"])) then
     kret (Err (policyError "invalid_capability" "k8s.read only accepts get, list, watch, and logs capabilities"))
   else
   ok? options := normalizeReadOutputOptions action input in
   if bool_decide (a_Action action = "logs") && ri_Follow input && bool_decide (Mode (cfg_Spec config) <> ModeDangerous) then
     kret (Err (policyError "mode_denied" "followed log streams require Dangerous mode"))
   else
   guard? (if streams_read action input then (acquireStream admission).2 else Ok ()) in
   let namespace := defaultNamespace config capability (ri_Namespace input) in
   let? _ := Policy_CheckAndAuthorize config principal action namespace (ri_Name input) in
   let? resolved := resolve_logs config principal action namespace input in
   ok? selected := select_name action resolved in
   perform config principal action namespace selected options clock)%kube.
End reads.

(** ** Lemmas: traces *)

Section traces.
Context {G : GoLib} {Q : QuantityLib} {U : UnstructuredLib} {F : FieldsLib} {T : TimeLib}.

Lemma check_harmless config p action ns name : emits (harmless p) (Policy_CheckAndAuthorize config p action ns name).
Proof. eapply emits_weaken; [|apply CheckAndAuthorize_emits]. by apply authorization_harmless. Qed.

Lemma notifyProgress_harmless p progress message : emits (harmless p) (notifyProgress p progress message).
Proof. unfold notifyProgress. repeat emits_step; by split. Qed.

Lemma notify_lines_harmless p lines : forall count, emits (harmless p) (notify_lines p count lines).
Proof. induction lines as [|line lines IH]; intros count; cbn [notify_lines]; repeat (emits_step || apply notifyProgress_harmless || apply IH). Qed.

Lemma watch_loop_harmless config p action options clock room : forall items bytes version,
  emits (harmless p) (watch_loop config p action options clock room items bytes version).
Proof. induction room as [|room IH]; intros; cbn [watch_loop]; repeat (emits_step || apply notifyProgress_harmless || apply IH); by split. Qed.

Lemma perform_harmless config p action ns input options clock :
  emits (harmless p) (perform config p action ns input options clock).
Proof. unfold perform, watch, logs. repeat (apply notify_lines_harmless || emits_step || apply watch_loop_harmless); by split. Qed.

Lemma resolve_logs_harmless config p action ns input : emits (harmless p) (resolve_logs config p action ns input).
Proof. unfold resolve_logs. repeat (emits_step || apply check_harmless); by split. Qed.

Lemma CheckAndAuthorize_satisfies config p action ns name :
  satisfies (Policy_CheckAndAuthorize config p action ns name) (fun r es =>
    Forall (authorization_event p) es /\
    (r = Ok () -> permitted config action ns /\ exists e, e ∈ es /\ allows p action ns name e)).
Proof.
  unfold Policy_CheckAndAuthorize. destruct (Policy_CheckTarget config action ns name) as [[]|] eqn:E; [|by satisfies_step].
  apply CheckTarget_permitted in E. eapply satisfies_bind; [apply Authorize_satisfies|].
  intros r es (_ & Hes & Ha). satisfies_step. rewrite app_nil_r. auto.
Qed.

(** What a read that returns has been granted. *)
Record read_checks (config : Config) (codec : capabilityCodec) (p : Principal) (input : ReadInput) (es : list event) : Prop := {
  rc_granted : exists c, decode codec (ri_CapabilityID input) = Ok c /\ Mutating (AsAction c) = false /\
    a_Action (AsAction c) ∈ ["get"; "list"; "watch"; "logs"] /\
    permitted config (AsAction c) (defaultNamespace config c (ri_Namespace input)) /\
    (exists e, e ∈ es /\ allows p (AsAction c) (defaultNamespace config c (ri_Namespace input)) (ri_Name input) e) /\
    (a_Action (AsAction c) = "logs" -> ri_Follow input = true -> Mode (cfg_Spec config) = ModeDangerous)
}.

Lemma read_satisfies config codec adm p input clock :
  satisfies (read config codec adm p input clock) (fun r es =>
    Forall (harmless p) es /\ forall out, r = Ok out -> read_checks config codec p input es).
Proof.
  unfold read. destruct (decode codec (ri_CapabilityID input)) as [c|] eqn:Ed; [|by satisfies_step].
  destruct (Mutating (AsAction c) || _) eqn:Em; [by satisfies_step|].
  destruct (normalizeReadOutputOptions (AsAction c) input) as [options|]; [|by satisfies_step].
  destruct (_ && _ && _) eqn:Ef; [by satisfies_step|].
  destruct (if streams_read _ _ then _ else _) as [u|]; [|by satisfies_step].
  eapply satisfies_bind; [apply CheckAndAuthorize_satisfies|]. intros r es1 [H1 Ha].
  destruct r as [[]|]; [|satisfies_step; by rewrite app_nil_r]. destruct (Ha eq_refl) as [Hp (e & He & Hallow)].
  assert (forall es, read_checks config codec p input (es1 ++ es)) as Hchecks.
  { intros es. apply orb_false_iff in Em as [Em1 Em2]. apply negb_false_iff, bool_decide_eq_true in Em2.
    constructor. exists c. split_and!; [done..| |].
    - exists e. by rewrite elem_of_app; auto.
    - intros Hl Hf. rewrite Hf, (bool_decide_true (a_Action (AsAction c) = "logs")) in Ef by done. cbn in Ef.
      reflect_bools. by apply dec_stable. }
  eapply satisfies_bind; [apply resolve_logs_harmless|]. intros r es2 H2.
  destruct r as [resolved|]; [|satisfies_step; rewrite app_nil_r; split; [by apply Forall_app|done]].
  destruct (select_name (AsAction c) resolved) as [selected|]; [|satisfies_step; rewrite app_nil_r; split; [by apply Forall_app|done]].
  eapply satisfies_weaken; [apply perform_harmless|]. cbn. intros r es3 H3.
  split; [by repeat apply Forall_app_2|]. intros out _. apply Hchecks.
Qed.
End traces.

(** ** Lemmas: logs *)

Lemma read_lines_spec data : forall raws rest,
  read_lines data = (raws, rest) ->
  data = concat_strings raws +:+ rest /\ has_char (ascii_of_nat 10) rest = false /\
  Forall (fun raw => exists line, raw = line +:+ newline /\ has_char (ascii_of_nat 10) line = false) raws.
Proof.
  induction data as [|c data IH]; intros raws rest H; cbn [read_lines] in H.
  { injection H as <- <-. by split_and!. }
  destruct (read_lines data) as [lines tail] eqn:Er. destruct (IH _ _ eq_refl) as (Hd & Hr & Hf).
  case_bool_decide as Hc.
  - injection H as <- <-. subst c. split_and!; [by rewrite Hd|done|]. constructor; [|done]. by exists "".
  - destruct lines as [|line lines]; injection H as <- <-.
    + cbn in Hd. subst data. split_and!; [done| |done]. cbn [has_char]. by rewrite bool_decide_false, Hr by congruence.
    + apply Forall_cons in Hf as [(l & -> & Hl) Hf]. split_and!; [by rewrite Hd|done|]. constructor; [|done].
      exists (String c l). split; [done|]. cbn [has_char]. by rewrite bool_decide_false, Hl by congruence.
Qed.

Lemma concat_strings_app l l' : concat_strings (l ++ l') = concat_strings l +:+ concat_strings l'.
Proof. induction l as [|s l IH]; [done|]. cbn. fold (concat_strings (l ++ l')) (concat_strings l). by rewrite IH, append_assoc. Qed.

Section log_lemmas.
Context {Q : QuantityLib} (config : Config).
Let maximum := MaxOutputBytes (Limits (cfg_Spec config)).
Let most := MaxListItems (Limits (cfg_Spec config)).

Definition is_line (raw : string) : Prop := exists line, raw = line +:+ newline /\ has_char (ascii_of_nat 10) line = false.
Definition piece (tail : string) : list string := if bool_decide (tail = "") then [] else [tail].

(** The result [out] is made of the first lines of [data], without their line ends: whole lines, and perhaps
    the beginning [tail] of one more, within the limits on bytes and lines.  Something
    is left out only when a limit is reached: as many lines as are allowed, all of them whole, or as many bytes as are allowed; and the
    result says whether something was. *)
Definition logs_prefix (data : string) (out : object) : Prop :=
  exists whole tail rest, data = concat_strings whole +:+ (tail +:+ rest) /\
    Forall is_line whole /\ has_char (ascii_of_nat 10) tail = false /\
    let pieces := whole ++ piece tail in
    (blen (concat_strings pieces) <= maximum)%Z /\ (Z.of_nat (length pieces) <= most)%Z /\
    (rest = "" \/ (Z.of_nat (length pieces) = most /\ tail = "") \/ blen (concat_strings pieces) = maximum) /\
    out = log_result (normalizeLogLine <$> pieces) (negb (bool_decide (rest = ""))).

Lemma first_bytes_split n s : exists rest, s = first_bytes n s +:+ rest.
Proof.
  unfold first_bytes. generalize (Z.to_nat n) as k. induction s as [|c s IH]; intros [|k]; cbn; try by eexists.
  destruct (IH k) as [rest E]. exists rest. by rewrite append_cons, <- E.
Qed.

Lemma has_char_app c (s t : string) : has_char c (s +:+ t) = has_char c s || has_char c t.
Proof. induction s as [|d s IH]; [done|]. rewrite append_cons. cbn [has_char]. by rewrite IH, orb_assoc. Qed.

Lemma first_bytes_app k (s t : string) : (k <= blen s)%Z -> first_bytes k (s +:+ t) = first_bytes k s.
Proof.
  unfold first_bytes, blen. intros H. assert (Z.to_nat k <= String.length s) as Hk by lia. clear H. revert Hk.
  generalize (Z.to_nat k) as n. induction s as [|c s IH]; intros [|n] Hn; try done; [by destruct t|cbn in Hn; lia|].
  rewrite append_cons. cbn. rewrite IH; [done|]. cbn in Hn. lia.
Qed.

(** A line, or a rest without line end, that is cut has no line end. *)
Definition single (raw : string) : Prop := forall k, (k < blen raw)%Z -> has_char (ascii_of_nat 10) (first_bytes k raw) = false.

Lemma single_rest raw : has_char (ascii_of_nat 10) raw = false -> single raw.
Proof. intros H k _. destruct (first_bytes_split k raw) as [rest E]. rewrite E, has_char_app in H. by apply orb_false_iff in H as [? _]. Qed.

Lemma single_line raw : is_line raw -> single raw.
Proof.
  intros (line & -> & Hl) k Hk. rewrite blen_append in Hk. change (blen newline) with 1%Z in Hk.
  rewrite first_bytes_app by lia. destruct (first_bytes_split k line) as [rest E]. rewrite E, has_char_app in Hl. by apply orb_false_iff in Hl as [? _].
Qed.

(** What one step of the loop does after the whole lines [before]. *)
Lemma log_step_spec before raw :
  Forall is_line before -> (blen (concat_strings before) <= maximum)%Z -> (Z.of_nat (length before) <= most)%Z -> single raw ->
  match log_step config (normalizeLogLine <$> before) (blen (concat_strings before)) raw with
  | inl (lines', size') =>
    lines' = normalizeLogLine <$> (before ++ piece raw) /\ size' = blen (concat_strings (before ++ piece raw)) /\
    (size' <= maximum)%Z /\ (Z.of_nat (length (before ++ piece raw)) <= most)%Z
  | inr lines' => forall rest, logs_prefix (concat_strings before +:+ (raw +:+ rest)) (log_result lines' true)
  end.
Proof.
  intros Hl Hb Hn Hs. unfold log_step, piece. fold maximum most. case_bool_decide as Hr.
  { rewrite app_nil_r. by split_and!. }
  assert (forall rest, raw +:+ rest <> "") as Hne by (intros rest; by destruct raw).
  assert (forall rest, (Z.of_nat (length before) = most \/ blen (concat_strings before) = maximum) ->
    logs_prefix (concat_strings before +:+ (raw +:+ rest)) (log_result (normalizeLogLine <$> before) true)) as Hstop.
  { intros rest Hfull. exists before, "", (raw +:+ rest). cbn [piece]. rewrite app_nil_r, (bool_decide_false _ (Hne rest)). split_and!; try done.
    right. destruct Hfull; [by left|by right]. }
  rewrite length_fmap. destruct (Z.leb_spec most (Z.of_nat (length before))); [intros rest; apply Hstop; left; lia|].
  destruct (Z.ltb_spec (maximum - blen (concat_strings before)) (blen raw)).
  - intros rest. set (k := (maximum - blen (concat_strings before))%Z) in *. destruct (Z.ltb_spec 0 k); [|apply Hstop; right; lia].
    destruct (first_bytes_split k raw) as [tail Et]. pose proof (blen_first_bytes k raw ltac:(lia)) as Hk.
    assert (first_bytes k raw <> "") as Hcut by (intros E; rewrite E in Hk; change (blen "") with 0%Z in Hk; lia).
    assert (tail +:+ rest <> "") as Htail.
    { intros E. assert (tail = "") as -> by (by destruct tail). rewrite append_nil_r in Et. rewrite <- Et in *. lia. }
    exists before, (first_bytes k raw), (tail +:+ rest). unfold piece. rewrite !bool_decide_false by done.
    rewrite concat_strings_snoc, blen_append, fmap_app, length_app. cbn [length]. split_and!; try done.
    + by rewrite <- (append_assoc (first_bytes k raw)), <- Et.
    + by apply Hs.
    + lia.
    + lia.
    + right. right. lia.
  - rewrite concat_strings_snoc, fmap_app, blen_append, length_app. cbn. split_and!; [done..|lia|lia].
Qed.

Lemma piece_line raw : is_line raw -> piece raw = [raw].
Proof. intros (line & -> & _). unfold piece. rewrite bool_decide_false; [done|]. by destruct line. Qed.

Lemma log_loop_spec raws : forall before rest err,
  Forall is_line before -> Forall is_line raws -> has_char (ascii_of_nat 10) rest = false ->
  (blen (concat_strings before) <= maximum)%Z -> (Z.of_nat (length before) <= most)%Z ->
  match (log_loop config (normalizeLogLine <$> before) (blen (concat_strings before)) raws rest err).2 with
  | Ok out => logs_prefix (concat_strings before +:+ (concat_strings raws +:+ rest)) out
  | Err e => err = Some e
  end.
Proof.
  induction raws as [|raw raws IH]; intros before rest err Hl Hraws Hrest Hb Hn; cbn [log_loop].
  - pose proof (log_step_spec before rest Hl Hb Hn (single_rest _ Hrest)) as Hs. change (concat_strings [] +:+ rest) with rest.
    destruct (log_step _ _ _ _) as [[lines' size']|out].
    + destruct Hs as (-> & -> & Hb' & Hn').
      assert (logs_prefix (concat_strings before +:+ rest) (log_result (normalizeLogLine <$> (before ++ piece rest)) false)) as Hdone.
      { exists before, rest, "". rewrite append_nil_r. cbn zeta. do 5 (split; [done|]). split; [by left|done]. }
      destruct err as [e|]; [|done]. destruct e; try done.
    + specialize (Hs ""). rewrite append_nil_r in Hs. exact Hs.
  - apply Forall_cons in Hraws as [Hraw Hraws]. pose proof (log_step_spec before raw Hl Hb Hn (single_line _ Hraw)) as Hs.
    cbn [concat_strings foldr]. fold (concat_strings raws). destruct (log_step _ _ _ _) as [[lines' size']|out].
    + rewrite (piece_line raw Hraw) in Hs. destruct Hs as (-> & -> & Hb' & Hn').
      specialize (IH (before ++ [raw]) rest err ltac:(apply Forall_app; by repeat constructor) Hraws Hrest Hb' Hn').
      replace (concat_strings before +:+ ((raw +:+ concat_strings raws) +:+ rest))
        with (concat_strings (before ++ [raw]) +:+ (concat_strings raws +:+ rest)) by (by rewrite concat_strings_snoc, !append_assoc).
      exact IH.
    + rewrite (append_assoc raw). apply Hs.
Qed.
End log_lemmas.

Section stream_lemmas.
Context {Q : QuantityLib} (config : Config).

(** What was left out of the limited bytes was left out of the stream. *)
Lemma logs_prefix_limited s out :
  (0 <= MaxOutputBytes (Limits (cfg_Spec config)))%Z ->
  logs_prefix config (limited_data (MaxOutputBytes (Limits (cfg_Spec config))) s) out -> logs_prefix config (ls_data s) out.
Proof.
  set (m := MaxOutputBytes (Limits (cfg_Spec config))). intros Hm (whole & tail & rest & E & Hl & Ht & Hb & Hn & Hmax & ->). fold m in Hb, Hmax.
  unfold limited_data in E. destruct (first_bytes_split (m + 1) (ls_data s)) as [more Em].
  assert (rest = "" -> more = "") as Hmore.
  { intros ->. rewrite append_nil_r in E.
    assert (blen (first_bytes (m + 1) (ls_data s)) <= m)%Z as Hlen.
    { rewrite E. replace (concat_strings whole +:+ tail) with (concat_strings (whole ++ piece tail)); [done|].
      rewrite concat_strings_app. unfold piece. case_bool_decide as Hp; [by rewrite Hp|]. cbn. by rewrite append_nil_r. }
    rewrite blen_first_bytes in Hlen by lia.
    rewrite first_bytes_all in Em by lia. rewrite <- (append_nil_r (ls_data s)) in Em at 1. by apply append_inj_l in Em. }
  exists whole, tail, (rest +:+ more). split; [by rewrite Em at 1; rewrite E, !append_assoc|]. cbn zeta.
  do 4 (split; [done|]). split.
  - destruct Hmax as [->|Hmax]; [left; by rewrite Hmore|by right].
  - f_equal. f_equal. apply bool_decide_ext. split; [intros ->; by rewrite Hmore|intros H; by destruct rest].
Qed.

Lemma followed_logs_spec s :
  (0 <= MaxOutputBytes (Limits (cfg_Spec config)))%Z -> (0 <= MaxListItems (Limits (cfg_Spec config)))%Z ->
  match (followed_logs config s).2 with
  | Ok out => logs_prefix config (ls_data s) out
  | Err e => ls_end s = Some e
  end.
Proof.
  intros Hm Hn. unfold followed_logs. destruct (read_lines _) as [raws rest] eqn:Er.
  destruct (read_lines_spec _ _ _ Er) as (E & Hrest & Hraws).
  pose proof (log_loop_spec config raws [] rest (limited_end (MaxOutputBytes (Limits (cfg_Spec config))) s)) as H.
  cbn [fmap list_fmap] in H. change (blen (concat_strings [])) with 0%Z in H.
  change (concat_strings [] +:+ (concat_strings raws +:+ rest)) with (concat_strings raws +:+ rest) in H. rewrite <- E in H.
  specialize (H ltac:(constructor) Hraws Hrest ltac:(done) ltac:(cbn; lia)). destruct (log_loop _ _ _ _ _ _) as [lines []]; cbn [snd] in *.
  - by apply logs_prefix_limited.
  - unfold limited_end in H. by destruct (_ <=? _)%Z.
Qed.

(** The result holds the lines that were announced. *)
Lemma log_loop_lines raws : forall lines size rest err out,
  (log_loop config lines size raws rest err).2 = Ok out ->
  exists truncated, out = log_result (log_loop config lines size raws rest err).1 truncated.
Proof.
  induction raws as [|raw raws IH]; intros lines size rest err out; cbn [log_loop];
    destruct (log_step _ _ _ _) as [[lines' size']|lines']; cbn [fst snd]; [| | |]; try (by intros [= <-]; eauto).
  - destruct err as [[]|]; intros [= <-]; eauto.
  - apply IH.
Qed.

Lemma followed_logs_lines s lines out :
  followed_logs config s = (lines, Ok out) -> exists truncated, out = log_result lines truncated.
Proof.
  unfold followed_logs. destruct (read_lines _) as [raws rest]. intros E.
  destruct (log_loop_lines raws [] 0 rest (limited_end (MaxOutputBytes (Limits (cfg_Spec config))) s) out) as [t Ht]; [by rewrite E|].
  exists t. by rewrite E in Ht.
Qed.
End stream_lemmas.

(** ** Lemmas: progress *)

(** The notifications of a trace: token, progress and message. *)
Definition ev_notified (e : event) : option (string * Z * string) :=
  match ev_call e with NotifyProgress t progress message => Some (t, progress, message) | _ => None end.
Definition notified (es : list event) : list (string * Z * string) := omap ev_notified es.

(** The caller's token is [token] throughout. *)
Definition token_is (token : option string) (e : event) : Prop :=
  match ev_call e in call A return A -> Prop with ProgressToken => fun answer => answer = token | _ => fun _ => True end (ev_answer e).

(** What a caller with this token is told of the values it gets, after the
    first [count] of them. *)
Definition announcements {G : GoLib} (token : option string) (count : nat) (vs : list value) : list (string * Z * string) :=
  match token with
  | None => []
  | Some t => imap (fun i v => (t, (Z.of_nat (count + i) + 1)%Z, compactProgress v 4096)) vs
  end.

Lemma notified_app es es' : notified (es ++ es') = notified es ++ notified es'.
Proof. apply omap_app. Qed.

Lemma announcements_cons {G : GoLib} token count v vs :
  announcements token count (v :: vs) = announcements token count [v] ++ announcements token (S count) vs.
Proof.
  destruct token as [t|]; [|done]. cbn [announcements imap app]. f_equal.
  apply imap_ext. intros i x _. cbn. repeat f_equal. lia.
Qed.

Lemma notifyProgress_announces {G : GoLib} p count v :
  satisfies (notifyProgress p (Z.of_nat count + 1) (compactProgress v 4096))
    (fun _ es => forall token, Forall (token_is token) es -> notified es = announcements token count [v]).
Proof.
  unfold notifyProgress. satisfies_step. satisfies_step.
  - apply satisfies_request. intros [] token [Ht _]%Forall_cons. cbn in Ht. subst. cbn. by rewrite Nat.add_0_r.
  - satisfies_step. intros token [Ht _]%Forall_cons. cbn in Ht. by subst.
Qed.

Lemma notify_lines_announces {G : GoLib} p lines : forall count,
  satisfies (notify_lines p (Z.of_nat count) lines)
    (fun _ es => forall token, Forall (token_is token) es -> notified es = announcements token count (VStr <$> lines)).
Proof.
  induction lines as [|line lines IH]; intros count; cbn [notify_lines].
  { satisfies_step. intros [t|] _; done. }
  eapply satisfies_bind; [apply notifyProgress_announces|]. cbn. intros _ es H1.
  replace (Z.of_nat count + 1)%Z with (Z.of_nat (S count)) by lia.
  eapply satisfies_weaken; [apply IH|]. cbn. intros _ es' H2 token [Hes Hes']%Forall_app.
  by rewrite notified_app, announcements_cons, (H1 token Hes), (H2 token Hes').
Qed.

(** A message is short, whatever it is made from. *)
Lemma compactProgress_short {G : GoLib} v limit : (0 <= limit)%Z -> (blen (compactProgress v limit) <= limit + 3)%Z.
Proof.
  intros Hl. unfold compactProgress. destruct (Z.ltb_spec limit (blen (default "" (Marshal v)))); [|lia].
  rewrite blen_append, blen_first_bytes by done. change (blen "...") with 3%Z. lia.
Qed.

(** ** Lemmas: watches *)

Section watch_lemmas.
Context {G : GoLib} {Q : QuantityLib} {T : TimeLib}.

(** The bytes of the entries, as the loop counts them. *)
Definition entry_bytes (items : list value) : Z := foldr (fun v n => (blen (default "" (Marshal v)) + n)%Z) 0%Z items.

Lemma entry_bytes_snoc items v : entry_bytes (items ++ [v]) = (entry_bytes items + blen (default "" (Marshal v)))%Z.
Proof. induction items as [|x items IH]; cbn; [lia|]. fold (entry_bytes (items ++ [v])) (entry_bytes items). lia. Qed.

(** The resource version an answered request delivered, if any. *)
Definition ev_version (e : event) : string :=
  match ev_call e in call A return A -> string with
  | NextEvent => fun next => match next with WatchEvent _ (Ok o) => kubernetesObjectResourceVersion o | _ => "" end
  | _ => fun _ => ""
  end (ev_answer e).
Definition resume_version (start : string) (es : list event) : string := foldl (fun v e => or_string (ev_version e) v) start es.

(** The events of the watch that were received, in order. *)
Definition ev_watched (e : event) : option (string * result go_error object) :=
  match ev_call e in call A return A -> option (string * result go_error object) with
  | NextEvent => fun next => match next with WatchEvent type converted => Some (type, converted) | _ => None end
  | _ => fun _ => None
  end (ev_answer e).
Definition received (es : list event) : list (string * result go_error object) := omap ev_watched es.

(** The entries made of the received events. *)
Definition entries_of (config : Config) (action : Action) (options : readOutputOptions) (clock : nat -> nat -> Z)
    (events : list (string * result go_error object)) (items : list value) : Prop :=
  forall i item, items !! i = Some item -> exists type converted entry, events !! i = Some (type, converted) /\
    watch_entry config action options (clock i) type converted = Ok entry /\ item = VMap entry.1.

(** The output of a watch: an entry for each received event, in order, but for
    the last event when the output is truncated. *)
Definition watch_output (config : Config) (action : Action) (options : readOutputOptions) (clock : nat -> nat -> Z)
    (start : string) (es : list event) (out : object) : Prop :=
  exists items ended truncated, out = watchResult items ended (resume_version start es) truncated /\
    length (received es) = length items + (if (truncated : bool) then 1 else 0) /\
    entries_of config action options clock (received es) items /\
    (Z.of_nat (length items) <= Z.max 0 (MaxListItems (Limits (cfg_Spec config))))%Z /\
    (entry_bytes items <= Z.max 0 (MaxOutputBytes (Limits (cfg_Spec config))))%Z.

(** The resource version of a received event. *)
Definition version_of (received : string * result go_error object) : string :=
  match received.2 with Ok o => kubernetesObjectResourceVersion o | Err _ => "" end.

(** The last resource version among the received events, or the given one. *)
Definition last_version (start : string) (rs : list (string * result go_error object)) : string :=
  foldl (fun v r => or_string (version_of r) v) start rs.

Lemma resume_version_received start es : resume_version start es = last_version start (received es).
Proof.
  revert start. induction es as [|e es IH]; intros start; [done|].
  change (resume_version start (e :: es)) with (resume_version (or_string (ev_version e) start) es). rewrite IH.
  change (received (e :: es)) with (match ev_watched e with Some r => r :: received es | None => received es end).
  destruct e as [q A c ans]. destruct c; try done. by destruct ans as [| |type []].
Qed.

Lemma entries_of_grow config action options clock events more items :
  entries_of config action options clock events items -> entries_of config action options clock (events ++ more) items.
Proof. intros H i item Hi. destruct (H i item Hi) as (t & o & e & Hl & ?). exists t, o, e. split; [by apply lookup_app_l_Some|done]. Qed.

Lemma entries_of_snoc config action options clock events items type converted entry :
  length events = length items -> entries_of config action options clock events items ->
  watch_entry config action options (clock (length items)) type converted = Ok entry ->
  entries_of config action options clock (events ++ [(type, converted)]) (items ++ [VMap entry.1]).
Proof.
  intros Hl H He i item. rewrite lookup_snoc_Some. intros [[_ Hi]|[-> <-]]; [by eapply entries_of_grow|].
  exists type, converted, entry. split_and!; [|done..]. by rewrite lookup_app_r, Hl, Nat.sub_diag by lia.
Qed.

Lemma watch_entry_version config action options clock type converted entry :
  watch_entry config action options clock type converted = Ok entry ->
  entry.2 = match converted with Ok o => kubernetesObjectResourceVersion o | Err _ => "" end.
Proof.
  unfold watch_entry. intros H. apply bind_ok in H as (redacted & _ & H). apply bind_ok in H as (shaped & _ & H).
  injection H as <-. by destruct converted.
Qed.

(** Notifications leave what was received alone. *)
Definition quiet (e : event) : Prop := ev_watched e = None /\ ev_version e = "".

Lemma notifyProgress_quiet p progress message : emits quiet (notifyProgress p progress message).
Proof. unfold notifyProgress. repeat emits_step; by split. Qed.

Lemma received_quiet es0 es : Forall quiet es -> received (es0 ++ es) = received es0.
Proof.
  intros H. unfold received. rewrite omap_app. replace (omap ev_watched es) with (@nil (string * result go_error object)); [by rewrite app_nil_r|].
  induction H as [|e es [He _] _ IH]; [done|]. cbn. by rewrite He.
Qed.

Lemma resume_version_quiet start es0 es : Forall quiet es -> resume_version start (es0 ++ es) = resume_version start es0.
Proof.
  intros H. unfold resume_version. rewrite foldl_app. generalize (foldl (fun v e => or_string (ev_version e) v) start es0).
  induction H as [|e es [_ He] _ IH]; intros v; [done|]. cbn [foldl]. by rewrite He.
Qed.

Lemma watch_loop_satisfies config p action options clock start room : forall items es0,
  (Z.of_nat (length items) + Z.of_nat room <= Z.max 0 (MaxListItems (Limits (cfg_Spec config))))%Z ->
  (entry_bytes items <= Z.max 0 (MaxOutputBytes (Limits (cfg_Spec config))))%Z ->
  length (received es0) = length items -> entries_of config action options clock (received es0) items ->
  satisfies (watch_loop config p action options clock room items (entry_bytes items) (resume_version start es0))
    (fun r es => forall out, r = Ok out -> watch_output config action options clock start (es0 ++ es) out).
Proof.
  assert (forall items es ended (truncated : bool),
    (Z.of_nat (length items) <= Z.max 0 (MaxListItems (Limits (cfg_Spec config))))%Z ->
    (entry_bytes items <= Z.max 0 (MaxOutputBytes (Limits (cfg_Spec config))))%Z ->
    length (received es) = length items + (if truncated then 1 else 0) ->
    entries_of config action options clock (received es) items ->
    forall out, (Ok (watchResult items ended (resume_version start es) truncated) : result go_error object) = Ok out ->
      watch_output config action options clock start es out) as Hend.
  { intros items es ended truncated H1 H2 H3 H4 out [= <-]. exists items, ended, truncated. by split_and!. }
  assert (forall es0 next, resume_version start (es0 ++ [Ev p NextEvent next]) =
    or_string (match next with WatchEvent _ (Ok o) => kubernetesObjectResourceVersion o | _ => "" end) (resume_version start es0)) as Hv.
  { intros es0 next. unfold resume_version. by rewrite foldl_app. }
  assert (forall es0 next, received (es0 ++ [Ev p NextEvent next]) =
    received es0 ++ match next with WatchEvent t o => [(t, o)] | _ => [] end) as Hrc.
  { intros es0 next. unfold received. rewrite omap_app. by destruct next. }
  induction room as [|room IH]; intros items es0 Hl Hb Hlen Hof; cbn [watch_loop].
  { satisfies_step. rewrite app_nil_r. apply Hend; [lia|done|lia|done]. }
  satisfies_step. destruct a as [err| |type converted].
  - satisfies_step. change (resume_version start es0) with (or_string "" (resume_version start es0)).
    rewrite <- (Hv es0 (StreamDone err)). apply Hend; [lia|done|..]; rewrite Hrc, app_nil_r; [lia|done].
  - satisfies_step. change (resume_version start es0) with (or_string "" (resume_version start es0)).
    rewrite <- (Hv es0 ChannelClosed). apply Hend; [lia|done|..]; rewrite Hrc, app_nil_r; [lia|done].
  - destruct (watch_entry _ _ _ _ _ _) as [entry|] eqn:Ee; [|by satisfies_step].
    pose proof (watch_entry_version _ _ _ _ _ _ _ Ee) as Ev'. rewrite Ev'.
    assert (or_string match converted with Ok o => kubernetesObjectResourceVersion o | Err _ => "" end (resume_version start es0)
      = resume_version start (es0 ++ [Ev p NextEvent (WatchEvent type converted)])) as -> by (rewrite Hv; by destruct converted).
    destruct (Z.ltb_spec (MaxOutputBytes (Limits (cfg_Spec config)))
      (entry_bytes items + blen (default "" (Marshal (VMap entry.1))))).
    { satisfies_step. apply Hend; [lia|done|..]; rewrite Hrc; [rewrite length_app; cbn; lia|by apply entries_of_grow]. }
    rewrite <- entry_bytes_snoc in *.
    eapply satisfies_bind; [apply notifyProgress_quiet|]. cbn. intros _ es1 Hq.
    rewrite <- (resume_version_quiet start _ es1 Hq).
    eapply satisfies_weaken; [apply (IH (items ++ [VMap entry.1]))|].
    + rewrite length_app. cbn. lia.
    + lia.
    + rewrite received_quiet, Hrc, !length_app by done. cbn. lia.
    + rewrite received_quiet, Hrc by done. by apply entries_of_snoc.
    + intros r es Hr out Ho. specialize (Hr out Ho). by rewrite <- !app_assoc in Hr.
Qed.

Lemma watch_satisfies config p action ns input options clock w h out h' :
  watch config p action ns input options clock w h = (Ok out, h') ->
  exists es, h' = h ++ es /\ watch_output config action options clock (ri_ResourceVersion input) es out.
Proof.
  assert (satisfies (watch config p action ns input options clock) (fun r es =>
    forall out, r = Ok out -> watch_output config action options clock (ri_ResourceVersion input) es out)) as H.
  { unfold watch. satisfies_step. satisfies_step; [|by satisfies_step].
    eapply satisfies_weaken; [apply (watch_loop_satisfies config p action options clock (ri_ResourceVersion input) _ [] [])|];
      [cbn; lia|cbn; lia|done|by intros ? ?|].
    intros r es Hr out0 Ho. destruct (Hr out0 Ho) as (items & ended & truncated & -> & Hrest).
    exists items, ended, truncated. split; [f_equal|exact Hrest]. }
  intros Hrun. destruct (H w h) as (es & Hes & Ho). rewrite Hrun in Hes, Ho. exists es. split; [done|]. by apply Ho.
Qed.

(** The entry of some event, redacted and shaped. *)
Definition is_entry (config : Config) (action : Action) (options : readOutputOptions) (item : value) : Prop :=
  exists clock type converted entry, watch_entry config action options clock type converted = Ok entry /\ item = VMap entry.1.

(** The entries [more] are announced and, in the end, returned. *)
Definition announces_entries (config : Config) (action : Action) (options : readOutputOptions) (items : list value)
    (r : result go_error object) (es : list event) : Prop :=
  exists more, Forall (is_entry config action options) more /\
    (forall token, Forall (token_is token) es -> notified es = announcements token (length items) more) /\
    (forall out, r = Ok out -> obj_get out "events" = Some (VList (items ++ more))).

Lemma announces_nothing config action options items r es :
  notified es = [] -> (forall out, r = Ok out -> obj_get out "events" = Some (VList items)) ->
  announces_entries config action options items r es.
Proof. intros He Hr. exists []. rewrite He, app_nil_r. split_and!; [done| |done]. by intros [t|]. Qed.

Lemma watch_loop_announces config p action options clock room : forall items bytes version,
  satisfies (watch_loop config p action options clock room items bytes version) (announces_entries config action options items).
Proof.
  induction room as [|room IH]; intros items bytes version; cbn [watch_loop].
  { satisfies_step. apply announces_nothing; [done|]. by intros out [= <-]. }
  satisfies_step. destruct a as [err| |type converted]; [satisfies_step; apply announces_nothing; [done|]; by intros out [= <-]..|].
  destruct (watch_entry _ _ _ _ _ _) as [entry|] eqn:Ee; [|satisfies_step; by apply announces_nothing].
  satisfies_step; [satisfies_step; apply announces_nothing; [done|]; by intros out [= <-]|].
  eapply satisfies_bind; [apply notifyProgress_announces|]. cbn. intros _ es1 H1.
  eapply satisfies_weaken; [apply IH|]. intros r es (more & Hm & Hn & Hr). exists (VMap entry.1 :: more). split_and!.
  - constructor; [|done]. by exists (clock (length items)), type, converted, entry.
  - intros token [_ [Hes1 Hes]%Forall_app]%Forall_cons. rewrite announcements_cons, <- (H1 token Hes1).
    specialize (Hn token Hes). rewrite length_app, Nat.add_1_r in Hn. rewrite <- Hn. apply (notified_app es1 es).
  - intros out Ho. rewrite (Hr out Ho). by rewrite <- app_assoc.
Qed.

Lemma watch_announces config p action ns input options clock :
  satisfies (watch config p action ns input options clock) (announces_entries config action options []).
Proof.
  unfold watch. satisfies_step. satisfies_step; [|satisfies_step; by apply announces_nothing].
  eapply satisfies_weaken; [apply watch_loop_announces|]. intros r es (more & Hm & Hn & Hr). exists more. split_and!; [done| |done].
  intros token [_ Hes]%Forall_cons. by apply Hn.
Qed.

Lemma logs_announces config p ns input :
  satisfies (logs config p ns input) (fun r es => exists lines,
    (forall token, Forall (token_is token) es -> notified es = announcements token 0 (VStr <$> lines)) /\
    (ri_Follow input = false -> lines = []) /\
    (ri_Follow input = true -> forall out, r = Ok out -> exists truncated, out = log_result lines truncated)).
Proof.
  unfold logs. satisfies_step; [satisfies_step; exists []; split_and!; [by intros [t|]|done..]|].
  satisfies_step. satisfies_step; [|satisfies_step; exists []; split_and!; [by intros [t|]|done..]].
  destruct (ri_Follow input); [|satisfies_step; exists []; split_and!; [by intros [t|]|done..]].
  destruct (followed_logs config _) as [lines r] eqn:El.
  eapply satisfies_bind; [apply (notify_lines_announces p lines 0)|]. cbn. intros _ es1 H1. satisfies_step. rewrite app_nil_r.
  exists lines. split_and!; [|done|].
  - intros token [_ Hes]%Forall_cons. by apply H1.
  - intros _ out Hr. eapply followed_logs_lines. by rewrite El, Hr.
Qed.
End watch_lemmas.

(** ** Lemmas: two clusters that differ in the values of Secrets *)

Section alike.
Context {G : GoLib} {Q : QuantityLib} {U : UnstructuredLib} {F : FieldsLib} {T : TimeLib}.

Definition reads_objects {A} (c : call A) : bool := match c with Get _ _ _ | List_ _ _ => true | _ => false end.

Definition answers_alike (a b : result go_error object) : Prop :=
  match a, b with
  | Ok a, Ok b => collection_alike (VMap a) (VMap b)
  | Err e, Err e' => e = e'
  | _, _ => False
  end.

Record clusters_alike (p : Principal) (w1 w2 : env) : Prop := {
  ca_same A h (c : call A) : reads_objects c = false -> w1 A h p c = w2 A h p c;
  ca_get h t name subs : answers_alike (w1 _ h p (Get t name subs)) (w2 _ h p (Get t name subs));
  ca_list h t opts : answers_alike (w1 _ h p (List_ t opts)) (w2 _ h p (List_ t opts))
}.

Lemma check_alike config p w1 w2 action ns name h :
  clusters_alike p w1 w2 ->
  Policy_CheckAndAuthorize config p action ns name w1 h = Policy_CheckAndAuthorize config p action ns name w2 h.
Proof.
  intros [Hs _ _]. unfold Policy_CheckAndAuthorize, Policy_Authorize, authorize, kbind, request, kret.
  destruct (Policy_CheckTarget _ _ _ _); [|done]. rewrite !Hs by done. destruct (w2 _ h p CtxErr); [done|].
  cbn [mbind option_bind]. by rewrite !Hs.
Qed.

Lemma finish_read_alike config action options clock a b :
  is_core action "secrets" = true -> SensitiveReads (PolicyS (cfg_Spec config)) = SensitiveReadRedact ->
  collection_alike (VMap a) (VMap b) -> finish_read config action options clock a = finish_read config action options clock b.
Proof. intros Ha Hp Hab. unfold finish_read. by rewrite Hp, (redactResult_alike _ _ _ Ha Hab). Qed.

Lemma perform_alike config p action ns input options clock w1 w2 h :
  is_core action "secrets" = true -> SensitiveReads (PolicyS (cfg_Spec config)) = SensitiveReadRedact ->
  a_Action action ∈ ["get"; "list"] -> clusters_alike p w1 w2 ->
  (perform config p action ns input options clock w1 h).1 = (perform config p action ns input options clock w2 h).1.
Proof.
  intros Ha Hp Hact [_ Hg Hl]. unfold perform. cbn zeta. case_bool_decide as Eg.
  - case_bool_decide; [done|]. unfold kbind, request, kret.
    specialize (Hg h (dynamicResource action ns) (ri_Name input) (subresources action)).
    destruct (w1 _ _ _ _), (w2 _ _ _ _); cbn in Hg |- *; try done; [by apply finish_read_alike|by subst].
  - assert (a_Action action = "list") as -> by set_solver. rewrite bool_decide_true by done. unfold kbind, request, kret.
    match goal with |- context [w1 _ h p (List_ ?t ?o)] => specialize (Hl h t o) end.
    destruct (w1 _ _ _ _), (w2 _ _ _ _); cbn in Hl |- *; try done; [by apply finish_read_alike|by subst].
Qed.
End alike.

(** ** Properties *)

Section properties.
Context {G : GoLib} {Q : QuantityLib} {U : UnstructuredLib} {F : FieldsLib} {T : TimeLib}.

(** C10: A read changes nothing and needs both permissions: every request of [read] is
    made as the caller and persists nothing, and when it returns data, the
    capability is a signed read the policy permits, Kubernetes allowed it to the
    caller in this very call, and logs are followed in Dangerous mode only. *)
Theorem read_is_authorized config codec adm p input clock w h :
  exists es, (read config codec adm p input clock w h).2 = h ++ es /\ Forall (harmless p) es /\
    forall out, (read config codec adm p input clock w h).1 = Ok out -> read_checks config codec p input es.
Proof. destruct (read_satisfies config codec adm p input clock w h) as (es & ? & ? & ?). eauto. Qed.

(** C11: Non-interference, end to end: under the Redact policy a get or list of Secrets
    returns the same answer from two clusters that differ only in Secret values
    and annotation values, whatever output options are chosen. *)
Theorem secret_reads_do_not_leak config codec adm p input clock w1 w2 h c :
  decode codec (ri_CapabilityID input) = Ok c -> is_core (AsAction c) "secrets" = true ->
  a_Action (AsAction c) ∈ ["get"; "list"] -> SensitiveReads (PolicyS (cfg_Spec config)) = SensitiveReadRedact ->
  clusters_alike p w1 w2 ->
  (read config codec adm p input clock w1 h).1 = (read config codec adm p input clock w2 h).1.
Proof.
  intros Hd Hc Hact Hp Hw. unfold read. rewrite Hd. destruct (_ || _); [done|].
  destruct (normalizeReadOutputOptions _ _); [|done]. destruct (_ && _ && _); [done|].
  destruct (if streams_read _ _ then _ else _); [|done]. unfold kbind at 1 3.
  rewrite (check_alike config p w1 w2 _ _ _ h Hw). destruct (Policy_CheckAndAuthorize _ _ _ _ _ w2 h) as [[u|] h1]; [|done].
  assert (a_Action (AsAction c) <> "logs") as Hnl by (intros E; rewrite E in Hact; set_solver).
  unfold resolve_logs. rewrite !(bool_decide_false (a_Action (AsAction c) = "logs")) by done. cbn [andb].
  unfold kbind, kret. destruct (select_name _ _); [|done]. by apply perform_alike.
Qed.

(** C36: A followed log is a longest prefix of the stream: the
    returned lines are the stream's first lines, in order and without their line ends, within
    the limits on bytes and on lines; only the last may be incomplete, because the stream ends there or because the byte limit
    is reached within it; something is left out only when one of the limits is reached, and [truncated] says exactly whether it
    was.  A failure is the stream's own. *)
Theorem followed_logs_are_a_prefix config s :
  (0 <= MaxOutputBytes (Limits (cfg_Spec config)))%Z -> (0 <= MaxListItems (Limits (cfg_Spec config)))%Z ->
  match (followed_logs config s).2 with
  | Ok out => logs_prefix config (ls_data s) out
  | Err e => ls_end s = Some e
  end.
Proof. apply followed_logs_spec. Qed.

(** C37: A watch ends, is bounded and faithful: it returns the entry of each event it
    received, in order, except the last one when it says [truncated]; at most
    [maxListItems] entries of at most [maxOutputBytes] of JSON in all.  When it is not truncated, the
    resource version it returns, to resume from, is that of the last received event that had one (or the one it started from), so
    nothing between the answer and that version is lost; of a truncated answer's version nothing is said here. *)
Theorem watch_is_bounded config p action ns input options clock w h out h' :
  watch config p action ns input options clock w h = (Ok out, h') ->
  exists es items (truncated : bool), h' = h ++ es /\ obj_get out "events" = Some (VList items) /\
    obj_get out "truncated" = (if truncated then Some (VBool true) else None) /\
    length (received es) = length items + (if truncated then 1 else 0) /\
    entries_of config action options clock (received es) items /\
    (Z.of_nat (length items) <= Z.max 0 (MaxListItems (Limits (cfg_Spec config))))%Z /\
    (entry_bytes items <= Z.max 0 (MaxOutputBytes (Limits (cfg_Spec config))))%Z /\
    (truncated = false ->
       let version := last_version (ri_ResourceVersion input) (received es) in
       obj_get out "resourceVersion" = (if bool_decide (version = "") then None else Some (VStr version))).
Proof.
  intros (es & -> & items & ended & truncated & -> & Hl & He & Hn & Hb)%watch_satisfies. exists es, items, truncated.
  unfold watchResult. rewrite resume_version_received. split_and!; [done|by case_bool_decide| |done..|].
  - by destruct truncated; case_bool_decide.
  - intros ->. unfold last_version. cbn zeta. by repeat case_bool_decide.
Qed.

(** C38: Progress tells nothing that the answer does not: with a progress token, a watch
    announces the redacted and shaped entries it collects, and a followed log its lines,
    each once, in order, numbered from one and cut to 4099 bytes, and a successful
    answer holds exactly what was announced; without a token nothing is sent. *)
Theorem progress_repeats_the_answer config p action ns input options clock w h :
  (exists es entries, (watch config p action ns input options clock w h).2 = h ++ es /\
    Forall (is_entry config action options) entries /\
    (forall token, Forall (token_is token) es -> notified es = announcements token 0 entries) /\
    (forall out, (watch config p action ns input options clock w h).1 = Ok out -> obj_get out "events" = Some (VList entries))) /\
  (exists es lines, (logs config p ns input w h).2 = h ++ es /\
    (forall token, Forall (token_is token) es -> notified es = announcements token 0 (VStr <$> lines)) /\
    (ri_Follow input = false -> lines = []) /\
    (ri_Follow input = true -> forall out, (logs config p ns input w h).1 = Ok out -> exists truncated, out = log_result lines truncated)) /\
  (forall token count vs t progress message, (t, progress, message) ∈ announcements token count vs ->
    token = Some t /\ (blen message <= 4099)%Z).
Proof.
  split_and!.
  - destruct (watch_announces config p action ns input options clock w h) as (es & Hes & entries & He & Hn & Hr). by exists es, entries.
  - destruct (logs_announces config p ns input w h) as (es & Hes & lines & H). by exists es, lines.
  - intros [t'|] count vs t progress message; cbn [announcements]; [|by intros []%elem_of_nil].
    intros (i & v & [= -> _ ->] & _)%elem_of_lookup_imap. split; [done|]. by apply (compactProgress_short _ 4096).
Qed.

(** A truncated watch cannot be resumed without a gap: the resource version it
    returns is that of the event that did not fit, which is in no entry. *)
Theorem truncated_watch_skips_event config p action ns input options clock w h out h' :
  watch config p action ns input options clock w h = (Ok out, h') -> obj_get out "truncated" = Some (VBool true) ->
  exists es before lost items, h' = h ++ es /\ received es = before ++ [lost] /\
    obj_get out "events" = Some (VList items) /\ entries_of config action options clock before items /\
    length items = length before /\
    (version_of lost <> "" -> obj_get out "resourceVersion" = Some (VStr (version_of lost))).
Proof.
  intros (es & -> & Hout)%watch_satisfies Ht. destruct Hout as (items & ended & truncated & -> & Hl & He & _ & _).
  destruct truncated; [|unfold watchResult in Ht; by case_bool_decide].
  assert (exists rs r, received es = rs ++ [r]) as (rs & r & Er).
  { destruct (received es) as [|r rs] using rev_ind; [cbn in Hl; lia|by eauto]. }
  rewrite Er, length_app in Hl. cbn in Hl. rewrite Er in He.
  exists es, rs, r, items. split_and!; [done|done|by unfold watchResult; case_bool_decide| |lia|].
  - intros i item Hi. destruct (He i item Hi) as (t & o & e & Hlk & ?). exists t, o, e. split; [|done].
    rewrite lookup_app_l in Hlk; [done|]. apply lookup_lt_Some in Hi. lia.
  - intros Hv. rewrite resume_version_received, Er. unfold last_version. rewrite foldl_app. cbn [foldl]. unfold or_string at 1.
    rewrite bool_decide_false by done. unfold watchResult. by rewrite bool_decide_true.
Qed.

(** A read for one named object stays with it: the selector sent for a named list
    or watch requires [metadata.name] to be that name, whatever selector the
    caller gave. *)
Theorem named_read_selects_name {L : FieldsLaws} raw name sent :
  namedFieldSelector raw name = Ok sent ->
  exists sel, sent = selector_String sel /\ RequiresExactMatch sel "metadata.name" = Some name.
Proof.
  unfold namedFieldSelector, named_selector. destruct (ParseSelector raw) as [sel|]; [|done].
  destruct (selector_Empty sel); [intros [= <-]; eexists; split; [done|apply exact_one_term]|].
  destruct (RequiresExactMatch sel "metadata.name") as [n|] eqn:E.
  - case_bool_decide as Hn; [done|]. intros [= <-]. exists sel. split; [done|]. by subst.
  - intros [= <-]. eexists. split; [done|]. by apply exact_and.
Qed.

(** The page size sent to the API server is positive and at most eight and the
    configured maximum, for every request. *)
Theorem list_limit_in_range config requested :
  (0 < MaxListItems (Limits (cfg_Spec config)))%Z ->
  (0 < kubernetesListLimit config requested <= Z.min 8 (MaxListItems (Limits (cfg_Spec config))))%Z.
Proof.
  intros Hm. unfold kubernetesListLimit, kubernetesListPageLimit.
  destruct (Z.leb_spec requested 0), (Z.ltb_spec (MaxListItems (Limits (cfg_Spec config))) requested); cbn [orb]; lia.
Qed.
End properties.

(** ** Witnesses *)

Module ReadsWitness.
Export OperationsWitness.

(** Selectors as lists of required values. *)
Definition parse_term (s : string) : option (string * string) :=
  match SplitN2 s "="%char with (k, Some v) => Some (k, v) | _ => None end.
#[export] Instance plain_Fields : FieldsLib := {|
  selector := list (string * string);
  ParseSelector s := if bool_decide (s = "") then Some [] else mapM parse_term (Split s ","%char);
  selector_Empty s := bool_decide (s = []);
  RequiresExactMatch s field := obj_get s field;
  OneTermEqualSelector field v := [(field, v)];
  AndSelectors s t := s ++ t;
  selector_String s := Join ((fun kv => kv.1 +:+ ("=" +:+ kv.2)) <$> s) ","
|}.
#[export] Instance plain_FieldsLaws : FieldsLaws.
Proof.
  split; cbn.
  - intros field v. by rewrite bool_decide_true.
  - intros s field v. induction s as [|[k u] s IH]; cbn; [by rewrite bool_decide_true|]. by case_bool_decide.
Qed.
#[export] Instance plain_Time : TimeLib := {| ParseRFC3339 _ := None |}.

Lemma named_read_selects_name_witness :
  exists sel, "status.phase=Running,metadata.name=web" = selector_String sel /\ RequiresExactMatch sel "metadata.name" = Some "web".
Proof. apply (named_read_selects_name "status.phase=Running" "web"). vm_compute. reflexivity. Defined.

Lemma list_limit_in_range_witness :
  (0 < kubernetesListLimit (demo_config ModeReadOnly) 500 <= Z.min 8 (MaxListItems (Limits (cfg_Spec (demo_config ModeReadOnly)))))%Z.
Proof. apply list_limit_in_range. vm_compute. reflexivity. Defined.

Definition two_lines : log_stream := {| ls_data := "one" +:+ (newline +:+ ("two" +:+ newline)); ls_end := None |}.

Lemma followed_logs_are_a_prefix_witness :
  match (followed_logs (demo_config ModeDangerous) two_lines).2 with
  | Ok out => logs_prefix (demo_config ModeDangerous) (ls_data two_lines) out
  | Err e => ls_end two_lines = Some e
  end.
Proof. apply followed_logs_are_a_prefix; vm_compute; discriminate. Defined.

(** The two lines come back whole. *)
Example two_lines_read :
  followed_logs (demo_config ModeDangerous) two_lines =
    (["one"; "two"], Ok [("logs", VStrings ["one"; "two"]); ("truncated", VBool false)]).
Proof. vm_compute. reflexivity. Qed.

(** A cluster whose watch delivers one Deployment and closes. *)
Definition one_event : env := fun A h p c =>
  match c in call A return A with
  | NextEvent => if bool_decide (length h <= 1) then WatchEvent "MODIFIED" (Ok web) else ChannelClosed
  | c' => open_cluster _ h p c'
  end.
Definition watch_input : ReadInput := ReadOutputWitness.list_input [].
Definition summary_options : readOutputOptions :=
  {| mode := "summary"; omitManagedFields := true; omitAnnotations := true; fieldPaths := [] |}.
Definition watched : result go_error object * list event :=
  watch (demo_config ModeDangerous) alice (deployments "watch" "watch") "prod" watch_input summary_options (fun _ _ => 0%Z) one_event [].
Definition watched_out : object := match watched.1 with Ok out => out | Err _ => [] end.

(** A caller with a token hears of the event. *)
Definition with_token (w : env) : env := fun A h p c => match c in call A return A with ProgressToken => Some "t1" | c' => w _ h p c' end.
Example event_announced :
  let r := watch (demo_config ModeDangerous) alice (deployments "watch" "watch") "prod" watch_input summary_options
             (fun _ _ => 0%Z) (with_token one_event) [] in
  (fun n => (n.1.1, n.1.2)) <$> notified r.2 = [("t1", 1%Z)] /\ length (notified watched.2) = 0.
Proof. vm_compute. by split. Qed.

Lemma watch_is_bounded_witness :
  obj_get watched_out "resourceVersion" = Some (VStr "7") /\
  exists es items (truncated : bool), watched.2 = [] ++ es /\ obj_get watched_out "events" = Some (VList items) /\
    obj_get watched_out "truncated" = (if truncated then Some (VBool true) else None) /\
    length (received es) = length items + (if truncated then 1 else 0).
Proof.
  split; [vm_compute; reflexivity|].
  destruct (watch_is_bounded (demo_config ModeDangerous) alice (deployments "watch" "watch") "prod" watch_input summary_options
           (fun _ _ => 0%Z) one_event [] watched_out watched.2) as (es & items & truncated & H1 & H2 & H3 & H4 & _); [vm_compute; reflexivity|].
  exists es, items, truncated. exact (conj H1 (conj H2 (conj H3 H4))).
Defined.

(** With room for ten bytes the event does not fit; resuming from the version
    that is returned, 7, would skip it. *)
Definition narrow_config : Config :=
  let c := demo_config ModeDangerous in let spec := cfg_Spec c in let l := Limits spec in {|
  cfg_Name := cfg_Name c; cfg_Namespace := cfg_Namespace c; cfg_Generation := cfg_Generation c;
  cfg_Spec := {|
    Resources := Resources spec; Mode := Mode spec; Scope := Scope spec; PolicyS := PolicyS spec;
    TLS_SecretName := TLS_SecretName spec; NetworkPolicy := NetworkPolicy spec;
    Limits := {| RequestTimeout := RequestTimeout l; StreamTimeout := StreamTimeout l; ExecTimeout := ExecTimeout l;
                 MaxInputBytes := MaxInputBytes l; MaxOutputBytes := 10; MaxListItems := MaxListItems l;
                 MaxConcurrent := MaxConcurrent l; RequestsPerMinute := RequestsPerMinute l; Burst := Burst l |} |} |}.
Definition narrow_watch : result go_error object * list event :=
  watch narrow_config alice (deployments "watch" "watch") "prod" watch_input summary_options (fun _ _ => 0%Z) one_event [].
Definition narrow_out : object := match narrow_watch.1 with Ok out => out | Err _ => [] end.

Lemma truncated_watch_skips_event_witness :
  obj_get narrow_out "events" = Some (VList []) /\ obj_get narrow_out "resourceVersion" = Some (VStr "7") /\
  exists es before lost items, narrow_watch.2 = [] ++ es /\ received es = before ++ [lost] /\
    obj_get narrow_out "events" = Some (VList items) /\
    entries_of narrow_config (deployments "watch" "watch") summary_options (fun _ _ => 0%Z) before items /\
    length items = length before /\
    (version_of lost <> "" -> obj_get narrow_out "resourceVersion" = Some (VStr (version_of lost))).
Proof.
  split_and!; [vm_compute; reflexivity..|].
  apply (truncated_watch_skips_event narrow_config alice (deployments "watch" "watch") "prod" watch_input summary_options
           (fun _ _ => 0%Z) one_event [] narrow_out narrow_watch.2); vm_compute; reflexivity.
Defined.

(** A get of a Secret, from two clusters with different passwords. *)
Definition secret_cap : Capability := {|
  ID := ""; c_Group := ""; c_Version := "v1"; c_Resource := "secrets"; c_Subresource := "";
  c_Kind := "Secret"; c_Action := "get"; c_Verb := "get"; c_Namespaced := true; Categories := [] |}.
Definition secret_issued : string * capabilityCodec :=
  default ("", CapabilityWitness.fresh) (encode CapabilityWitness.fresh secret_cap).
Definition secret_input : ReadInput := {|
  ri_CapabilityID := secret_issued.1; ri_Namespace := "prod"; ri_Name := "db"; ri_LabelSelector := ""; ri_FieldSelector := "";
  ri_Cursor := ""; ri_ResourceVersion := ""; ri_Limit := 0; ri_OutputMode := ""; ri_OmitManagedFields := None;
  ri_OmitAnnotations := Some false; ri_FieldPaths := []; ri_Follow := false; ri_Container := ""; ri_TailLines := None;
  ri_SinceSeconds := None |}.
Definition vault (password : string) : env := fun A h p c =>
  match c in call A return A with
  | Get _ _ _ => Ok (RedactionWitness.secret password "x")
  | c' => open_cluster _ h p c'
  end.
Definition get_secret (w : env) : result go_error object :=
  (read (demo_config ModeReadOnly) secret_issued.2 None alice secret_input (fun _ _ => 0%Z) w []).1.

Lemma secret_reads_do_not_leak_witness :
  is_ok (get_secret (vault "hunter2")) = true /\ get_secret (vault "hunter2") = get_secret (vault "swordfish").
Proof.
  split; [vm_compute; reflexivity|].
  apply (secret_reads_do_not_leak (demo_config ModeReadOnly) secret_issued.2 None alice secret_input (fun _ _ => 0%Z)
           (vault "hunter2") (vault "swordfish") [] (with_ID secret_cap secret_issued.1));
    [vm_compute; reflexivity|reflexivity|by left|reflexivity|].
  constructor.
  - intros A h c Hc. by destruct c.
  - intros h t name subs. cbn. constructor; [apply RedactionWitness.secret_wf..| |]; repeat constructor.
  - intros h t opts. cbn. constructor; repeat constructor.
Defined.
End ReadsWitness.
