(* ===== verification/Schema.v ===== *)
(** * OpenAPI schemas (src/internal/server/schema.go, schema_cache.go and [describe] in reads.go)

    [k8s.describe] finds the schema of a capability in an OpenAPI document,
    walks to a field and expands references, up to a depth and a budget of
    nodes.  References may be cyclic: [schemaProperty] remembers those it is
    inside of, [expandSchema] also spends its budget.  Both run on fuel here,
    and the fuel they are given is proved to be enough. *)

From Stdlib Require Import String Ascii.
From S2P Require Import Prelude GoStrings Crypto Json Errors Config Kube Policy Capability PlanStore Redaction Auth Remote Operations Reads.

Definition maxSchemaExpansionNodes : Z := 10000.
Definition ref_prefix : string := "#/components/schemas/".

Definition schemaMatchesGVK (candidate : object) (capability : Capability) : bool :=
  existsb (fun raw =>
    let gvk := map_or_nil raw in
    bool_decide (string_or_zero (obj_index gvk "group") = c_Group capability)
    && bool_decide (string_or_zero (obj_index gvk "version") = c_Version capability)
    && bool_decide (string_or_zero (obj_index gvk "kind") = c_Kind capability))
    (list_or_nil (obj_index candidate "x-kubernetes-group-version-kind")).

(** ** Finding a field *)

(** Runs [f] on the branches that are objects and collects what it finds. *)
Fixpoint match_branches (f : object -> option (option object)) (branches : list value) : option (list value) :=
  match branches with
  | [] => Some []
  | VMap branch :: rest =>
    found ← f branch;
    more ← match_branches f rest;
    Some (match found with Some property => VMap property :: more | None => more end)
  | _ :: rest => match_branches f rest
  end.

(** The loop over allOf, oneOf and anyOf: the first one with a match. *)
Fixpoint first_combinator (f : object -> option (option object)) (current : object) (names : list string)
    : option (option object) :=
  match names with
  | [] => Some None
  | combinator :: rest =>
    matches ← match_branches f (list_or_nil (obj_index current combinator));
    match matches with
    | [] => first_combinator f current rest
    | [VMap property] => Some (Some property)
    | _ => Some (Some [(combinator, VList matches)])
    end
  end.

(** The target of a reference of [current] that the walk is not inside of. *)
Definition open_reference (current schemas : object) (seen : list string) : option (string * object) :=
  let reference := string_or_zero (obj_index current "$ref") in
  if HasPrefix reference ref_prefix && negb (bool_decide (reference ∈ seen)) then
    match obj_index schemas (TrimPrefix reference ref_prefix) with
    | VMap target => Some (reference, target)
    | _ => None
    end
  else None.

(** The body of [schemaProperty] around its recursive calls [recur], which take
    the schema and the references the walk is inside of.  [None] is out of fuel,
    [Some None] not found. *)
Definition property_step (recur : object -> list string -> option (option object))
    (current : object) (name : string) (schemas : object) (seen : list string) : option (option object) :=
  match as_map (obj_index (map_or_nil (obj_index current "properties")) name) with
  | Some property => Some (Some property)
  | None =>
    through ← match open_reference current schemas seen with
              | Some (reference, target) => recur target (reference :: seen)
              | None => Some None
              end;
    match through with
    | Some property => Some (Some property)
    | None => first_combinator (fun branch => recur branch seen) current ["allOf"; "oneOf"; "anyOf"]
    end
  end.

Fixpoint property_fuel (fuel : nat) (current : object) (name : string) (schemas : object) (seen : list string)
    : option (option object) :=
  match fuel with
  | O => None
  | S fuel' => property_step (fun next seen => property_fuel fuel' next name schemas seen) current name schemas seen
  end.

(** The nesting of a value, and the fuel that is always enough: a reference is
    entered once on the way down, and between two of them the value shrinks. *)
Fixpoint nesting (v : value) : nat :=
  match v with
  | VList l => S ((fix go (l : list value) : nat := match l with [] => 0 | x :: l' => Nat.max (nesting x) (go l') end) l)
  | VMap m => S ((fix go (m : object) : nat := match m with [] => 0 | kv :: m' => Nat.max (nesting kv.2) (go m') end) m)
  | _ => 0
  end.

Definition property_enough (current schemas : object) : nat :=
  let d := Nat.max (nesting (VMap current)) (nesting (VMap schemas)) in
  S ((S (length schemas)) * S d).

Definition schemaProperty (current : object) (name : string) (schemas : object) (seen : list string) : option object :=
  default None (property_fuel (property_enough current schemas) current name schemas seen).

(** ** Expansion *)

Definition schemaTruncated : value := VMap [("truncated", VBool true); ("reason", VStr "schema expansion budget reached")].
Definition truncation_key : string := "x-supek8smcp-truncated".

Definition sortedMapKeys (m : object) : list string := sort_strings (keys m).

Definition nested_keys : list string := ["items"; "additionalProperties"; "oneOf"; "anyOf"; "allOf"].

(** The three loops, given the expansion [f] of a value with a budget; each
    returns the budget that is left. *)
Fixpoint expand_items (f : value -> Z -> option (value * Z)) (items : list value) (budget : Z) : option (list value * Z) :=
  match items with
  | [] => Some ([], budget)
  | item :: rest =>
    if (budget <=? 0)%Z then Some ([schemaTruncated], budget)
    else
    '(v, budget) ← f item budget;
    '(vs, budget) ← expand_items f rest budget;
    Some (v :: vs, budget)
  end.

Fixpoint expand_properties (f : value -> Z -> option (value * Z)) (properties : object) (names : list string)
    (expanded : object) (budget : Z) : option (object * Z) :=
  match names with
  | [] => Some (expanded, budget)
  | name :: rest =>
    if (budget <=? 0)%Z then Some (obj_set expanded truncation_key schemaTruncated, budget)
    else
    '(v, budget) ← f (obj_index properties name) budget;
    expand_properties f properties rest (obj_set expanded name v) budget
  end.

Fixpoint expand_fields (f : value -> Z -> option (value * Z)) (o : object) (names : list string) (result : object) (budget : Z)
    : option (object * Z) :=
  match names with
  | [] => Some (result, budget)
  | key :: rest =>
    if (budget <=? 0)%Z then Some (obj_set result truncation_key (VBool true), budget)
    else
    let child := obj_index o key in
    if bool_decide (key = "properties") then
      let properties := map_or_nil child in
      '(expanded, budget) ← expand_properties f properties (sortedMapKeys properties) [] budget;
      expand_fields f o rest (obj_set result key (VMap expanded)) budget
    else if bool_decide (key ∈ nested_keys) then
      '(v, budget) ← f child budget;
      expand_fields f o rest (obj_set result key v) budget
    else
      (* the default case takes one more node, which is there *)
      expand_fields f o rest (obj_set result key child) (budget - 1)
  end.

(** What a reference is replaced by, if it can be followed. *)
Inductive reference_case := NotFollowed | Recursive (reference : string) | Followed (name : string) (target : value).
Definition follow_reference (o schemas : object) (seen : list string) : reference_case :=
  match obj_get o "$ref" with
  | Some (VStr reference) =>
    if HasPrefix reference ref_prefix then
      let name := TrimPrefix reference ref_prefix in
      if bool_decide (name ∈ seen) then Recursive reference
      else match obj_get schemas name with Some target => Followed name target | None => NotFollowed end
    else NotFollowed
  | _ => NotFollowed
  end.

(** The body of [expandSchema] around its recursive calls [recur], with the
    remaining budget passed along; [None] is out of fuel. *)
Definition expand_step (recur : Z -> list string -> value -> Z -> option (value * Z)) (schemas : object) (depth : Z)
    (seen : list string) (v : value) (budget : Z) : option (value * Z) :=
  if (depth <? 0)%Z || (budget <=? 0)%Z then Some (schemaTruncated, budget)
  else
  let budget := (budget - 1)%Z in
  match v with
  | VList array =>
    '(expanded, budget) ← expand_items (recur depth seen) array budget;
    Some (VList expanded, budget)
  | VMap o =>
    match follow_reference o schemas seen with
    | Recursive reference => Some (VMap [("$ref", VStr reference); ("recursive", VBool true)], budget)
    | Followed name target => recur depth (name :: seen) target budget
    | NotFollowed =>
      '(result, budget) ← expand_fields (recur (depth - 1)%Z seen) o (sortedMapKeys o) [] budget;
      Some (VMap result, budget)
    end
  | _ => Some (v, budget)
  end.

Fixpoint expand_fuel (fuel : nat) (schemas : object) (depth : Z) (seen : list string) (v : value) (budget : Z)
    : option (value * Z) :=
  match fuel with
  | O => None
  | S fuel' => expand_step (expand_fuel fuel' schemas) schemas depth seen v budget
  end.

(** A call spends at least one node of its budget before it calls itself. *)
Definition expandSchema (v : value) (schemas : object) (depth : Z) (seen : list string) (budget : Z) : value * Z :=
  default (schemaTruncated, budget) (expand_fuel (S (Z.to_nat budget)) schemas depth seen v budget).

(** ** [schemaFromDocument] *)

Section document.
Context {G : GoLib}.

Fixpoint walk_path (current schemas : object) (parts : list string) : option object :=
  match parts with
  | [] => Some current
  | part :: rest =>
    match schemaProperty current part schemas [] with
    | Some next => walk_path next schemas rest
    | None => None
    end
  end.

(** The range over the schemas visits them in the order of the list. *)
Definition schemaFromDocument (document : object) (capability : Capability) (fieldPath : string) (depth : Z)
    : result go_error value :=
  let components := map_or_nil (obj_index document "components") in
  let schemas := map_or_nil (obj_index components "schemas") in
  let candidates := omap (fun kv => as_map kv.2) schemas in
  match List.find (fun candidate => schemaMatchesGVK candidate capability) candidates with
  | None => Ok (VMap [("available", VBool false); ("reason", VStr "resource has no structural OpenAPI v3 schema")])
  | Some selected =>
    match (if bool_decide (fieldPath <> "") then walk_path selected schemas (Split fieldPath "."%char) else Some selected) with
    | None =>
      Err (policyError "schema_path_not_found" ("field path " +:+ (Quote fieldPath +:+ " does not exist")))
    | Some target => Ok (expandSchema (VMap target) schemas depth [] maxSchemaExpansionNodes).1
    end
  end.
End document.

(** ** The cache of documents *)

Definition schemaCacheMaxBytes : Z := Z.shiftl 32 20.

(** The credential digest, the group and the version. *)
Definition schemaCacheKey : Type := list N * string * string.
Record schemaCacheEntry := { se_document : object; se_expires : Z; se_bytes : Z }.
Record schemaCache := { sc_entries : gmap schemaCacheKey schemaCacheEntry; sc_bytes : Z }.

Definition newSchemaCache : schemaCache := {| sc_entries := ∅; sc_bytes := 0 |}.

Definition credential_text (p : Principal) : string := SubjectKey p +:+ (nul +:+ Token p).
Definition schema_key (p : Principal) (group version : string) : schemaCacheKey := (Sum256 (credential_text p), group, version).

(** The loop of the first critical section over the keys it visits; the clock
    is read anew at each key. *)
Fixpoint evict_expired (now : schemaCacheKey -> Z) (visit : list schemaCacheKey) (c : schemaCache) : schemaCache :=
  match visit with
  | [] => c
  | k :: rest =>
    evict_expired now rest
      match sc_entries c !! k with
      | Some entry =>
        if (se_expires entry <? now k)%Z
        then {| sc_entries := delete k (sc_entries c); sc_bytes := sc_bytes c - se_bytes entry |}
        else c
      | None => c
      end
  end.

Definition schema_find (now : schemaCacheKey -> Z) (key : schemaCacheKey) (c : schemaCache) : schemaCache * option object :=
  let c := evict_expired now (map_to_list (sc_entries c)).*1 c in
  (c, se_document <$> sc_entries c !! key).

Section cache.
Context {G : GoLib}.

(** The second critical section. *)
Definition schema_store (now : Z) (key : schemaCacheKey) (document : object) (c : schemaCache) : schemaCache :=
  match Marshal (VMap document) with
  | None => c
  | Some encoded =>
    let bytes := (Z.of_nat (String.length encoded) * 4)%Z in
    if bool_decide (sc_entries c !! key = None) && bool_decide (size (sc_entries c) < 64)%nat
       && (bytes <=? schemaCacheMaxBytes - sc_bytes c)%Z
    then {| sc_entries := <[key := {| se_document := document; se_expires := now + 5 * minute; se_bytes := bytes |}]> (sc_entries c);
            sc_bytes := sc_bytes c + bytes |}
    else c
  end.

(** [load].  [clock] is what the loop's clock reads; [others] what other
    requests do to the cache between the two critical sections; [client] the
    error of [discoveryForContext], if any. *)
Definition load (clock : schemaCacheKey -> Z) (others : schemaCache -> schemaCache) (client : option go_error)
    (c : option schemaCache) (p : Principal) (group version : string) : K (option schemaCache * result go_error object) :=
  let key := schema_key p group version in
  let '(c, found) :=
    match c with
    | Some c =>
      if bool_decide (Token p <> "") then let '(c, found) := schema_find clock key c in (Some c, found)
      else (Some c, None)
    | None => (None, None)
    end in
  match found with
  | Some document => kret (c, Ok document)
  | None =>
    let c := others <$> c in
    match client with
    | Some err => kret (c, Err err)
    | None =>
      (let! answer := request p (OpenAPI group version) in
       let! done := request p CtxErr in
       match done, answer with
       | Some err, _ => kret (c, Err err)
       | None, Err err => kret (c, Err (Wrapped "load OpenAPI v3 schema" err))
       | None, Ok document =>
         match c with
         | Some c' =>
           if bool_decide (Token p <> "") then
             let! now := request p Now in kret (Some (schema_store now key document c'), Ok document)
           else kret (c, Ok document)
         | None => kret (c, Ok document)
         end
       end)%kube
    end
  end.

Definition schemaForCapability (clock : schemaCacheKey -> Z) (others : schemaCache -> schemaCache) (client : option go_error)
    (c : option schemaCache) (p : Principal) (capability : Capability) (fieldPath : string) (depth : Z)
    : K (option schemaCache * result go_error value) :=
  (let! done := request p CtxErr in
   match done with
   | Some err => kret (c, Err err)
   | None =>
     let! r := load clock others client c p (c_Group capability) (c_Version capability) in
     kret (r.1, document ← r.2; schemaFromDocument document capability fieldPath depth)
   end)%kube.
End cache.

(** ** [describe] *)

Record DescribeInput := {
  di_CapabilityID : string; di_Namespace : string; di_Name : string; di_FieldPath : string; di_Depth : Z
}.
Record DescribeOutput := { do_Capability : Capability; do_Schema : value }.

Definition describe_depth (requested : Z) : Z :=
  let depth := if (requested <=? 0)%Z then 2%Z else requested in
  if (6 <? depth)%Z then 6%Z else depth.

Section describe.
Context {G : GoLib} {Q : QuantityLib} {U : UnstructuredLib}.

Definition describe (config : Config) (codec : capabilityCodec) (clock : schemaCacheKey -> Z)
    (others : schemaCache -> schemaCache) (client : option go_error) (c : option schemaCache) (p : Principal)
    (input : DescribeInput) : K (option schemaCache * result go_error DescribeOutput) :=
  match decode codec (di_CapabilityID input) with
  | Err err => kret (c, Err err)
  | Ok capability =>
    let namespace := defaultNamespace config capability (di_Namespace input) in
    (let! checked := Policy_CheckAndAuthorize config p (AsAction capability) namespace (di_Name input) in
     match checked with
     | Err err => kret (c, Err err)
     | Ok _ =>
       let! r := schemaForCapability clock others client c p capability (di_FieldPath input) (describe_depth (di_Depth input)) in
       kret (r.1,
         resourceSchema ← r.2;
         Ok {| do_Capability := capability;
               do_Schema := boundedValue resourceSchema (Z.quot (MaxOutputBytes (Limits (cfg_Spec config))) 2) |})
     end)%kube
  end.
End describe.

(** ** The expansion always returns *)

Section expansion_loops.
Context (f : value -> Z -> option (value * Z)) (most : Z).
Context (f_returns : forall v b, (0 <= b <= most)%Z -> exists v' b', f v b = Some (v', b') /\ (0 <= b' <= b)%Z).

Lemma expand_items_returns items b :
  (0 <= b <= most)%Z -> exists vs b', expand_items f items b = Some (vs, b') /\ (0 <= b' <= b)%Z.
Proof.
  revert b. induction items as [|item items IH]; intros b Hb; cbn; [eexists _, b; split; [done|lia]|].
  destruct (Z.leb_spec b 0); [eexists _, b; split; [done|lia]|].
  destruct (f_returns item b Hb) as (v & b1 & -> & ?). cbn.
  destruct (IH b1) as (vs & b2 & -> & ?); [lia|]. eexists _, b2. split; [done|lia].
Qed.

Lemma expand_properties_returns properties names expanded b :
  (0 <= b <= most)%Z -> exists o b', expand_properties f properties names expanded b = Some (o, b') /\ (0 <= b' <= b)%Z.
Proof.
  revert expanded b. induction names as [|name names IH]; intros expanded b Hb; cbn; [eexists _, b; split; [done|lia]|].
  destruct (Z.leb_spec b 0); [eexists _, b; split; [done|lia]|].
  destruct (f_returns (obj_index properties name) b Hb) as (v & b1 & -> & ?). cbn.
  destruct (IH (obj_set expanded name v) b1) as (o & b2 & -> & ?); [lia|]. eexists _, b2. split; [done|lia].
Qed.

Lemma expand_fields_returns o names result b :
  (0 <= b <= most)%Z -> exists r b', expand_fields f o names result b = Some (r, b') /\ (0 <= b' <= b)%Z.
Proof.
  revert result b. induction names as [|key names IH]; intros result b Hb; cbn; [eexists _, b; split; [done|lia]|].
  destruct (Z.leb_spec b 0); [eexists _, b; split; [done|lia]|].
  case_bool_decide.
  { destruct (expand_properties_returns (map_or_nil (obj_index o key)) (sortedMapKeys (map_or_nil (obj_index o key))) [] b Hb)
      as (v & b1 & -> & ?). cbn.
    destruct (IH (obj_set result key (VMap v)) b1) as (r & b2 & -> & ?); [lia|]. eexists _, b2. split; [done|lia]. }
  case_bool_decide.
  { destruct (f_returns (obj_index o key) b Hb) as (v & b1 & -> & ?). cbn.
    destruct (IH (obj_set result key v) b1) as (r & b2 & -> & ?); [lia|]. eexists _, b2. split; [done|lia]. }
  destruct (IH (obj_set result key (obj_index o key)) (b - 1)%Z) as (r & b2 & -> & ?); [lia|]. eexists _, b2. split; [done|lia].
Qed.
End expansion_loops.

Lemma expand_fuel_returns fuel schemas depth seen v b :
  (0 <= b < Z.of_nat fuel)%Z -> exists v' b', expand_fuel fuel schemas depth seen v b = Some (v', b') /\ (0 <= b' <= b)%Z.
Proof.
  revert depth seen v b. induction fuel as [|fuel IH]; intros depth seen v b Hb; [lia|].
  cbn [expand_fuel]. unfold expand_step.
  destruct ((depth <? 0)%Z || (b <=? 0)%Z) eqn:E; [eexists _, b; split; [done|lia]|]. reflect_bools.
  assert (forall d s w c, (0 <= c <= b - 1)%Z -> exists w' c', expand_fuel fuel schemas d s w c = Some (w', c') /\ (0 <= c' <= c)%Z)
    as IH' by (intros; apply IH; lia).
  destruct v; try (eexists _, (b - 1)%Z; split; [done|lia]).
  - destruct (expand_items_returns _ (b - 1) (IH' depth seen) l (b - 1)) as (vs & b' & -> & ?); [lia|].
    eexists _, b'. split; [done|lia].
  - destruct (follow_reference m schemas seen) as [|reference|name target].
    + destruct (expand_fields_returns _ (b - 1) (IH' (depth - 1)%Z seen) m (sortedMapKeys m) [] (b - 1)) as (r & b' & -> & ?); [lia|].
      eexists _, b'. split; [done|lia].
    + eexists _, (b - 1)%Z. split; [done|lia].
    + destruct (IH' depth (name :: seen) target (b - 1)%Z) as (r & b' & -> & ?); [lia|]. eexists _, b'. split; [done|lia].
Qed.

(** More fuel changes nothing. *)
Section expansion_mono.
Context (f g : value -> Z -> option (value * Z)) (Hfg : forall v b r, f v b = Some r -> g v b = Some r).

Lemma expand_items_mono items b r : expand_items f items b = Some r -> expand_items g items b = Some r.
Proof.
  revert b r. induction items as [|item items IH]; intros b r; cbn; [done|]. destruct (b <=? 0)%Z; [done|].
  destruct (f item b) as [[v b1]|] eqn:E; cbn; [|done]. rewrite (Hfg _ _ _ E). cbn.
  destruct (expand_items f items b1) as [[vs b2]|] eqn:E2; cbn; [|done]. by rewrite (IH _ _ E2).
Qed.

Lemma expand_properties_mono properties names expanded b r :
  expand_properties f properties names expanded b = Some r -> expand_properties g properties names expanded b = Some r.
Proof.
  revert expanded b r. induction names as [|name names IH]; intros expanded b r; cbn; [done|]. destruct (b <=? 0)%Z; [done|].
  destruct (f _ b) as [[v b1]|] eqn:E; cbn; [|done]. rewrite (Hfg _ _ _ E). cbn. apply IH.
Qed.

Lemma expand_fields_mono o names result b r :
  expand_fields f o names result b = Some r -> expand_fields g o names result b = Some r.
Proof.
  revert result b r. induction names as [|key names IH]; intros result b r; cbn; [done|]. destruct (b <=? 0)%Z; [done|].
  case_bool_decide.
  { destruct (expand_properties f _ _ _ _) as [[v b1]|] eqn:E; cbn; [|done]. rewrite (expand_properties_mono _ _ _ _ _ E). cbn. apply IH. }
  case_bool_decide; [|apply IH]. destruct (f _ b) as [[v b1]|] eqn:E; cbn; [|done]. rewrite (Hfg _ _ _ E). cbn. apply IH.
Qed.
End expansion_mono.

Lemma expand_step_mono f g schemas depth seen v b r :
  (forall d s w c q, f d s w c = Some q -> g d s w c = Some q) ->
  expand_step f schemas depth seen v b = Some r -> expand_step g schemas depth seen v b = Some r.
Proof.
  intros Hfg. unfold expand_step. destruct (_ || _); [done|]. destruct v; try done.
  - destruct (expand_items (f depth seen) _ _) as [[vs b1]|] eqn:E; cbn [mbind option_bind]; [|done].
    by rewrite (expand_items_mono _ _ (Hfg depth seen) _ _ _ E).
  - destruct (follow_reference _ _ _); [|done|apply Hfg].
    destruct (expand_fields (f _ seen) _ _ _ _) as [[o b1]|] eqn:E; cbn [mbind option_bind]; [|done].
    by rewrite (expand_fields_mono _ _ (Hfg (depth - 1)%Z seen) _ _ _ _ _ E).
Qed.

Lemma expand_fuel_mono n m schemas depth seen v b r :
  n <= m -> expand_fuel n schemas depth seen v b = Some r -> expand_fuel m schemas depth seen v b = Some r.
Proof.
  revert m depth seen v b r. induction n as [|n IH]; intros m depth seen v b r Hm; [done|]. destruct m as [|m]; [lia|].
  cbn [expand_fuel]. apply expand_step_mono. intros d s w c q. apply IH. lia.
Qed.

Lemma expandSchema_returns schemas depth seen v b :
  expand_fuel (S (Z.to_nat b)) schemas depth seen v b = Some (expandSchema v schemas depth seen b) /\
  (0 <= b -> 0 <= (expandSchema v schemas depth seen b).2 <= b)%Z.
Proof.
  unfold expandSchema. destruct (Z.le_gt_cases 0 b) as [Hb|Hb].
  - destruct (expand_fuel_returns (S (Z.to_nat b)) schemas depth seen v b) as (v' & b' & -> & ?); [lia|]. by split.
  - split; [|lia]. cbn [expand_fuel]. unfold expand_step. by rewrite (proj2 (Z.leb_le b 0)), orb_true_r by lia.
Qed.

Lemma expand_fuel_agrees n schemas depth seen v b r :
  expand_fuel n schemas depth seen v b = Some r -> expandSchema v schemas depth seen b = r.
Proof.
  intros Hn. destruct (expandSchema_returns schemas depth seen v b) as [Hr _]. revert Hr. generalize (S (Z.to_nat b)). intros m Hr.
  pose proof (expand_fuel_mono n (Nat.max n m) _ _ _ _ _ _ ltac:(lia) Hn) as Hn'.
  pose proof (expand_fuel_mono m (Nat.max n m) _ _ _ _ _ _ ltac:(lia) Hr) as Hr'. congruence.
Qed.

(** [expandSchema] satisfies the recursion of the code, with no fuel in it. *)
Lemma expandSchema_unfold schemas depth seen v b :
  expand_step (fun d s w c => Some (expandSchema w schemas d s c)) schemas depth seen v b =
    Some (expandSchema v schemas depth seen b).
Proof.
  destruct (expandSchema_returns schemas depth seen v b) as [Hr _]. cbn [expand_fuel] in Hr. revert Hr.
  apply expand_step_mono. intros d s w c q Hq. by rewrite (expand_fuel_agrees _ _ _ _ _ _ _ Hq).
Qed.

(** ** Finding a field always returns *)

Lemma nesting_VList_elem l v : v ∈ l -> nesting v < nesting (VList l).
Proof.
  intros H. cbn. apply Nat.lt_succ_r. induction H as [x l|x y l H IH]; cbn; [apply Nat.le_max_l|].
  etransitivity; [exact IH|apply Nat.le_max_r].
Qed.

Lemma nesting_VMap_elem m kv : kv ∈ m -> nesting kv.2 < nesting (VMap m).
Proof.
  intros H. cbn. apply Nat.lt_succ_r. induction H as [x l|x y l H IH]; cbn; [apply Nat.le_max_l|].
  etransitivity; [exact IH|apply Nat.le_max_r].
Qed.

Lemma nesting_index m k : nesting (obj_index m k) < nesting (VMap m).
Proof.
  unfold obj_index. destruct (obj_get m k) as [v|] eqn:E; cbn [default]; [|cbn; lia].
  apply (nesting_VMap_elem m (k, v)). by apply obj_get_Some_elem.
Qed.

Lemma nesting_branch current combinator branch :
  VMap branch ∈ list_or_nil (obj_index current combinator) -> nesting (VMap branch) < nesting (VMap current).
Proof.
  pose proof (nesting_index current combinator) as Hi. unfold list_or_nil.
  destruct (obj_index current combinator); cbn [as_list default]; try (intros H; by apply elem_of_nil in H).
  intros H%nesting_VList_elem. exact (Nat.lt_trans _ _ _ H Hi).
Qed.

#[local] Opaque nesting.

(** The schemas the walk is not inside of. *)
Definition unseen (schemas : object) (seen : list string) : nat :=
  length (filter (fun k => (ref_prefix +:+ k) ∉ seen) (keys schemas)).

Lemma unseen_le schemas seen : unseen schemas seen <= length schemas.
Proof. unfold unseen, keys. etransitivity; [apply length_filter|]. by rewrite length_fmap. Qed.

Lemma filter_drops_one {A} (P Q : A -> Prop) `{!forall x, Decision (P x), !forall x, Decision (Q x)} (l : list A) x :
  (forall y, Q y -> P y) -> x ∈ l -> P x -> ~ Q x -> length (filter Q l) < length (filter P l).
Proof.
  intros HQP Hx HP HQ. assert (forall l', length (filter Q l') <= length (filter P l')) as Hle.
  { induction l' as [|y l' IH]; [done|]. rewrite !filter_cons.
    destruct (decide (Q y)), (decide (P y)); cbn; try lia. exfalso. auto. }
  induction Hx as [x l|x y l Hx IH]; rewrite !filter_cons.
  - rewrite (decide_True _ _ HP), (decide_False _ _ HQ). cbn. specialize (Hle l). lia.
  - specialize (IH HP HQ). destruct (decide (Q y)), (decide (P y)); cbn; try lia. exfalso. auto.
Qed.

Lemma open_reference_unseen current schemas seen reference target :
  open_reference current schemas seen = Some (reference, target) ->
  unseen schemas (reference :: seen) < unseen schemas seen /\ nesting (VMap target) < nesting (VMap schemas).
Proof.
  unfold open_reference. destruct (HasPrefix _ _) eqn:Hp; cbn [andb]; [|done].
  case_bool_decide as Hs; cbn [negb]; [done|].
  apply HasPrefix_spec in Hp as [name Hn]. rewrite Hn, TrimPrefix_append.
  destruct (obj_index schemas name) as [| | | | | | |m] eqn:E; try done. intros [= <- <-]. split.
  - unfold unseen. apply (filter_drops_one _ _ _ name); [set_solver| |by rewrite <- Hn|set_solver].
    unfold obj_index in E. destruct (obj_get schemas name) eqn:Eg; [|done].
    apply obj_get_Some_elem in Eg. apply list_elem_of_fmap. by eexists (_, _).
  - rewrite <- E. apply nesting_index.
Qed.

(** The loops return when every call they make does. *)
Lemma match_branches_returns f branches :
  (forall branch, VMap branch ∈ branches -> exists r, f branch = Some r) -> exists l, match_branches f branches = Some l.
Proof.
  induction branches as [|v branches IH]; intros Hf; cbn; [by eexists|].
  destruct IH as [l IH]; [intros; apply Hf; by right|].
  destruct v; try (rewrite IH; by eexists).
  destruct (Hf m) as [r ->]; [by left|]. cbn. rewrite IH. by eexists.
Qed.

Lemma first_combinator_returns f current names :
  (forall combinator branch, VMap branch ∈ list_or_nil (obj_index current combinator) -> exists r, f branch = Some r) ->
  exists r, first_combinator f current names = Some r.
Proof.
  intros Hf. induction names as [|combinator names IH]; cbn; [by eexists|].
  destruct (match_branches_returns f _ (Hf combinator)) as [l ->]. cbn. split_matches; by eexists.
Qed.

Lemma property_fuel_returns schemas d fuel current name seen :
  nesting (VMap schemas) <= d -> nesting (VMap current) <= d ->
  unseen schemas seen * S d + nesting (VMap current) < fuel ->
  exists r, property_fuel fuel current name schemas seen = Some r.
Proof.
  intros Hd. revert current seen. induction fuel as [|fuel IH]; intros current seen Hc Hf; [lia|].
  cbn [property_fuel]. unfold property_step.
  destruct (as_map _); [by eexists|].
  assert (exists r, match open_reference current schemas seen with
            | Some (reference, target) => property_fuel fuel target name schemas (reference :: seen)
            | None => Some None end = Some r) as [through ->].
  { destruct (open_reference _ _ _) as [[reference target]|] eqn:E; [|by eexists].
    apply open_reference_unseen in E as [Hu Ht]. apply IH; [lia|]. nia. }
  cbn [mbind option_bind]. destruct through; [by eexists|].
  apply first_combinator_returns. intros combinator branch Hb%nesting_branch. apply IH; lia.
Qed.

Lemma property_enough_returns current name schemas seen :
  exists r, property_fuel (property_enough current schemas) current name schemas seen = Some r.
Proof.
  unfold property_enough. apply property_fuel_returns with (d := Nat.max (nesting (VMap current)) (nesting (VMap schemas))); [lia..|].
  pose proof (unseen_le schemas seen). nia.
Qed.

(** More fuel changes nothing. *)
Definition below {A B} (f g : A -> option B) : Prop := forall x r, f x = Some r -> g x = Some r.

Lemma match_branches_mono f g branches l :
  below f g -> match_branches f branches = Some l -> match_branches g branches = Some l.
Proof.
  intros Hfg. revert l. induction branches as [|v branches IH]; intros l; cbn; [done|].
  destruct v; try apply IH. destruct (f m) as [r|] eqn:E; cbn; [|done]. rewrite (Hfg _ _ E). cbn.
  destruct (match_branches f branches) as [l'|] eqn:El; cbn; [|done]. by rewrite (IH l').
Qed.

Lemma first_combinator_mono f g current names r :
  below f g -> first_combinator f current names = Some r -> first_combinator g current names = Some r.
Proof.
  intros Hfg. induction names as [|combinator names IH]; cbn; [done|].
  destruct (match_branches f _) as [l|] eqn:E; cbn; [|done]. rewrite (match_branches_mono f g _ l Hfg E). cbn.
  by destruct l.
Qed.

Lemma property_step_mono f g current name schemas seen r :
  (forall s, below (fun c => f c s) (fun c => g c s)) ->
  property_step f current name schemas seen = Some r -> property_step g current name schemas seen = Some r.
Proof.
  intros Hfg. unfold property_step. destruct (as_map _); [done|].
  destruct (open_reference _ _ _) as [[reference target]|]; cbn [mbind option_bind].
  - destruct (f target (reference :: seen)) as [t|] eqn:E; cbn [mbind option_bind]; [|done].
    rewrite (Hfg _ _ _ E). cbn [mbind option_bind]. destruct t; [done|]. by apply first_combinator_mono.
  - by apply first_combinator_mono.
Qed.

Lemma property_fuel_mono n m current name schemas seen r :
  n <= m -> property_fuel n current name schemas seen = Some r -> property_fuel m current name schemas seen = Some r.
Proof.
  revert m current seen r. induction n as [|n IH]; intros m current seen r Hm; [done|]. destruct m as [|m]; [lia|].
  cbn [property_fuel]. apply property_step_mono. intros s c r'. apply IH. lia.
Qed.

Lemma property_fuel_agrees n current name schemas seen r :
  property_fuel n current name schemas seen = Some r -> schemaProperty current name schemas seen = r.
Proof.
  intros Hn. unfold schemaProperty. destruct (property_enough_returns current name schemas seen) as [r' Hr].
  rewrite Hr. cbn [from_option id]. revert Hn Hr. generalize (property_enough current schemas). intros m Hn Hr.
  pose proof (property_fuel_mono n (Nat.max n m) _ _ _ _ _ ltac:(lia) Hn) as Hn'.
  pose proof (property_fuel_mono m (Nat.max n m) _ _ _ _ _ ltac:(lia) Hr) as Hr'. congruence.
Qed.

(** [schemaProperty] satisfies the recursion of the code, with no fuel in it. *)
Lemma schemaProperty_unfold current name schemas seen :
  property_step (fun next seen => Some (schemaProperty next name schemas seen)) current name schemas seen =
    Some (schemaProperty current name schemas seen).
Proof.
  destruct (property_enough_returns current name schemas seen) as [r Hr].
  rewrite (property_fuel_agrees _ _ _ _ _ _ Hr). unfold property_enough in Hr. cbn [property_fuel] in Hr.
  revert Hr. apply property_step_mono. intros s c r' Hc. by rewrite (property_fuel_agrees _ _ _ _ _ _ Hc).
Qed.

(** ** What is found *)

(** The field [name] is declared by a schema: by its own properties, by the
    schema it refers to, or by a branch of a combinator. *)
Inductive declares (schemas : object) (name : string) : object -> Prop :=
| declares_here current property :
    as_map (obj_index (map_or_nil (obj_index current "properties")) name) = Some property -> declares schemas name current
| declares_through current reference target :
    open_reference current schemas [] = Some (reference, target) -> declares schemas name target -> declares schemas name current
| declares_branch current combinator branch :
    combinator ∈ ["allOf"; "oneOf"; "anyOf"] -> VMap branch ∈ list_or_nil (obj_index current combinator) ->
    declares schemas name branch -> declares schemas name current.

(** The same within [n] steps, as a test. *)
Fixpoint declares_within (n : nat) (schemas : object) (name : string) (current : object) : bool :=
  bool_decide (is_Some (as_map (obj_index (map_or_nil (obj_index current "properties")) name)))
  || match n with
     | O => false
     | S n' =>
       match open_reference current schemas [] with
       | Some (_, target) => declares_within n' schemas name target
       | None => false
       end
       || existsb (fun combinator =>
            existsb (fun branch => match branch with VMap m => declares_within n' schemas name m | _ => false end)
              (list_or_nil (obj_index current combinator))) ["allOf"; "oneOf"; "anyOf"]
     end.

Lemma existsb_elem {A} (f : A -> bool) l : existsb f l = true <-> exists x, x ∈ l /\ f x = true.
Proof. rewrite existsb_exists. split; intros (x & Hx & ?); exists x; by rewrite ?list_elem_of_In in *. Qed.

Lemma declares_has_depth schemas name current : declares schemas name current -> exists n, declares_within n schemas name current = true.
Proof.
  induction 1 as [current property H|current reference target H _ [n IH]|current combinator branch Hc Hb _ [n IH]].
  - exists 0. cbn. rewrite H. by rewrite bool_decide_true by eauto.
  - exists (S n). cbn [declares_within]. rewrite H, IH. by destruct (bool_decide _).
  - exists (S n). cbn [declares_within]. apply orb_true_iff. right. apply orb_true_iff. right.
    apply existsb_elem. exists combinator. split; [done|]. apply existsb_elem. by exists (VMap branch).
Qed.

Lemma least (P : nat -> bool) n : P n = true -> exists m, m <= n /\ P m = true /\ forall k, k < m -> P k = false.
Proof.
  induction n as [n IH] using lt_wf_ind. intros Hn.
  destruct (existsb P (seq 0 n)) eqn:E.
  - apply existsb_elem in E as (k & Hk%elem_of_seq & Hp). destruct (IH k) as (m & ? & ? & ?); [lia|done|].
    exists m. split_and!; [lia|done..].
  - exists n. split_and!; [done..|]. intros k Hk. apply not_true_iff_false. intros Hp.
    apply not_true_iff_false in E. apply E, existsb_elem. exists k. split; [apply elem_of_seq; lia|done].
Qed.

Lemma open_reference_seen current schemas seen reference target :
  open_reference current schemas [] = Some (reference, target) -> (reference ∉ seen) ->
  open_reference current schemas seen = Some (reference, target).
Proof.
  unfold open_reference. rewrite (bool_decide_false (_ ∈ [])) by set_solver. cbn [negb].
  destruct (HasPrefix _ _) eqn:E; cbn [andb]; [|done]. destruct (obj_index schemas _) eqn:Eo; try done.
  intros [= <- <-] Hs. rewrite (bool_decide_false (_ ∈ seen)) by done. done.
Qed.

Lemma open_reference_forget current schemas seen reference target :
  open_reference current schemas seen = Some (reference, target) -> open_reference current schemas [] = Some (reference, target).
Proof.
  unfold open_reference. rewrite (bool_decide_false (_ ∈ [])) by set_solver. destruct (HasPrefix _ _); [|done]. by case_bool_decide.
Qed.

Definition resolves (schemas : object) (reference : string) (target : object) : Prop :=
  obj_index schemas (TrimPrefix reference ref_prefix) = VMap target.

Lemma open_reference_resolves current schemas seen reference target :
  open_reference current schemas seen = Some (reference, target) -> resolves schemas reference target.
Proof. unfold open_reference, resolves. destruct (_ && _); [|done]. destruct (obj_index schemas _) eqn:E; naive_solver. Qed.

Lemma match_branches_some f branches l :
  match_branches f branches = Some l ->
  l <> [] <-> exists branch property, VMap branch ∈ branches /\ f branch = Some (Some property).
Proof.
  revert l. induction branches as [|v branches IH]; intros l; cbn.
  { intros [= <-]. split; [done|]. intros (? & ? & H & _). set_solver. }
  assert (forall l, match_branches f branches = Some l -> (forall m, v <> VMap m) ->
    l <> [] <-> exists branch property, VMap branch ∈ v :: branches /\ f branch = Some (Some property)) as Hskip.
  { intros l' Hl Hv. rewrite (IH _ Hl). split; intros (b & q & Hb & ?); exists b, q; (split; [|done]); [by right|].
    apply elem_of_cons in Hb as [<-|]; [by destruct (Hv b)|done]. }
  destruct v; try (intros; by apply Hskip). clear Hskip.
  destruct (f m) as [found|] eqn:Ef; cbn; [|done]. destruct (match_branches f branches) as [more|] eqn:Em; cbn; [|done].
  specialize (IH _ eq_refl). intros [= <-]. split.
  - destruct found as [q|]; [intros _; exists m, q; split; [by left|done]|].
    intros Hl. destruct (proj1 IH Hl) as (b & q & ? & ?). exists b, q. split; [by right|done].
  - intros (b & q & Hb & Hf). apply elem_of_cons in Hb as [[= <-]|Hb]; [by simplify_eq|].
    destruct found; [done|]. apply IH. eauto.
Qed.

Lemma first_combinator_some f current names r :
  first_combinator f current names = Some r ->
  is_Some r <-> exists combinator branch property,
    combinator ∈ names /\ VMap branch ∈ list_or_nil (obj_index current combinator) /\ f branch = Some (Some property).
Proof.
  induction names as [|combinator names IH]; cbn.
  { intros [= <-]. split; [by intros [? ?]|]. intros (? & ? & ? & H & _). set_solver. }
  destruct (match_branches f _) as [l|] eqn:E; cbn; [|done]. pose proof (match_branches_some _ _ _ E) as Hl. intros Hr.
  destruct (decide (l = [])) as [->|Hne].
  - rewrite (IH Hr). split; intros (c & b & q & Hc & ?); exists c, b, q; (split; [|done]); [by right|].
    apply elem_of_cons in Hc as [->|]; [|done]. exfalso. apply (proj2 Hl); naive_solver.
  - destruct (proj1 Hl Hne) as (b & q & ? & ?). split; [|intros _; destruct l as [|[] []]; naive_solver].
    intros _. exists combinator, b, q. split_and!; [by left|done..].
Qed.

Lemma schemaProperty_finds schemas name n current seen :
  declares_within n schemas name current = true ->
  (forall reference target m, reference ∈ seen -> resolves schemas reference target -> m < n ->
     declares_within m schemas name target = false) ->
  is_Some (schemaProperty current name schemas seen).
Proof.
  revert current seen. induction n as [n IH] using lt_wf_ind. intros current seen Hd Hs.
  pose proof (schemaProperty_unfold current name schemas seen) as U. unfold property_step in U.
  destruct (as_map _) as [property|] eqn:Eh; [injection U as <-; by eexists|].
  destruct n as [|n]; cbn [declares_within] in Hd; rewrite Eh, bool_decide_false in Hd by (by intros [? ?]); [done|].
  cbn [orb] in Hd. apply orb_true_iff in Hd as [Hr|Hc].
  - destruct (open_reference current schemas []) as [[reference target]|] eqn:Er; [|done].
    pose proof (open_reference_resolves _ _ _ _ _ Er) as Ht.
    rewrite (open_reference_seen _ _ seen _ _ Er) in U
      by (intros Hin; pose proof (Hs _ _ n Hin Ht ltac:(lia)); congruence).
    destruct (least (fun m => declares_within m schemas name target) n Hr) as (m & Hm & Hdm & Hl).
    destruct (IH m ltac:(lia) target (reference :: seen) Hdm) as [q Hq].
    { intros r t k Hin Hres Hk. apply elem_of_cons in Hin as [->|Hin]; [|apply (Hs r t k); [done..|lia]].
      unfold resolves in Ht, Hres. rewrite Ht in Hres. injection Hres as <-. by apply Hl. }
    rewrite Hq in U. cbn [mbind option_bind] in U. injection U as <-. by eexists.
  - destruct (match open_reference current schemas seen with Some _ => _ | None => _ end) as [[q|]|] eqn:Et;
      cbn [mbind option_bind] in U; [injection U as <-; by eexists| |done].
    apply first_combinator_some in U as U'. apply U'. clear U'.
    apply existsb_elem in Hc as (combinator & Hc & (branch & Hb & Hd)%existsb_elem). destruct branch; try done.
    destruct (IH n ltac:(lia) m seen Hd) as [q Hq]; [intros; eapply Hs; [done..|lia]|].
    exists combinator, m, q. split_and!; [done..|]. by rewrite Hq.
Qed.

Lemma property_fuel_sound fuel current name schemas seen property :
  property_fuel fuel current name schemas seen = Some (Some property) -> declares schemas name current.
Proof.
  revert current seen property. induction fuel as [|fuel IH]; intros current seen property; [done|].
  cbn [property_fuel]. unfold property_step. destruct (as_map _) eqn:Eh; [intros _; by eapply declares_here|].
  assert (forall r, first_combinator (fun branch => property_fuel fuel branch name schemas seen) current ["allOf"; "oneOf"; "anyOf"] = Some (Some r) ->
    declares schemas name current) as Hbranch.
  { intros r Hr. apply first_combinator_some in Hr as Hs.
    destruct (proj1 Hs) as (c & b & q & ? & ? & ?); [by eexists|]. eapply declares_branch; eauto. }
  destruct (open_reference _ _ _) as [[reference target]|] eqn:Er; cbn [mbind option_bind]; [|apply Hbranch].
  destruct (property_fuel fuel target _ _ _) as [[q|]|] eqn:Et; cbn [mbind option_bind]; [|apply Hbranch|done].
  intros _. eapply declares_through; [by eapply open_reference_forget|by eapply IH].
Qed.

(** ** The cache *)

Record cache_inv (c : schemaCache) : Prop := {
  ci_sum : sc_bytes c = map_sum se_bytes (sc_entries c);
  ci_pos : map_Forall (fun _ e => (0 <= se_bytes e)%Z) (sc_entries c);
  ci_bytes : (sc_bytes c <= schemaCacheMaxBytes)%Z;
  ci_count : size (sc_entries c) <= 64
}.

Lemma newSchemaCache_inv : cache_inv newSchemaCache.
Proof. split; cbn; [by rewrite map_sum_empty|apply map_Forall_empty|by vm_compute|rewrite map_size_empty; lia]. Qed.

Lemma evict_expired_inv now visit c : cache_inv c -> cache_inv (evict_expired now visit c).
Proof.
  revert c. induction visit as [|k visit IH]; intros c Hc; cbn; [done|]. apply IH.
  destruct (sc_entries c !! k) as [e|] eqn:E; [|done]. destruct (_ <? _)%Z; [|done]. destruct Hc as [Hs Hp Hb Hn].
  pose proof (Hp _ _ E) as He. split; cbn.
  - rewrite Hs, (map_sum_delete se_bytes _ _ _ E). lia.
  - by apply map_Forall_delete.
  - cbn in He. lia.
  - rewrite map_size_delete, E. lia.
Qed.

Lemma schema_store_inv `{GoLib} now key document c : cache_inv c -> cache_inv (schema_store now key document c).
Proof.
  intros [Hs Hp Hb Hn]. unfold schema_store. destruct (Marshal _) as [encoded|]; [|done].
  destruct (_ && _) eqn:E; [|done]. reflect_bools. split; cbn.
  - rewrite map_sum_insert by done. cbn. lia.
  - apply map_Forall_insert_2; [cbn; lia|done].
  - lia.
  - rewrite map_size_insert_None by done. lia.
Qed.

Lemma evict_expired_lookup now visit c k e :
  sc_entries (evict_expired now visit c) !! k = Some e ->
  sc_entries c !! k = Some e /\ (k ∈ visit -> (now k <= se_expires e)%Z).
Proof.
  revert c. induction visit as [|j visit IH]; intros c; cbn; [split; [done|set_solver]|].
  intros Hl%IH. revert Hl. destruct (sc_entries c !! j) as [e'|] eqn:E.
  - destruct (Z.ltb_spec (se_expires e') (now j)) as [Hx|Hx]; cbn.
    + rewrite lookup_delete_Some. intros [[? ?] ?]. split; [done|]. set_solver.
    + intros [Hk ?]. split; [done|]. intros Hin. apply elem_of_cons in Hin as [->|]; [|auto]. by simplify_eq.
  - intros [Hk ?]. split; [done|]. intros Hin. apply elem_of_cons in Hin as [->|]; [congruence|auto].
Qed.

(** What [load] finds in the cache has not expired. *)
Lemma schema_find_fresh now key c document :
  (schema_find now key c).2 = Some document ->
  exists e, sc_entries c !! key = Some e /\ se_document e = document /\ (now key <= se_expires e)%Z.
Proof.
  unfold schema_find. cbn. intros (e & [He Hf]%evict_expired_lookup & ->)%fmap_Some. exists e. split_and!; [done..|].
  apply Hf, list_elem_of_fmap. exists (key, e). split; [done|]. by apply elem_of_map_to_list.
Qed.

Lemma evict_expired_keeps now visit c k e :
  sc_entries c !! k = Some e -> (now k <= se_expires e)%Z -> sc_entries (evict_expired now visit c) !! k = Some e.
Proof.
  revert c. induction visit as [|j visit IH]; intros c Hk Hn; cbn; [done|]. apply IH; [|done].
  destruct (sc_entries c !! j) as [e'|] eqn:E; [|done]. destruct (Z.ltb_spec (se_expires e') (now j)); [|done]. cbn.
  rewrite lookup_delete_ne; [done|]. intros ->. rewrite E in Hk. injection Hk as ->. lia.
Qed.

(** A hit: no request is sent. *)
Lemma load_hit `{GoLib} clock others client c p group version w h e :
  Token p <> "" -> sc_entries c !! schema_key p group version = Some e ->
  (clock (schema_key p group version) <= se_expires e)%Z ->
  let r := load clock others client (Some c) p group version w h in r.1.2 = Ok (se_document e) /\ r.2 = h.
Proof.
  intros Ht He Hc. unfold load, schema_find. rewrite bool_decide_true by done. cbn zeta.
  by rewrite (evict_expired_keeps _ _ _ _ _ He Hc).
Qed.

(** The first load of a cache stores what it was told. *)
Lemma load_first `{GoLib} clock p group version (w : env) h document :
  Token p <> "" -> w _ h p (OpenAPI group version) = Ok document ->
  (forall h, w _ h p CtxErr = None) -> (forall h, w _ h p Now = 0%Z) ->
  (load clock id None (Some newSchemaCache) p group version w h).1.1 =
    Some (schema_store 0 (schema_key p group version) document newSchemaCache).
Proof.
  intros Ht Hd Hc Hn. unfold load, schema_find. rewrite bool_decide_true by done. cbn zeta.
  replace (evict_expired clock (map_to_list (sc_entries newSchemaCache)).*1 newSchemaCache) with newSchemaCache
    by (cbn [sc_entries newSchemaCache]; by rewrite map_to_list_empty).
  cbn [sc_entries newSchemaCache]. rewrite lookup_empty. cbn [fmap option_fmap option_map]. unfold kbind, request, kret.
  by rewrite Hd, Hc, Hn.
Qed.

(** The runs of a cache, with the requests made on the way: any calls of [load] by any callers, one
    after the other ([others] does nothing), or interleaved: while a call that began with [c] was waiting for its document, the
    cache became [d].  What is known does not change when more requests are made. *)
Inductive cache_run `{GoLib} : list event -> schemaCache -> Prop :=
| run_new : cache_run [] newSchemaCache
| run_load es c d others clock client p group version w h new c' r :
    cache_run es c -> cache_run es d -> others = id \/ others = (fun _ => d) ->
    load clock others client (Some c) p group version w h = ((Some c', r), h ++ new) -> cache_run (es ++ new) c'
| run_more es more c : cache_run es c -> cache_run (es ++ more) c.

(** Among [es], the API server gave [q] this document, and then the time was [t]. *)
Definition fetched (es : list event) (q : Principal) (group version : string) (document : object) (t : Z) : Prop :=
  exists before after, es = before ++ [Ev q (OpenAPI group version) (Ok document); Ev q CtxErr None; Ev q Now t] ++ after.

Definition backed (es : list event) (c : schemaCache) : Prop :=
  map_Forall (fun key e => exists q group version t, fetched es q group version (se_document e) t /\
    schema_key q group version = key /\ se_expires e = (t + 5 * minute)%Z) (sc_entries c).

Lemma fetched_app es more q group version document t :
  fetched es q group version document t -> fetched (es ++ more) q group version document t.
Proof. intros (before & after & ->). exists before, (after ++ more). by rewrite <- !app_assoc. Qed.

Lemma backed_app es more c : backed es c -> backed (es ++ more) c.
Proof.
  intros Hb k e He. destruct (Hb k e He) as (q & group & version & t & Hf & ?). exists q, group, version, t. split; [|done].
  by apply fetched_app.
Qed.

(** What a load leaves in the cache: what it found, less what is expired, or what others made of it, or that
    with the document just fetched, under the caller's own key and for five minutes. *)
Lemma load_leaves `{GoLib} clock others client c p group version w h new c' r :
  load clock others client (Some c) p group version w h = ((Some c', r), h ++ new) ->
  exists c1, (c1 = c \/ c1 = (schema_find clock (schema_key p group version) c).1) /\
    (c' = c1 \/ c' = others c1 \/
     exists document t, new = [Ev p (OpenAPI group version) (Ok document); Ev p CtxErr None; Ev p Now t] /\
       c' = schema_store t (schema_key p group version) document (others c1)).
Proof.
  unfold load. intros E. destruct (if bool_decide (Token p <> "") then _ else _) as [c1 found] eqn:Ef.
  assert (exists c2, c1 = Some c2 /\ (c2 = c \/ c2 = (schema_find clock (schema_key p group version) c).1)) as (c2 & -> & Hc2).
  { revert Ef. case_bool_decide; [destruct (schema_find _ _ _) as [c2 ?]|]; intros [= <- _]; eauto. }
  exists c2. split; [done|]. revert E. unfold kbind, request, kret. destruct found as [d|]; [intros [= <- _ _]; by left|].
  intros E. right. revert E. cbn. destruct client as [err|]; [intros [= <- _ _]; by left|].
  destruct (w _ (h ++ _) p CtxErr) as [err|]; [intros [= <- _ _]; by left|].
  destruct (w _ h p (OpenAPI group version)) as [document|err]; [|intros [= <- _ _]; by left].
  case_bool_decide; [|intros [= <- _ _]; by left]. generalize (w Z ((h ++ [Ev p (OpenAPI group version) (Ok document)]) ++ [Ev p CtxErr None]) p Now).
  intros t [= <- _ E]. right. rewrite <- !app_assoc in E. apply app_inv_head in E as <-. by exists document, t.
Qed.

Lemma schema_store_backed `{GoLib} es c q group version document t :
  backed es c -> fetched es q group version document t -> backed es (schema_store t (schema_key q group version) document c).
Proof.
  intros Hb Hf. unfold schema_store. destruct (Marshal _); [|done]. destruct (_ && _); [|done].
  apply map_Forall_insert_2; [|done]. by exists q, group, version, t.
Qed.

Lemma cache_run_backed `{GoLib} es c : cache_run es c -> backed es c.
Proof.
  induction 1 as [|es c d others clock client p group version w h new c' r _ IHc _ IHd Ho Hl|es more c _ IH];
    [apply map_Forall_empty| |by apply backed_app].
  apply load_leaves in Hl as (c1 & Hc1 & Hc').
  assert (backed es c1) as H1.
  { destruct Hc1 as [->| ->]; [done|]. intros k e He. apply IHc. by apply evict_expired_lookup in He as [? _]. }
  assert (backed es (others c1)) as H2 by (by destruct Ho as [->| ->]).
  destruct Hc' as [->|[->|(document & t & -> & ->)]]; [by apply backed_app..|].
  apply schema_store_backed; [by apply backed_app|]. exists es, []. by rewrite app_nil_r.
Qed.

Lemma credential_text_inj p q : credential_text p = credential_text q -> SubjectKey p = SubjectKey q /\ Token p = Token q.
Proof.
  unfold credential_text. intros E.
  assert (forall r, String.length (SubjectKey r) = 64) as Hl.
  { intros r. unfold SubjectKey, hash_parts. by rewrite length_hex_EncodeToString, length_Sum256. }
  destruct (append_inj_length _ _ _ _ ltac:(by rewrite !Hl) E) as [? E']. split; [done|]. by apply append_inj_l in E'.
Qed.

#[local] Opaque Sum256 SubjectKey.

Section cache_properties.
Context {G : GoLib}.

(** The cache stays within its limits: whatever other requests do to it meanwhile,
    as long as they keep them too, a load leaves at most 64 documents of at most
    32 MiB in all, with the byte count equal to the sum over the entries. *)
Theorem schema_cache_is_bounded clock others client c p group version w h c' :
  cache_inv c -> (forall d, cache_inv d -> cache_inv (others d)) ->
  (load clock others client (Some c) p group version w h).1.1 = Some c' -> cache_inv c'.
Proof.
  intros Hc Ho. assert (cache_inv (schema_find clock (schema_key p group version) c).1) as Hf by by apply evict_expired_inv.
  unfold load. case_bool_decide as Ht.
  - destruct (schema_find _ _ c) as [c1 [document|]]; cbn [fst] in Hf; [by intros [= <-]|].
    destruct client; cbn; [intros [= <-]; auto|]. unfold kbind, request, kret. cbn.
    destruct (w _ _ p CtxErr); [intros [= <-]; auto|]. destruct (w _ h p _); [|intros [= <-]; auto].
    cbn. intros [= <-]. by apply schema_store_inv, Ho.
  - destruct client; cbn; [intros [= <-]; auto|]. unfold kbind, request, kret. cbn.
    destruct (w _ _ p CtxErr); [intros [= <-]; auto|]. destruct (w _ h p _); intros [= <-]; auto.
Qed.

(** C33: A document is the caller's own: after any calls of [load] by any callers, interleaved in any way, a load answers with what the API server told
    the caller in this very call, or with a document that the API server gave, for the same group and version, to a
    caller of the same subject with the same token at most five minutes before (unless SHA-256
    collides). *)
Theorem schema_cache_isolates es clock others client c p group version w h document :
  cache_run es c ->
  (load clock others client (Some c) p group version w h).1.2 = Ok document ->
  (exists new, (load clock others client (Some c) p group version w h).2 = h ++ Ev p (OpenAPI group version) (Ok document) :: new) \/
  (exists q t, fetched es q group version document t /\ (clock (schema_key p group version) <= t + 5 * minute)%Z /\
     ((SubjectKey q = SubjectKey p /\ Token q = Token p) \/
      (credential_text q <> credential_text p /\ Sum256 (credential_text q) = Sum256 (credential_text p)))).
Proof.
  intros Hr. unfold load.
  destruct (if bool_decide (Token p <> "") then _ else _) as [c1 found] eqn:Ef. destruct found as [d|].
  - cbn. intros [= <-]. right. case_bool_decide; [|done].
    pose proof (schema_find_fresh clock (schema_key p group version) c d) as Hs.
    destruct (schema_find _ _ _) as [c2 found]. injection Ef as <- ->. destruct (Hs eq_refl) as (e & He & <- & Hx).
    destruct (cache_run_backed _ _ Hr _ _ He) as (q & g & v & t & Hf & Hk & Ht).
    rewrite Ht in Hx. unfold schema_key in Hk. injection Hk as Hk -> ->. exists q, t.
    split_and!; [done..|]. destruct (decide (credential_text q = credential_text p)); [left|by right].
    by apply credential_text_inj.
  - destruct client; [discriminate|]. unfold kbind, request, kret. cbn.
    destruct (w _ _ p CtxErr); [discriminate|]. destruct (w _ h p (OpenAPI group version)) as [d|]; [|discriminate].
    destruct c1 as [c1|]; cbn; [case_bool_decide; cbn|]; intros [= <-]; left; rewrite <- !app_assoc; by eexists.
Qed.
End cache_properties.

Section describe_properties.
Context {G : GoLib} {Q : QuantityLib} {U : UnstructuredLib}.

Lemma load_harmless clock others client c p group version :
  emits (harmless p) (load clock others client c p group version).
Proof.
  unfold load. destruct (match c with Some _ => _ | None => _ end) as [c' [d|]]; [apply emits_ret|].
  repeat (emits_step || done).
Qed.

Lemma schemaForCapability_harmless clock others client c p cap path depth :
  emits (harmless p) (schemaForCapability clock others client c p cap path depth).
Proof.
  unfold schemaForCapability. repeat (emits_step || done). apply load_harmless.
Qed.

(** Describing needs the permission to act, also when the schema is cached: every
    request is made as the caller and changes nothing, and a schema is returned
    only for a signed capability that the policy permits and that Kubernetes
    allowed to the caller in this very call. *)
Theorem describe_is_authorized config codec clock others client c p input w h :
  exists es, (describe config codec clock others client c p input w h).2 = h ++ es /\ Forall (harmless p) es /\
    forall out, (describe config codec clock others client c p input w h).1.2 = Ok out ->
      decode codec (di_CapabilityID input) = Ok (do_Capability out) /\
      let namespace := defaultNamespace config (do_Capability out) (di_Namespace input) in
      permitted config (AsAction (do_Capability out)) namespace /\
      exists e, e ∈ es /\ allows p (AsAction (do_Capability out)) namespace (di_Name input) e.
Proof.
  assert (satisfies (describe config codec clock others client c p input) (fun r es => Forall (harmless p) es /\
    forall out, r.2 = Ok out -> decode codec (di_CapabilityID input) = Ok (do_Capability out) /\
      let namespace := defaultNamespace config (do_Capability out) (di_Namespace input) in
      permitted config (AsAction (do_Capability out)) namespace /\
      exists e, e ∈ es /\ allows p (AsAction (do_Capability out)) namespace (di_Name input) e)) as H.
  { unfold describe. destruct (decode codec _) as [cap|] eqn:Ed; [|by satisfies_step].
    eapply satisfies_bind; [apply CheckAndAuthorize_satisfies|]. intros r es1 [H1 Ha].
    assert (Forall (harmless p) es1) as H1' by (eapply Forall_impl; [exact H1|]; apply authorization_harmless).
    destruct r as [[]|]; [|satisfies_step; rewrite app_nil_r; split; [done|discriminate]].
    destruct (Ha eq_refl) as [Hp (e & He & Hallow)].
    eapply satisfies_bind; [apply schemaForCapability_harmless|]. intros [c' r] es2 H2. satisfies_step. rewrite app_nil_r.
    split; [by apply Forall_app|]. cbn. intros out. destruct r as [v|]; [|discriminate]. cbn. intros [= <-]. cbn.
    split_and!; [done..|]. exists e. split; [by apply elem_of_app; left|done]. }
  destruct (H w h) as (es & ? & ? & ?). by exists es.
Qed.

(** C34: The walk to a field finds it exactly when the schema declares it, through
    references and combinators of any shape, cyclic ones included. *)
Theorem field_found_iff_declared current name schemas :
  is_Some (schemaProperty current name schemas []) <-> declares schemas name current.
Proof.
  split.
  - intros [property Hp]. destruct (property_enough_returns current name schemas []) as [r Hr].
    rewrite (property_fuel_agrees _ _ _ _ _ _ Hr) in Hp. subst r. by eapply property_fuel_sound.
  - intros [n Hn]%declares_has_depth. apply (schemaProperty_finds _ _ n); [done|]. intros ? ? ? H. by apply elem_of_nil in H.
Qed.

(** C35: Expansion ends on every document, cyclic ones included: [expandSchema] is
    defined by the recursion of the code (the fuel is never used up), and spends at
    most its budget. *)
Theorem expansion_terminates v schemas depth seen budget :
  expand_step (fun d s w b => Some (expandSchema w schemas d s b)) schemas depth seen v budget =
    Some (expandSchema v schemas depth seen budget) /\
  ((0 <= budget)%Z -> (0 <= (expandSchema v schemas depth seen budget).2 <= budget)%Z).
Proof. split; [apply expandSchema_unfold|apply expandSchema_returns]. Qed.
End describe_properties.

#[local] Transparent Sum256 SubjectKey nesting.

(** ** Witnesses *)

Module SchemaWitness.
Export ReadsWitness.

(** A schema that refers to itself. *)
Definition node : object := [("properties", VMap [("next", VMap [("$ref", VStr "#/components/schemas/Node")])])].
Definition demo_schemas : object :=
  [("Node", VMap node); ("Loop", VMap [("$ref", VStr "#/components/schemas/Loop"); ("allOf", VList [VMap node])])].

Example loop_has_next : schemaProperty [("$ref", VStr "#/components/schemas/Loop")] "next" demo_schemas [] =
  Some [("$ref", VStr "#/components/schemas/Node")].
Proof. vm_compute. reflexivity. Qed.

Example node_expanded : expandSchema (VMap node) demo_schemas 6 [] 100 =
  (VMap [("properties", VMap [("next", VMap [("properties", VMap [("next",
     VMap [("$ref", VStr "#/components/schemas/Node"); ("recursive", VBool true)])])])])], 96%Z).
Proof. vm_compute. reflexivity. Qed.

Definition served_document : object := [("components", VMap [("schemas", VMap demo_schemas)])].

Definition served : env := fun A h p c =>
  match c in call A return A with
  | OpenAPI _ _ => Ok served_document
  | c' => open_cluster _ h p c'
  end.
Definition loaded : schemaCache := schema_store 0 (schema_key alice "apps" "v1") served_document newSchemaCache.

Lemma schema_cache_is_bounded_witness : (0 < sc_bytes loaded)%Z /\ cache_inv loaded.
Proof.
  split; [vm_compute; reflexivity|].
  apply (schema_cache_is_bounded (fun _ => 0%Z) id None newSchemaCache alice "apps" "v1" served [] loaded);
    [apply newSchemaCache_inv|intros d Hd; exact Hd|]. by apply load_first.
Defined.

(** A second load, a minute later, finds the document of the first. *)
Lemma loaded_hit :
  let again := load (fun _ => minute) id None (Some loaded) alice "apps" "v1" served [] in
  again.1.2 = Ok served_document /\ again.2 = [].
Proof.
  apply (load_hit _ _ _ _ _ _ _ _ _ {| se_document := served_document; se_expires := 0 + 5 * minute; se_bytes := sc_bytes loaded |});
    [discriminate| |vm_compute; discriminate].
  unfold loaded. generalize (schema_key alice "apps" "v1"). intros key. unfold schema_store at 1. cbn [sc_entries newSchemaCache].
  rewrite lookup_empty, map_size_empty. apply lookup_insert_eq.
Qed.

Lemma loaded_run : cache_run (load (fun _ => 0%Z) id None (Some newSchemaCache) alice "apps" "v1" served []).2 loaded.
Proof.
  pose proof (load_first (fun _ => 0%Z) alice "apps" "v1" served [] served_document) as Hf. fold loaded in Hf.
  specialize (Hf ltac:(discriminate) eq_refl (fun _ => eq_refl) (fun _ => eq_refl)).
  destruct (load _ _ _ _ _ _ _ _ _) as [[c r] es] eqn:E. cbn [fst snd] in *. subst c.
  by apply (run_load [] newSchemaCache newSchemaCache id (fun _ => 0%Z) None alice "apps" "v1" served [] es loaded r run_new run_new (or_introl eq_refl)).
Qed.

Lemma schema_cache_isolates_witness :
  let es := (load (fun _ => 0%Z) id None (Some newSchemaCache) alice "apps" "v1" served []).2 in
  let again := load (fun _ => minute) id None (Some loaded) alice "apps" "v1" served [] in
  (exists new, again.2 = [] ++ Ev alice (OpenAPI "apps" "v1") (Ok served_document) :: new) \/
  (exists q t, fetched es q "apps" "v1" served_document t /\ ((fun _ => minute) (schema_key alice "apps" "v1") <= t + 5 * minute)%Z /\
    ((SubjectKey q = SubjectKey alice /\ Token q = Token alice) \/
     (credential_text q <> credential_text alice /\ Sum256 (credential_text q) = Sum256 (credential_text alice)))).
Proof.
  intros es again. apply (schema_cache_isolates es (fun _ => minute) id None loaded alice "apps" "v1" served [] served_document);
    [apply loaded_run|apply loaded_hit].
Defined.
End SchemaWitness.
