(* ===== verification/Manual.v ===== *)
(** * The built-in manual (src/internal/server/manual.go)

    The text of the manual is data of the program: it is here word for word,
    so that what it promises can be compared with the rest of the model.
    [k8s.help] answers from it without a request to the cluster. *)

From Stdlib Require Import String.
From S2P Require Import Prelude GoStrings Json Errors Config.

Definition toolHelp : string := "k8s.help".
Definition toolSearch : string := "k8s.search".
Definition toolDescribe : string := "k8s.describe".
Definition toolRead : string := "k8s.read".
Definition toolPlan : string := "k8s.plan".
Definition toolCommit : string := "k8s.commit".

Record HelpInput := { hi_Tool : string }.

Record ToolManualInput := { mi_Name : string; mi_Required : bool; mi_Description : string }.
Definition input (name : string) (required : bool) (description : string) : ToolManualInput :=
  {| mi_Name := name; mi_Required := required; mi_Description := description |}.

Record ToolManual := {
  tm_Name : string; tm_Purpose : string; tm_Available : bool; tm_Modes : list string;
  tm_Inputs : list ToolManualInput; tm_Steps : list string; tm_Returns : list string; tm_Safety : list string;
  tm_Example : object
}.

Record ToolManualSummary := {
  ts_Name : string; ts_Purpose : string; ts_Available : bool; ts_DetailsRequest : list (string * string)
}.

(** A nil [Manual] is [None]. *)
Record HelpOutput := {
  ho_Mode : string; ho_Usage : string; ho_Workflow : list string; ho_Tools : list ToolManualSummary; ho_Manual : option ToolManual
}.

Definition allAccessModes : list string := [ModeReadOnly; ModeSafeWrite; ModeDangerous].
Definition writeAccessModes : list string := [ModeSafeWrite; ModeDangerous].

(** ** The table [toolManuals] *)

Definition manual_help : ToolManual := {|
  tm_Name := toolHelp;
  tm_Purpose := "Load this built-in manual as a compact index or one detailed tool guide.";
  tm_Available := false; tm_Modes := allAccessModes;
  tm_Inputs := [input "tool" false "Exact tool name from the index. Omit it to list the manual topics."];
  tm_Steps := [
    "Call without arguments to get a compact index and current-mode availability.";
    "Call again with one exact tool name to load only that detailed guide."];
  tm_Returns := [
    "The current server mode and either the compact index or one detailed manual."];
  tm_Safety := [
    "The manual is static and does not access the Kubernetes API, but the MCP request still requires Kubernetes bearer authentication."];
  tm_Example := [("tool", VStr toolRead)]
|}.

Definition manual_search : ToolManual := {|
  tm_Name := toolSearch;
  tm_Purpose := "Discover short-lived Kubernetes capability handles allowed by server policy and the caller's Kubernetes RBAC.";
  tm_Available := false; tm_Modes := allAccessModes;
  tm_Inputs := [input "query" false "Optional kind, resource, API group, category, or action text.";
    input "action" false "Optional exact logical action or Kubernetes verb filter.";
    input "exactKind" false "Optional exact kind filter, for example Pod.";
    input "exactResource" false "Optional exact plural resource or resource/subresource filter, for example pods or pods/log.";
    input "apiGroup" false "Optional exact API group; use core for the core API group.";
    input "version" false "Optional exact API version, for example v1.";
    input "namespace" false "Namespace used for scope and RBAC filtering.";
    input "name" false "Optional resource name; supply it when the Kubernetes Role limits access with resourceNames.";
    input "cursor" false "Opaque nextCursor from the previous search response.";
    input "limit" false "Maximum results for this page, bounded by server limits."];
  tm_Steps := [
    "Search before every describe, read, or plan workflow.";
    "Choose a capability whose action matches the intended operation.";
    "Pass its capability id unchanged to the next tool and follow nextCursor when present."];
  tm_Returns := [
    "Authorized capability summaries with compact opaque cap_ handles and an optional nextCursor."];
  tm_Safety := [
    "Results are already intersected with mode, scope, policy, and Kubernetes RBAC.";
    "A missing capability can mean insufficient policy or RBAC; it does not prove the Kubernetes resource is absent."];
  tm_Example := [("exactKind", VStr "Deployment"); ("exactResource", VStr "deployments"); ("apiGroup", VStr "apps"); ("version", VStr "v1"); ("action", VStr "get"); ("namespace", VStr "platform"); ("limit", VInt 20)]
|}.

Definition manual_describe : ToolManual := {|
  tm_Name := toolDescribe;
  tm_Purpose := "Load a bounded OpenAPI v3 schema fragment for one capability.";
  tm_Available := false; tm_Modes := allAccessModes;
  tm_Inputs := [input "capabilityId" true "Opaque cap_ handle returned by k8s.search.";
    input "namespace" false "Namespace used for authorization; defaults to the first configured scope when applicable.";
    input "name" false "Optional resource name used for authorization.";
    input "fieldPath" false "Optional dot-separated field path such as spec.template.spec.";
    input "depth" false "Schema expansion depth from 1 to 6; defaults to 2."];
  tm_Steps := [
    "Obtain the capability from k8s.search.";
    "Start with a shallow schema and request a fieldPath or greater depth only when needed."];
  tm_Returns := [
    "The selected capability and a bounded schema fragment, or an explicit unavailable marker when no structural schema exists."];
  tm_Safety := [
    "Describe performs policy and Kubernetes authorization checks but does not read or mutate a resource instance.";
    "fieldPath resolves local $ref, allOf, oneOf, and anyOf branches before expansion; schema expansion is capped at 10,000 nodes and reports truncation when the budget is reached."];
  tm_Example := [("capabilityId", VStr "<from-k8s.search>"); ("namespace", VStr "platform"); ("fieldPath", VStr "spec.template.spec"); ("depth", VInt 2)]
|}.

Definition manual_read : ToolManual := {|
  tm_Name := toolRead;
  tm_Purpose := "Execute one authorized get, list, watch, or Pod logs capability.";
  tm_Available := false; tm_Modes := allAccessModes;
  tm_Inputs := [input "capabilityId" true "Read capability id returned by k8s.search.";
    input "namespace" false "Target namespace for namespaced resources.";
    input "name" false "Required for get and Pod logs; for list/watch it is also used to satisfy resourceNames-restricted Roles.";
    input "labelSelector" false "Kubernetes label selector for list or watch.";
    input "fieldSelector" false "Kubernetes field selector for list or watch.";
    input "cursor" false "Kubernetes continue token returned by a previous list.";
    input "resourceVersion" false "Resource version from a list or prior watch response used to resume a watch without an event gap.";
    input "limit" false "Requested list page size; the effective Kubernetes page is also capped at 8 items.";
    input "outputMode" false "summary, table, or full. List and watch default to summary; get defaults to full.";
    input "omitManagedFields" false "Defaults to true; explicitly set false only when metadata.managedFields is required.";
    input "omitAnnotations" false "Defaults to true; explicitly set false only when annotations are required. Credential-like annotation content is still redacted.";
    input "fieldPaths" false "Optional object-relative dot paths projected from one object or every list item; incompatible with table mode.";
    input "follow" false "Stream Pod logs when true; this requires Dangerous mode.";
    input "container" false "Container name for Pod logs; when omitted, get permission on the Pod is required to select its default-container annotation or first regular container.";
    input "tailLines" false "Optional number of recent log lines.";
    input "sinceSeconds" false "Optional relative Pod log start time."];
  tm_Steps := [
    "Search for the exact get, list, watch, or logs capability.";
    "Supply the namespace and action-specific filters or name.";
    "Use summary or table for normal list inspection; request full or fieldPaths only when the compact result is insufficient.";
    "Use returned list cursors instead of increasing limits; resume later watches from the returned resourceVersion."];
  tm_Returns := [
    "A bounded compact summary/table, projected or full Kubernetes object/list, watch events, or Pod log lines."];
  tm_Safety := [
    "Secret output follows sensitiveReads policy and is redacted by default.";
    "For list/watch with name, the server adds a matching metadata.name field selector and rejects a conflicting selector.";
    "annotations and managedFields are omitted recursively by default; credential-like annotations are redacted even when annotations are explicitly requested.";
    "follow=true is available only in Dangerous mode and remains bounded by streamTimeout, maxListItems, and maxOutputBytes."];
  tm_Example := [("capabilityId", VStr "<list-capability-from-k8s.search>"); ("namespace", VStr "platform"); ("outputMode", VStr "table"); ("limit", VInt 8)]
|}.

Definition manual_plan : ToolManual := {|
  tm_Name := toolPlan;
  tm_Purpose := "Authorize and preview one write, scale, restart, exec, or attach operation without committing it.";
  tm_Available := false; tm_Modes := writeAccessModes;
  tm_Inputs := [input "capabilityId" true "Write capability id returned by k8s.search.";
    input "namespace" false "Target namespace for namespaced resources.";
    input "name" false "Existing target name; create may take it from object.metadata.name.";
    input "object" false "Complete Kubernetes object for create, update, or server-side apply.";
    input "patch" false "Merge object or JSON Patch array for a patch capability.";
    input "patchType" false "merge or json; defaults to merge.";
    input "replicas" false "Desired replica count for scale.";
    input "command" false "Bounded command for Dangerous exec.";
    input "container" false "Container for exec or attach; when omitted, the default-container annotation or first regular container is selected during planning.";
    input "stdin" false "Bounded stdin for Dangerous attach.";
    input "timeoutSeconds" false "Requested exec or attach timeout, capped by server policy.";
    input "gracePeriodSeconds" false "Optional grace period for delete.";
    input "force" false "Force server-side apply; Dangerous mode only."];
  tm_Steps := [
    "Search for the exact write capability and inspect its schema when constructing an object.";
    "Call plan once and review operation, preview, and warnings.";
    "Show the preview and confirmation code to the human, then stop all write-tool calls.";
    "Wait until the human repeats the code in a later user message; never copy the code from this tool response directly into k8s.commit."];
  tm_Returns := [
    "A one-time planId, expiry, safe operation summary, bounded preview, warnings, and a six-digit human confirmation challenge."];
  tm_Safety := [
    "Plan does not persist the requested change; Kubernetes dry-run and policy checks still apply.";
    "Write capabilities require get permission on the base resource because planning and commit preconditions read the target before mutation.";
    "SafeWrite blocks dangerous actions and unsafe payloads; exec, attach, delete, force apply, and cluster writes require Dangerous mode and explicit policy scope.";
    "Do not log, cache, share, or retry a planId as though it were idempotent.";
    "The model can see the code, so this workflow depends on model compliance and is not cryptographic proof of human approval."];
  tm_Example := [("capabilityId", VStr "<patch-capability-from-k8s.search>"); ("namespace", VStr "platform"); ("name", VStr "web"); ("patchType", VStr "merge"); ("patch", VMap [("metadata", VMap [("labels", VMap [("managed-by", VStr "mcp")])])])]
|}.

Definition manual_commit : ToolManual := {|
  tm_Name := toolCommit;
  tm_Purpose := "Consume one unexpired plan and execute it after rechecking identity, policy, RBAC, and resource preconditions.";
  tm_Available := false; tm_Modes := writeAccessModes;
  tm_Inputs := [input "planId" true "One-time id returned by k8s.plan.";
    input "confirmationCode" true "Exact six-digit code repeated by the human in a later user message."];
  tm_Steps := [
    "Review the k8s.plan response before committing.";
    "Do not call this tool until the human repeats the plan's code in a later user message.";
    "Commit once, within two minutes, with that code and the same authenticated Kubernetes identity.";
    "If commit is rejected or the target changed, search and create a new plan instead of replaying the old id."];
  tm_Returns := [
    "A safe operation summary and bounded execution result."];
  tm_Safety := [
    "Commit can persist a mutation or run Dangerous exec/attach; treat it as the execution boundary.";
    "Plans and confirmation codes are one-time and identity-bound. Policy, RBAC, generation, UID, and resourceVersion preconditions are rechecked.";
    "A missing code is rejected; malformed codes do not count as attempts, while five well-formed incorrect codes invalidate the plan.";
    "Because the model receives the code, server-side verification cannot prove that a human supplied it; use an external approval gateway when strong separation of duties is required."];
  tm_Example := [("planId", VStr "<from-k8s.plan>"); ("confirmationCode", VStr "<repeated-by-human>")]
|}.

Definition toolManuals : list ToolManual :=
  [manual_help; manual_search; manual_describe; manual_read; manual_plan; manual_commit].

(** ** [k8s.help] *)

Definition manualAvailable (manual : ToolManual) (mode : string) : bool := existsb (fun allowed => bool_decide (allowed = mode)) (tm_Modes manual).

(** [manual := definition; manual.Available = ...]. *)
Definition with_availability (m : ToolManual) (mode : string) : ToolManual := {|
  tm_Name := tm_Name m; tm_Purpose := tm_Purpose m; tm_Available := manualAvailable m mode; tm_Modes := tm_Modes m;
  tm_Inputs := tm_Inputs m; tm_Steps := tm_Steps m; tm_Returns := tm_Returns m; tm_Safety := tm_Safety m;
  tm_Example := tm_Example m
|}.

Definition summary_of (mode : string) (m : ToolManual) : ToolManualSummary := {|
  ts_Name := tm_Name m; ts_Purpose := tm_Purpose m; ts_Available := manualAvailable m mode;
  ts_DetailsRequest := [("tool", tm_Name m)]
|}.

Section help.
Context {Q : QuantityLib}.

Definition help_index (mode : string) : HelpOutput := {|
  ho_Mode := mode;
  ho_Usage := "Call k8s.help again with one detailsRequest to load only that guide. available reflects the current server mode.";
  ho_Workflow := [
    "Discover an authorized capability with k8s.search.";
    "Use k8s.describe only when schema detail is needed.";
    "Use k8s.read for reads, or k8s.plan then k8s.commit for writes."];
  ho_Tools := summary_of mode <$> toolManuals;
  ho_Manual := None
|}.

Definition help (config : Config) (request : HelpInput) : result go_error HelpOutput :=
  let mode := Mode (cfg_Spec config) in
  let requested := TrimSpace (hi_Tool request) in
  if bool_decide (requested = "") then Ok (help_index mode)
  else
  match List.find (fun definition => bool_decide (tm_Name definition = requested)) toolManuals with
  | Some definition =>
    Ok {| ho_Mode := mode;
          ho_Usage := "Use the manual fields as guidance, then call the named tool with an action-appropriate capability.";
          ho_Workflow := []; ho_Tools := []; ho_Manual := Some (with_availability definition mode) |}
  | None => Err (policyError "invalid_input" "tool must be an exact supported name from the k8s.help index")
  end.
End help.

(** ** Lemmas *)

Lemma manualAvailable_spec m mode : manualAvailable m mode = true <-> mode ∈ tm_Modes m.
Proof.
  unfold manualAvailable. rewrite existsb_exists. setoid_rewrite <- list_elem_of_In. split.
  - intros (x & Hx & Hm). reflect_bools. by subst.
  - intros Hm. exists mode. by rewrite bool_decide_true.
Qed.

Lemma toolManuals_names : tm_Name <$> toolManuals = [toolHelp; toolSearch; toolDescribe; toolRead; toolPlan; toolCommit].
Proof. reflexivity. Qed.

Lemma toolManuals_find name :
  match List.find (fun definition => bool_decide (tm_Name definition = name)) toolManuals with
  | Some m => m ∈ toolManuals /\ tm_Name m = name
  | None => (name ∉ tm_Name <$> toolManuals)
  end.
Proof.
  destruct (List.find _ _) as [m|] eqn:E.
  - apply List.find_some in E as [Hin Hn]. reflect_bools. split; [by apply list_elem_of_In|done].
  - intros (m & -> & Hm)%list_elem_of_fmap. eapply List.find_none in E; [|by apply list_elem_of_In]. cbn in E.
    by rewrite bool_decide_true in E.
Qed.
