(* ===== verification/Server.v ===== *)
(** * The server as a whole (src/internal/server/run.go, http.go, errors.go)

    The state of a server, the tools it registers for its mode, the handler
    of each tool with the audit record it leaves, and the path of an HTTP
    request to a tool.  Handlers of different requests interleave: an [App]
    holds each component's state at the moment the call at hand uses it,
    and [around] holds what else the call meets: clock readings, random draws
    and what other requests do to the shared caches while it waits.  The MCP
    SDK, which turns a request body into a tool call, is a parameter. *)

From Stdlib Require Import String Ascii.
From S2P Require Import Prelude GoStrings Crypto Json Errors Config Kube Policy Capability PlanStore Admission Redaction.
From S2P Require Import SafeWrite Auth Remote Operations AuditTrail Catalog ReadOutput Reads Schema Manual.

(** ** Inputs and outputs of the tools *)

Record SearchInput := {
  si_Query : string; si_Action : string; si_ExactKind : string; si_ExactResource : string; si_APIGroup : string;
  si_Version : string; si_Namespace : string; si_Name : string; si_Cursor : string; si_Limit : Z
}.
Definition search_filter (i : SearchInput) : catalogSearchFilter := {|
  f_Query := si_Query i; f_Action := si_Action i; f_ExactKind := si_ExactKind i; f_ExactResource := si_ExactResource i;
  f_APIGroup := si_APIGroup i; f_Version := si_Version i; f_Namespace := si_Namespace i; f_Name := si_Name i
|}.

(** The arguments of [k8s.commit] arrive undecoded: absent, not JSON, a JSON
    null, another value that is no object, or an object with its members in the
    order of the text. *)
Inductive raw_arguments :=
| NoArguments
| InvalidJSON
| NullArguments
| NoObject
| Members (members : list (string * value)).

Inductive tool_input :=
| HelpCall (i : HelpInput)
| SearchCall (i : SearchInput)
| DescribeCall (i : DescribeInput)
| ReadCall (i : ReadInput)
| PlanCall (i : PlanInput)
| CommitCall (arguments : raw_arguments).

Definition tool_name (i : tool_input) : string :=
  match i with
  | HelpCall _ => toolHelp | SearchCall _ => toolSearch | DescribeCall _ => toolDescribe
  | ReadCall _ => toolRead | PlanCall _ => toolPlan | CommitCall _ => toolCommit
  end.

Inductive tool_output :=
| HelpAnswer (o : HelpOutput)
| SearchAnswer (capabilities : list Capability) (nextCursor : string)
| DescribeAnswer (o : DescribeOutput)
| ReadAnswer (o : object)
| PlanAnswer (o : PlanOutput)
| CommitAnswer (o : CommitOutput).

(** What the client is sent: a result, a structured tool error, a protocol
    error, or that there is no such tool. [NoAnswer] is a call that is still
    waiting for another one's discovery (or that panicked on a collision
    of full HMAC digests). *)
Inductive tool_answer :=
| Answered (o : tool_output)
| ToolFailed (o : toolErrorOutput)
| ProtocolError (err : go_error)
| UnknownTool
| NoAnswer.

(** ** [decodeCommitInput] *)

Section decode_commit.
Context {G : GoLib}.

(** [json.Unmarshal] into a [CommitInput]: a member sets the field whose name it
    equals up to case, null leaves it alone, and the first member of a wrong
    type is remembered under the name of its field. *)
Definition set_field (member : string * value) (st : CommitInput * option string) : CommitInput * option string :=
  let '(input, saved) := st in
  let '(key, v) := member in
  let note field := match saved with Some _ => saved | None => Some field end in
  if EqualFold key "planId" then
    match v with
    | VNull => st
    | VStr s => ({| ci_PlanID := s; ci_ConfirmationCode := ci_ConfirmationCode input |}, saved)
    | _ => (input, note "planId")
    end
  else if EqualFold key "confirmationCode" then
    match v with
    | VNull => st
    | VStr s => ({| ci_PlanID := ci_PlanID input; ci_ConfirmationCode := s |}, saved)
    | _ => (input, note "confirmationCode")
    end
  else st.

Definition no_commit : CommitInput := {| ci_PlanID := ""; ci_ConfirmationCode := "" |}.

Definition unmarshal_commit (members : list (string * value)) : CommitInput * option string :=
  fold_left (fun st member => set_field member st) members (no_commit, None).

(** [fields[key]] of the members read into a map: the last one counts. *)
Definition last_member (members : list (string * value)) (key : string) : option value := obj_get (rev members) key.

Definition invalid_commit : go_error := policyError "invalid_input" "k8s.commit arguments must match the published schema".
Definition invalid_code : go_error := policyError "invalid_confirmation" "confirmation code must be exactly six digits".

Definition decodeCommitInput (arguments : raw_arguments) : result go_error CommitInput :=
  match arguments with
  | NoArguments | NullArguments => Ok no_commit
  | InvalidJSON | NoObject => Err invalid_commit
  | Members members =>
    match unmarshal_commit members with
    | (_, Some field) => if bool_decide (field = "confirmationCode") then Err invalid_code else Err invalid_commit
    | (input, None) =>
      match last_member members "confirmationCode" with
      | None => Ok input
      | Some raw =>
        let code := match raw with VStr s => Some s | VNull => Some "" | _ => None end in
        match code with
        | Some code => if validConfirmationCode code then Ok input else Err invalid_code
        | None => Err invalid_code
        end
      end
    end
  end.
End decode_commit.

(** ** The state of a server *)

Section app.
Context {G : GoLib} {Q : QuantityLib} {R : RateLib}.

Record App := {
  app_config : Config;
  app_authenticator : Authenticator;
  app_capabilities : capabilityCodec;
  app_plans : PlanStore;
  app_catalog : catalogCache;
  app_schemas : option schemaCache;
  app_admission : option requestAdmission;
  app_rateLimiter : identityRateLimiter;
  (** the burst of [globalLimiter] and the capacity of [semaphore] *)
  app_globalBurst : Z;
  app_slots : Z
}.

(** [NewAuthenticator]; [client] says whether the TokenReview client could be built. *)
Definition NewAuthenticator (base_ : rest_config) (requestTimeout_ operationTimeout_ : Z)
    (client : rest_config -> result go_error unit) : result go_error Authenticator :=
  match client (configWithTimeout base_ requestTimeout_) with
  | Err err => Err (Wrapped "create TokenReview client" err)
  | Ok _ => Ok {| base := base_; requestTimeout := requestTimeout_; operationTimeout := operationTimeout_ |}
  end.

(** [NewApp]; [random] is the key drawn for the capability handles.  Metrics
    and the logger are sinks. *)
Definition NewApp (config : Config) (base_ : rest_config) (client : rest_config -> result go_error unit)
    (random : result go_error (list N)) : result go_error App :=
  let limits := Limits (cfg_Spec config) in
  match Validate config with
  | Err err => Err (Wrapped "validate server configuration" err)
  | Ok _ =>
    authenticator ← NewAuthenticator base_ (RequestTimeout limits)
                      (Z.max (Z.max (RequestTimeout limits) (StreamTimeout limits)) (ExecTimeout limits)) client;
    capabilities ← newCapabilityCodec random;
    Ok {| app_config := config; app_authenticator := authenticator; app_capabilities := capabilities;
          app_plans := NewPlanStore 1024; app_catalog := newCatalogCache; app_schemas := Some newSchemaCache;
          app_admission := Some (newRequestAdmission (MaxConcurrent limits));
          app_rateLimiter := newIdentityRateLimiter (RequestsPerMinute limits) (Burst limits);
          app_globalBurst := wrap32 (Burst limits * MaxConcurrent limits); app_slots := MaxConcurrent limits |}
  end.

(** [Run] up to the call of [Serve]: the configuration file, the in-cluster
    configuration and the parts of the server. *)
Definition start {T : ConfigText} (file : result go_error string) (inCluster : result go_error rest_config)
    (client : rest_config -> result go_error unit) (random : result go_error (list N)) : result go_error App :=
  config ← LoadFile file;
  match inCluster with
  | Err err => Err (Wrapped "load in-cluster configuration" err)
  | Ok base_ => NewApp config base_ client random
  end.

(** The parts a tool call changes. *)
Definition with_catalog (a : App) (c : catalogCache) (codec : capabilityCodec) : App := {|
  app_config := app_config a; app_authenticator := app_authenticator a; app_capabilities := codec; app_plans := app_plans a;
  app_catalog := c; app_schemas := app_schemas a; app_admission := app_admission a; app_rateLimiter := app_rateLimiter a;
  app_globalBurst := app_globalBurst a; app_slots := app_slots a |}.
Definition with_schemas (a : App) (c : option schemaCache) : App := {|
  app_config := app_config a; app_authenticator := app_authenticator a; app_capabilities := app_capabilities a;
  app_plans := app_plans a; app_catalog := app_catalog a; app_schemas := c; app_admission := app_admission a;
  app_rateLimiter := app_rateLimiter a; app_globalBurst := app_globalBurst a; app_slots := app_slots a |}.
Definition with_store (a : App) (s : PlanStore) : App := {|
  app_config := app_config a; app_authenticator := app_authenticator a; app_capabilities := app_capabilities a;
  app_plans := s; app_catalog := app_catalog a; app_schemas := app_schemas a; app_admission := app_admission a;
  app_rateLimiter := app_rateLimiter a; app_globalBurst := app_globalBurst a; app_slots := app_slots a |}.
End app.

(** ** What a call meets *)

Record around := {
  (** how often the call looks at the catalogue while another one refreshes it,
      and what happens to it in between *)
  ar_attempts : nat;
  ar_catalog : nat -> catalogCache * capabilityCodec -> catalogCache * capabilityCodec;
  (** the handles when the audit record is written *)
  ar_codec : capabilityCodec;
  (** the random draws and clock readings of a plan, of a read, of the schema cache *)
  ar_draw : draw;
  ar_clock : nat -> nat -> Z;
  ar_expiry : schemaCacheKey -> Z;
  ar_schemas : schemaCache -> schemaCache;
  (** whether the discovery client of the call could be built *)
  ar_client : option go_error;
  (** the plans when [commit] asks whether the plan is a remote one, and its clock *)
  ar_peek : PlanStore;
  ar_now : Z;
  (** the two durations of the audit record *)
  ar_elapsed : Z;
  ar_later : Z
}.

(** ** The tools *)

(** The tools [newMCPServer] adds, in order. *)
Definition registered (mode : string) : list string :=
  [toolHelp; toolSearch; toolDescribe; toolRead] ++
  (if bool_decide (mode <> ModeReadOnly) then [toolPlan; toolCommit] else []).

(** [structuredToolErrorMiddleware] on the error of a result: [normalizeToolError]
    always returns ([normalizeToolError_total]), so the default is never used. *)
Definition structured (err : go_error) : toolErrorOutput :=
  default {| Code := ""; Message_ := ""; Retryable := false; Details := VNull |} (normalizeToolError (Some err)).

Definition error_of {A} (r : result go_error A) : option go_error := match r with Ok _ => None | Err err => Some err end.

Section tools.
Context {G : GoLib} {Q : QuantityLib} {U : UnstructuredLib} {F : FieldsLib} {T : TimeLib} {V : GroupVersionLib} {S : SortLib}.
Context {R : RateLib}.

(** [catalogCache.list]: attempts until one does not have to wait. *)
Fixpoint catalog_list (attempts : nat) (others : nat -> catalogCache * capabilityCodec -> catalogCache * capabilityCodec)
    (c : catalogCache) (codec : capabilityCodec) (principal : Principal)
    : K (option (catalogCache * capabilityCodec * result go_error (list Capability))) :=
  match attempts with
  | O => kret None
  | Datatypes.S attempts' =>
    (let! r := list_attempt c codec principal in
     match r with
     | None => kret None
     | Some (c', codec', Some answer) => kret (Some (c', codec', answer))
     | Some (c', codec', None) =>
       let '(c'', codec'') := others attempts' (c', codec') in catalog_list attempts' others c'' codec'' principal
     end)%kube
  end.

(** What a call leaves: the state, the answer and what was recorded. *)
Record called := { cl_app : App; cl_answer : tool_answer; cl_telemetry : list telemetry }.

Definition answer (r : result go_error tool_output) : tool_answer :=
  match r with Ok o => Answered o | Err err => ToolFailed (structured err) end.

Definition conclude (a : App) (x : around) (p : Principal) (tool : string) (target : auditTarget) (r : result go_error tool_output)
    : called :=
  {| cl_app := a; cl_answer := answer r;
     cl_telemetry := recordTool (app_config a) p tool target (error_of r) (ar_elapsed x) (ar_later x) |}.

Definition call_help (a : App) (x : around) (p : Principal) (i : HelpInput) : K called :=
  kret (conclude a x p toolHelp no_target (HelpAnswer <$> help (app_config a) i)).

Definition call_search (a : App) (x : around) (p : Principal) (i : SearchInput) : K called :=
  (let! listed := catalog_list (ar_attempts x) (ar_catalog x) (app_catalog a) (app_capabilities a) p in
   match listed with
   | None => kret {| cl_app := a; cl_answer := NoAnswer; cl_telemetry := [] |}
   | Some (c, codec, listed) =>
     let! found := search (app_config a) p listed (search_filter i) (si_Cursor i) (si_Limit i) in
     kret (conclude (with_catalog a c codec) x p toolSearch no_target ((fun r => SearchAnswer r.1 r.2) <$> found))
   end)%kube.

Definition call_describe (a : App) (x : around) (p : Principal) (i : DescribeInput) : K called :=
  (let! r := describe (app_config a) (app_capabilities a) (ar_expiry x) (ar_schemas x) (ar_client x) (app_schemas a) p i in
   let target := auditTargetForCapability (app_config a) (ar_codec x) (di_CapabilityID i) (di_Namespace i) (di_Name i) in
   kret (conclude (with_schemas a r.1) x p toolDescribe target (DescribeAnswer <$> r.2)))%kube.

Definition call_read (a : App) (x : around) (p : Principal) (i : ReadInput) : K called :=
  (let! r := read (app_config a) (app_capabilities a) (app_admission a) p i (ar_clock x) in
   let target := auditTargetForCapability (app_config a) (ar_codec x) (ri_CapabilityID i) (ri_Namespace i) (ri_Name i) in
   let target := set_streaming target (ri_Follow i || bool_decide (at_Action target = "watch")) in
   kret (conclude a x p toolRead target (ReadAnswer <$> r)))%kube.

Definition call_plan (a : App) (x : around) (p : Principal) (i : PlanInput) : K called :=
  (let! r := plan (app_config a) (app_capabilities a) (app_plans a) (ar_draw x) p i in
   let target := auditTargetFromSummary (match r.2 with Ok out => po_Operation out | Err _ => [] end) in
   let target := if bool_decide (at_Action target = "") then auditTargetForPlan (app_config a) (ar_codec x) i else target in
   kret (conclude (with_store a r.1) x p toolPlan target (PlanAnswer <$> r.2)))%kube.

(** The answer to a commit that succeeded is marshalled by the handler. *)
Definition marshal_commit (out : CommitOutput) : tool_answer :=
  match Marshal (output_value out) with
  | Some _ => Answered (CommitAnswer out)
  | None => ProtocolError (Wrapped "marshal k8s.commit output" (OtherError "json: unsupported value"))
  end.

Definition call_commit (a : App) (x : around) (p : Principal) (arguments : raw_arguments) : K called :=
  match decodeCommitInput arguments with
  | Err err => kret (conclude a x p toolCommit no_target (Err err))
  | Ok input =>
    (let! r := commit (app_config a) (ar_peek x) (app_admission a) (app_plans a) (ar_now x) p input in
     let '(store, (out, err)) := r in
     let target := auditTargetFromSummary (co_Operation out) in
     let target := set_streaming target (bool_decide (at_Action target = "exec") || bool_decide (at_Action target = "attach")) in
     kret {| cl_app := with_store a store;
             cl_answer := match err with Some err => ToolFailed (structured err) | None => marshal_commit out end;
             cl_telemetry := recordTool (app_config a) p toolCommit target err (ar_elapsed x) (ar_later x) |})%kube
  end.

(** A call of a tool by an authenticated caller. *)
Definition call_tool (a : App) (x : around) (p : Principal) (i : tool_input) : K called :=
  if negb (bool_decide (tool_name i ∈ registered (Mode (cfg_Spec (app_config a))))) then
    kret {| cl_app := a; cl_answer := UnknownTool; cl_telemetry := [] |}
  else
  match i with
  | HelpCall i => call_help a x p i
  | SearchCall i => call_search a x p i
  | DescribeCall i => call_describe a x p i
  | ReadCall i => call_read a x p i
  | PlanCall i => call_plan a x p i
  | CommitCall i => call_commit a x p i
  end.
End tools.

(** ** Lemmas: what the tools ask of the cluster *)

Section tool_traces.
Context {G : GoLib} {Q : QuantityLib} {U : UnstructuredLib} {F : FieldsLib} {T : TimeLib} {V : GroupVersionLib} {S : SortLib}.
Context {R : RateLib}.

Lemma refresh_harmless c codec p : emits (harmless p) (refresh c codec p).
Proof. unfold refresh. cbn zeta. repeat emits_step; by split. Qed.

Lemma list_attempt_harmless c codec p : emits (harmless p) (list_attempt c codec p).
Proof. unfold list_attempt. repeat (emits_step || apply refresh_harmless); by split. Qed.

Lemma catalog_list_harmless attempts others : forall c codec p, emits (harmless p) (catalog_list attempts others c codec p).
Proof.
  induction attempts as [|n IH]; intros c codec p; cbn [catalog_list]; [apply emits_ret|].
  apply emits_bind; [apply list_attempt_harmless|]. intros r. repeat (emits_step || apply IH).
Qed.

Lemma search_loop_harmless config p f limit rest : forall checks found index cache,
  emits (harmless p) (search_loop config p f limit rest checks found index cache).
Proof.
  induction rest as [|cap rest IH]; intros; cbn [search_loop]; [apply emits_ret|].
  repeat (emits_step || apply IH || apply authorize_harmless); by split.
Qed.

Lemma search_harmless config p listed f cursor limit : emits (harmless p) (search config p listed f cursor limit).
Proof.
  unfold search, searchCatalog. repeat (emits_step || apply search_loop_harmless || by split).
Qed.

Lemma describe_harmless config codec clock others client c p i :
  emits (harmless p) (describe config codec clock others client c p i).
Proof. unfold describe. repeat (emits_step || apply check_harmless || apply schemaForCapability_harmless). Qed.

Lemma plan_harmless config codec store d p i : emits (harmless p) (plan config codec store d p i).
Proof. unfold plan. repeat (emits_step || apply plan_prepare_harmless). Qed.

Lemma commit_operation_summary config p op :
  satisfies (commit_operation config p op) (fun r _ => co_Operation r.1 = operationSummary op).
Proof.
  unfold commit_operation. case_bool_decide; [by apply satisfies_ret|].
  eapply satisfies_bind; [apply authorize_harmless|]. intros r1 es1 _. destruct (r1.1); [|by apply satisfies_ret].
  eapply satisfies_bind; [apply preconditions_harmless|]. intros r2 es2 _. destruct r2; [|by apply satisfies_ret].
  eapply (satisfies_bind _ _ (fun _ es => Forall (harmless p) es)).
  { case_bool_decide; [|by apply satisfies_ret]. apply emits_bind; [apply previewOperation_harmless|]. intros. apply emits_ret. }
  intros r3 es3 _. destruct r3; [|by apply satisfies_ret].
  eapply satisfies_bind; [apply executeOperation_satisfies|]. intros [res err] es4 _. by repeat satisfies_step.
Qed.

(** A commit asks nothing of the cluster, or runs one operation and says which. *)
Lemma commit_satisfies {L : UnstructuredLaws} config peek adm store now p input :
  satisfies (commit config peek adm store now p input) (fun r es =>
    Forall (harmless p) es \/ exists op, committed config p op es /\ co_Operation r.2.1 = operationSummary op).
Proof.
  unfold commit. destruct (if isRemote _ _ _ then _ else _); [|by apply satisfies_ret; left].
  destruct (PlanStore_Consume _ _ _ _ _) as [s' [op|err]]; [|by apply satisfies_ret; left].
  eapply satisfies_bind; [apply satisfies_and; [apply commit_operation_satisfies|apply commit_operation_summary]|].
  intros r es [Hc Hs]. apply satisfies_ret. rewrite app_nil_r. right. by exists op.
Qed.

(** The records of a call. *)
Definition audits (ts : list telemetry) : list (list attr) :=
  flat_map (fun t => match t with LogAttrs _ attributes => [attributes] | _ => [] end) ts.

Lemma audits_recordTool config p tool target err elapsed later :
  audits (recordTool config p tool target err elapsed later) =
    [record_of config (Some p) "tool_call" tool target (decision_string (auditOutcome err).1) (auditOutcome err).2 later []].
Proof. unfold recordTool. by destruct (auditOutcome err). Qed.

(** A record that names the caller, the tool and the operation. *)
Record names_operation (p : Principal) (op : Operation) (attributes : list attr) : Prop := {
  no_event : obj_get attributes "event" = Some (AString "tool_call");
  no_tool : obj_get attributes "tool" = Some (AString toolCommit);
  no_user : obj_get attributes "actor_username" = Some (AString (Username p));
  no_uid : obj_get attributes "actor_uid" = Some (AString (P_UID p));
  no_action : obj_get attributes "action" = shown (TrimSpace (a_Action (op_Action op)));
  no_group : obj_get attributes "api_group" = shown (TrimSpace (Group (a_GVR (op_Action op))));
  no_resource : obj_get attributes "resource" = shown (TrimSpace (ResourceName (op_Action op)));
  no_namespace : obj_get attributes "target_namespace" = shown (TrimSpace (op_Namespace op));
  no_name : obj_get attributes "target_name" = shown (TrimSpace (op_Name op))
}.

(** One change, last, which is the request that stands for an operation that
    passed every check in this call, in a mode that allows writes, and one record
    that names this operation. *)
Definition audited_change (config : Config) (p : Principal) (es : list event) (ts : list telemetry) : Prop :=
  exists op pre e attributes, es = pre ++ [e] /\ Forall (harmless p) pre /\
    ev_principal e = p /\ ev_persists e = true /\ planned_request false op (ev_call e) /\ write_checks config p op pre /\
    Mode (cfg_Spec config) <> ModeReadOnly /\ audits ts = [attributes] /\ names_operation p op attributes.

Lemma call_commit_names config p op target later err :
  target = auditTargetFromSummary (operationSummary op) -> forall streaming,
  names_operation p op
    (record_of config (Some p) "tool_call" toolCommit (set_streaming target streaming) (decision_string (auditOutcome err).1)
       (auditOutcome err).2 later []).
Proof.
  intros -> streaming.
  pose proof (audit_record_is_faithful config p "tool_call" toolCommit
    (set_streaming (auditTargetFromSummary (operationSummary op)) streaming)
    (decision_string (auditOutcome err).1) (auditOutcome err).2 later) as H. cbn zeta in H.
  destruct_and! H. by constructor.
Qed.

Lemma registered_writes mode : toolPlan ∈ registered mode \/ toolCommit ∈ registered mode -> mode <> ModeReadOnly.
Proof. unfold registered. case_bool_decide as Hm; [done|]. set_solver. Qed.

(** Only [k8s.commit] changes the cluster. *)
Lemma call_tool_harmless a x p i :
  (forall arguments, i <> CommitCall arguments) -> emits (harmless p) (call_tool a x p i).
Proof.
  intros Hi. unfold call_tool. destruct (negb _); [apply emits_ret|]. destruct i as [i|i|i|i|i|i]; [apply emits_ret| | | | |by destruct (Hi i)].
  - unfold call_search. apply emits_bind; [apply catalog_list_harmless|]. intros [[[c codec] listed]|]; [|apply emits_ret].
    apply emits_bind; [apply search_harmless|]. intros r. apply emits_ret.
  - apply emits_bind; [apply describe_harmless|]. intros r. apply emits_ret.
  - apply emits_bind; [|intros r; apply emits_ret]. eapply satisfies_weaken; [apply read_satisfies|]. by intros ? ? [? _].
  - apply emits_bind; [apply plan_harmless|]. intros r. apply emits_ret.
Qed.

(** Every request of a call is made as its caller. *)
Definition as_caller (p : Principal) (e : event) : Prop := ev_principal e = p.

Lemma harmless_as_caller {A} p (m : K A) : emits (harmless p) m -> emits (as_caller p) m.
Proof. apply emits_weaken. by intros e [? _]. Qed.

Lemma execute_as_caller config p op : emits (as_caller p) (executeOperation config p op).
Proof.
  eapply satisfies_weaken; [apply executeOperation_satisfies|]. intros _ es [H|(pre & e & -> & H & He & _)].
  - eapply Forall_impl; [exact H|]. by intros e [? _].
  - apply Forall_app. split; [|by repeat constructor]. eapply Forall_impl; [exact H|]. by intros ? [? _].
Qed.

Lemma commit_as_caller config peek adm store now p input : emits (as_caller p) (commit config peek adm store now p input).
Proof.
  unfold commit, commit_operation.
  repeat first [emits_step|apply execute_as_caller|apply harmless_as_caller, previewOperation_harmless|case_match].
  all: apply harmless_as_caller. all: (eapply satisfies_weaken; [apply CheckAndAuthorizeOperation_satisfies|tauto])
    || (eapply satisfies_weaken; [apply preconditions_satisfies|]; by intros r es [H _]).
Qed.

Lemma call_tool_as_caller a x p i : emits (as_caller p) (call_tool a x p i).
Proof.
  destruct i as [i|i|i|i|i|i]; try (by apply harmless_as_caller, call_tool_harmless).
  unfold call_tool, call_commit. destruct (negb _); [apply emits_ret|]. destruct (decodeCommitInput i); [|apply emits_ret].
  apply emits_bind; [apply commit_as_caller|]. intros [store [out err]]. apply emits_ret.
Qed.

Lemma call_tool_changes {L : UnstructuredLaws} a x p i :
  satisfies (call_tool a x p i) (fun r es =>
    Forall (harmless p) es \/ audited_change (app_config a) p es (cl_telemetry r)).
Proof.
  destruct i as [i|i|i|i|i|i]; try (eapply satisfies_weaken; [by apply call_tool_harmless|by left]).
  unfold call_tool. destruct (bool_decide _) eqn:Hreg; cbn [negb]; [|by apply satisfies_ret; left].
  apply bool_decide_eq_true in Hreg.
  unfold call_commit. destruct (decodeCommitInput i) as [input|err]; [|by apply satisfies_ret; left].
  eapply satisfies_bind; [apply commit_satisfies|]. intros [store [out err]] es Hc. apply satisfies_ret. rewrite app_nil_r.
  destruct Hc as [Hc|(op & [Hc|(pre & e & -> & Hpre & Hp & Hw & Hb & Hck)] & Hs)]; [by left|by left|right].
  cbn in Hs. eexists op, pre, e, _. split_and!; try done; [by apply registered_writes; right|apply audits_recordTool|].
  apply call_commit_names. by rewrite Hs.
Qed.
End tool_traces.

(** ** The invariant of the state *)

Section invariant.
Context {G : GoLib} {Q : QuantityLib} {U : UnstructuredLib} {F : FieldsLib} {T : TimeLib} {V : GroupVersionLib} {S : SortLib}.
Context {R : RateLib}.

(** The accounting of the plans is exact, the handles the catalogue offers are
    signed and decodable, the cache of schemas is within its limits, and the
    configuration is valid. *)
Record app_inv (a : App) : Prop := {
  ai_plans : store_inv (app_plans a);
  ai_catalog : catalog_inv (app_catalog a) (app_capabilities a);
  ai_schemas : forall c, app_schemas a = Some c -> cache_inv c;
  ai_config : Validate (app_config a) = Ok ()
}.

(** What other requests do meanwhile keeps the invariants of the caches. *)
Definition civil_around (x : around) : Prop :=
  (forall n c codec, catalog_inv c codec -> catalog_inv (ar_catalog x n (c, codec)).1 (ar_catalog x n (c, codec)).2) /\
  (forall c, cache_inv c -> cache_inv (ar_schemas x c)).

(** The plan a call stores gets a fresh ID and fits the address space. *)
Definition fresh_call (a : App) (x : around) (p : Principal) (i : tool_input) (w : env) (h : list event) : Prop :=
  match i with
  | PlanCall i => forall op preview warnings,
      (plan_prepare (app_config a) (app_capabilities a) p i w h).1 = Ok (op, preview, warnings) ->
      fresh_draw (app_plans a) (DoCreate (ar_draw x) (SubjectKey p) op)
  | _ => True
  end.

(** The states of a server: from [NewApp], by any calls of any callers. *)
Inductive app_run : App -> Prop :=
| run_new_app config base_ client random a : NewApp config base_ client random = Ok a -> app_run a
| run_tool a x p i w h : app_run a -> civil_around x -> fresh_call a x p i w h -> app_run (cl_app (call_tool a x p i w h).1).

Lemma NewApp_inv config base_ client random a : NewApp config base_ client random = Ok a -> app_inv a.
Proof.
  unfold NewApp. destruct (Validate config) as [[]|] eqn:Hv; [|done].
  intros (auth & _ & (codec & Hc & [= <-])%bind_ok)%bind_ok.
  assert (codec_inv codec) as Hcodec.
  { unfold newCapabilityCodec in Hc. split_result Hc; [|done..]. apply map_Forall_empty. }
  constructor; cbn [app_plans app_catalog app_capabilities app_schemas app_config];
    [apply new_store_inv| |by intros ? [= <-]; apply newSchemaCache_inv|done].
  constructor; cbn; [done|constructor|done].
Qed.

Lemma plan_store_inv config codec store d p i w h :
  store_inv store ->
  (forall op preview warnings, (plan_prepare config codec p i w h).1 = Ok (op, preview, warnings) ->
     fresh_draw store (DoCreate d (SubjectKey p) op)) ->
  store_inv (plan config codec store d p i w h).1.1.
Proof.
  intros Hs Hf. unfold plan, kbind. destruct (plan_prepare config codec p i w h) as [[[[op preview] warnings]|err] h1]; [|done].
  specialize (Hf _ _ _ eq_refl). pose proof (create_inv store d (SubjectKey p) op Hs Hf) as Hi.
  destruct (PlanStore_Create _ _ _ _) as [s' [[[id code] expires]|err]]; done.
Qed.

Lemma commit_store_inv config peek adm store now p i w h :
  store_inv store -> store_inv (commit config peek adm store now p i w h).1.1.
Proof.
  intros Hs. unfold commit. destruct (if isRemote _ _ _ then _ else _); [|done].
  pose proof (consume_inv store now (ci_PlanID i) (SubjectKey p) (ci_ConfirmationCode i) Hs) as Hi.
  destruct (PlanStore_Consume _ _ _ _ _) as [s' [op|err]]; [|done].
  unfold kbind. by destruct (commit_operation config p op w h).
Qed.

(** The caches a call may leave behind. *)
Definition caches_ok (c : option schemaCache) : Prop := forall d, c = Some d -> cache_inv d.

Lemma load_caches clock others client c p group version w h :
  caches_ok c -> (forall d, cache_inv d -> cache_inv (others d)) ->
  caches_ok (load clock others client c p group version w h).1.1.
Proof.
  intros Hc Ho d Hd. destruct c as [c|]; [by eapply schema_cache_is_bounded; [apply Hc| |exact Hd]|].
  unfold load, kbind, request, kret in Hd. destruct client; [done|]. cbn in Hd. by repeat case_match.
Qed.

Lemma describe_caches config codec clock others client c p i w h :
  caches_ok c -> (forall d, cache_inv d -> cache_inv (others d)) ->
  caches_ok (describe config codec clock others client c p i w h).1.1.
Proof.
  intros Hc Ho. unfold describe, schemaForCapability. destruct (decode codec _) as [cap|]; [|done].
  unfold kbind at 1. destruct (Policy_CheckAndAuthorize _ _ _ _ _ w h) as [[u|err] h1]; [|done].
  unfold kbind, request, kret. destruct (w _ h1 p CtxErr); [done|].
  pose proof (load_caches clock others client c p (c_Group cap) (c_Version cap) w (h1 ++ [Ev p CtxErr None]) Hc Ho) as Hl.
  by destruct (load _ _ _ _ _ _ _ w _) as [[c' r] h2].
Qed.

Lemma catalog_list_inv {SL : SortLaws} attempts others : forall c codec p w h c' codec' answer,
  (forall n c codec, catalog_inv c codec -> catalog_inv (others n (c, codec)).1 (others n (c, codec)).2) ->
  catalog_inv c codec -> (catalog_list attempts others c codec p w h).1 = Some (c', codec', answer) ->
  catalog_inv c' codec'.
Proof.
  induction attempts as [|n IH]; intros c codec p w h c' codec' answer Ho Hc; cbn [catalog_list]; [done|].
  unfold kbind. destruct (list_attempt_satisfies c codec p Hc w h) as (es & _ & Hk).
  destruct (list_attempt c codec p w h) as [[[[c1 codec1] [r|]]|] h1]; cbn [fst] in Hk; [| |done].
  - intros [= <- <- _]. by destruct (Hk _ _ _ eq_refl) as [? _].
  - destruct (Hk _ _ _ eq_refl) as [H1 _]. specialize (Ho n c1 codec1 H1) as H2.
    destruct (others n (c1, codec1)) as [c2 codec2]. by apply IH.
Qed.

Lemma call_tool_inv {SL : SortLaws} a x p i w h :
  app_inv a -> civil_around x -> fresh_call a x p i w h -> app_inv (cl_app (call_tool a x p i w h).1).
Proof.
  intros Ha [Hcat Hsch] Hf. pose proof Ha as [Hp Hc Hs Hv]. unfold call_tool. destruct (negb _); [done|].
  destruct i as [i|i|i|i|i|i]; [done| | | | |].
  - unfold call_search, kbind. pose proof (catalog_list_inv (ar_attempts x) (ar_catalog x) (app_catalog a) (app_capabilities a) p w h) as Hl.
    destruct (catalog_list _ _ _ _ p w h) as [[[[c codec] listed]|] h1]; [|done].
    destruct (search _ _ _ _ _ _ w h1) as [r h2]. constructor; cbn; [done| |done|done].
    by eapply Hl.
  - unfold call_describe, kbind. pose proof (describe_caches (app_config a) (app_capabilities a) (ar_expiry x) (ar_schemas x)
      (ar_client x) (app_schemas a) p i w h Hs Hsch) as Hd.
    destruct (describe _ _ _ _ _ _ p i w h) as [r h1]. by constructor.
  - unfold call_read, kbind. by destruct (read _ _ _ p i _ w h) as [r h1].
  - unfold call_plan, kbind. pose proof (plan_store_inv (app_config a) (app_capabilities a) (app_plans a) (ar_draw x) p i w h Hp Hf) as Hi.
    destruct (plan _ _ _ _ p i w h) as [r h1]. by constructor.
  - unfold call_commit. destruct (decodeCommitInput i) as [input|err]; [|done]. unfold kbind.
    pose proof (commit_store_inv (app_config a) (ar_peek x) (app_admission a) (app_plans a) (ar_now x) p input w h Hp) as Hi.
    destruct (commit _ _ _ _ _ p input w h) as [[store [out err]] h1]. by constructor.
Qed.
End invariant.

(** ** HTTP *)

(** What the client sends as the body: its bytes and the error that ends it, [None]
    for the end of the body. *)
Record client_body := { cb_data : string; cb_end : option go_error }.

Inductive read_failure := TooLarge | ReadFailed (err : go_error).

(** [io.ReadAll] of the body behind [http.MaxBytesReader]. *)
Definition read_limited (limit : Z) (b : client_body) : result read_failure string :=
  if (limit <? Z.of_nat (String.length (cb_data b)))%Z then Err TooLarge
  else match cb_end b with Some err => Err (ReadFailed err) | None => Ok (cb_data b) end.

Definition json_space : string := String " " (String "009" (String "013" (String "010" ""))).

(** A body that starts with a bracket is a JSON-RPC batch. *)
Definition is_batch (data : string) : bool :=
  match TrimLeft data json_space with String "[" _ => true | _ => false end.

(** The body the transport gets, or the status and code of the refusal. *)
Definition prepareMCPRequestBody (limit : Z) (method : string) (body : option client_body)
    : result (Z * string) (option client_body) :=
  match body with
  | None => Ok None
  | Some b =>
    if bool_decide (method <> "POST") then Ok body
    else match read_limited limit b with
         | Err TooLarge => Err (413%Z, "request_too_large")
         | Err (ReadFailed _) => Err (400%Z, "invalid_request")
         | Ok data => if is_batch data then Err (400%Z, "invalid_request") else Ok (Some {| cb_data := data; cb_end := None |})
         end
  end.

Definition serveStatelessSessionClose (method : string) : bool := bool_decide (method = "DELETE").

Record mcp_request := { rq_method : string; rq_path : string; rq_headers : http_request; rq_body : option client_body }.

Inductive http_response {Q : QuantityLib} {R : RateLib} :=
| Plain (status : Z)
| Refused (status : Z) (code : string) (retryAfter : option Z)
| FromTransport
| FromTool (i : tool_input) (body : option client_body) (c : called).

(** The streamable transport of the MCP SDK: the tool call it makes of a request. *)
Class McpSdk := { mcp_call : string -> option client_body -> option tool_input }.

Section http.
Context {G : GoLib} {Q : QuantityLib} {U : UnstructuredLib} {F : FieldsLib} {T : TimeLib} {V : GroupVersionLib} {S : SortLib}.
Context {R : RateLib} {M : McpSdk}.

Definition with_admission (a : App) (limiter : identityRateLimiter) (admission : option requestAdmission) : App := {|
  app_config := app_config a; app_authenticator := app_authenticator a; app_capabilities := app_capabilities a;
  app_plans := app_plans a; app_catalog := app_catalog a; app_schemas := app_schemas a; app_admission := admission;
  app_rateLimiter := limiter; app_globalBurst := app_globalBurst a; app_slots := app_slots a |}.

(** [releaseIdentity] when the handler returns. *)
Definition leave (a : App) (p : Principal) : App :=
  with_admission a (app_rateLimiter a) (after_request (app_admission a) (Served p)).

(** A request to the MCP address: the routes of [mcpMux], the middleware and
    the handler behind it. *)
Definition serve (a : App) (x : around) (ans : answers) (rq : mcp_request) : K (App * http_response * list audit_event) :=
  if bool_decide (rq_path rq <> "/mcp") then kret (a, Refused 404 "not_found" None, [])
  else if serveStatelessSessionClose (rq_method rq) then kret (a, Plain 204, [])
  else
  let '(limiter, admission, verdict, audit) :=
    authenticationMiddleware (app_authenticator a) (rq_headers rq) ans (app_rateLimiter a) (app_admission a) in
  let a := with_admission a limiter admission in
  match verdict with
  | Rejected status code retryAfter => kret (a, Refused status code retryAfter, audit)
  | Served p =>
    match prepareMCPRequestBody (MaxInputBytes (Limits (cfg_Spec (app_config a)))) (rq_method rq) (rq_body rq) with
    | Err (status, code) => kret (leave a p, Refused status code None, audit)
    | Ok body =>
      match mcp_call (rq_method rq) body with
      | None => kret (leave a p, FromTransport, audit)
      | Some i => (let! c := call_tool a x p i in kret (leave (cl_app c) p, FromTool i body c, audit))%kube
      end
    end
  end.

(** The readiness probe of the metrics address. *)
Definition readyz (a : App) (file : result go_error string) (review : string -> result go_error token_review) : http_response :=
  match Ready (Some (base (app_authenticator a))) file review with
  | Err _ => Refused 503 "tokenreview_unavailable" None
  | Ok _ => Plain 200
  end.
End http.

(** ** The manual and the registration *)

(** The JSON members of the input of each tool and whether they are required, as
    the tags of the input structs say. *)
Definition help_members : list (string * bool) := [("tool", false)].
Definition search_members : list (string * bool) :=
  [("query", false); ("action", false); ("exactKind", false); ("exactResource", false); ("apiGroup", false);
   ("version", false); ("namespace", false); ("name", false); ("cursor", false); ("limit", false)].
Definition describe_members : list (string * bool) :=
  [("capabilityId", true); ("namespace", false); ("name", false); ("fieldPath", false); ("depth", false)].
Definition read_input_members : list (string * bool) :=
  [("capabilityId", true); ("namespace", false); ("name", false); ("labelSelector", false); ("fieldSelector", false);
   ("cursor", false); ("resourceVersion", false); ("limit", false); ("outputMode", false); ("omitManagedFields", false);
   ("omitAnnotations", false); ("fieldPaths", false); ("follow", false); ("container", false); ("tailLines", false);
   ("sinceSeconds", false)].
Definition plan_members : list (string * bool) :=
  [("capabilityId", true); ("namespace", false); ("name", false); ("object", false); ("patch", false); ("patchType", false);
   ("replicas", false); ("command", false); ("container", false); ("stdin", false); ("timeoutSeconds", false);
   ("gracePeriodSeconds", false); ("force", false)].
Definition commit_members : list (string * bool) := [("planId", true); ("confirmationCode", true)].

Definition input_members (tool : string) : list (string * bool) :=
  default [] (obj_get [(toolHelp, help_members); (toolSearch, search_members); (toolDescribe, describe_members);
                       (toolRead, read_input_members); (toolPlan, plan_members); (toolCommit, commit_members)] tool).

Lemma manual_available mode m :
  mode ∈ allAccessModes -> m ∈ toolManuals -> manualAvailable m mode = bool_decide (tm_Name m ∈ registered mode).
Proof.
  intros Hmode Hm. unfold allAccessModes, toolManuals in *.
  repeat (apply elem_of_cons in Hmode as [->|Hmode]); [..|by apply not_elem_of_nil in Hmode];
  repeat (apply elem_of_cons in Hm as [->|Hm]); try (by apply not_elem_of_nil in Hm); reflexivity.
Qed.

Lemma manual_inputs m : m ∈ toolManuals ->
  (fun i => (mi_Name i, mi_Required i)) <$> tm_Inputs m = input_members (tm_Name m) /\
  keys (tm_Example m) ⊆ (input_members (tm_Name m)).*1 /\
  (forall name, (name, true) ∈ input_members (tm_Name m) -> name ∈ keys (tm_Example m)).
Proof.
  intros Hm. unfold toolManuals in *.
  repeat (apply elem_of_cons in Hm as [->|Hm]); try (by apply not_elem_of_nil in Hm);
    (split_and!; [reflexivity|vm_compute; set_solver|vm_compute; set_solver]).
Qed.

(** A record of one call with its outcome. *)
Definition records (tool : string) (err : option go_error) (ts : list telemetry) : Prop :=
  exists attributes, audits ts = [attributes] /\ obj_get attributes "tool" = Some (AString tool) /\
    obj_get attributes "decision" = Some (AString (decision_string (auditOutcome err).1)) /\
    obj_get attributes "reason" = Some (AString (auditOutcome err).2).

Lemma recordTool_records {Q : QuantityLib} config p tool target err elapsed later :
  tool <> "" -> records tool err (recordTool config p tool target err elapsed later).
Proof.
  intros Ht. eexists. split; [apply audits_recordTool|].
  pose proof (audit_record_is_faithful config p "tool_call" tool target (decision_string (auditOutcome err).1) (auditOutcome err).2 later) as H.
  cbn zeta in H. destruct H as (_ & _ & Hd & Hr & _ & _ & _ & Htool & _). split_and!; [|done..].
  rewrite Htool. unfold shown. by rewrite bool_decide_false.
Qed.

Lemma structured_code err : code_is_audited (structured err) (auditOutcome (Some err)).2.
Proof.
  unfold structured. destruct (normalizeToolError_total (Some err)) as [o Ho]. rewrite Ho. cbn [default].
  by destruct (normalize_fuel_code _ _ _ Ho).
Qed.

Lemma failures_are_not_allowed err : (auditOutcome (Some err)).1 <> Allow.
Proof. cbn. by repeat case_match. Qed.

(** What the log and the answer have to do with each other. *)
Definition agrees (tool : string) (answer : tool_answer) (ts : list telemetry) : Prop :=
  match answer with
  | UnknownTool | NoAnswer => ts = []
  | Answered _ | ProtocolError _ => exists attributes, audits ts = [attributes] /\
      obj_get attributes "tool" = Some (AString tool) /\ obj_get attributes "decision" = Some (AString "allow")
  | ToolFailed o => exists attributes reason d, audits ts = [attributes] /\
      obj_get attributes "tool" = Some (AString tool) /\ obj_get attributes "reason" = Some (AString reason) /\
      obj_get attributes "decision" = Some (AString (decision_string d)) /\ d <> Allow /\
      code_is_audited o reason
  end.

Lemma records_success tool ts answer :
  records tool None ts -> match answer with Answered _ | ProtocolError _ => True | _ => False end -> agrees tool answer ts.
Proof. intros (attributes & ? & ? & ? & _) Ha. destruct answer; try done; by exists attributes. Qed.

Lemma records_failure tool ts err : records tool (Some err) ts -> agrees tool (ToolFailed (structured err)) ts.
Proof.
  intros (attributes & ? & ? & ? & ?). eexists attributes, _, _. split_and!; try done;
    [apply failures_are_not_allowed|apply structured_code].
Qed.

Lemma conclude_agrees {Q : QuantityLib} {R : RateLib} a x p tool target r :
  tool <> "" -> agrees tool (cl_answer (conclude a x p tool target r)) (cl_telemetry (conclude a x p tool target r)).
Proof.
  intros Ht. pose proof (recordTool_records (app_config a) p tool target (error_of r) (ar_elapsed x) (ar_later x) Ht) as H.
  destruct r as [o|err]; cbn [conclude cl_answer cl_telemetry answer]; [by apply records_success|by apply records_failure].
Qed.

(** ** Properties *)

Section properties.
Context {G : GoLib} {Q : QuantityLib} {U : UnstructuredLib} {F : FieldsLib} {T : TimeLib} {V : GroupVersionLib} {S : SortLib}.
Context {R : RateLib}.

(** C3: No change without a record: whatever tool is called with whatever input, and
    whatever the cluster answers, the call changes nothing, or it makes one change,
    as its last request, outside ReadOnly mode, and that request is the one that
    stands for an operation (its kind, target, body and preconditions are those of the
    operation's action), which passed every check in the same
    call; and it leaves exactly one audit record, which
    names the caller and the operation's action, group, resource, namespace and name. *)
Theorem changes_are_audited {L : UnstructuredLaws} a x p i w h :
  exists es, (call_tool a x p i w h).2 = h ++ es /\
    (Forall (harmless p) es \/ audited_change (app_config a) p es (cl_telemetry (call_tool a x p i w h).1)).
Proof. destruct (call_tool_changes a x p i w h) as (es & ? & ?). by exists es. Qed.

(** A ReadOnly server is read-only: no call of any tool sends a request that can
    change the cluster, and every request is made as the caller. *)
Theorem read_only_server_never_writes {L : UnstructuredLaws} a x p i w h :
  Mode (cfg_Spec (app_config a)) = ModeReadOnly ->
  exists es, (call_tool a x p i w h).2 = h ++ es /\ Forall (harmless p) es.
Proof.
  intros Hm. destruct (call_tool_changes a x p i w h) as (es & Hes & [Hh|(op & pre & e & attributes & Hc)]); exists es; [done|].
  destruct_and! Hc. done.
Qed.

(** C26: The log agrees with the answer: a call that is answered leaves exactly one
    record of itself under its tool's name; the record says allow exactly when the
    call succeeded, and otherwise its reason is the code the client is told, with
    one exception: an untyped error whose message begins as a failed decoding does
    (of the arguments, or of any JSON text) is told as invalid_input. *)
Theorem answers_are_audited a x p i w h :
  let r := (call_tool a x p i w h).1 in agrees (tool_name i) (cl_answer r) (cl_telemetry r).
Proof.
  intros r. unfold r, call_tool. destruct (negb _); [done|]. destruct i as [i|i|i|i|i|i].
  - by apply conclude_agrees.
  - unfold call_search, kbind. destruct (catalog_list _ _ _ _ p w h) as [[[[c codec] listed]|] h1]; [|done].
    destruct (search _ _ _ _ _ _ w h1). by apply conclude_agrees.
  - unfold call_describe, kbind. destruct (describe _ _ _ _ _ _ p i w h). by apply conclude_agrees.
  - unfold call_read, kbind. destruct (read _ _ _ p i _ w h). by apply conclude_agrees.
  - unfold call_plan, kbind. destruct (plan _ _ _ _ p i w h). by apply conclude_agrees.
  - unfold call_commit. destruct (decodeCommitInput i) as [input|err]; [|by apply conclude_agrees].
    unfold kbind. destruct (commit _ _ _ _ _ p input w h) as [[store [out [err|]]] h1].
    + by apply records_failure, recordTool_records.
    + apply records_success; [by apply recordTool_records|]. cbn [cl_answer fst]. unfold marshal_commit. by destruct (Marshal _).
Qed.

(** A malformed code costs nothing: a call of [k8s.commit] whose arguments do not
    decode, or decode to a code that is not six digits, leaves the state of the
    server as it is, counts no attempt against the plan and asks nothing of the
    cluster; the caller gets an error. *)
Theorem malformed_code_costs_nothing a x p arguments w h :
  (forall input, decodeCommitInput arguments = Ok input -> validConfirmationCode (ci_ConfirmationCode input) = false) ->
  cl_app (call_tool a x p (CommitCall arguments) w h).1 = a /\ (call_tool a x p (CommitCall arguments) w h).2 = h /\
  match cl_answer (call_tool a x p (CommitCall arguments) w h).1 with Answered _ | ProtocolError _ => False | _ => True end.
Proof.
  intros Hm. unfold call_tool. destruct (negb _); [done|]. unfold call_commit.
  destruct (decodeCommitInput arguments) as [input|err]; [|done]. specialize (Hm _ eq_refl).
  assert (exists err, commit (app_config a) (ar_peek x) (app_admission a) (app_plans a) (ar_now x) p input w h =
    ((app_plans a, ({| co_Operation := []; co_Result := VNull |}, Some err)), h)) as [err Hc].
  { unfold commit. destruct (if isRemote _ _ _ then _ else _); [|by eexists]. unfold PlanStore_Consume.
    case_bool_decide; [by eexists|]. rewrite Hm. by eexists. }
  unfold kbind. rewrite Hc. by destruct a.
Qed.

(** C9: The state of a server is sound after any calls of any callers, from its start:
    the accounting of the plan store is exact, every handle the catalogue offers
    decodes, the schema cache is within its limits and the configuration is valid. *)
Theorem server_state_is_sound {SL : SortLaws} a : app_run a -> app_inv a.
Proof.
  induction 1 as [config base_ client random a Ha|a x p i w h _ IH Hx Hf]; [by eapply NewApp_inv|by apply call_tool_inv].
Qed.

(** A server that starts has usable limits: no product of its limits wraps, it has
    between 1 and 32 slots and a global burst of at least one request, and its
    clients time out after a positive time that covers every kind of call. *)
Theorem started_server_limits config base_ client random a :
  NewApp config base_ client random = Ok a ->
  let limits := Limits (cfg_Spec config) in
  app_config a = config /\ (1 <= app_slots a <= 32)%Z /\
  (1 <= app_globalBurst a <= 32000)%Z /\ app_globalBurst a = (Burst limits * MaxConcurrent limits)%Z /\
  (0 < requestTimeout (app_authenticator a) <= operationTimeout (app_authenticator a))%Z /\
  (StreamTimeout limits <= operationTimeout (app_authenticator a))%Z /\ (ExecTimeout limits <= operationTimeout (app_authenticator a))%Z.
Proof.
  unfold NewApp. destruct (Validate config) as [[]|] eqn:Hv; [|done]. apply Validate_ok_iff in Hv as [_ _ _ _ _ [] _].
  intros (auth & Ha & (codec & _ & [= <-])%bind_ok)%bind_ok. unfold NewAuthenticator in Ha. destruct (client _); [|done].
  injection Ha as <-. cbn. rewrite wrap32_id by nia. split_and!; (done || lia || nia).
Qed.

(** C40: The manual tells the truth about the tools: under a valid configuration [k8s.help]
    shows a tool as available exactly when the server registers it, every registered
    tool has a manual, an unknown name is an error, and each manual lists exactly the
    members of the tool's input, with the required ones marked and in its example. *)
Theorem help_matches_registration config request :
  Validate config = Ok () ->
  let mode := Mode (cfg_Spec config) in
  (forall out, help config request = Ok out ->
     (forall s, s ∈ ho_Tools out -> (ts_Available s = true <-> ts_Name s ∈ registered mode)) /\
     (forall m, ho_Manual out = Some m -> tm_Name m = TrimSpace (hi_Tool request) /\
        (tm_Available m = true <-> tm_Name m ∈ registered mode) /\
        (fun i => (mi_Name i, mi_Required i)) <$> tm_Inputs m = input_members (tm_Name m) /\
        keys (tm_Example m) ⊆ (input_members (tm_Name m)).*1 /\
        (forall name, (name, true) ∈ input_members (tm_Name m) -> name ∈ keys (tm_Example m)))) /\
  (TrimSpace (hi_Tool request) = "" -> exists out, help config request = Ok out /\
     forall tool, tool ∈ registered mode -> tool ∈ ts_Name <$> ho_Tools out) /\
  (forall tool, tool ∈ registered mode -> TrimSpace (hi_Tool request) = tool -> is_ok (help config request) = true).
Proof.
  intros Hv mode.
  assert (mode ∈ allAccessModes) as Hmode by (apply Validate_ok_iff in Hv; by destruct Hv).
  assert (forall m, m ∈ toolManuals -> manualAvailable m mode = true <-> tm_Name m ∈ registered mode) as Hav.
  { intros m Hm. rewrite (manual_available mode m) by done. apply bool_decide_eq_true. }
  assert (registered mode ⊆ tm_Name <$> toolManuals) as Hsub.
  { rewrite toolManuals_names. unfold registered. case_bool_decide; set_solver. }
  unfold help. fold mode. split_and!.
  - intros out. case_bool_decide as Hr.
    + intros [= <-]. cbn [ho_Tools ho_Manual help_index]. split; [|done].
      intros s (m & -> & Hm)%list_elem_of_fmap. by apply Hav.
    + pose proof (toolManuals_find (TrimSpace (hi_Tool request))) as Hf. destruct (List.find _ _) as [m|]; [|done].
      intros [= <-]. cbn [ho_Tools ho_Manual]. split; [by intros s Hs%elem_of_nil|]. intros ? [= <-]. cbn [with_availability tm_Name tm_Available].
      destruct Hf as [Hm Hn]. destruct (manual_inputs m Hm) as (H1 & H2 & H3). split_and!; [done|by apply Hav|done..].
  - intros ->. eexists. split; [done|]. cbn [ho_Tools help_index]. intros tool Ht.
    replace (ts_Name <$> (summary_of mode <$> toolManuals)) with (tm_Name <$> toolManuals) by done. by apply Hsub.
  - intros tool Ht ->. case_bool_decide; [done|]. pose proof (toolManuals_find tool) as Hf.
    destruct (List.find _ _); [done|]. by apply Hsub in Ht.
Qed.
End properties.

#[local] Opaque IdentityKey.

Section http_properties.
Context {G : GoLib} {Q : QuantityLib} {U : UnstructuredLib} {F : FieldsLib} {T : TimeLib} {V : GroupVersionLib} {S : SortLib}.
Context {R : RateLib} {M : McpSdk}.

(** The body a transport is given is the client's. *)
Definition body_passed (limit : Z) (method : string) (sent passed : option client_body) : Prop :=
  passed = sent /\ (method = "POST" -> forall b, passed = Some b ->
    cb_end b = None /\ (Z.of_nat (String.length (cb_data b)) <= limit)%Z /\ is_batch (cb_data b) = false).

Lemma prepare_passes limit method sent passed :
  prepareMCPRequestBody limit method sent = Ok passed -> body_passed limit method sent passed.
Proof.
  unfold prepareMCPRequestBody. destruct sent as [b|]; [|intros [= <-]; by split].
  case_bool_decide as Hm; [intros [= <-]; by split|]. unfold read_limited.
  destruct (Z.ltb_spec limit (Z.of_nat (String.length (cb_data b)))) as [|Hl]; [done|].
  destruct b as [data [err|]]; cbn [cb_data cb_end] in *; [done|].
  destruct (is_batch data) eqn:Hb; [done|]. intros [= <-]. split; [done|]. by intros _ ? [= <-].
Qed.

(** C4: From the socket to the cluster: whatever an HTTP request to the MCP address
    holds, the server asks the cluster nothing on its behalf, or it calls one tool,
    and then the request had no browser origin and a bearer token which a
    TokenReview accepted in this very request, the rate limits admitted the
    reviewed user, every request to the cluster carries that token and that
    user's identity, and the tool call was read from the complete, unchanged body
    of the request, within the size limit and not a batch. *)
Theorem requests_act_for_the_reviewed_caller a x ans rq w h :
  exists es, (serve a x ans rq w h).2 = h ++ es /\
    match (serve a x ans rq w h).1.1.2 with
    | FromTool i body c => exists p rest r,
        rq_path rq = "/mcp" /\ rq_method rq <> "DELETE" /\ Origin (rq_headers rq) = "" /\
        Authorization (rq_headers rq) = "Bearer " +:+ rest /\ Token p = TrimSpace rest /\
        an_review ans (Token p) = Ok r /\ tr_Error r = "" /\ tr_Authenticated r = true /\
        p = {| Username := ui_Username (tr_User r); P_UID := ui_UID (tr_User r); Groups := ui_Groups (tr_User r);
               Extra := ui_Extra (tr_User r); Token := TrimSpace rest |} /\
        an_global ans = true /\ an_slot ans = true /\ (Allow_ (app_rateLimiter a) (IdentityKey p) (an_now ans)).2.1 = true /\
        Forall (fun e => ev_principal e = p) es /\ mcp_call (rq_method rq) body = Some i /\
        body_passed (MaxInputBytes (Limits (cfg_Spec (app_config a)))) (rq_method rq) (rq_body rq) body
    | _ => es = []
    end.
Proof.
  unfold serve, serveStatelessSessionClose.
  case_bool_decide as Hpath; [exists []; by rewrite app_nil_r|].
  case_bool_decide as Hdel; [exists []; by rewrite app_nil_r|].
  destruct (authenticationMiddleware _ _ _ _ _) as [[[limiter admission] verdict] audit] eqn:Hmw.
  destruct verdict as [status code retry|p]; [exists []; by rewrite app_nil_r|].
  apply served_request_was_reviewed in Hmw as (Ho & Hg & Hs & _ & (rest & Hauth & _ & Htok) & (r & Hr & He & Hra & Hp) & Hallow & _).
  destruct (prepareMCPRequestBody _ _ _) as [body|[status code]] eqn:Hb; [|exists []; by rewrite app_nil_r].
  destruct (mcp_call _ body) as [i|] eqn:Hi; [|exists []; by rewrite app_nil_r].
  set (a1 := with_admission a limiter admission). unfold kbind.
  destruct (call_tool_as_caller a1 x p i w h) as (es & Hes & Hc). destruct (call_tool a1 x p i w h) as [c h1]. cbn [fst snd] in *.
  exists es. split; [done|]. exists p, rest, r. rewrite <- Htok. split_and!; try done. by apply prepare_passes.
Qed.
End http_properties.

#[local] Transparent IdentityKey.

(** ** Witnesses *)

Module ServerWitness.
Export SchemaWitness CatalogWitness AuthWitness.

Definition demo_key : list N := replicate 32 7%N.
Definition started (mode : string) : result go_error App :=
  NewApp (demo_config mode) in_cluster (fun _ => Ok ()) (Ok demo_key).
(** A started server, with the plans and handles of the other examples. *)
Definition demo_app (mode : string) : App := {|
  app_config := demo_config mode; app_authenticator := demo_auth; app_capabilities := issued.2; app_plans := planned_store;
  app_catalog := newCatalogCache; app_schemas := Some newSchemaCache; app_admission := Some (newRequestAdmission 4);
  app_rateLimiter := newIdentityRateLimiter 120 20; app_globalBurst := 80; app_slots := 4 |}.
Definition demo_around : around := {|
  ar_attempts := 1; ar_catalog := fun _ c => c; ar_codec := issued.2; ar_draw := OperationsWitness.demo_draw;
  ar_clock := fun _ _ => 0%Z; ar_expiry := fun _ => 0%Z; ar_schemas := fun c => c; ar_client := None;
  ar_peek := planned_store; ar_now := 200; ar_elapsed := 5; ar_later := 6 |}.
Definition commit_call : tool_input :=
  CommitCall (Members [("planId", VStr (po_PlanID planned_out)); ("confirmationCode", VStr (po_ConfirmationCode planned_out))]).

(** The planned patch is committed through the tool, with one record. *)
Example commit_is_recorded :
  let r := call_tool (demo_app ModeSafeWrite) demo_around alice commit_call live_cluster [] in
  last (ev_persists <$> r.2) = Some true /\ length (audits (cl_telemetry r.1)) = 1 /\
  match cl_answer r.1 with Answered _ => True | _ => False end.
Proof. vm_compute. split_and!; reflexivity. Qed.

Lemma changes_are_audited_witness :
  exists es, (call_tool (demo_app ModeSafeWrite) demo_around alice commit_call live_cluster []).2 = [] ++ es /\
    (Forall (harmless alice) es \/
     audited_change (demo_config ModeSafeWrite) alice es
       (cl_telemetry (call_tool (demo_app ModeSafeWrite) demo_around alice commit_call live_cluster []).1)).
Proof. apply (changes_are_audited (demo_app ModeSafeWrite) demo_around alice commit_call live_cluster []). Defined.

Lemma read_only_server_never_writes_witness :
  exists es, (call_tool (demo_app ModeReadOnly) demo_around alice commit_call live_cluster []).2 = [] ++ es /\ Forall (harmless alice) es.
Proof. apply (read_only_server_never_writes (demo_app ModeReadOnly) demo_around alice commit_call live_cluster []). reflexivity. Defined.

Definition bad_code : raw_arguments := Members [("planId", VStr "p"); ("CONFIRMATIONCODE", VStr "12345")].
Lemma bad_code_decodes : decodeCommitInput bad_code = Ok {| ci_PlanID := "p"; ci_ConfirmationCode := "12345" |}.
Proof. vm_compute. reflexivity. Qed.

Lemma malformed_code_costs_nothing_witness :
  decodeCommitInput bad_code = Ok {| ci_PlanID := "p"; ci_ConfirmationCode := "12345" |} /\
  cl_app (call_tool (demo_app ModeSafeWrite) demo_around alice (CommitCall bad_code) live_cluster []).1 = demo_app ModeSafeWrite /\
  (call_tool (demo_app ModeSafeWrite) demo_around alice (CommitCall bad_code) live_cluster []).2 = [] /\
  match cl_answer (call_tool (demo_app ModeSafeWrite) demo_around alice (CommitCall bad_code) live_cluster []).1 with
  | Answered _ | ProtocolError _ => False | _ => True
  end.
Proof.
  split; [exact bad_code_decodes|].
  apply (malformed_code_costs_nothing (demo_app ModeSafeWrite) demo_around alice bad_code live_cluster []).
  intros input. rewrite bad_code_decodes. intros [= <-]. vm_compute. reflexivity.
Defined.

Definition started_app : App :=
  match started ModeDangerous with Ok a => a | Err _ => demo_app ModeDangerous end.

Lemma started_runs : NewApp (demo_config ModeDangerous) in_cluster (fun _ => Ok ()) (Ok demo_key) = Ok started_app.
Proof. unfold started_app, started, NewApp. by rewrite demo_config_checked by set_solver. Qed.

Lemma server_state_is_sound_witness :
  app_inv (cl_app (call_tool started_app demo_around alice commit_call live_cluster []).1).
Proof.
  apply server_state_is_sound. apply run_tool; [eapply run_new_app; exact started_runs| |exact I].
  split; [intros n c codec H; exact H|intros c H; exact H].
Defined.

Lemma started_server_limits_witness :
  let limits := Limits (cfg_Spec (demo_config ModeDangerous)) in
  app_config started_app = demo_config ModeDangerous /\ (1 <= app_slots started_app <= 32)%Z /\
  (1 <= app_globalBurst started_app <= 32000)%Z /\ app_globalBurst started_app = (Burst limits * MaxConcurrent limits)%Z /\
  (0 < requestTimeout (app_authenticator started_app) <= operationTimeout (app_authenticator started_app))%Z /\
  (StreamTimeout limits <= operationTimeout (app_authenticator started_app))%Z /\
  (ExecTimeout limits <= operationTimeout (app_authenticator started_app))%Z.
Proof. exact (started_server_limits _ _ _ _ _ started_runs). Defined.

Lemma help_matches_registration_witness :
  let config := demo_config ModeReadOnly in let request := {| hi_Tool := "k8s.plan" |} in
  let mode := Mode (cfg_Spec config) in
  (forall out, help config request = Ok out ->
     (forall s, s ∈ ho_Tools out -> (ts_Available s = true <-> ts_Name s ∈ registered mode)) /\
     (forall m, ho_Manual out = Some m -> tm_Name m = TrimSpace (hi_Tool request) /\
        (tm_Available m = true <-> tm_Name m ∈ registered mode) /\
        (fun i => (mi_Name i, mi_Required i)) <$> tm_Inputs m = input_members (tm_Name m) /\
        keys (tm_Example m) ⊆ (input_members (tm_Name m)).*1 /\
        (forall name, (name, true) ∈ input_members (tm_Name m) -> name ∈ keys (tm_Example m)))) /\
  (TrimSpace (hi_Tool request) = "" -> exists out, help config request = Ok out /\
     forall tool, tool ∈ registered mode -> tool ∈ ts_Name <$> ho_Tools out) /\
  (forall tool, tool ∈ registered mode -> TrimSpace (hi_Tool request) = tool -> is_ok (help config request) = true).
Proof.
  intros config request. apply (help_matches_registration config request). vm_compute. reflexivity.
Defined.
(** A transport that calls [k8s.help] whatever the body says. *)
#[export] Instance plain_Sdk : McpSdk := {| mcp_call _ _ := Some (HelpCall {| hi_Tool := "" |}) |}.
Definition post : mcp_request := {|
  rq_method := "POST"; rq_path := "/mcp"; rq_headers := demo_request; rq_body := Some {| cb_data := " {}"; cb_end := None |} |}.

Example post_is_served :
  match (serve (demo_app ModeReadOnly) demo_around demo_answers post live_cluster []).1.1.2 with
  | FromTool _ _ c => match cl_answer c with Answered (HelpAnswer o) => length (ho_Tools o) = 6 | _ => False end
  | _ => False
  end.
Proof. vm_compute. reflexivity. Qed.

Lemma requests_act_for_the_reviewed_caller_witness :
  exists es, (serve (demo_app ModeReadOnly) demo_around demo_answers post live_cluster []).2 = [] ++ es /\
    match (serve (demo_app ModeReadOnly) demo_around demo_answers post live_cluster []).1.1.2 with
    | FromTool i body c => exists p rest r,
        rq_path post = "/mcp" /\ rq_method post <> "DELETE" /\ Origin (rq_headers post) = "" /\
        Authorization (rq_headers post) = "Bearer " +:+ rest /\ Token p = TrimSpace rest /\
        an_review demo_answers (Token p) = Ok r /\ tr_Error r = "" /\ tr_Authenticated r = true /\
        p = {| Username := ui_Username (tr_User r); P_UID := ui_UID (tr_User r); Groups := ui_Groups (tr_User r);
               Extra := ui_Extra (tr_User r); Token := TrimSpace rest |} /\
        an_global demo_answers = true /\ an_slot demo_answers = true /\
        (Allow_ (app_rateLimiter (demo_app ModeReadOnly)) (IdentityKey p) (an_now demo_answers)).2.1 = true /\
        Forall (fun e => ev_principal e = p) es /\ mcp_call (rq_method post) body = Some i /\
        body_passed (MaxInputBytes (Limits (cfg_Spec (app_config (demo_app ModeReadOnly))))) (rq_method post) (rq_body post) body
    | _ => es = []
    end.
Proof. apply (requests_act_for_the_reviewed_caller (demo_app ModeReadOnly) demo_around demo_answers post live_cluster []). Defined.
End ServerWitness.
