(* ===== verification/OperatorClient.v ===== *)
(** * The operator's view of the cluster

    The objects the operator (src/internal/operator) reads and writes, with
    the fields it uses, and its requests: those of controller-runtime's
    client, of [controllerutil.CreateOrUpdate], of the clock and of the
    key generator.  [CreateOrUpdate] reads the object, lets the given function
    change it and writes what that returns, so the request carries the
    function.  The helpers of apimachinery and controllerutil on owner
    references and conditions are the parameters [ControllerLib], with their
    documented contract in [ControllerLaws]. *)

From Stdlib Require Import String.
From S2P Require Import Prelude GoStrings Json Errors Config Trace.

(** ** Metadata *)

Record OwnerReference := { ow_Kind : string; ow_Name : string; ow_UID : string; ow_Controller : bool }.

(** [metav1.ObjectMeta]; nil and empty maps and lists are not told apart. *)
Record ObjectMeta := {
  om_Name : string;
  om_Namespace : string;
  om_UID : string;
  om_ResourceVersion : string;
  om_Generation : Z;
  om_Labels : list (string * string);
  om_Annotations : list (string * string);
  om_OwnerReferences : list OwnerReference
}.

(** [metav1.ObjectMeta{Name: name, Namespace: namespace}]. *)
Definition new_meta (namespace name : string) : ObjectMeta := {|
  om_Name := name; om_Namespace := namespace; om_UID := ""; om_ResourceVersion := ""; om_Generation := 0;
  om_Labels := []; om_Annotations := []; om_OwnerReferences := []
|}.

(** The metadata with new labels, annotations and owners. *)
Definition relabel (m : ObjectMeta) (labels annotations : list (string * string)) (owners : list OwnerReference) : ObjectMeta := {|
  om_Name := om_Name m; om_Namespace := om_Namespace m; om_UID := om_UID m; om_ResourceVersion := om_ResourceVersion m;
  om_Generation := om_Generation m; om_Labels := labels; om_Annotations := annotations; om_OwnerReferences := owners
|}.

(** ** Objects

    A field [..._Other] holds the fields of the type that are kept as they are. *)

Record ServiceAccount := { sa_Meta : ObjectMeta; sa_AutomountServiceAccountToken : option bool; sa_Other : value }.

Record ConfigMap := { cm_Meta : ObjectMeta; cm_Data : list (string * string); cm_Other : value }.

Record Secret := { se_Meta : ObjectMeta; se_Type : string; se_Data : list (string * string); se_Other : value }.

Record ServicePort := { sp_Name : string; sp_Port : Z; sp_TargetPort : Z; sp_Protocol : string }.
Record ServiceSpec := {
  ss_Type : string;
  ss_Selector : list (string * string);
  ss_ExternalName : string;
  ss_ExternalIPs : list string;
  ss_LoadBalancerIP : string;
  ss_LoadBalancerSourceRanges : list string;
  ss_LoadBalancerClass : option string;
  ss_AllocateLoadBalancerNodePorts : option bool;
  ss_HealthCheckNodePort : Z;
  ss_ExternalTrafficPolicy : string;
  ss_Ports : list ServicePort;
  ss_Other : value
}.
Record Service := { sv_Meta : ObjectMeta; sv_Spec : ServiceSpec }.

Record PolicyRule := {
  pr_APIGroups : list string; pr_Resources : list string; pr_Verbs : list string;
  pr_ResourceNames : list string; pr_NonResourceURLs : list string
}.
Record ClusterRole := { cr_Meta : ObjectMeta; cr_AggregationRule : option value; cr_Rules : list PolicyRule }.

Record RoleRef := { rr_APIGroup : string; rr_Kind : string; rr_Name : string }.
#[global] Instance RoleRef_eq_dec : EqDecision RoleRef.
Proof. solve_decision. Defined.
Record Subject := { sj_Kind : string; sj_APIGroup : string; sj_Name : string; sj_Namespace : string }.
Record ClusterRoleBinding := { cb_Meta : ObjectMeta; cb_RoleRef : RoleRef; cb_Subjects : list Subject }.

(** Label selectors are passed on unread. *)
Record NetworkPolicyPeer := { pe_NamespaceSelector : option value; pe_PodSelector : option value }.
Record NetworkPolicyIngressRule := { ir_From : list NetworkPolicyPeer; ir_Ports : list Z }.
Record NetworkPolicySpec_ := {
  ns_PodSelector : list (string * string); ns_PolicyTypes : list string; ns_Ingress : list NetworkPolicyIngressRule
}.
Record NetworkPolicy_ := { np_Meta : ObjectMeta; np_Spec : NetworkPolicySpec_ }.

(** *** Deployments *)

Inductive VolumeSource :=
| ConfigMapVolume (name : string) (defaultMode : Z)
| SecretVolume (secretName : string) (defaultMode : Z)
| EmptyDirVolume.
Record Volume := { vo_Name : string; vo_Source : VolumeSource }.
Record VolumeMount := { vm_Name : string; vm_MountPath : string; vm_ReadOnly : bool }.
Record ContainerPort := { cp_Name : string; cp_ContainerPort : Z; cp_Protocol : string }.
Record Probe := {
  pb_Path : string; pb_Port : string; pb_Scheme : string; pb_TimeoutSeconds : Z; pb_PeriodSeconds : Z;
  pb_SuccessThreshold : Z; pb_FailureThreshold : Z
}.
Record SecurityContext := {
  sc_AllowPrivilegeEscalation : option bool; sc_ReadOnlyRootFilesystem : option bool; sc_Drop : list string
}.
Record PodSecurityContext := {
  ps_RunAsNonRoot : option bool; ps_RunAsUser : option Z; ps_RunAsGroup : option Z; ps_FSGroup : option Z;
  ps_SeccompProfile : option string
}.

Section objects.
Context {Q : QuantityLib}.

Record Container := {
  ct_Name : string;
  ct_Image : string;
  ct_ImagePullPolicy : string;
  ct_Args : list string;
  ct_Ports : list ContainerPort;
  ct_ReadinessProbe : Probe;
  ct_LivenessProbe : Probe;
  ct_TerminationMessagePath : string;
  ct_TerminationMessagePolicy : string;
  ct_SecurityContext : SecurityContext;
  ct_Resources : ResourceRequirements;
  ct_VolumeMounts : list VolumeMount
}.

Record PodSpec := {
  po_Volumes : list Volume;
  po_Containers : list Container;
  po_RestartPolicy : string;
  po_TerminationGracePeriodSeconds : option Z;
  po_DNSPolicy : string;
  po_ServiceAccountName : string;
  po_DeprecatedServiceAccount : string;
  po_AutomountServiceAccountToken : option bool;
  po_SecurityContext : PodSecurityContext;
  po_SchedulerName : string
}.

Record PodTemplateSpec := {
  pt_Labels : list (string * string); pt_Annotations : list (string * string); pt_Spec : PodSpec
}.

Record DeploymentSpec := {
  ds_Replicas : option Z;
  ds_Selector : list (string * string);
  ds_Strategy : string;
  ds_RevisionHistoryLimit : option Z;
  ds_ProgressDeadlineSeconds : option Z;
  ds_Template : PodTemplateSpec
}.
Record DeploymentStatus := { dt_ObservedGeneration : Z; dt_UpdatedReplicas : Z; dt_AvailableReplicas : Z }.
(** A Deployment that was never written has the zero spec. *)
Record Deployment := { dp_Meta : ObjectMeta; dp_Spec : option DeploymentSpec; dp_Status : DeploymentStatus }.

(** *** The server resource *)

Record Condition := {
  cd_Type : string; cd_Status : bool; cd_Reason : string; cd_Message : string; cd_ObservedGeneration : Z
}.
Record KubernetesMCPServerStatus := {
  st_ObservedGeneration : Z; st_Endpoint : string; st_CAConfigMapName : string; st_Conditions : list Condition
}.
Record ServerObject := {
  so_Server : KubernetesMCPServer;
  so_ResourceVersion : string;
  so_Deleting : bool;
  so_Finalizers : list string;
  so_Status : KubernetesMCPServerStatus
}.

(** ** Kinds *)

Inductive kind :=
| KServer | KServiceAccount | KConfigMap | KSecret | KService | KClusterRole | KClusterRoleBinding
| KNetworkPolicy | KDeployment.

Definition obj (k : kind) : Type :=
  match k with
  | KServer => ServerObject
  | KServiceAccount => ServiceAccount
  | KConfigMap => ConfigMap
  | KSecret => Secret
  | KService => Service
  | KClusterRole => ClusterRole
  | KClusterRoleBinding => ClusterRoleBinding
  | KNetworkPolicy => NetworkPolicy_
  | KDeployment => Deployment
  end.

Definition server_meta (o : ServerObject) : ObjectMeta := {|
  om_Name := Name (so_Server o); om_Namespace := Namespace (so_Server o); om_UID := UID (so_Server o);
  om_ResourceVersion := so_ResourceVersion o; om_Generation := Generation (so_Server o);
  om_Labels := []; om_Annotations := []; om_OwnerReferences := []
|}.

Definition meta_of (k : kind) : obj k -> ObjectMeta :=
  match k with
  | KServer => server_meta
  | KServiceAccount => sa_Meta
  | KConfigMap => cm_Meta
  | KSecret => se_Meta
  | KService => sv_Meta
  | KClusterRole => cr_Meta
  | KClusterRoleBinding => cb_Meta
  | KNetworkPolicy => np_Meta
  | KDeployment => dp_Meta
  end.

(** ** Requests

    [OGet], [OCreate], [OUpdate], [OUpdateStatus], [ODelete] (with the UID of the
    precondition, if any) and [OPatch] (a merge patch from the first to the
    second object) are the methods of the client; [OCreateOrUpdate] is
    [controllerutil.CreateOrUpdate] on an object with the given content, and
    answers with the object as the API server returned it.  [OGenerateKey] draws
    an ECDSA key, [OSerial] a serial number, [ONow] reads the clock. *)
Inductive op_call : Type -> Type :=
| OGet (k : kind) (namespace name : string) : op_call (result go_error (obj k))
| OCreateOrUpdate (k : kind) (o : obj k) (mutate : obj k -> result go_error (obj k)) : op_call (result go_error (obj k))
| OCreate (k : kind) (o : obj k) : op_call (result go_error (obj k))
| OUpdate (k : kind) (o : obj k) : op_call (result go_error (obj k))
| OUpdateStatus (o : ServerObject) : op_call (result go_error ServerObject)
| ODelete (k : kind) (namespace name : string) (uid : option string) : op_call (result go_error unit)
| OPatch (before after : Deployment) : op_call (result go_error Deployment)
| OGenerateKey : op_call (result go_error string)
| OSerial : op_call Z
| ONow : op_call Z.

Definition ask {A} (c : op_call A) : Trace.K unit op_call A := request () c.
End objects.

Abbreviation OpK := (Trace.K unit op_call).
Abbreviation op_event := (Trace.event unit op_call).
Abbreviation op_env := (Trace.env unit op_call).

(** ** Owner references and conditions *)

(** [metav1.IsControlledBy(object, owner)] on the owner references and the
    owner's UID, [controllerutil.SetControllerReference(owner, object, scheme)] on
    the object's namespace and owner references, and [meta.SetStatusCondition]. *)
Class ControllerLib {Q : QuantityLib} := {
  IsControlledBy : list OwnerReference -> string -> bool;
  SetControllerReference : KubernetesMCPServer -> string -> list OwnerReference -> result go_error (list OwnerReference);
  SetStatusCondition : list Condition -> Condition -> list Condition
}.

Definition condition_is (type : string) (c : Condition) : bool := bool_decide (cd_Type c = type).
Definition find_condition (type : string) (l : list Condition) : option Condition := List.find (condition_is type) l.

(** An object whose controller reference was set is controlled by that owner;
    a condition that was set is found, and the other types are as before. *)
Class ControllerLaws {Q : QuantityLib} {C : ControllerLib} : Prop := {
  set_controller s ns refs refs' :
    SetControllerReference s ns refs = Ok refs' -> IsControlledBy refs' (UID s) = true;
  condition_set l c : exists c', find_condition (cd_Type c) (SetStatusCondition l c) = Some c' /\
    cd_Status c' = cd_Status c /\ cd_Reason c' = cd_Reason c /\ cd_Message c' = cd_Message c /\
    cd_ObservedGeneration c' = cd_ObservedGeneration c;
  condition_other l c type : type <> cd_Type c ->
    find_condition type (SetStatusCondition l c) = find_condition type l
}.

(** ** An implementation of the parameters *)

Module OperatorClientWitness.
Export ConfigWitness.

Definition controller_of (refs : list OwnerReference) : option OwnerReference := List.find ow_Controller refs.

Fixpoint set_condition (l : list Condition) (c : Condition) : list Condition :=
  match l with
  | [] => [c]
  | d :: l' => if condition_is (cd_Type c) d then c :: l' else d :: set_condition l' c
  end.

#[export] Instance plain_Controller {Q : QuantityLib} : ControllerLib := {|
  IsControlledBy refs uid := match controller_of refs with Some ref => bool_decide (ow_UID ref = uid) | None => false end;
  SetControllerReference s ns refs :=
    match controller_of refs with
    | Some ref => if bool_decide (ow_UID ref = UID s) then Ok refs else Err (OtherError "already owned")
    | None => Ok (refs ++ [{| ow_Kind := "KubernetesMCPServer"; ow_Name := Name s; ow_UID := UID s; ow_Controller := true |}])
    end;
  SetStatusCondition := set_condition
|}.

Lemma controller_of_snoc refs ref : controller_of refs = None -> ow_Controller ref = true -> controller_of (refs ++ [ref]) = Some ref.
Proof.
  unfold controller_of. induction refs as [|x refs IH]; cbn; intros H Hr; [by rewrite Hr|].
  destruct (ow_Controller x); [done|auto].
Qed.

Lemma find_set_condition l c : find_condition (cd_Type c) (set_condition l c) = Some c.
Proof.
  unfold find_condition, condition_is. induction l as [|d l IH]; cbn; [by rewrite bool_decide_true|].
  unfold condition_is. case_bool_decide as Hd; cbn; [by rewrite bool_decide_true|]. by rewrite bool_decide_false.
Qed.

Lemma find_set_condition_ne l c type : type <> cd_Type c -> find_condition type (set_condition l c) = find_condition type l.
Proof.
  unfold find_condition, condition_is. intros Hne. induction l as [|d l IH]; cbn; [by rewrite bool_decide_false|].
  unfold condition_is. case_bool_decide as Hd; cbn; [|by rewrite IH]. rewrite !bool_decide_false; congruence.
Qed.

#[export] Instance plain_ControllerLaws {Q : QuantityLib} : ControllerLaws.
Proof.
  split; cbn.
  - intros s ns refs refs'. destruct (controller_of refs) as [ref|] eqn:E.
    + case_bool_decide as H; [|done]. intros [= <-]. by rewrite E, bool_decide_true.
    + intros [= <-]. by rewrite controller_of_snoc, bool_decide_true.
  - intros l c. exists c. split; [apply find_set_condition|done].
  - intros l c type. apply find_set_condition_ne.
Qed.
End OperatorClientWitness.
