(* ===== verification/Certificates.v ===== *)
(** * Serving certificates (src/internal/operator/certificates.go)

    The operator's certificate authority and the certificates it signs for
    the servers.  X.509, PEM and PKCS #8 are parameters ([X509Lib]) with the
    part of their documentation the operator relies on ([X509Laws]); the keys are
    opaque strings.  What a signature looks like is left to [CreateCertificate]. *)

From stdpp Require Import countable pretty.
From Stdlib Require Import String.
From S2P Require Import Prelude GoStrings Crypto Json Errors Config Trace OperatorClient.

(** [hash.Write(part); hash.Write([]byte{0})] over the parts. *)
Definition digestParts (parts : list string) : string :=
  hex_EncodeToString (Sum256 (concat_strings ((fun part => part +:+ String Ascii.zero "") <$> parts))).

(** ** X.509 *)

Inductive KeyUsage := KeyUsageCertSign | KeyUsageCRLSign | KeyUsageDigitalSignature | KeyUsageKeyEncipherment.
#[global] Instance KeyUsage_eq_dec : EqDecision KeyUsage.
Proof. solve_decision. Defined.

(** [x509.Certificate]; the public key is [None] when it is not ECDSA. *)
Record Certificate := {
  x_SerialNumber : Z;
  x_CommonName : string;
  x_DNSNames : list string;
  x_NotBefore : Z;
  x_NotAfter : Z;
  x_KeyUsage : list KeyUsage;
  x_ServerAuth : bool;
  x_BasicConstraintsValid : bool;
  x_IsCA : bool;
  x_PublicKey : option string
}.

Class X509Lib := {
  public_key : string -> string;
  pem_Decode : string -> option string;
  pem_Encode : string -> string -> string;
  ParseCertificate : string -> result go_error Certificate;
  ParsePKCS8PrivateKey : string -> result go_error (option string);
  MarshalPKCS8PrivateKey : string -> result go_error string;
  (** template, parent, public key, signing key *)
  CreateCertificate : Certificate -> Certificate -> string -> string -> result go_error string;
  (** the DER certificates of a PEM pair whose keys match *)
  X509KeyPair : string -> string -> result go_error (list string);
  (** the certificates of a PEM bundle *)
  CertsFromPEM : string -> list Certificate;
  (** leaf, DNS name, roots, intermediates, time; for server authentication *)
  Verify : Certificate -> string -> list Certificate -> list Certificate -> Z -> result go_error unit
}.

Definition rootCASecretName : string := "supek8smcp-serving-ca".
Definition SecretTypeTLS : string := "kubernetes.io/tls".
Definition day : Z := 24 * 60 * minute.

Record certificateAuthority := { ca_cert : Certificate; ca_key : string; ca_certPEM : string; ca_keyPEM : string }.
Record servingCertificateMaterial := { caBundle : string; revision : string }.

(** [secret.Data[key]]: nil is empty. *)
Definition data_of (s : Secret) (key : string) : string := default "" (obj_get (se_Data s) key).

Section certificates.
Context {G : GoLib} {Q : QuantityLib} {C : ControllerLib} {X : X509Lib}.

Definition requireControllerOwnership (server : KubernetesMCPServer) (m : ObjectMeta) : result go_error unit :=
  if bool_decide (om_ResourceVersion m = "") && bool_decide (om_UID m = "") then Ok ()
  else if IsControlledBy (om_OwnerReferences m) (UID server) then Ok ()
  else Err (OtherError ("resource " +:+ (om_Namespace m +:+ ("/" +:+ (om_Name m +:+
              " already exists and is not controlled by this KubernetesMCPServer"))))).

(** ** The certificate authority *)

(** With the serial number and the time it read. *)
Definition ca_template (serial now : Z) : Certificate := {|
  x_SerialNumber := serial; x_CommonName := "SupeK8sMCP Serving CA"; x_DNSNames := [];
  x_NotBefore := now - 5 * minute; x_NotAfter := now + 5 * 365 * day;
  x_KeyUsage := [KeyUsageCertSign; KeyUsageCRLSign; KeyUsageDigitalSignature]; x_ServerAuth := false;
  x_BasicConstraintsValid := true; x_IsCA := true; x_PublicKey := None
|}.

Definition newCA : OpK (result go_error certificateAuthority) :=
  (let! generated := ask OGenerateKey in
   match generated with
   | Err err => kret (Err (Wrapped "generate CA key" err))
   | Ok key =>
     let! now := ask ONow in
     let! serial := ask OSerial in
     let template := ca_template serial now in
     match CreateCertificate template template (public_key key) key with
     | Err err => kret (Err (Wrapped "create CA certificate" err))
     | Ok der =>
       match MarshalPKCS8PrivateKey key with
       | Err err => kret (Err (Wrapped "marshal CA key" err))
       | Ok keyDER =>
         kret (Ok {| ca_cert := template; ca_key := key; ca_certPEM := pem_Encode "CERTIFICATE" der;
                     ca_keyPEM := pem_Encode "PRIVATE KEY" keyDER |})
       end
     end
   end)%kube.

(** The checks of [parseCA] up to the one of the time. *)
Definition parse_pair (certPEM keyPEM : string) : result go_error (Certificate * string) :=
  match pem_Decode certPEM, pem_Decode keyPEM with
  | Some certBytes, Some keyBytes =>
    match ParseCertificate certBytes with
    | Err err => Err (Wrapped "parse CA certificate" err)
    | Ok cert =>
      match ParsePKCS8PrivateKey keyBytes with
      | Err err => Err (Wrapped "parse CA key" err)
      | Ok None => Err (OtherError "operator CA key is not ECDSA")
      | Ok (Some key) =>
        if negb (bool_decide (x_PublicKey cert = Some (public_key key))) then
          Err (OtherError "operator CA certificate and key do not match")
        else if negb (x_IsCA cert) || negb (bool_decide (KeyUsageCertSign ∈ x_KeyUsage cert)) then
          Err (OtherError "operator CA certificate is not valid for certificate signing")
        else Ok (cert, key)
      end
    end
  | _, _ => Err (OtherError "operator CA Secret contains invalid PEM")
  end.

Definition parseCA (certPEM keyPEM : string) : OpK (result go_error certificateAuthority) :=
  (ok? parsed := parse_pair certPEM keyPEM in
   let! now := ask ONow in
   if (now <? x_NotBefore parsed.1)%Z || (x_NotAfter parsed.1 <? now)%Z then
     kret (Err (OtherError "operator CA certificate is not currently valid"))
   else kret (Ok {| ca_cert := parsed.1; ca_key := parsed.2; ca_certPEM := certPEM; ca_keyPEM := keyPEM |}))%kube.

Definition ca_secret (namespace : string) (ca : certificateAuthority) : Secret := {|
  se_Meta := new_meta namespace rootCASecretName; se_Type := "Opaque";
  se_Data := [("ca.crt", ca_certPEM ca); ("ca.key", ca_keyPEM ca)]; se_Other := VNull
|}.

Definition ensureRootCA (operatorNamespace : string) : OpK (result go_error certificateAuthority) :=
  (let! found := ask (OGet KSecret operatorNamespace rootCASecretName) in
   match found with
   | Ok secret => parseCA (data_of secret "ca.crt") (data_of secret "ca.key")
   | Err err =>
     if negb (IsNotFound err) then kret (Err (Wrapped "get root CA" err))
     else
     let? ca := newCA in
     let! created := ask (OCreate KSecret (ca_secret operatorNamespace ca)) in
     match created with
     | Ok _ => kret (Ok ca)
     | Err err =>
       if IsAlreadyExists err then
         let! again := ask (OGet KSecret operatorNamespace rootCASecretName) in
         match again with
         | Err err => kret (Err (Wrapped "get concurrently-created root CA" err))
         | Ok secret => parseCA (data_of secret "ca.crt") (data_of secret "ca.key")
         end
       else kret (Err (Wrapped "create root CA" err))
     end
   end)%kube.

(** ** Serving certificates *)

Definition service_host (server : KubernetesMCPServer) : string := Name server +:+ ("." +:+ (Namespace server +:+ ".svc")).

(** The chain that is verified: the leaf and the intermediates. *)
Fixpoint parse_chain (ders : list string) : result go_error (list Certificate) :=
  match ders with
  | [] => Ok []
  | der :: rest =>
    match ParseCertificate der with
    | Err err => Err (Wrapped "parse certificate chain" err)
    | Ok certificate => more ← parse_chain rest; Ok (certificate :: more)
    end
  end.

Definition validateServingTLS (secret : Secret) (server : KubernetesMCPServer) (bundle : string) : OpK (result go_error unit) :=
  (match X509KeyPair (data_of secret "tls.crt") (data_of secret "tls.key") with
   | Err err => kret (Err (Wrapped "parse certificate and private key" err))
   | Ok [] => kret (Err (OtherError "tls.crt contains no certificate"))
   | Ok (der :: chain) =>
     match ParseCertificate der with
     | Err err => kret (Err (Wrapped "parse serving certificate" err))
     | Ok leaf =>
       match CertsFromPEM bundle with
       | [] => kret (Err (OtherError "ca.crt contains no certificate"))
       | roots =>
         ok? intermediates := parse_chain chain in
         let! now := ask ONow in
         match Verify leaf (service_host server) roots intermediates now with
         | Err err => kret (Err (Wrapped ("verify certificate for " +:+ service_host server) err))
         | Ok _ => kret (Ok ())
         end
       end
     end
   end)%kube.

Definition validateConfiguredTLS (secret : Secret) (server : KubernetesMCPServer) : OpK (result go_error unit) :=
  validateServingTLS secret server (data_of secret "ca.crt").

Definition servingCertificateValid (secret : Secret) (server : KubernetesMCPServer) (bundle : string) (remaining : Z) : OpK bool :=
  (if bool_decide (se_Type secret <> SecretTypeTLS) then kret false
   else
   let! validated := validateServingTLS secret server bundle in
   match validated with
   | Err _ => kret false
   | Ok _ =>
     match X509KeyPair (data_of secret "tls.crt") (data_of secret "tls.key") with
     | Err _ | Ok [] => kret false
     | Ok (der :: _) =>
       match ParseCertificate der with
       | Err _ => kret false
       | Ok cert =>
         let! now := ask ONow in
         kret (negb (time_Sub (x_NotAfter cert) now <? remaining)%Z)
       end
     end
   end)%kube.

Definition server_template (server : KubernetesMCPServer) (serial now : Z) : Certificate := {|
  x_SerialNumber := serial; x_CommonName := service_host server;
  x_DNSNames := [Name server; Name server +:+ ("." +:+ Namespace server); service_host server;
                 service_host server +:+ ".cluster.local"];
  x_NotBefore := now - 5 * minute; x_NotAfter := now + 90 * day;
  x_KeyUsage := [KeyUsageDigitalSignature; KeyUsageKeyEncipherment]; x_ServerAuth := true;
  x_BasicConstraintsValid := false; x_IsCA := false; x_PublicKey := None
|}.

Definition signServer (ca : certificateAuthority) (server : KubernetesMCPServer) : OpK (result go_error (string * string)) :=
  (let! generated := ask OGenerateKey in
   match generated with
   | Err err => kret (Err (Wrapped "generate serving key" err))
   | Ok key =>
     let! now := ask ONow in
     let! serial := ask OSerial in
     match CreateCertificate (server_template server serial now) (ca_cert ca) (public_key key) (ca_key ca) with
     | Err err => kret (Err (Wrapped "sign serving certificate" err))
     | Ok der =>
       match MarshalPKCS8PrivateKey key with
       | Err err => kret (Err (Wrapped "marshal serving key" err))
       | Ok keyDER => kret (Ok (pem_Encode "CERTIFICATE" der, pem_Encode "PRIVATE KEY" keyDER))
       end
     end
   end)%kube.

Definition materialForSecret (secret : Secret) (bundle : string) : servingCertificateMaterial := {|
  caBundle := bundle;
  revision := digestParts [data_of secret "tls.crt"; data_of secret "tls.key"; om_ResourceVersion (se_Meta secret)]
|}.

(** The two functions given to [CreateOrUpdate]. *)
Definition relabel_secret (server : KubernetesMCPServer) (s : Secret) : result go_error Secret :=
  _ ← requireControllerOwnership server (se_Meta s);
  owners ← SetControllerReference server (om_Namespace (se_Meta s)) (om_OwnerReferences (se_Meta s));
  Ok {| se_Meta := relabel (se_Meta s) (ServerLabels server) (om_Annotations (se_Meta s)) owners;
        se_Type := se_Type s; se_Data := se_Data s; se_Other := se_Other s |}.

Definition fill_secret (server : KubernetesMCPServer) (certPEM keyPEM bundle : string) (s : Secret) : result go_error Secret :=
  _ ← requireControllerOwnership server (se_Meta s);
  let m := se_Meta s in
  let m := {| om_Name := TLSSecretName server; om_Namespace := Namespace server; om_UID := om_UID m;
              om_ResourceVersion := om_ResourceVersion m; om_Generation := om_Generation m; om_Labels := om_Labels m;
              om_Annotations := om_Annotations m; om_OwnerReferences := om_OwnerReferences m |} in
  owners ← SetControllerReference server (om_Namespace m) (om_OwnerReferences m);
  Ok {| se_Meta := relabel m (ServerLabels server) (om_Annotations m) owners; se_Type := SecretTypeTLS;
        se_Data := [("tls.crt", certPEM); ("tls.key", keyPEM); ("ca.crt", bundle)]; se_Other := se_Other s |}.

Definition new_secret (namespace name : string) : Secret :=
  {| se_Meta := new_meta namespace name; se_Type := ""; se_Data := []; se_Other := VNull |}.

Definition configured_certificate (server : KubernetesMCPServer) : OpK (result go_error servingCertificateMaterial) :=
  let name := TLSSecretName server in
  (let! found := ask (OGet KSecret (Namespace server) name) in
   match found with
   | Err err => kret (Err (Wrapped "get configured TLS Secret" err))
   | Ok secret =>
     if bool_decide (se_Type secret <> SecretTypeTLS) then
       kret (Err (OtherError ("TLS Secret " +:+ (name +:+ (" must have type " +:+ SecretTypeTLS)))))
     else if bool_decide (data_of secret "tls.crt" = "") || bool_decide (data_of secret "tls.key" = "")
             || bool_decide (data_of secret "ca.crt" = "") then
       kret (Err (OtherError ("TLS Secret " +:+ (name +:+ " must contain tls.crt, tls.key, and ca.crt"))))
     else
     let! validated := validateConfiguredTLS secret server in
     match validated with
     | Err err => kret (Err (Wrapped ("validate TLS Secret " +:+ name) err))
     | Ok _ => kret (Ok (materialForSecret secret (data_of secret "ca.crt")))
     end
   end)%kube.

(** A new certificate, written over [secret]. *)
Definition issue_certificate (server : KubernetesMCPServer) (ca : certificateAuthority) (secret : Secret)
    : OpK (result go_error servingCertificateMaterial) :=
  (let? signed := signServer ca server in
   let! written := ask (OCreateOrUpdate KSecret secret (fill_secret server signed.1 signed.2 (ca_certPEM ca))) in
   match written with
   | Err err => kret (Err (Wrapped "reconcile serving certificate" err))
   | Ok secret => kret (Ok (materialForSecret secret (ca_certPEM ca)))
   end)%kube.

Definition managed_certificate (server : KubernetesMCPServer) (ca : certificateAuthority)
    : OpK (result go_error servingCertificateMaterial) :=
  let name := TLSSecretName server in
  (let! found := ask (OGet KSecret (Namespace server) name) in
   match found with
   | Ok secret =>
     match requireControllerOwnership server (se_Meta secret) with
     | Err err => kret (Err (Wrapped "validate managed serving certificate ownership" err))
     | Ok _ =>
       let! valid := servingCertificateValid secret server (ca_certPEM ca) (30 * day) in
       if valid then
         let! written := ask (OCreateOrUpdate KSecret secret (relabel_secret server)) in
         match written with
         | Err err => kret (Err (Wrapped "reconcile serving certificate metadata" err))
         | Ok secret => kret (Ok (materialForSecret secret (ca_certPEM ca)))
         end
       else issue_certificate server ca secret
     end
   | Err err =>
     if IsNotFound err then issue_certificate server ca (new_secret (Namespace server) name)
     else kret (Err (Wrapped "get serving certificate" err))
   end)%kube.

Definition ensureServingCertificate (server : KubernetesMCPServer) (ca : option certificateAuthority)
    : OpK (result go_error servingCertificateMaterial) :=
  if bool_decide (TLS_SecretName (Spec server) <> "") then configured_certificate server
  else match ca with
       | None => kret (Err (OtherError "operator CA is required for a managed serving certificate"))
       | Some ca => managed_certificate server ca
       end.
End certificates.

(** ** What a certificate in use has passed *)

Section verified.
Context {G : GoLib} {Q : QuantityLib} {C : ControllerLib} {X : X509Lib}.

(** The key pair of [secret] is a certificate for the Service of [server] that
    chains up to [bundle] at the time [now]; [leaf] is that certificate. *)
Definition verified (secret : Secret) (server : KubernetesMCPServer) (bundle : string) (now : Z) (leaf : Certificate) : Prop :=
  exists der chain intermediates,
    X509KeyPair (data_of secret "tls.crt") (data_of secret "tls.key") = Ok (der :: chain) /\
    ParseCertificate der = Ok leaf /\ parse_chain chain = Ok intermediates /\ CertsFromPEM bundle <> [] /\
    Verify leaf (service_host server) (CertsFromPEM bundle) intermediates now = Ok ().

Definition asked_now (es : list op_event) (now : Z) : Prop := Ev () ONow now ∈ es.

Lemma validateServingTLS_satisfies secret server bundle :
  satisfies (validateServingTLS secret server bundle) (fun res es => res = Ok () ->
    exists now leaf, asked_now es now /\ verified secret server bundle now leaf).
Proof.
  unfold validateServingTLS. destruct (X509KeyPair _ _) as [[|der chain]|] eqn:Ek; [by satisfies_step| |by satisfies_step].
  destruct (ParseCertificate der) as [leaf|] eqn:Ep; [|by satisfies_step].
  destruct (CertsFromPEM bundle) as [|root roots] eqn:Eb; [by satisfies_step|].
  destruct (parse_chain chain) as [intermediates|] eqn:Ec; [|by satisfies_step].
  unfold ask. satisfies_step. destruct (Verify _ _ _ _ _) as [[]|] eqn:Ev; satisfies_step; [|done]. intros _.
  exists a, leaf. split; [by left|]. exists der, chain, intermediates. rewrite Eb. by split_and!.
Qed.

Lemma servingCertificateValid_satisfies secret server bundle remaining :
  satisfies (servingCertificateValid secret server bundle remaining) (fun res es => res = true ->
    se_Type secret = SecretTypeTLS /\ exists now leaf later, asked_now es now /\ verified secret server bundle now leaf /\
      asked_now es later /\ (remaining <= time_Sub (x_NotAfter leaf) later)%Z).
Proof.
  unfold servingCertificateValid. case_bool_decide as Ht; [by satisfies_step|].
  eapply satisfies_bind; [apply validateServingTLS_satisfies|]. intros [[]|] es Hv; [|by satisfies_step].
  destruct (Hv eq_refl) as (now & leaf & Hn & Hver). pose proof Hver as (der & chain & intermediates & Hk & Hp & _).
  rewrite Hk, Hp. unfold ask. satisfies_step. satisfies_step. intros Hr. split; [done|].
  exists now, leaf, a. unfold asked_now in *. split_and!; [set_solver|done|set_solver|]. reflect_bools. lia.
Qed.

(** Nobody else changed the Secret between the moment the operator read it and the
    moment it wrote it: the write was applied to what was read, and its type and data were stored as sent. *)
Definition undisturbed (e : op_event) : Prop :=
  match ev_call e in op_call A return A -> Prop with
  | OCreateOrUpdate KSecret s mutate => fun answer => forall s', answer = Ok s' ->
      exists sent, mutate s = Ok sent /\ se_Type s' = se_Type sent /\ se_Data s' = se_Data sent
  | _ => fun _ => True
  end (ev_answer e).

Lemma relabel_secret_keeps server s s' : relabel_secret server s = Ok s' -> se_Type s' = se_Type s /\ se_Data s' = se_Data s.
Proof. intros H. apply bind_unit_ok in H as [_ H]. by apply bind_ok in H as (owners & _ & [= <-]). Qed.

Lemma fill_secret_data server certPEM keyPEM bundle s s' :
  fill_secret server certPEM keyPEM bundle s = Ok s' ->
  se_Type s' = SecretTypeTLS /\ se_Data s' = [("tls.crt", certPEM); ("tls.key", keyPEM); ("ca.crt", bundle)].
Proof. intros H. apply bind_unit_ok in H as [_ H]. by apply bind_ok in H as (owners & _ & [= <-]). Qed.

Lemma verified_data secret secret' server bundle now leaf :
  se_Data secret' = se_Data secret -> verified secret server bundle now leaf -> verified secret' server bundle now leaf.
Proof. unfold verified, data_of. by intros ->. Qed.

(** Where the certificate a server is given comes from.  The last two cases end with a
    write that reads the Secret once more: what is known of the Secret that write returned,
    which is the one in use, is known as far as nobody changed it in between. *)
Inductive provenance (server : KubernetesMCPServer) (ca : option certificateAuthority) (es : list op_event)
    : servingCertificateMaterial -> Prop :=
| from_configured secret now leaf :
    TLS_SecretName (Spec server) <> "" ->
    Ev () (OGet KSecret (Namespace server) (TLSSecretName server)) (Ok secret) ∈ es -> se_Type secret = SecretTypeTLS ->
    asked_now es now -> verified secret server (data_of secret "ca.crt") now leaf ->
    provenance server ca es (materialForSecret secret (data_of secret "ca.crt"))
| from_kept a secret now leaf later secret' :
    TLS_SecretName (Spec server) = "" -> ca = Some a ->
    Ev () (OGet KSecret (Namespace server) (TLSSecretName server)) (Ok secret) ∈ es ->
    requireControllerOwnership server (se_Meta secret) = Ok () -> se_Type secret = SecretTypeTLS ->
    asked_now es now -> verified secret server (ca_certPEM a) now leaf ->
    asked_now es later -> (30 * day <= time_Sub (x_NotAfter leaf) later)%Z ->
    Ev () (OCreateOrUpdate KSecret secret (relabel_secret server)) (Ok secret') ∈ es ->
    (Forall undisturbed es -> se_Type secret' = SecretTypeTLS /\ verified secret' server (ca_certPEM a) now leaf) ->
    provenance server ca es (materialForSecret secret' (ca_certPEM a))
| from_issued a secret key serial now der keyDER secret' :
    TLS_SecretName (Spec server) = "" -> ca = Some a ->
    asked_now es now -> Ev () OGenerateKey (Ok key) ∈ es ->
    CreateCertificate (server_template server serial now) (ca_cert a) (public_key key) (ca_key a) = Ok der ->
    MarshalPKCS8PrivateKey key = Ok keyDER ->
    Ev () (OCreateOrUpdate KSecret secret
             (fill_secret server (pem_Encode "CERTIFICATE" der) (pem_Encode "PRIVATE KEY" keyDER) (ca_certPEM a))) (Ok secret') ∈ es ->
    (Forall undisturbed es -> se_Type secret' = SecretTypeTLS /\
       data_of secret' "tls.crt" = pem_Encode "CERTIFICATE" der /\ data_of secret' "tls.key" = pem_Encode "PRIVATE KEY" keyDER) ->
    provenance server ca es (materialForSecret secret' (ca_certPEM a)).

Lemma provenance_mono server ca es es' m : es ⊆ es' -> provenance server ca es m -> provenance server ca es' m.
Proof.
  unfold asked_now. intros Hs. assert (Forall undisturbed es' -> Forall undisturbed es) as Hu.
  { rewrite !Forall_forall. auto. }
  destruct 1; subst.
  - eapply (from_configured _ _ _ secret now leaf); unfold asked_now; auto.
  - eapply (from_kept _ _ _ a secret now leaf later secret'); unfold asked_now; auto.
  - eapply (from_issued _ _ _ a secret key serial now der keyDER secret'); unfold asked_now; auto.
Qed.

Lemma issue_certificate_satisfies server a secret :
  TLS_SecretName (Spec server) = "" ->
  satisfies (issue_certificate server a secret) (fun res es => forall m, res = Ok m -> provenance server (Some a) es m).
Proof.
  intros Hs. unfold issue_certificate, signServer.
  eapply satisfies_bind with (P := fun res es => forall signed, res = Ok signed -> exists key serial now der keyDER,
    signed = (pem_Encode "CERTIFICATE" der, pem_Encode "PRIVATE KEY" keyDER) /\ asked_now es now /\ Ev () OGenerateKey (Ok key) ∈ es /\
    CreateCertificate (server_template server serial now) (ca_cert a) (public_key key) (ca_key a) = Ok der /\
    MarshalPKCS8PrivateKey key = Ok keyDER).
  - unfold ask. satisfies_step. destruct a0 as [key|]; [|by satisfies_step].
    apply satisfies_request_bind; intros now. apply satisfies_request_bind; intros serial.
    destruct (CreateCertificate _ _ _ _) as [der|] eqn:Ec; [|by satisfies_step].
    destruct (MarshalPKCS8PrivateKey key) as [keyDER|] eqn:Em; satisfies_step; [|done]. intros signed [= <-].
    exists key, serial, now, der, keyDER. unfold asked_now. split_and!; [done|set_solver|set_solver|done..].
  - intros [signed|] es Hsig; [|by satisfies_step]. destruct (Hsig _ eq_refl) as (key & serial & now & der & keyDER & -> & ? & ? & ? & ?).
    unfold ask, asked_now in *. satisfies_step. destruct a0 as [secret'|]; satisfies_step; [|done]. intros m [= <-].
    eapply (from_issued _ _ _ a secret key serial now der keyDER secret'); unfold asked_now; try done; [set_solver..|].
    intros Hu. destruct (proj1 (Forall_forall _ _) Hu (Ev () (OCreateOrUpdate KSecret secret (fill_secret server
      (pem_Encode "CERTIFICATE" der) (pem_Encode "PRIVATE KEY" keyDER) (ca_certPEM a))) (Ok secret')) ltac:(set_solver) secret' eq_refl)
      as (sent & (Ht & Hd)%fill_secret_data & -> & E). unfold data_of. by rewrite E, Hd.
Qed.

Lemma ensureServingCertificate_satisfies server ca :
  satisfies (ensureServingCertificate server ca) (fun res es => forall m, res = Ok m -> provenance server ca es m).
Proof.
  unfold ensureServingCertificate. case_bool_decide as Hs.
  - unfold configured_certificate, ask, validateConfiguredTLS. cbn zeta. satisfies_step. destruct a as [secret|]; [|by satisfies_step].
    case_bool_decide as Ht; [by satisfies_step|]. destruct (_ || _ || _); [by satisfies_step|].
    eapply satisfies_bind; [apply validateServingTLS_satisfies|]. intros [[]|] es Hv; satisfies_step; [|done].
    intros m [= <-]. destruct (Hv eq_refl) as (now & leaf & ? & ?). unfold asked_now in *.
    eapply from_configured; unfold asked_now; try done; set_solver.
  - destruct ca as [a|]; [|by satisfies_step]. unfold managed_certificate. unfold ask at 1. cbn zeta. satisfies_step.
    destruct a0 as [secret|err].
    + destruct (requireControllerOwnership server (se_Meta secret)) as [[]|] eqn:Eo; [|by satisfies_step].
      eapply satisfies_bind; [apply servingCertificateValid_satisfies|]. intros [] es Hv.
      * destruct (Hv eq_refl) as (Ht & now & leaf & later & ? & ? & ? & ?). unfold ask. satisfies_step.
        destruct a0 as [secret'|]; satisfies_step; [|done]. intros m [= <-]. unfold asked_now in *.
        eapply (from_kept _ _ _ a secret now leaf later); unfold asked_now; try done; [set_solver..|].
        intros Hu. destruct (proj1 (Forall_forall _ _) Hu (Ev () (OCreateOrUpdate KSecret secret (relabel_secret server)) (Ok secret'))
          ltac:(set_solver) secret' eq_refl) as (sent & (Ht' & Hd)%relabel_secret_keeps & E1 & E2).
        split; [congruence|]. eapply verified_data; [|done]. congruence.
      * eapply satisfies_weaken; [by apply issue_certificate_satisfies|]. cbn. intros res es' Hr m Hm.
        eapply provenance_mono; [|by apply Hr]. set_solver.
    + destruct (IsNotFound err); [|by satisfies_step].
      eapply satisfies_weaken; [by apply issue_certificate_satisfies|]. cbn. intros res es' Hr m Hm.
      eapply provenance_mono; [|by apply Hr]. set_solver.
Qed.
End verified.

(** ** The certificate authority in use *)

Section authority.
Context {G : GoLib} {Q : QuantityLib} {C : ControllerLib} {X : X509Lib}.

(** What [parseCA] establishes about a stored pair. *)
Record usable_pair (certPEM keyPEM : string) (cert : Certificate) (key : string) : Prop := {
  up_matches : x_PublicKey cert = Some (public_key key);
  up_ca : x_IsCA cert = true;
  up_signs : KeyUsageCertSign ∈ x_KeyUsage cert;
  up_decoded : exists certBytes keyBytes, pem_Decode certPEM = Some certBytes /\ ParseCertificate certBytes = Ok cert /\
    pem_Decode keyPEM = Some keyBytes /\ ParsePKCS8PrivateKey keyBytes = Ok (Some key)
}.

Lemma parse_pair_ok certPEM keyPEM cert key :
  parse_pair certPEM keyPEM = Ok (cert, key) <-> usable_pair certPEM keyPEM cert key.
Proof.
  unfold parse_pair. split.
  - destruct (pem_Decode certPEM) as [cb|] eqn:E1; [|done]. destruct (pem_Decode keyPEM) as [kb|] eqn:E2; [|done].
    destruct (ParseCertificate cb) as [c|] eqn:E3; [|done]. destruct (ParsePKCS8PrivateKey kb) as [[k|]|] eqn:E4; [|done..].
    case_bool_decide as Hm; cbn [negb]; [|done]. destruct (negb (x_IsCA c) || _) eqn:E5; [done|]. intros [= <- <-].
    reflect_bools. split; [done..|]. by exists cb, kb.
  - intros [Hm Hc Hs (cb & kb & -> & -> & -> & ->)]. rewrite bool_decide_true by done. rewrite Hc, bool_decide_true by done. done.
Qed.

Inductive ca_provenance (namespace : string) (es : list op_event) : certificateAuthority -> Prop :=
| ca_stored secret now cert key :
    Ev () (OGet KSecret namespace rootCASecretName) (Ok secret) ∈ es -> asked_now es now ->
    usable_pair (data_of secret "ca.crt") (data_of secret "ca.key") cert key ->
    (x_NotBefore cert <= now <= x_NotAfter cert)%Z ->
    ca_provenance namespace es {| ca_cert := cert; ca_key := key; ca_certPEM := data_of secret "ca.crt"; ca_keyPEM := data_of secret "ca.key" |}
| ca_created ca secret serial now :
    Ev () (OCreate KSecret (ca_secret namespace ca)) (Ok secret) ∈ es -> asked_now es now ->
    ca_cert ca = ca_template serial now -> ca_provenance namespace es ca.

Lemma parseCA_satisfies namespace secret es0 :
  Ev () (OGet KSecret namespace rootCASecretName) (Ok secret) ∈ es0 ->
  satisfies (parseCA (data_of secret "ca.crt") (data_of secret "ca.key")) (fun res es =>
    forall ca, res = Ok ca -> ca_provenance namespace (es0 ++ es) ca).
Proof.
  intros Hs. unfold parseCA. destruct (parse_pair _ _) as [[cert key]|] eqn:Ep; [|by satisfies_step].
  apply parse_pair_ok in Ep. unfold ask. satisfies_step. destruct (_ || _) eqn:Et; satisfies_step; [done|].
  intros ca [= <-]. reflect_bools. cbn in *. apply (ca_stored _ _ secret a cert key); [set_solver|unfold asked_now; set_solver|done|lia].
Qed.

Lemma ensureRootCA_satisfies namespace :
  satisfies (ensureRootCA namespace) (fun res es => forall ca, res = Ok ca -> ca_provenance namespace es ca).
Proof.
  unfold ensureRootCA. unfold ask at 1. satisfies_step. destruct a as [secret|err].
  { eapply satisfies_weaken; [apply (parseCA_satisfies namespace secret [Ev () (OGet KSecret namespace rootCASecretName) (Ok secret)]); by left|].
    done. }
  destruct (negb _); [by satisfies_step|].
  eapply satisfies_bind with (P := fun res es => forall ca, res = Ok ca -> exists serial now, asked_now es now /\ ca_cert ca = ca_template serial now).
  { unfold newCA, ask. satisfies_step. destruct a as [key|]; [|by satisfies_step].
    apply satisfies_request_bind; intros now. apply satisfies_request_bind; intros serial.
    destruct (CreateCertificate _ _ _ _) as [der|]; [|by satisfies_step].
    destruct (MarshalPKCS8PrivateKey key); satisfies_step; [|done]. intros ca [= <-]. exists serial, now.
    split; [unfold asked_now; set_solver|done]. }
  intros [ca|] es Hca; [|by satisfies_step]. destruct (Hca _ eq_refl) as (serial & now & Hn & Ht).
  unfold ask at 1. apply satisfies_request_bind; intros [created|err'].
  - satisfies_step. intros ca' [= <-]. apply (ca_created _ _ ca created serial now); [set_solver|unfold asked_now in *; set_solver|done].
  - destruct (IsAlreadyExists err'); [|by satisfies_step]. unfold ask at 1. apply satisfies_request_bind; intros [secret|]; [|by satisfies_step].
    eapply satisfies_weaken; [apply (parseCA_satisfies namespace secret
      (Ev () (OGet KSecret namespace rootCASecretName) (Err err) :: es ++ [Ev () (OCreate KSecret (ca_secret namespace ca)) (Err err');
         Ev () (OGet KSecret namespace rootCASecretName) (Ok secret)])); set_solver|].
    cbn. intros res es' Hr ca' Hres. specialize (Hr ca' Hres). by rewrite <- app_assoc in Hr.
Qed.
End authority.

(** ** Signing and checking agree *)

(** Times are kept to the second in a certificate. *)
Definition floor_second (t : Z) : Z := t - t mod second.

(** A certificate carries its template and the given key; it makes a pair with
    that key; a PEM bundle holds the certificates it was made of; and a leaf
    is verified when it names the host, is for servers, was signed by a
    certificate authority among the roots, and both are within their time. *)
Class X509Laws {X : X509Lib} : Prop := {
  created_parses t parent pub key der : CreateCertificate t parent pub key = Ok der ->
    ParseCertificate der = Ok {|
      x_SerialNumber := x_SerialNumber t; x_CommonName := x_CommonName t; x_DNSNames := x_DNSNames t;
      x_NotBefore := floor_second (x_NotBefore t); x_NotAfter := floor_second (x_NotAfter t);
      x_KeyUsage := x_KeyUsage t; x_ServerAuth := x_ServerAuth t; x_BasicConstraintsValid := x_BasicConstraintsValid t;
      x_IsCA := x_IsCA t; x_PublicKey := Some pub |};
  created_pairs t parent key signer der keyDER :
    CreateCertificate t parent (public_key key) signer = Ok der -> MarshalPKCS8PrivateKey key = Ok keyDER ->
    X509KeyPair (pem_Encode "CERTIFICATE" der) (pem_Encode "PRIVATE KEY" keyDER) = Ok [der];
  signed_verifies t parent pub signer der leaf host roots root now :
    CreateCertificate t parent pub signer = Ok der -> ParseCertificate der = Ok leaf ->
    host ∈ x_DNSNames leaf -> x_ServerAuth leaf = true -> root ∈ roots ->
    x_CommonName root = x_CommonName parent -> x_PublicKey root = Some (public_key signer) ->
    x_IsCA root = true -> x_BasicConstraintsValid root = true -> KeyUsageCertSign ∈ x_KeyUsage root ->
    (x_NotBefore leaf <= now <= x_NotAfter leaf)%Z -> (x_NotBefore root <= now <= x_NotAfter root)%Z ->
    Verify leaf host roots [] now = Ok ()
}.

Lemma floor_second_bounds t : (t - second < floor_second t <= t)%Z.
Proof. unfold floor_second, second. pose proof (Z.mod_pos_bound t 1000000000). lia. Qed.

(** ** Properties *)

Section properties.
Context {G : GoLib} {Q : QuantityLib} {C : ControllerLib} {X : X509Lib}.

(** C20: The certificate a server is given was checked: it is that of a
    configured Secret verified in this very call; or that of this server's managed Secret, which was
    verified in this call with thirty days left and then only relabelled; or it was
    just signed for this server by the operator's authority and written.  In the two
    managed cases the Secret in use is the one the final write returned; its certificate is the
    verified one, or the signed one, provided that nobody else changed the Secret between the
    operator's read and its write, which verifies nothing again. *)
Theorem serving_certificate_is_checked server ca w h :
  exists es, (ensureServingCertificate server ca w h).2 = h ++ es /\
    forall material, (ensureServingCertificate server ca w h).1 = Ok material -> provenance server ca es material.
Proof. apply ensureServingCertificate_satisfies. Qed.

(** The authority in use is the stored one, with a matching key, the right to sign
    and valid now, or one that was just created and stored. *)
Theorem root_ca_is_usable namespace w h :
  exists es, (ensureRootCA namespace w h).2 = h ++ es /\
    forall ca, (ensureRootCA namespace w h).1 = Ok ca -> ca_provenance namespace es ca.
Proof. apply ensureRootCA_satisfies. Qed.

Context {L : X509Laws}.

(** The root by which the authority's signatures are checked. *)
Record root_of (ca : certificateAuthority) (root : Certificate) : Prop := {
  ro_bundled : root ∈ CertsFromPEM (ca_certPEM ca);
  ro_name : x_CommonName root = x_CommonName (ca_cert ca);
  ro_key : x_PublicKey root = Some (public_key (ca_key ca));
  ro_ca : x_IsCA root = true /\ x_BasicConstraintsValid root = true /\ KeyUsageCertSign ∈ x_KeyUsage root
}.

(** No churn and no expiry: a certificate the operator signed is found valid by the
    operator's own check for sixty days (less the second X.509 cuts off), as
    long as the authority is valid, and is replaced after that, thirty days
    before it expires. *)
Theorem signed_certificate_is_kept server ca root key serial t der keyDER secret0 secret (w : op_env) h :
  CreateCertificate (server_template server serial t) (ca_cert ca) (public_key key) (ca_key ca) = Ok der ->
  MarshalPKCS8PrivateKey key = Ok keyDER -> root_of ca root ->
  fill_secret server (pem_Encode "CERTIFICATE" der) (pem_Encode "PRIVATE KEY" keyDER) (ca_certPEM ca) secret0 = Ok secret ->
  ((forall h', t <= w _ h' () ONow <= t + 60 * day - second /\ x_NotBefore root <= w _ h' () ONow <= x_NotAfter root)%Z ->
   (servingCertificateValid secret server (ca_certPEM ca) (30 * day) w h).1 = true) /\
  ((forall h', t + 60 * day < w _ h' () ONow)%Z ->
   (servingCertificateValid secret server (ca_certPEM ca) (30 * day) w h).1 = false).
Proof.
  intros Hc Hk [Hb Hn Hpk (Hca & Hbc & Hcs)] (Ht & Hdata)%fill_secret_data.
  assert (data_of secret "tls.crt" = pem_Encode "CERTIFICATE" der /\ data_of secret "tls.key" = pem_Encode "PRIVATE KEY" keyDER)
    as [Hcrt Hkey] by (unfold data_of; by rewrite Hdata).
  pose proof (created_parses _ _ _ _ _ Hc) as Hp. pose proof (created_pairs _ _ _ _ _ _ Hc Hk) as Hpair.
  pose proof (floor_second_bounds (t - 5 * minute)) as F1. pose proof (floor_second_bounds (t + 90 * day)) as F2.
  assert (0 < second < minute /\ minute < day /\ 90 * day < int64_max)%Z as (? & ? & ?) by (vm_compute; done).
  unfold servingCertificateValid. rewrite Ht, bool_decide_false by naive_solver.
  unfold validateServingTLS. rewrite Hcrt, Hkey, Hpair, Hp.
  match type of Hp with _ = Ok ?c => set (leaf := c) in * end. split.
  - intros Hnow. destruct (CertsFromPEM (ca_certPEM ca)) as [|r0 roots] eqn:Er; [by apply elem_of_nil in Hb|]. cbn [parse_chain].
    unfold kbind, ask, request, kret. cbn zeta.
    assert (forall h', Verify leaf (service_host server) (r0 :: roots) [] (w Z h' () ONow) = Ok ()) as Hv.
    { intros h'. destruct (Hnow h') as [Hl Hr]. apply (signed_verifies _ _ _ _ _ _ _ _ root _ Hc Hp); try done;
        [right; right; left|cbn; lia]. }
    rewrite Hv. cbn. destruct (Hnow (h ++ [Ev () ONow (w Z h () ONow)])) as [Hl _].
    apply negb_true_iff, Z.ltb_ge. unfold time_Sub. cbn. lia.
  - intros Hnow. destruct (CertsFromPEM (ca_certPEM ca)) as [|r0 roots]; [done|]. cbn [parse_chain].
    unfold kbind, ask, request, kret. cbn zeta. destruct (Verify _ _ _ _ _); [|done]. cbn. apply negb_false_iff, Z.ltb_lt.
    pose proof (Hnow (h ++ [Ev () ONow (w Z h () ONow)])). unfold time_Sub, int64_min, int64_max in *. lia.
Qed.
End properties.

(** ** Witnesses *)

#[global] Instance KeyUsage_countable : Countable KeyUsage.
Proof.
  apply (inj_countable'
    (fun u => match u with KeyUsageCertSign => 0 | KeyUsageCRLSign => 1 | KeyUsageDigitalSignature => 2 | KeyUsageKeyEncipherment => 3 end)
    (fun n => match n with 0 => KeyUsageCertSign | 1 => KeyUsageCRLSign | 2 => KeyUsageDigitalSignature | _ => KeyUsageKeyEncipherment end)).
  by intros [].
Defined.
#[global] Instance Certificate_eq_dec : EqDecision Certificate.
Proof. solve_decision. Defined.
#[global] Instance Certificate_countable : Countable Certificate.
Proof.
  apply (inj_countable'
    (fun c => (x_SerialNumber c, x_CommonName c, x_DNSNames c, x_NotBefore c, x_NotAfter c, x_KeyUsage c, x_ServerAuth c,
               x_BasicConstraintsValid c, x_IsCA c, x_PublicKey c))
    (fun '(s, n, d, b, a, u, sa, bc, ca, k) =>
       {| x_SerialNumber := s; x_CommonName := n; x_DNSNames := d; x_NotBefore := b; x_NotAfter := a; x_KeyUsage := u;
          x_ServerAuth := sa; x_BasicConstraintsValid := bc; x_IsCA := ca; x_PublicKey := k |})).
  by intros [].
Defined.

Module CertificatesWitness.
Export OperatorClientWitness.

(** Certificates as numbers in decimal; PEM as a prefix; anyone can sign. *)
Definition der_of (c : Certificate) : string := pretty (Npos (encode c)).
Definition of_der (s : string) : option Certificate :=
  match parse_unsigned s with Some (Npos p) => decode p | _ => None end.
Lemma of_der_of c : of_der (der_of c) = Some c.
Proof. unfold of_der, der_of. rewrite parse_unsigned_pretty. apply decode_encode. Qed.

Definition cert_prefix : string := "CERTIFICATE:".
Definition parse_der (s : string) : result go_error Certificate :=
  match of_der s with Some c => Ok c | None => Err (OtherError "malformed") end.
Definition in_time (c : Certificate) (now : Z) : bool := (x_NotBefore c <=? now)%Z && (now <=? x_NotAfter c)%Z.

#[export] Instance plain_X509 : X509Lib := {|
  public_key k := k;
  pem_Decode s := Some (TrimPrefix s cert_prefix);
  pem_Encode type s := type +:+ (":" +:+ s);
  ParseCertificate := parse_der;
  ParsePKCS8PrivateKey s := Ok (Some s);
  MarshalPKCS8PrivateKey k := Ok k;
  CreateCertificate t _ pub _ := Ok (der_of {|
    x_SerialNumber := x_SerialNumber t; x_CommonName := x_CommonName t; x_DNSNames := x_DNSNames t;
    x_NotBefore := floor_second (x_NotBefore t); x_NotAfter := floor_second (x_NotAfter t); x_KeyUsage := x_KeyUsage t;
    x_ServerAuth := x_ServerAuth t; x_BasicConstraintsValid := x_BasicConstraintsValid t; x_IsCA := x_IsCA t;
    x_PublicKey := Some pub |});
  X509KeyPair c _ := Ok [TrimPrefix c cert_prefix];
  CertsFromPEM s := match of_der (TrimPrefix s cert_prefix) with Some c => [c] | None => [] end;
  Verify leaf host roots _ now :=
    if bool_decide (host ∈ x_DNSNames leaf) && x_ServerAuth leaf && in_time leaf now
       && existsb (fun root => x_IsCA root && in_time root now) roots
    then Ok () else Err (OtherError "certificate is not valid")
|}.

Lemma in_time_true c now : (x_NotBefore c <= now <= x_NotAfter c)%Z -> in_time c now = true.
Proof. intros [? ?]. unfold in_time. by rewrite !(proj2 (Z.leb_le _ _)). Qed.

#[export] Instance plain_X509Laws : X509Laws.
Proof.
  split.
  - intros t parent pub key der [= <-]. cbn. unfold parse_der. by rewrite of_der_of.
  - intros t parent key signer der keyDER _ _. cbn. do 2 f_equal. apply (TrimPrefix_append cert_prefix).
  - intros t parent pub signer der leaf host roots root now _ _ Hh Hsa Hin _ _ Hca _ _ Hl Hr. cbn.
    rewrite bool_decide_true, Hsa, (in_time_true leaf) by done.
    assert (existsb (fun root => x_IsCA root && in_time root now) roots = true) as ->; [|done].
    apply existsb_exists. exists root. split; [by apply list_elem_of_In|]. by rewrite Hca, in_time_true.
Qed.

(** An authority, a server certificate signed at time zero, and a clock. *)
Definition parsed_root : Certificate := {|
  x_SerialNumber := 1; x_CommonName := "SupeK8sMCP Serving CA"; x_DNSNames := [];
  x_NotBefore := floor_second (- 5 * minute); x_NotAfter := floor_second (5 * 365 * day);
  x_KeyUsage := [KeyUsageCertSign; KeyUsageCRLSign; KeyUsageDigitalSignature]; x_ServerAuth := false;
  x_BasicConstraintsValid := true; x_IsCA := true; x_PublicKey := Some "ca-key" |}.
Definition demo_ca : certificateAuthority := {|
  ca_cert := ca_template 1 0; ca_key := "ca-key"; ca_certPEM := cert_prefix +:+ der_of parsed_root; ca_keyPEM := "PRIVATE KEY:ca-key" |}.
Definition signed_der (server : KubernetesMCPServer) : string :=
  match CreateCertificate (server_template server 2 0) (ca_cert demo_ca) (public_key "key") (ca_key demo_ca) with Ok der => der | Err _ => "" end.
Definition filled (server : KubernetesMCPServer) : Secret :=
  match fill_secret server (pem_Encode "CERTIFICATE" (signed_der server)) (pem_Encode "PRIVATE KEY" "key") (ca_certPEM demo_ca)
          (new_secret (Namespace server) (TLSSecretName server)) with Ok s => s | Err _ => new_secret "" "" end.
Definition clock_at (now : Z) : op_env := fun A _ _ c =>
  match c with
  | OGet _ _ _ | OCreateOrUpdate _ _ _ | OCreate _ _ | OUpdate _ _ | OUpdateStatus _ | ODelete _ _ _ _ | OPatch _ _ | OGenerateKey =>
    Err (OtherError "")
  | OSerial => 1%Z
  | ONow => now
  end.

Lemma signed_certificate_is_kept_witness :
  let server := demo_server ModeReadOnly in
  (servingCertificateValid (filled server) server (ca_certPEM demo_ca) (30 * day) (clock_at (59 * day)) []).1 = true /\
  (servingCertificateValid (filled server) server (ca_certPEM demo_ca) (30 * day) (clock_at (61 * day)) []).1 = false.
Proof.
  intros server. pose proof (fun w => signed_certificate_is_kept server demo_ca parsed_root "key" 2 0 (signed_der server) "key"
    (new_secret (Namespace server) (TLSSecretName server)) (filled server) w [] eq_refl eq_refl) as H.
  assert (root_of demo_ca parsed_root) as Hr.
  { split; [|done|done|split_and!; [done..|left]]. cbn. rewrite TrimPrefix_append, of_der_of. left. }
  split; [apply (H (clock_at (59 * day)) Hr eq_refl)|apply (H (clock_at (61 * day)) Hr eq_refl)]; intros h'; vm_compute;
    [repeat split; discriminate|reflexivity].
Defined.
End CertificatesWitness.
