(* ===== verification/Operator.v ===== *)
(** * The operator (src/internal/operator/reconciler.go)

    [Reconcile] drives the objects of one KubernetesMCPServer to what its
    specification asks for.  It is a sequence of requests (OperatorClient.v), so
    every failure, and every change others make in between, is an answer of the
    environment.  Labels are values here; that the client may write into a map
    of labels shared by several objects is not modelled. *)

From stdpp Require Import sorting.
From Stdlib Require Import String.
From S2P Require Import Prelude GoStrings Crypto Json Errors Config Trace OperatorClient Certificates.

Definition serverFinalizer : string := "mcp.supek8smcp.io/cluster-resources".
Definition tokenReviewerClusterRole : string := "supek8smcp-tokenreviewer".
Definition serverRevisionLabel : string := "mcp.supek8smcp.io/revision".
Definition serverPolicyRevision : string := "mcp.supek8smcp.io/policy-revision".
Definition disabledServerRevision : string := "disabled".

(** The fields of [KubernetesMCPServerReconciler] that carry data. *)
Record KubernetesMCPServerReconciler := { ServerImage : string; OperatorNamespace : string }.

(** [ctrl.Result]. *)
Record ctrl_Result := { Requeue : bool; RequeueAfter : Z }.
Definition no_requeue : ctrl_Result := {| Requeue := false; RequeueAfter := 0 |}.

(** ** Names, labels and revisions *)

Definition clusterBindingName {Q : QuantityLib} (server : KubernetesMCPServer) : string :=
  "supek8smcp-" +:+ hex_EncodeToString (take 8 (Sum256 (Namespace server +:+ ("/" +:+ Name server)))).

Definition policyRevision {Q : QuantityLib} (server : KubernetesMCPServer) : string :=
  substring 0 16 (digestParts [UID server; Itoa (Generation server)]).

Definition serverPodLabels (labels : list (string * string)) (revision : string) : list (string * string) :=
  obj_set labels serverRevisionLabel revision.

(** [slices.Sort] and [slices.Equal]: the same strings, in any order. *)
Definition exactStrings (values expected : list string) : bool :=
  bool_decide (length values = length expected)
  && bool_decide (merge_sort String.le values = merge_sort String.le expected).

Definition validTokenReviewerRole (role : ClusterRole) : bool :=
  match cr_AggregationRule role, cr_Rules role with
  | None, [rule] =>
    exactStrings (pr_APIGroups rule) ["authentication.k8s.io"]
    && exactStrings (pr_Resources rule) ["tokenreviews"]
    && exactStrings (pr_Verbs rule) ["create"]
    && bool_decide (pr_ResourceNames rule = []) && bool_decide (pr_NonResourceURLs rule = [])
  | _, _ => false
  end.

Definition serverProbe (path : string) : Probe := {|
  pb_Path := path; pb_Port := "metrics"; pb_Scheme := "HTTP"; pb_TimeoutSeconds := 1; pb_PeriodSeconds := 10;
  pb_SuccessThreshold := 1; pb_FailureThreshold := 3
|}.

(** [errors.Join] of two errors, and [fmt.Errorf("%w; ...: %v")]: only the text
    of these errors is read, so only the text is kept. *)
Definition join_errors (a b : go_error) : go_error :=
  OtherError (error_string a +:+ (String (Ascii.ascii_of_nat 10) "" +:+ error_string b)).

Fixpoint Join_errors (failures : list go_error) : option go_error :=
  match failures with
  | [] => None
  | [e] => Some e
  | e :: rest => match Join_errors rest with Some r => Some (join_errors e r) | None => Some e end
  end.

Section operator.
Context {G : GoLib} {Q : QuantityLib} {C : ControllerLib} {X : X509Lib} {T : ConfigText}.

(** ** Desired objects: the functions given to [CreateOrUpdate] *)

Definition mutate_configMap (server : KubernetesMCPServer) (labels data : list (string * string)) (o : ConfigMap)
    : result go_error ConfigMap :=
  _ ← requireControllerOwnership server (cm_Meta o);
  owners ← SetControllerReference server (om_Namespace (cm_Meta o)) (om_OwnerReferences (cm_Meta o));
  Ok {| cm_Meta := relabel (cm_Meta o) labels (om_Annotations (cm_Meta o)) owners; cm_Data := data; cm_Other := cm_Other o |}.

Definition mutate_serviceAccount (server : KubernetesMCPServer) (labels : list (string * string)) (o : ServiceAccount)
    : result go_error ServiceAccount :=
  _ ← requireControllerOwnership server (sa_Meta o);
  owners ← SetControllerReference server (om_Namespace (sa_Meta o)) (om_OwnerReferences (sa_Meta o));
  Ok {| sa_Meta := relabel (sa_Meta o) labels (om_Annotations (sa_Meta o)) owners;
        sa_AutomountServiceAccountToken := Some true; sa_Other := sa_Other o |}.

Definition service_ports : list ServicePort :=
  [{| sp_Name := "mcp"; sp_Port := 8443; sp_TargetPort := 8443; sp_Protocol := "TCP" |};
   {| sp_Name := "metrics"; sp_Port := 9090; sp_TargetPort := 9090; sp_Protocol := "TCP" |}].

Definition mutate_service (server : KubernetesMCPServer) (labels : list (string * string)) (policyRev workloadRevision : string)
    (o : Service) : result go_error Service :=
  _ ← requireControllerOwnership server (sv_Meta o);
  owners ← SetControllerReference server (om_Namespace (sv_Meta o)) (om_OwnerReferences (sv_Meta o));
  Ok {| sv_Meta := relabel (sv_Meta o) labels (obj_set (om_Annotations (sv_Meta o)) serverPolicyRevision policyRev) owners;
        sv_Spec := {|
          ss_Type := "ClusterIP"; ss_Selector := serverPodLabels labels workloadRevision; ss_ExternalName := "";
          ss_ExternalIPs := []; ss_LoadBalancerIP := ""; ss_LoadBalancerSourceRanges := []; ss_LoadBalancerClass := None;
          ss_AllocateLoadBalancerNodePorts := None; ss_HealthCheckNodePort := 0; ss_ExternalTrafficPolicy := "";
          ss_Ports := service_ports; ss_Other := ss_Other (sv_Spec o) |} |}.

Definition expectedRoleRef : RoleRef :=
  {| rr_APIGroup := "rbac.authorization.k8s.io"; rr_Kind := "ClusterRole"; rr_Name := tokenReviewerClusterRole |}.

Definition mutate_binding (server : KubernetesMCPServer) (o : ClusterRoleBinding) : result go_error ClusterRoleBinding :=
  Ok {| cb_Meta := relabel (cb_Meta o) (ServerLabels server) (om_Annotations (cb_Meta o)) (om_OwnerReferences (cb_Meta o));
        cb_RoleRef := expectedRoleRef;
        cb_Subjects := [{| sj_Kind := "ServiceAccount"; sj_APIGroup := ""; sj_Name := Name server; sj_Namespace := Namespace server |}] |}.

Definition pod_spec (image : string) (server : KubernetesMCPServer) : PodSpec := {|
  po_Volumes := [
    {| vo_Name := "config"; vo_Source := ConfigMapVolume (Name server +:+ "-config") 288 |};
    {| vo_Name := "tls"; vo_Source := SecretVolume (TLSSecretName server) 288 |};
    {| vo_Name := "tmp"; vo_Source := EmptyDirVolume |}];
  po_Containers := [{|
    ct_Name := "server"; ct_Image := image; ct_ImagePullPolicy := "IfNotPresent"; ct_Args := ["serve"];
    ct_Ports := [{| cp_Name := "mcp"; cp_ContainerPort := 8443; cp_Protocol := "TCP" |};
                 {| cp_Name := "metrics"; cp_ContainerPort := 9090; cp_Protocol := "TCP" |}];
    ct_ReadinessProbe := serverProbe "/readyz"; ct_LivenessProbe := serverProbe "/healthz";
    ct_TerminationMessagePath := "/dev/termination-log"; ct_TerminationMessagePolicy := "File";
    ct_SecurityContext := {| sc_AllowPrivilegeEscalation := Some false; sc_ReadOnlyRootFilesystem := Some true; sc_Drop := ["ALL"] |};
    ct_Resources := ServerResources (Spec server);
    ct_VolumeMounts := [
      {| vm_Name := "config"; vm_MountPath := "/etc/supek8smcp/config"; vm_ReadOnly := true |};
      {| vm_Name := "tls"; vm_MountPath := "/etc/supek8smcp/tls"; vm_ReadOnly := true |};
      {| vm_Name := "tmp"; vm_MountPath := "/tmp"; vm_ReadOnly := false |}] |}];
  po_RestartPolicy := "Always"; po_TerminationGracePeriodSeconds := Some 30%Z; po_DNSPolicy := "ClusterFirst";
  po_ServiceAccountName := Name server; po_DeprecatedServiceAccount := Name server;
  po_AutomountServiceAccountToken := Some true;
  po_SecurityContext := {| ps_RunAsNonRoot := Some true; ps_RunAsUser := Some 65532%Z; ps_RunAsGroup := Some 65532%Z;
                           ps_FSGroup := Some 65532%Z; ps_SeccompProfile := Some "RuntimeDefault" |};
  po_SchedulerName := "default-scheduler"
|}.

Definition deployment_spec (image : string) (server : KubernetesMCPServer) (labels : list (string * string))
    (revision configRevision tlsRevision : string) : DeploymentSpec := {|
  ds_Replicas := Some 1%Z; ds_Selector := labels; ds_Strategy := "Recreate"; ds_RevisionHistoryLimit := Some 10%Z;
  ds_ProgressDeadlineSeconds := Some 600%Z;
  ds_Template := {|
    pt_Labels := serverPodLabels labels revision;
    pt_Annotations := [("mcp.supek8smcp.io/config-hash", configRevision); ("mcp.supek8smcp.io/tls-hash", tlsRevision)];
    pt_Spec := pod_spec image server |}
|}.

Definition mutate_deployment (image : string) (server : KubernetesMCPServer) (labels : list (string * string))
    (revision configRevision tlsRevision : string) (o : Deployment) : result go_error Deployment :=
  _ ← requireControllerOwnership server (dp_Meta o);
  owners ← SetControllerReference server (om_Namespace (dp_Meta o)) (om_OwnerReferences (dp_Meta o));
  Ok {| dp_Meta := relabel (dp_Meta o) labels (om_Annotations (dp_Meta o)) owners;
        dp_Spec := Some (deployment_spec image server labels revision configRevision tlsRevision);
        dp_Status := dp_Status o |}.

Definition network_peer (spec : NetworkPolicySpec) : NetworkPolicyPeer :=
  let peer := match AllowedNamespaceSelector spec with
              | Some s => {| pe_NamespaceSelector := Some s; pe_PodSelector := None |}
              | None => {| pe_NamespaceSelector := None; pe_PodSelector := Some (VMap []) |}
              end in
  match AllowedPodSelector spec with
  | Some s => {| pe_NamespaceSelector := pe_NamespaceSelector peer; pe_PodSelector := Some s |}
  | None => peer
  end.

Definition mutate_networkPolicy (server : KubernetesMCPServer) (labels : list (string * string)) (o : NetworkPolicy_)
    : result go_error NetworkPolicy_ :=
  _ ← requireControllerOwnership server (np_Meta o);
  owners ← SetControllerReference server (om_Namespace (np_Meta o)) (om_OwnerReferences (np_Meta o));
  Ok {| np_Meta := relabel (np_Meta o) labels (om_Annotations (np_Meta o)) owners;
        np_Spec := {| ns_PodSelector := labels; ns_PolicyTypes := ["Ingress"];
                      ns_Ingress := [{| ir_From := [network_peer (NetworkPolicy (Spec server))]; ir_Ports := [8443%Z; 9090%Z] |}] |} |}.

(** ** The steps of a reconciliation *)

Definition new_configMap (namespace name : string) : ConfigMap :=
  {| cm_Meta := new_meta namespace name; cm_Data := []; cm_Other := VNull |}.
Definition new_serviceAccount (namespace name : string) : ServiceAccount :=
  {| sa_Meta := new_meta namespace name; sa_AutomountServiceAccountToken := None; sa_Other := VNull |}.
Definition new_service (namespace name : string) : Service :=
  {| sv_Meta := new_meta namespace name;
     sv_Spec := {| ss_Type := ""; ss_Selector := []; ss_ExternalName := ""; ss_ExternalIPs := []; ss_LoadBalancerIP := "";
                   ss_LoadBalancerSourceRanges := []; ss_LoadBalancerClass := None; ss_AllocateLoadBalancerNodePorts := None;
                   ss_HealthCheckNodePort := 0; ss_ExternalTrafficPolicy := ""; ss_Ports := []; ss_Other := VNull |} |}.
Definition new_binding (name : string) : ClusterRoleBinding :=
  {| cb_Meta := new_meta "" name; cb_RoleRef := {| rr_APIGroup := ""; rr_Kind := ""; rr_Name := "" |}; cb_Subjects := [] |}.
Definition new_deployment (namespace name : string) : Deployment :=
  {| dp_Meta := new_meta namespace name; dp_Spec := None;
     dp_Status := {| dt_ObservedGeneration := 0; dt_UpdatedReplicas := 0; dt_AvailableReplicas := 0 |} |}.
Definition new_networkPolicy (namespace name : string) : NetworkPolicy_ :=
  {| np_Meta := new_meta namespace name; np_Spec := {| ns_PodSelector := []; ns_PolicyTypes := []; ns_Ingress := [] |} |}.

(** [CreateOrUpdate] with the error it is wrapped in. *)
Definition create_or_update (k : kind) (o : obj k) (mutate : obj k -> result go_error (obj k)) (what : string)
    : OpK (result go_error (obj k)) :=
  (let! written := ask (OCreateOrUpdate k o mutate) in
   kret match written with Ok o => Ok o | Err err => Err (Wrapped what err) end)%kube.

Definition reconcileServiceAccount (server : KubernetesMCPServer) (labels : list (string * string)) : OpK (result go_error unit) :=
  (let? _ := create_or_update KServiceAccount (new_serviceAccount (Namespace server) (Name server))
               (mutate_serviceAccount server labels) "reconcile ServiceAccount" in
   kret (Ok ()))%kube.

Definition reconcileService (server : KubernetesMCPServer) (labels : list (string * string)) (policyRev workloadRevision : string)
    : OpK (result go_error unit) :=
  (let? _ := create_or_update KService (new_service (Namespace server) (Name server))
               (mutate_service server labels policyRev workloadRevision) "reconcile Service" in
   kret (Ok ()))%kube.

(** The revision a Service may keep selecting while the rest is reconciled. *)
Definition gate_revision (service : Service) (policyRev : string) : string :=
  let target := default "" (obj_get (ss_Selector (sv_Spec service)) serverRevisionLabel) in
  if negb (bool_decide (default "" (obj_get (om_Annotations (sv_Meta service)) serverPolicyRevision) = policyRev))
     || bool_decide (target = "") || bool_decide (target = disabledServerRevision)
  then disabledServerRevision else target.

Definition reconcileServiceGate (server : KubernetesMCPServer) (labels : list (string * string)) (policyRev : string)
    : OpK (result go_error unit) :=
  (let! found := ask (OGet KService (Namespace server) (Name server)) in
   match found with
   | Err err =>
     if IsNotFound err then reconcileService server labels policyRev disabledServerRevision
     else kret (Err (Wrapped "get Server Service" err))
   | Ok service => reconcileService server labels policyRev (gate_revision service policyRev)
   end)%kube.

Definition rejectDelegatedAuthentication (binding : ClusterRoleBinding) (cause : go_error) : OpK go_error :=
  (let! deleted := ask (ODelete KClusterRoleBinding "" (om_Name (cb_Meta binding)) None) in
   kret match deleted with
        | Err err =>
          if IsNotFound err then cause
          else OtherError (error_string cause +:+ ("; remove existing TokenReview binding: " +:+ error_string err))
        | Ok _ => cause
        end)%kube.

(** [return r.rejectDelegatedAuthentication(...)]. *)
Definition reject (binding : ClusterRoleBinding) (cause : go_error) : OpK (result go_error unit) :=
  (let! err := rejectDelegatedAuthentication binding cause in kret (Err err))%kube.

(** The last part of [reconcileDelegatedAuthentication], on the binding that is
    there or a new one. *)
Definition write_binding (server : KubernetesMCPServer) (binding : ClusterRoleBinding) : OpK (result go_error unit) :=
  (let! written := ask (OCreateOrUpdate KClusterRoleBinding binding (mutate_binding server)) in
   match written with
   | Err err => reject binding (Wrapped "reconcile TokenReview binding" err)
   | Ok _ => kret (Ok ())
   end)%kube.

Definition reconcileDelegatedAuthentication (server : KubernetesMCPServer) : OpK (result go_error unit) :=
  let name := clusterBindingName server in
  let binding := new_binding name in
  (let! account := ask (OGet KServiceAccount (Namespace server) (Name server)) in
   match account with
   | Err err => reject binding (Wrapped "get Server ServiceAccount" err)
   | Ok serviceAccount =>
     match requireControllerOwnership server (sa_Meta serviceAccount) with
     | Err err => reject binding (Wrapped "validate Server ServiceAccount ownership" err)
     | Ok _ =>
       let! found := ask (OGet KClusterRole "" tokenReviewerClusterRole) in
       match found with
       | Err err => reject binding (Wrapped "get TokenReview ClusterRole" err)
       | Ok role =>
         if negb (validTokenReviewerRole role) then
           reject binding
             (OtherError ("ClusterRole " +:+ (tokenReviewerClusterRole +:+ " must grant only authentication.k8s.io tokenreviews.create")))
         else
         let! existing := ask (OGet KClusterRoleBinding "" name) in
         match existing with
         | Err err =>
           if IsNotFound err then write_binding server (new_binding name)
           else reject binding (Wrapped "get TokenReview binding" err)
         | Ok binding =>
           if bool_decide (cb_RoleRef binding <> expectedRoleRef) then
             let! deleted := ask (ODelete KClusterRoleBinding "" (om_Name (cb_Meta binding)) None) in
             kret (Err match deleted with
                       | Err err =>
                         if IsNotFound err
                         then OtherError "removed TokenReview binding with unexpected roleRef; waiting to recreate it safely"
                         else Wrapped "remove TokenReview binding with unexpected roleRef" err
                       | Ok _ => OtherError "removed TokenReview binding with unexpected roleRef; waiting to recreate it safely"
                       end)
           else write_binding server binding
         end
       end
     end
   end)%kube.

Definition reconcileDeployment (r : KubernetesMCPServerReconciler) (server : KubernetesMCPServer)
    (labels : list (string * string)) (revision configRevision tlsRevision : string) : OpK (result go_error Z) :=
  (let? deployment := create_or_update KDeployment (new_deployment (Namespace server) (Name server))
                        (mutate_deployment (ServerImage r) server labels revision configRevision tlsRevision) "reconcile Deployment" in
   kret (Ok (om_Generation (dp_Meta deployment))))%kube.

Definition reconcileNetworkPolicy (server : KubernetesMCPServer) (labels : list (string * string)) : OpK (result go_error unit) :=
  if negb (match Enabled (NetworkPolicy (Spec server)) with None => true | Some b => b end) then
    (let! found := ask (OGet KNetworkPolicy (Namespace server) (Name server)) in
     match found with
     | Err err => if IsNotFound err then kret (Ok ()) else kret (Err (Wrapped "get disabled NetworkPolicy" err))
     | Ok policy =>
       match requireControllerOwnership server (np_Meta policy) with
       | Err err => kret (Err (Wrapped "refuse to delete disabled NetworkPolicy" err))
       | Ok _ =>
         let! deleted := ask (ODelete KNetworkPolicy (om_Namespace (np_Meta policy)) (om_Name (np_Meta policy))
                                (Some (om_UID (np_Meta policy)))) in
         match deleted with
         | Err err => if IsNotFound err then kret (Ok ()) else kret (Err (Wrapped "delete disabled NetworkPolicy" err))
         | Ok _ => kret (Ok ())
         end
       end
     end)%kube
  else
    (let? _ := create_or_update KNetworkPolicy (new_networkPolicy (Namespace server) (Name server))
                 (mutate_networkPolicy server labels) "reconcile NetworkPolicy" in
     kret (Ok ()))%kube.

Definition configRevision_of (configData : string) (configMap : ConfigMap) : string :=
  digestParts [configData; om_ResourceVersion (cm_Meta configMap)].
Definition workloadRevision_of (r : KubernetesMCPServerReconciler) (policyRev configRevision tlsRevision : string) : string :=
  substring 0 16 (digestParts [policyRev; ServerImage r; configRevision; tlsRevision]).

Definition reconcileResources (r : KubernetesMCPServerReconciler) (server : KubernetesMCPServer)
    (labels : list (string * string)) (policyRev bundle tlsRevision : string) : OpK (result go_error Z) :=
  (ok? configData := MarshalConfig (FromResource server) in
   let? configMap := create_or_update KConfigMap (new_configMap (Namespace server) (Name server +:+ "-config"))
                       (mutate_configMap server labels [("config.json", configData)]) "reconcile server ConfigMap" in
   let? _ := create_or_update KConfigMap (new_configMap (Namespace server) (Name server +:+ "-ca"))
               (mutate_configMap server labels [("ca.crt", bundle)]) "reconcile CA ConfigMap" in
   let? _ := reconcileNetworkPolicy server labels in
   let configRevision := configRevision_of configData configMap in
   let workloadRevision := workloadRevision_of r policyRev configRevision tlsRevision in
   let? deploymentGeneration := reconcileDeployment r server labels workloadRevision configRevision tlsRevision in
   let? _ := reconcileService server labels policyRev workloadRevision in
   kret (Ok deploymentGeneration))%kube.

(** ** Failure *)

Definition replicas (d : Deployment) : option Z := dp_Spec d ≫= ds_Replicas.

Definition scaled_to_zero (d : Deployment) : Deployment := {|
  dp_Meta := dp_Meta d;
  dp_Spec := (fun s => {| ds_Replicas := Some 0%Z; ds_Selector := ds_Selector s; ds_Strategy := ds_Strategy s;
                          ds_RevisionHistoryLimit := ds_RevisionHistoryLimit s;
                          ds_ProgressDeadlineSeconds := ds_ProgressDeadlineSeconds s; ds_Template := ds_Template s |}) <$> dp_Spec d;
  dp_Status := dp_Status d
|}.

(** The second half of [disableServer]: the failure it adds, if any. *)
Definition disable_deployment (server : KubernetesMCPServer) : OpK (list go_error) :=
  (let! found := ask (OGet KDeployment (Namespace server) (Name server)) in
   match found with
   | Err err => kret (if IsNotFound err then [] else [Wrapped "get Server Deployment for shutdown" err])
   | Ok deployment =>
     if bool_decide (replicas deployment = Some 0%Z) then kret []
     else match requireControllerOwnership server (dp_Meta deployment) with
          | Err err => kret [Wrapped "refuse to scale unowned Server Deployment" err]
          | Ok _ =>
            let! patched := ask (OPatch deployment (scaled_to_zero deployment)) in
            kret match patched with
                 | Err err => [Wrapped "scale failed Server Deployment to zero" err]
                 | Ok _ => []
                 end
          end
   end)%kube.

Definition disableServer (server : KubernetesMCPServer) : OpK (option go_error) :=
  (let! gated := reconcileService server (ServerLabels server) (policyRevision server) disabledServerRevision in
   let failures := match gated with Ok _ => [] | Err err => [Wrapped "disable Server Service" err] end in
   let! more := disable_deployment server in
   kret (Join_errors (failures ++ more)))%kube.

Definition with_status (o : ServerObject) (status : KubernetesMCPServerStatus) : ServerObject := {|
  so_Server := so_Server o; so_ResourceVersion := so_ResourceVersion o; so_Deleting := so_Deleting o;
  so_Finalizers := so_Finalizers o; so_Status := status
|}.

Definition setCondition (o : ServerObject) (condition : string) (status : bool) (reason message : string) : ServerObject :=
  with_status o {|
    st_ObservedGeneration := st_ObservedGeneration (so_Status o); st_Endpoint := st_Endpoint (so_Status o);
    st_CAConfigMapName := st_CAConfigMapName (so_Status o);
    st_Conditions := SetStatusCondition (st_Conditions (so_Status o))
      {| cd_Type := condition; cd_Status := status; cd_Reason := reason; cd_Message := message;
         cd_ObservedGeneration := Generation (so_Server o) |} |}.

Definition observed (o : ServerObject) : ServerObject :=
  with_status o {|
    st_ObservedGeneration := Generation (so_Server o); st_Endpoint := st_Endpoint (so_Status o);
    st_CAConfigMapName := st_CAConfigMapName (so_Status o); st_Conditions := st_Conditions (so_Status o) |}.

(** [fail]; the error of the status update is dropped. *)
Definition fail (o : ServerObject) (condition reason : string) (cause : go_error) : OpK (result go_error ctrl_Result) :=
  (let! gateErr := disableServer (so_Server o) in
   let cause := match gateErr with Some err => join_errors cause err | None => cause end in
   let o := setCondition o condition false reason (error_string cause) in
   let o := setCondition o "Ready" false reason (error_string cause) in
   let! _ := ask (OUpdateStatus (observed o)) in
   kret (Err cause))%kube.

(** ** Deletion *)

Definition with_finalizers (o : ServerObject) (finalizers : list string) : ServerObject := {|
  so_Server := so_Server o; so_ResourceVersion := so_ResourceVersion o; so_Deleting := so_Deleting o;
  so_Finalizers := finalizers; so_Status := so_Status o
|}.

Definition finalize (o : ServerObject) : OpK (result go_error ctrl_Result) :=
  if negb (bool_decide (serverFinalizer ∈ so_Finalizers o)) then kret (Ok no_requeue)
  else
  (let! deleted := ask (ODelete KClusterRoleBinding "" (clusterBindingName (so_Server o)) None) in
   let finish :=
     let! updated := ask (OUpdate KServer (with_finalizers o (filter (fun f => f <> serverFinalizer) (so_Finalizers o)))) in
     kret match updated with Ok _ => Ok no_requeue | Err err => Err err end in
   match deleted with
   | Err err => if IsNotFound err then finish else kret (Err err)
   | Ok _ => finish
   end)%kube.

(** ** [Reconcile] *)

Definition with_server (o : ServerObject) (server : KubernetesMCPServer) : ServerObject := {|
  so_Server := server; so_ResourceVersion := so_ResourceVersion o; so_Deleting := so_Deleting o;
  so_Finalizers := so_Finalizers o; so_Status := so_Status o
|}.

Definition deployment_ready (generation : Z) (deployment : Deployment) : bool :=
  (om_Generation (dp_Meta deployment) =? generation)%Z
  && (om_Generation (dp_Meta deployment) <=? dt_ObservedGeneration (dp_Status deployment))%Z
  && (1 <=? dt_UpdatedReplicas (dp_Status deployment))%Z
  && (1 <=? dt_AvailableReplicas (dp_Status deployment))%Z.

(** The status of a reconciliation that succeeded. *)
Definition final_status (o : ServerObject) (ready : bool) : ServerObject :=
  let server := so_Server o in
  let o := setCondition o "TLSReady" true "CertificateReady" "serving certificate is ready" in
  let o := setCondition o "AuthReady" true "DelegatedAuthenticationReady" "TokenReview binding is ready" in
  let o := if ready then setCondition o "Ready" true "DeploymentAvailable" "MCP server is available"
           else setCondition o "Ready" false "DeploymentUnavailable" "waiting for MCP server deployment" in
  with_status o {|
    st_ObservedGeneration := Generation server;
    st_Endpoint := "https://" +:+ (Name server +:+ ("." +:+ (Namespace server +:+ ".svc:8443/mcp")));
    st_CAConfigMapName := Name server +:+ "-ca"; st_Conditions := st_Conditions (so_Status o) |}.

(** What follows a successful [reconcileResources]; [key] is the requested name. *)
Definition report (namespace name : string) (o : ServerObject) (generation : Z) : OpK (result go_error ctrl_Result) :=
  (let! found := ask (OGet KDeployment namespace name) in
   let conclude ready :=
     let! updated := ask (OUpdateStatus (final_status o ready)) in
     kret match updated with
          | Err err => Err err
          | Ok _ => Ok {| Requeue := false; RequeueAfter := if ready then 5 * minute else 5 * second |}
          end in
   match found with
   | Err err => if IsNotFound err then conclude false else kret (Err err)
   | Ok deployment => conclude (deployment_ready generation deployment)
   end)%kube.

(** The part of [Reconcile] on a live server with its finalizer. *)
Definition reconcile_live (r : KubernetesMCPServerReconciler) (namespace name : string) (o : ServerObject)
    : OpK (result go_error ctrl_Result) :=
  let server := Default (so_Server o) in
  let o := with_server o server in
  let labels := ServerLabels server in
  let policyRev := policyRevision server in
  (let! gate := reconcileServiceGate server labels policyRev in
   match gate with
   | Err err => fail o "Ready" "ServiceGateError" err
   | Ok _ =>
     let! account := reconcileServiceAccount server labels in
     match account with
     | Err err =>
       let! err := rejectDelegatedAuthentication (new_binding (clusterBindingName server))
                     (Wrapped "reconcile Server ServiceAccount" err) in
       fail o "AuthReady" "DelegatedAuthenticationError" err
     | Ok _ =>
       let! auth := reconcileDelegatedAuthentication server in
       match auth with
       | Err err => fail o "AuthReady" "DelegatedAuthenticationError" err
       | Ok _ =>
         let! authority :=
           (if bool_decide (TLS_SecretName (Spec server) = "") then
              let! ca := ensureRootCA (OperatorNamespace r) in
              kret match ca with Ok ca => Ok (Some ca) | Err err => Err err end
            else kret (Ok None)) in
         match authority with
         | Err err => fail o "TLSReady" "CAError" err
         | Ok ca =>
           let! certificate := ensureServingCertificate server ca in
           match certificate with
           | Err err => fail o "TLSReady" "CertificateError" err
           | Ok certificate =>
             let! resources := reconcileResources r server labels policyRev (caBundle certificate) (revision certificate) in
             match resources with
             | Err err => fail o "Ready" "ReconcileError" err
             | Ok generation => report namespace name o generation
             end
           end
         end
       end
     end
   end)%kube.

Definition Reconcile (r : KubernetesMCPServerReconciler) (namespace name : string) : OpK (result go_error ctrl_Result) :=
  (let! found := ask (OGet KServer namespace name) in
   match found with
   | Err err => kret (if IsNotFound err then Ok no_requeue else Err err)
   | Ok o =>
     if so_Deleting o then finalize o
     else if negb (bool_decide (serverFinalizer ∈ so_Finalizers o)) then
       let! updated := ask (OUpdate KServer (with_finalizers o (so_Finalizers o ++ [serverFinalizer]))) in
       kret match updated with Err err => Err err | Ok _ => Ok {| Requeue := true; RequeueAfter := 0 |} end
     else reconcile_live r namespace name o
   end)%kube.
End operator.

(** ** What the operator may do *)

Section rules.
Context {G : GoLib} {Q : QuantityLib} {C : ControllerLib} {X : X509Lib} {T : ConfigText}.
Context (r : KubernetesMCPServerReconciler) (server : KubernetesMCPServer).

Definition controlled (m : ObjectMeta) : Prop := IsControlledBy (om_OwnerReferences m) (UID server) = true.
(** An object that is not there yet. *)
Definition unwritten (m : ObjectMeta) : Prop := om_ResourceVersion m = "" /\ om_UID m = "".
Definition mine (m : ObjectMeta) : Prop := unwritten m \/ controlled m.

(** A change is applied only to objects of this server, and marks and labels them so. *)
Definition guarded (k : kind) (mutate : obj k -> result go_error (obj k)) : Prop :=
  forall o o', mutate o = Ok o' -> mine (meta_of k o) /\ om_Labels (meta_of k o') = ServerLabels server /\
    exists ns refs, SetControllerReference server ns refs = Ok (om_OwnerReferences (meta_of k o')).

(** The API server answers a request for a name with an object of that name. *)
Definition honest (e : op_event) : Prop :=
  match ev_call e in op_call A return A -> Prop with
  | OGet k namespace name => fun answer =>
    match answer with Ok o => om_Namespace (meta_of k o) = namespace /\ om_Name (meta_of k o) = name | Err _ => True end
  | _ => fun _ => True
  end (ev_answer e).

(** The Service may select a revision when that was written for the same policy
    revision before, or when the Deployment of that revision was just written. *)
Definition service_rule (pre : list op_event) (rev : string) : Prop :=
  rev = disabledServerRevision \/
  (exists s, Ev () (OGet KService (Namespace server) (Name server)) (Ok s) ∈ pre /\
     default "" (obj_get (om_Annotations (sv_Meta s)) serverPolicyRevision) = policyRevision server /\
     obj_get (ss_Selector (sv_Spec s)) serverRevisionLabel = Some rev) \/
  (exists crev trev d, Ev () (OCreateOrUpdate KDeployment (new_deployment (Namespace server) (Name server))
       (mutate_deployment (ServerImage r) server (ServerLabels server) rev crev trev)) (Ok d) ∈ pre).

(** A role that creates TokenReviews and can do nothing else. *)
Definition reviews_tokens_only (role : ClusterRole) : Prop :=
  cr_AggregationRule role = None /\
  cr_Rules role = [{| pr_APIGroups := ["authentication.k8s.io"]; pr_Resources := ["tokenreviews"]; pr_Verbs := ["create"];
                      pr_ResourceNames := []; pr_NonResourceURLs := [] |}].

(** A binding of that role to this server's own account. *)
Definition binds_own_account (b : ClusterRoleBinding) : Prop :=
  rr_Kind (cb_RoleRef b) = "ClusterRole" /\ rr_Name (cb_RoleRef b) = tokenReviewerClusterRole /\
  cb_Subjects b = [{| sj_Kind := "ServiceAccount"; sj_APIGroup := ""; sj_Name := Name server; sj_Namespace := Namespace server |}].

(** The right to review tokens is given only to this server's own account, and
    only while the role grants nothing else. *)
Definition binding_rule (pre : list op_event) : Prop :=
  exists account role,
    Ev () (OGet KServiceAccount (Namespace server) (Name server)) (Ok account) ∈ pre /\ mine (sa_Meta account) /\
    Ev () (OGet KClusterRole "" tokenReviewerClusterRole) (Ok role) ∈ pre /\ reviews_tokens_only role /\
    ((exists err, Ev () (OGet KClusterRoleBinding "" (clusterBindingName server)) (Err err) ∈ pre /\ IsNotFound err = true) \/
     (exists b, Ev () (OGet KClusterRoleBinding "" (clusterBindingName server)) (Ok b) ∈ pre /\ cb_RoleRef b = expectedRoleRef)).

(** The text of the configuration was written for this server. *)
Definition config_written (pre : list op_event) (text : string) (cm : ConfigMap) : Prop :=
  Ev () (OCreateOrUpdate KConfigMap (new_configMap (Namespace server) (Name server +:+ "-config"))
    (mutate_configMap server (ServerLabels server) [("config.json", text)])) (Ok cm) ∈ pre /\
  MarshalConfig (FromResource server) = Ok text.

Definition write_rule (pre : list op_event) (k : kind) : obj k -> (obj k -> result go_error (obj k)) -> Prop :=
  match k with
  | KService => fun _ mutate => exists rev,
      mutate = mutate_service server (ServerLabels server) (policyRevision server) rev /\ service_rule pre rev
  | KDeployment => fun _ mutate => exists text cm ca material,
      config_written pre text cm /\ provenance server ca pre material /\
      let crev := configRevision_of text cm in
      mutate = mutate_deployment (ServerImage r) server (ServerLabels server)
        (workloadRevision_of r (policyRevision server) crev (revision material)) crev (revision material)
  | KClusterRoleBinding => fun _ mutate =>
      mutate = mutate_binding server /\ binding_rule pre
  | KConfigMap => fun o mutate => exists data, mutate = mutate_configMap server (ServerLabels server) data /\
      ((o = new_configMap (Namespace server) (Name server +:+ "-config") /\
          exists text, MarshalConfig (FromResource server) = Ok text /\ data = [("config.json", text)]) \/
       (o = new_configMap (Namespace server) (Name server +:+ "-ca") /\ exists bundle, data = [("ca.crt", bundle)]))
  | KServer | KClusterRole => fun _ _ => False
  | k => fun _ mutate => guarded k mutate
  end.

(** The names under which this server's objects are kept. *)
Definition in_place (k : kind) (m : ObjectMeta) : Prop :=
  match k with
  | KServiceAccount | KService | KDeployment | KNetworkPolicy => om_Namespace m = Namespace server /\ om_Name m = Name server
  | KConfigMap => om_Namespace m = Namespace server /\ (om_Name m = Name server +:+ "-config" \/ om_Name m = Name server +:+ "-ca")
  | KSecret => om_Namespace m = Namespace server /\ om_Name m = TLSSecretName server
  | KClusterRoleBinding => om_Name m = clusterBindingName server
  | KServer | KClusterRole => False
  end.
Definition placed (pre : list op_event) (k : kind) (o : obj k) : Prop := Forall honest pre -> in_place k (meta_of k o).

Definition call_rule (pre : list op_event) {A} (c : op_call A) : Prop :=
  match c with
  | OGet KServer _ _ => pre = []
  | OCreateOrUpdate k o mutate => write_rule pre k o mutate /\ placed pre k o
  | OCreate KSecret s => se_Meta s = new_meta (OperatorNamespace r) rootCASecretName
  | OCreate _ _ => False
  | OUpdate KServer o' => exists o, (exists ns name, Ev () (OGet KServer ns name) (Ok o) ∈ pre) /\
      o' = with_finalizers o (if so_Deleting o then filter (fun f => f <> serverFinalizer) (so_Finalizers o)
                              else so_Finalizers o ++ [serverFinalizer]) /\
      (so_Deleting o = true -> exists answer,
         Ev () (ODelete KClusterRoleBinding "" (clusterBindingName (so_Server o)) None) answer ∈ pre /\
         match answer with Ok _ => True | Err err => IsNotFound err = true end)
  | OUpdate _ _ => False
  | ODelete KClusterRoleBinding _ name _ => Forall honest pre -> name = clusterBindingName server
  | ODelete KNetworkPolicy ns name uid => exists policy,
      Ev () (OGet KNetworkPolicy (Namespace server) (Name server)) (Ok policy) ∈ pre /\ mine (np_Meta policy) /\
      ns = om_Namespace (np_Meta policy) /\ name = om_Name (np_Meta policy) /\ uid = Some (om_UID (np_Meta policy))
  | ODelete _ _ _ _ => False
  | OPatch before after => after = scaled_to_zero before /\ mine (dp_Meta before) /\
      Ev () (OGet KDeployment (Namespace server) (Name server)) (Ok before) ∈ pre
  | _ => True
  end.

Definition op_rule (pre : list op_event) (e : op_event) : Prop := call_rule pre (ev_call e).

(** *** Lemmas *)

Lemma requireControllerOwnership_ok m : requireControllerOwnership server m = Ok () <-> mine m.
Proof.
  unfold requireControllerOwnership, mine, unwritten, controlled.
  repeat case_bool_decide; cbn [andb]; try destruct (IsControlledBy _ _); naive_solver.
Qed.

Lemma exactStrings_one values x : exactStrings values [x] = true -> values = [x].
Proof.
  unfold exactStrings. intros [Hl Hs]%andb_prop. apply bool_decide_eq_true in Hl, Hs.
  by destruct values as [|y [|]].
Qed.

Lemma validTokenReviewerRole_only role : validTokenReviewerRole role = true -> reviews_tokens_only role.
Proof.
  unfold validTokenReviewerRole, reviews_tokens_only. destruct (cr_AggregationRule role); [done|].
  destruct (cr_Rules role) as [|[] [|]]; try done. cbn -[exactStrings].
  rewrite !andb_true_iff, !bool_decide_eq_true.
  by intros [[[[->%exactStrings_one ->%exactStrings_one] ->%exactStrings_one] ->] ->].
Qed.

Lemma requireControllerOwnership_mine m u : requireControllerOwnership server m = Ok u -> mine m.
Proof. destruct u. apply requireControllerOwnership_ok. Qed.

Lemma guarded_by_check {k} (f : obj k -> result go_error (obj k)) :
  (forall o, exists ns refs g, (forall owners, om_OwnerReferences (meta_of k (g owners)) = owners /\
                                          om_Labels (meta_of k (g owners)) = ServerLabels server) /\
     f o = (_ ← requireControllerOwnership server (meta_of k o); owners ← SetControllerReference server ns refs; Ok (g owners))) ->
  guarded k f.
Proof.
  intros Hf o o' Ho. destruct (Hf o) as (ns & refs & g & Hg & Hfo). rewrite Hfo in Ho.
  apply bind_unit_ok in Ho as [Ho Hs]. apply bind_ok in Hs as (owners & Hs & [= <-]).
  destruct (Hg owners) as [Ho' Hl]. split; [by apply requireControllerOwnership_ok|]. split; [done|]. exists ns, refs. by rewrite Ho'.
Qed.

Ltac guard_shape := apply guarded_by_check; intros o; eexists _, _, (fun owners => _); split; [|reflexivity]; done.

Lemma guarded_configMap data : guarded KConfigMap (mutate_configMap server (ServerLabels server) data).
Proof. guard_shape. Qed.
Lemma guarded_serviceAccount : guarded KServiceAccount (mutate_serviceAccount server (ServerLabels server)).
Proof. guard_shape. Qed.
Lemma guarded_networkPolicy : guarded KNetworkPolicy (mutate_networkPolicy server (ServerLabels server)).
Proof. guard_shape. Qed.
Lemma guarded_service policyRev rev : guarded KService (mutate_service server (ServerLabels server) policyRev rev).
Proof. guard_shape. Qed.
Lemma guarded_deployment image rev crev trev : guarded KDeployment (mutate_deployment image server (ServerLabels server) rev crev trev).
Proof. guard_shape. Qed.
Lemma guarded_relabel_secret : guarded KSecret (relabel_secret server).
Proof. guard_shape. Qed.
Lemma guarded_fill_secret certPEM keyPEM bundle : guarded KSecret (fill_secret server certPEM keyPEM bundle).
Proof. guard_shape. Qed.
End rules.

Create HintDb operator.
#[export] Hint Resolve guarded_configMap guarded_serviceAccount guarded_networkPolicy guarded_service guarded_deployment
  guarded_relabel_secret guarded_fill_secret : operator.

(** ** Every request keeps the rules *)

Section runs.
Context {G : GoLib} {Q : QuantityLib} {C : ControllerLib} {X : X509Lib} {T : ConfigText}.
Context (r : KubernetesMCPServerReconciler) (server : KubernetesMCPServer).

Abbreviation rule := (op_rule r server).
(** [m] keeps the rules and forgets nothing. *)
Definition keeps {A} (pre : list op_event) (m : OpK A) : Prop := runs rule pre m (fun _ pre' => pre ⊆ pre').

Lemma runs_ask {A B} (P : list op_event -> op_event -> Prop) pre (c : op_call A) (k : A -> OpK B) R :
  (forall a, P pre (Ev () c a)) -> (forall a, runs P (pre ++ [Ev () c a]) (k a) R) -> runs P pre (kbind (ask c) k) R.
Proof. apply runs_request. Qed.

Lemma runs_let {A B} (P : list op_event -> op_event -> Prop) pre (a : A) (k : A -> OpK B) R :
  runs P pre (k a) R -> runs P pre (kbind (kret a) k) R.
Proof. done. Qed.

Lemma in_history (pre : list op_event) e : e ∈ pre ++ [e].
Proof. set_solver. Qed.
Lemma in_older (pre : list op_event) e e' : e ∈ pre -> e ∈ pre ++ [e'].
Proof. set_solver. Qed.

Lemma keeps_bind {A B} pre (m : OpK A) (k : A -> OpK B) :
  keeps pre m -> (forall a pre', pre ⊆ pre' -> keeps pre' (k a)) -> keeps pre (kbind m k).
Proof.
  intros Hm Hk. eapply runs_bind; [exact Hm|]. intros a pre' Hs. eapply runs_weaken; [by apply Hk|]. cbn. intros _ pre'' ?. set_solver.
Qed.

Lemma keeps_ret {A} pre (a : A) : keeps pre (kret a).
Proof. by apply runs_ret. Qed.

Lemma keeps_ask {A B} pre (c : op_call A) (k : A -> OpK B) :
  call_rule r server pre c -> (forall a, keeps (pre ++ [Ev () c a]) (k a)) -> keeps pre (kbind (ask c) k).
Proof.
  intros Hc Hk. apply runs_ask; [done|]. intros a. eapply runs_weaken; [apply Hk|]. cbn. intros _ pre' ?. set_solver.
Qed.
End runs.

#[export] Hint Resolve in_history in_older : operator.

(** One step through a handler. *)
Ltac op_step :=
  lazymatch goal with
  | |- keeps _ _ _ (kret _) => apply keeps_ret
  | |- keeps _ _ _ (kbind (ask _) _) => apply keeps_ask; [|intros ?]
  | |- keeps _ _ _ (kbind (kret _) _) => apply runs_let
  | |- keeps _ _ _ (match ?x with _ => _ end) => destruct x eqn:?
  end.

Section keeps_rules.
Context {G : GoLib} {Q : QuantityLib} {C : ControllerLib} {X : X509Lib} {T : ConfigText}.
Context (r : KubernetesMCPServerReconciler) (server : KubernetesMCPServer).

Lemma newCA_keeps pre : keeps r server pre newCA.
Proof. unfold newCA. repeat (op_step || done). Qed.

Lemma parseCA_keeps pre certPEM keyPEM : keeps r server pre (parseCA certPEM keyPEM).
Proof. unfold parseCA. repeat (op_step || done). Qed.

Lemma ensureRootCA_keeps pre : keeps r server pre (ensureRootCA (OperatorNamespace r)).
Proof.
  unfold ensureRootCA. op_step; [done|]. op_step; [apply parseCA_keeps|]. op_step; [op_step|].
  apply keeps_bind; [apply newCA_keeps|]. intros [ca|] pre' _; [|op_step]. op_step; [done|]. repeat (op_step || done || apply parseCA_keeps).
Qed.

Lemma validateServingTLS_keeps pre secret bundle : keeps r server pre (validateServingTLS secret server bundle).
Proof. unfold validateServingTLS. repeat (op_step || done). Qed.

Lemma servingCertificateValid_keeps pre secret bundle remaining : keeps r server pre (servingCertificateValid secret server bundle remaining).
Proof.
  unfold servingCertificateValid. op_step; [op_step|]. apply keeps_bind; [apply validateServingTLS_keeps|].
  intros a pre' _. repeat (op_step || done).
Qed.

Lemma placed_mono pre pre' k o : pre ⊆ pre' -> placed server pre k o -> placed server pre' k o.
Proof. intros Hs Ho Hh. apply Ho. rewrite Forall_forall in *. auto. Qed.

Lemma issue_certificate_keeps pre ca secret :
  placed server pre KSecret secret -> keeps r server pre (issue_certificate server ca secret).
Proof.
  intros Hp. unfold issue_certificate, signServer. apply keeps_bind; [repeat (op_step || done)|].
  intros [signed|] pre' Hs; [|op_step]. op_step; [|repeat op_step].
  split; [apply guarded_fill_secret|by eapply placed_mono].
Qed.

Lemma ensureServingCertificate_keeps pre ca : keeps r server pre (ensureServingCertificate server ca).
Proof.
  unfold ensureServingCertificate. op_step.
  - unfold configured_certificate, validateConfiguredTLS. op_step; [done|]. repeat op_step.
    apply keeps_bind; [apply validateServingTLS_keeps|]. intros [|] pre' _; op_step.
  - op_step; [|op_step]. unfold managed_certificate. op_step; [done|]. destruct a as [o|err].
    + op_step; [|op_step].
      assert (placed server (pre ++ [Ev () (OGet KSecret (Namespace server) (TLSSecretName server)) (Ok o)]) KSecret o) as Hp.
      { intros Hh. apply Forall_app in Hh as [_ Hh]. apply Forall_cons in Hh as [Hh _]. exact Hh. }
      apply keeps_bind; [apply servingCertificateValid_keeps|]. intros [] pre' Hs.
      * op_step; [|repeat op_step]. split; [apply guarded_relabel_secret|by eapply placed_mono].
      * apply issue_certificate_keeps. by eapply placed_mono.
    + op_step; [by apply issue_certificate_keeps|op_step].
Qed.

Lemma create_or_update_keeps pre k o mutate what :
  write_rule r server pre k o mutate -> placed server pre k o -> keeps r server pre (create_or_update k o mutate what).
Proof. intros H Ho. unfold create_or_update. op_step; [done|op_step]. Qed.

Lemma reconcileService_keeps pre rev :
  service_rule r server pre rev ->
  keeps r server pre (reconcileService server (ServerLabels server) (policyRevision server) rev).
Proof.
  intros H. unfold reconcileService. apply keeps_bind; [apply create_or_update_keeps; [by exists rev|done]|].
  intros [|] pre' _; op_step.
Qed.

Lemma gate_revision_allowed pre s :
  Ev () (OGet KService (Namespace server) (Name server)) (Ok s) ∈ pre ->
  service_rule r server pre (gate_revision s (policyRevision server)).
Proof.
  intros Hs. unfold gate_revision. cbn zeta. destruct (_ || _) eqn:E; [by left|]. right. left. exists s.
  reflect_bools. split_and!; [done..|]. by destruct (obj_get (ss_Selector _) _).
Qed.

Lemma reconcileServiceGate_keeps pre :
  keeps r server pre (reconcileServiceGate server (ServerLabels server) (policyRevision server)).
Proof.
  unfold reconcileServiceGate. op_step; [done|]. op_step.
  - apply reconcileService_keeps, gate_revision_allowed, in_history.
  - op_step; [apply reconcileService_keeps; by left|op_step].
Qed.

Lemma reconcileServiceAccount_keeps pre : keeps r server pre (reconcileServiceAccount server (ServerLabels server)).
Proof.
  unfold reconcileServiceAccount. apply keeps_bind; [apply create_or_update_keeps; [apply guarded_serviceAccount|done]|].
  intros [|] pre' _; op_step.
Qed.

(** The binding that is deleted or written has the name of this server's. *)
Definition named_binding (pre : list op_event) (b : ClusterRoleBinding) : Prop :=
  Forall honest pre -> om_Name (cb_Meta b) = clusterBindingName server.

Lemma named_binding_mono pre pre' b : pre ⊆ pre' -> named_binding pre b -> named_binding pre' b.
Proof. intros Hs Hb Hh. apply Hb. rewrite Forall_forall in *. auto. Qed.

Lemma rejectDelegatedAuthentication_keeps pre b cause :
  named_binding pre b -> keeps r server pre (rejectDelegatedAuthentication b cause).
Proof. intros Hb. unfold rejectDelegatedAuthentication. op_step; [exact Hb|op_step]. Qed.

Lemma reject_keeps pre b cause : named_binding pre b -> keeps r server pre (reject b cause).
Proof. intros Hb. unfold reject. apply keeps_bind; [by apply rejectDelegatedAuthentication_keeps|]. intros; op_step. Qed.

Lemma write_binding_keeps pre b :
  binding_rule server pre -> named_binding pre b -> keeps r server pre (write_binding server b).
Proof.
  intros Hr Hb. unfold write_binding. op_step; [done|]. op_step; [op_step|].
  apply reject_keeps. eapply named_binding_mono; [|done]. set_solver.
Qed.

Lemma reconcileDelegatedAuthentication_keeps pre : keeps r server pre (reconcileDelegatedAuthentication server).
Proof.
  unfold reconcileDelegatedAuthentication. op_step; [done|].
  destruct a as [account|]; [|by apply reject_keeps].
  op_step; [|by apply reject_keeps]. op_step; [done|]. destruct a0 as [role|]; [|by apply reject_keeps].
  op_step; [by apply reject_keeps|]. op_step; [done|].
  assert (forall answer, (match answer with Ok b => cb_RoleRef b = expectedRoleRef | Err err => IsNotFound err = true end) ->
    binding_rule server (((pre ++ [Ev () (OGet KServiceAccount (Namespace server) (Name server)) (Ok account)])
      ++ [Ev () (OGet KClusterRole "" tokenReviewerClusterRole) (Ok role)])
      ++ [Ev () (OGet KClusterRoleBinding "" (clusterBindingName server)) answer])) as Hrule.
  { intros answer Ha. exists account, role. split_and!; [auto with operator| |auto with operator|by apply validTokenReviewerRole_only, negb_false_iff|].
    - by eapply requireControllerOwnership_mine.
    - destruct answer as [b|err]; [right; exists b|left; exists err]; auto with operator. }
  destruct a0 as [b|err].
  - assert (named_binding (((pre ++ [Ev () (OGet KServiceAccount (Namespace server) (Name server)) (Ok account)])
      ++ [Ev () (OGet KClusterRole "" tokenReviewerClusterRole) (Ok role)])
      ++ [Ev () (OGet KClusterRoleBinding "" (clusterBindingName server)) (Ok b)]) b) as Hb.
    { intros Hh. apply Forall_app in Hh as [_ Hh]. by apply Forall_singleton in Hh as [_ Hh]. }
    case_bool_decide as Href; [op_step; [exact Hb|op_step]|]. apply write_binding_keeps; [|done].
    by apply (Hrule (Ok b)).
  - destruct (IsNotFound err) eqn:En; [|by apply reject_keeps]. by apply write_binding_keeps; [apply (Hrule (Err err))|].
Qed.

Lemma reconcileNetworkPolicy_keeps pre : keeps r server pre (reconcileNetworkPolicy server (ServerLabels server)).
Proof.
  unfold reconcileNetworkPolicy. op_step.
  - op_step; [done|]. destruct a as [policy|err]; [|repeat op_step]. op_step; [|op_step]. op_step; [|repeat op_step].
    exists policy. split_and!; [auto with operator| |done..]. by eapply requireControllerOwnership_mine.
  - apply keeps_bind; [apply create_or_update_keeps; [apply guarded_networkPolicy|done]|]. intros [|] pre' _; op_step.
Qed.

Lemma disableServer_keeps pre : keeps r server pre (disableServer server).
Proof.
  unfold disableServer, disable_deployment. apply keeps_bind; [apply reconcileService_keeps; by left|].
  intros gated pre' _. apply keeps_bind; [|intros; op_step]. op_step; [done|].
  destruct a as [d|]; [|op_step]. op_step; [op_step|]. op_step; [|op_step]. op_step; [|op_step].
  split_and!; [done| |auto with operator]. by eapply requireControllerOwnership_mine.
Qed.

Lemma fail_keeps pre o condition reason cause : so_Server o = server -> keeps r server pre (fail o condition reason cause).
Proof.
  intros E. unfold fail. rewrite E. apply keeps_bind; [apply disableServer_keeps|]. intros gateErr pre' _. op_step; [done|op_step].
Qed.

Lemma report_keeps pre namespace name o generation : keeps r server pre (report namespace name o generation).
Proof. unfold report. op_step; [done|]. destruct a as [d|err]; [|op_step]; repeat (op_step || done). Qed.
End keeps_rules.

(** ** How a reconciliation ends *)

Section outcome.
Context {G : GoLib} {Q : QuantityLib} {C : ControllerLib} {X : X509Lib} {T : ConfigText}.
Context (r : KubernetesMCPServerReconciler) (server : KubernetesMCPServer).

Definition write_service (rev : string) : op_call (result go_error (obj KService)) :=
  OCreateOrUpdate KService (new_service (Namespace server) (Name server))
    (mutate_service server (ServerLabels server) (policyRevision server) rev).
Definition write_deployment (rev crev trev : string) : op_call (result go_error (obj KDeployment)) :=
  OCreateOrUpdate KDeployment (new_deployment (Namespace server) (Name server))
    (mutate_deployment (ServerImage r) server (ServerLabels server) rev crev trev).

(** Neither the Service nor the Deployment is written again. *)
Definition quiet (e : op_event) : Prop :=
  match ev_call e with
  | OCreateOrUpdate KService _ _ | OCreateOrUpdate KDeployment _ _ => False
  | _ => True
  end.

Definition mentions (whole part : string) : Prop := exists a b, whole = a +:+ (part +:+ b).

(** The call fails; its last word to the Service is to select the disabled revision, and if that
    write failed, the error that is returned says so. *)
Definition closed (res : result go_error ctrl_Result) (es : list op_event) : Prop :=
  exists err before answer after, res = Err err /\
    es = before ++ Ev () (write_service disabledServerRevision) answer :: after /\ Forall quiet after /\
    match answer with
    | Ok _ => True
    | Err e => mentions (error_string err) (error_string (Wrapped "disable Server Service" (Wrapped "reconcile Service" e)))
    end.

(** The last word is that the Service selects the revision of the Deployment
    that was written just before, and both writes succeeded. *)
Definition routed (es : list op_event) : Prop :=
  exists crev trev before d s after,
    let rev := workloadRevision_of r (policyRevision server) crev trev in
    es = before ++ Ev () (write_deployment rev crev trev) (Ok d) :: Ev () (write_service rev) (Ok s) :: after /\ Forall quiet after.

Lemma routed_quiet es b : routed es -> Forall quiet b -> routed (es ++ b).
Proof.
  intros (crev & trev & before & d & s & after & -> & Ha) Hb. exists crev, trev, before, d, s, (after ++ b).
  rewrite <- app_assoc. split; [done|]. by apply Forall_app.
Qed.

Abbreviation rule := (op_rule r server).
Definition adds_quiet {A} (pre : list op_event) (m : OpK A) (R : A -> Prop) : Prop :=
  runs rule pre m (fun a pre' => R a /\ exists b, pre' = pre ++ b /\ Forall quiet b).

Lemma adds_quiet_ret {A} pre (a : A) (R : A -> Prop) : R a -> adds_quiet pre (kret a) R.
Proof. intros HR. apply runs_ret. split; [done|]. exists []. by rewrite app_nil_r. Qed.

Lemma adds_quiet_ask {A B} pre (c : op_call A) (k : A -> OpK B) R :
  call_rule r server pre c -> (forall a, quiet (Ev () c a)) ->
  (forall a, adds_quiet (pre ++ [Ev () c a]) (k a) R) -> adds_quiet pre (kbind (ask c) k) R.
Proof.
  intros Hc Hq Hk. apply runs_ask; [done|]. intros a. eapply runs_weaken; [apply Hk|]. cbn.
  intros b pre' (? & es & -> & Hes). split; [done|]. exists (Ev () c a :: es). rewrite <- app_assoc. split; [done|by constructor].
Qed.

Lemma disable_deployment_quiet pre : adds_quiet pre (disable_deployment server) (fun _ => True).
Proof.
  unfold disable_deployment. apply adds_quiet_ask; [done..|]. intros [d|err]; [|by apply adds_quiet_ret].
  case_bool_decide; [by apply adds_quiet_ret|]. destruct (requireControllerOwnership _ _) eqn:Eo; [|by apply adds_quiet_ret].
  apply adds_quiet_ask; [|done|intros; by apply adds_quiet_ret].
  split_and!; [done|by eapply requireControllerOwnership_mine|apply in_history].
Qed.

Lemma report_quiet pre namespace name o generation :
  adds_quiet pre (report namespace name o generation) (fun _ => True).
Proof.
  unfold report. apply adds_quiet_ask; [done..|].
  assert (forall pre ready, adds_quiet pre
    (kbind (ask (OUpdateStatus (final_status o ready))) (fun updated => kret
       match updated with Err err => Err err | Ok _ => Ok {| Requeue := false; RequeueAfter := if ready then 5 * minute else 5 * second |} end))
    (fun _ => True)) as Hc by (intros; apply adds_quiet_ask; [done..|]; intros; by apply adds_quiet_ret).
  intros [d|err]; [apply Hc|]. destruct (IsNotFound err); [apply Hc|by apply adds_quiet_ret].
Qed.

Lemma Join_errors_first e rest : exists j b, Join_errors (e :: rest) = Some j /\ error_string j = error_string e +:+ b.
Proof.
  destruct rest as [|f rest]; [exists e, ""; by rewrite append_nil_r|]. cbn [Join_errors].
  destruct (match rest with [] => _ | _ :: _ => _ end) as [j|]; [|exists e, ""; by rewrite append_nil_r].
  eexists _, _. split; [done|]. reflexivity.
Qed.

(** After a failure the gate is closed. *)
Lemma fail_closes pre o condition reason cause :
  so_Server o = server -> runs rule pre (fail o condition reason cause) closed.
Proof.
  intros Eo. unfold fail. rewrite Eo. unfold disableServer, reconcileService, create_or_update.
  eapply runs_bind with (R1 := fun gateErr pre' => exists answer after,
    pre' = pre ++ Ev () (write_service disabledServerRevision) answer :: after /\ Forall quiet after /\
    match answer with
    | Ok _ => True
    | Err e => exists j b, gateErr = Some j /\
        error_string j = error_string (Wrapped "disable Server Service" (Wrapped "reconcile Service" e)) +:+ b
    end).
  - eapply runs_bind with (R1 := fun gated pre' => exists answer, pre' = pre ++ [Ev () (write_service disabledServerRevision) answer] /\
      gated = match answer with Ok _ => Ok () | Err e => Err (Wrapped "reconcile Service" e) end).
    + eapply runs_bind with (R1 := fun (written : result go_error Service) pre' => exists answer,
        pre' = pre ++ [Ev () (write_service disabledServerRevision) answer] /\
        written = match answer with Ok s => Ok s | Err e => Err (Wrapped "reconcile Service" e) end).
      * apply runs_ask; [intros; split; [|done]; exists disabledServerRevision; split; [done|by left]|]. intros answer. apply runs_ret.
        by exists answer.
      * intros written pre' (answer & -> & ->). destruct answer; apply runs_ret; by eexists.
    + intros gated pre' (answer & -> & ->). eapply runs_bind; [apply disable_deployment_quiet|].
      intros more pre'' (_ & b & -> & Hb). apply runs_ret. exists answer, b. rewrite <- app_assoc. split_and!; [done..|].
      destruct answer as [|e]; [done|]. apply Join_errors_first.
  - intros gateErr pre' (answer & after & -> & Hq & Ha). apply runs_ask; [done|]. intros updated. apply runs_ret.
    eexists _, pre, answer, _. split; [done|]. rewrite <- app_assoc. cbn. split; [done|].
    split; [apply Forall_app; split; [done|by repeat constructor]|]. destruct answer as [|e]; [done|].
    destruct Ha as (j & b & -> & Hj). exists (error_string cause +:+ String (Ascii.ascii_of_nat 10) ""), b.
    unfold join_errors. cbn [error_string] in Hj |- *. by rewrite Hj, !append_assoc.
Qed.

Lemma reconcileResources_routes pre bundle material ca :
  provenance server ca pre material ->
  runs rule pre (reconcileResources r server (ServerLabels server) (policyRevision server) bundle (revision material))
    (fun res pre' => forall generation, res = Ok generation -> routed pre').
Proof.
  intros Hprov. unfold reconcileResources. destruct (MarshalConfig _) as [configData|] eqn:Em; [|by apply runs_ret].
  eapply runs_bind with (R1 := fun res pre' => pre ⊆ pre' /\ forall cm, res = Ok cm -> config_written server pre' configData cm).
  { unfold create_or_update. apply runs_ask.
    - intros a. split; [|by split; [|left]]. eexists. split; [done|]. left. split; [done|]. by exists configData.
    - intros a. apply runs_ret. split; [set_solver|]. intros cm Hcm. destruct a as [cm0|]; [|done]. injection Hcm as ->.
      split; [apply in_history|done]. }
  intros [configMap|] pre1 [H1 Hcm]; [|by apply runs_ret]. destruct (Hcm _ eq_refl) as [Hw _].
  eapply runs_bind; [apply create_or_update_keeps; [|split; [done|by right]]|].
  { eexists. split; [done|]. right. split; [done|]. by exists bundle. } intros [caMap|] pre2 H2; [|by apply runs_ret].
  eapply runs_bind; [apply reconcileNetworkPolicy_keeps|]. intros [u|] pre3 H3; [|by apply runs_ret].
  cbn zeta. set (crev := configRevision_of configData configMap). set (trev := revision material).
  set (rev := workloadRevision_of r (policyRevision server) crev trev).
  eapply runs_bind with (R1 := fun res pre' => forall g, res = Ok g -> exists d, pre' = pre3 ++ [Ev () (write_deployment rev crev trev) (Ok d)]).
  { unfold reconcileDeployment, create_or_update.
    eapply runs_bind with (R1 := fun res pre' => forall d, res = Ok d -> pre' = pre3 ++ [Ev () (write_deployment rev crev trev) (Ok d)]).
    - apply runs_ask.
      + intros a. split; [|done]. exists configData, configMap, ca, material. split; [split; [set_solver|done]|].
        split; [|done]. eapply provenance_mono; [|done]. set_solver.
      + intros [d|]; apply runs_ret; [|done]. intros ? [= ->]. done.
    - intros [d|] pre' H; apply runs_ret; [|done]. intros g _. exists d. by apply H. }
  intros [g|] pre4 H4; [|by apply runs_ret]. destruct (H4 g eq_refl) as [d ->]. unfold reconcileService, create_or_update.
  eapply runs_bind with (R1 := fun res pre' => forall u, res = Ok u -> routed pre').
  { eapply runs_bind with (R1 := fun res pre' => forall s, res = Ok s -> routed pre').
    - apply runs_ask.
      + intros. split; [|done]. exists rev. split; [done|]. right. right. exists crev, trev, d. apply in_history.
      + intros [s|]; apply runs_ret; [|done]. intros ? [= ->].
        exists crev, trev, pre3, d, s0, []. split; [by rewrite <- app_assoc|done].
    - intros [s|] pre' H; apply runs_ret; [|done]. intros u' _. by apply (H s). }
  intros [u'|] pre5 H5; apply runs_ret; [|done]. intros g' _. by apply (H5 u').
Qed.
End outcome.

Section reconcile.
Context {G : GoLib} {Q : QuantityLib} {C : ControllerLib} {X : X509Lib} {T : ConfigText}.
Context (r : KubernetesMCPServerReconciler).

Lemma reconcile_live_runs pre namespace name o :
  let server := Default (so_Server o) in
  runs (op_rule r server) pre (reconcile_live r namespace name o)
    (fun res pre' => routed r server pre' \/ closed server res pre').
Proof.
  intros server. unfold reconcile_live. cbn zeta. fold server.
  assert (forall pre condition reason cause, runs (op_rule r server) pre (fail (with_server o server) condition reason cause)
    (fun res pre' => routed r server pre' \/ closed server res pre')) as Hfail.
  { intros. eapply runs_weaken; [by apply (fail_closes r server)|]. auto. }
  eapply runs_bind; [apply reconcileServiceGate_keeps|]. intros [[]|err] pre1 _; [|apply Hfail].
  eapply runs_bind; [apply reconcileServiceAccount_keeps|]. intros [[]|err] pre2 _.
  2: { eapply runs_bind; [by apply rejectDelegatedAuthentication_keeps|]. intros err' pre3 _. apply Hfail. }
  eapply runs_bind; [apply reconcileDelegatedAuthentication_keeps|]. intros [[]|err] pre3 _; [|apply Hfail].
  eapply runs_bind with (R1 := fun _ _ => True).
  { destruct (bool_decide _); [|by apply runs_ret]. eapply runs_bind; [apply ensureRootCA_keeps|]. intros; by apply runs_ret. }
  intros [ca|err] pre4 _; [|apply Hfail].
  eapply runs_bind; [apply runs_satisfies; [apply ensureServingCertificate_keeps|apply ensureServingCertificate_satisfies]|].
  intros [certificate|err] pre5 (_ & es5 & -> & Hp); [|apply Hfail].
  eapply runs_bind; [eapply reconcileResources_routes, provenance_mono; [|by apply Hp]; set_solver|]. intros [generation|err] pre6 H6; [|apply Hfail].
  eapply runs_weaken; [apply report_quiet|]. cbn. intros res pre7 (_ & b & -> & Hb). left.
  apply routed_quiet; [|done]. by apply (H6 generation).
Qed.

Lemma finalize_runs pre ns name o :
  let server := Default (so_Server o) in
  Ev () (OGet KServer ns name) (Ok o) ∈ pre -> so_Deleting o = true ->
  runs (op_rule r server) pre (finalize o) (fun _ _ => True).
Proof.
  intros server Ho Hdel. unfold finalize. destruct (negb _); [by apply runs_ret|]. apply runs_ask; [done|]. intros deleted.
  assert (forall k : OpK (result go_error ctrl_Result), (match deleted with Ok _ => True | Err err => IsNotFound err = true end ->
    runs (op_rule r server) (pre ++ [Ev () (ODelete KClusterRoleBinding "" (clusterBindingName (so_Server o)) None) deleted]) k (fun _ _ => True)) ->
    runs (op_rule r server) (pre ++ [Ev () (ODelete KClusterRoleBinding "" (clusterBindingName (so_Server o)) None) deleted])
      (match deleted with Err err => if IsNotFound err then k else kret (Err err) | Ok _ => k end) (fun _ _ => True)) as Hcase.
  { intros k Hk. destruct deleted as [|err]; [by apply Hk|]. destruct (IsNotFound err); [by apply Hk|by apply runs_ret]. }
  apply Hcase. intros Hd. apply runs_ask; [|intros; by apply runs_ret]. intros a.
  exists o. split_and!; [|by rewrite Hdel|].
  - exists ns, name. set_solver.
  - intros _. exists deleted. split; [apply in_history|done].
Qed.

Lemma kbind_ask {A B} (c : op_call A) (k : A -> OpK B) w h :
  kbind (ask c) k w h = k (w _ h () c) w (h ++ [Ev () c (w _ h () c)]).
Proof. reflexivity. Qed.

(** The trace of [Reconcile], given what the first request is answered. *)
Lemma Reconcile_runs namespace name w h :
  exists es, (Reconcile r namespace name w h).2 = h ++ es /\
    forall o, w _ h () (OGet KServer namespace name) = Ok o ->
      each_after (op_rule r (Default (so_Server o))) [] es /\
      (so_Deleting o = false -> serverFinalizer ∈ so_Finalizers o ->
       routed r (Default (so_Server o)) es \/ closed (Default (so_Server o)) (Reconcile r namespace name w h).1 es).
Proof.
  unfold Reconcile. rewrite kbind_ask.
  set (e := Ev () (OGet KServer namespace name) (w _ h () (OGet KServer namespace name))).
  assert (forall A (m : OpK A) server (R : A -> list op_event -> Prop),
    runs (op_rule r server) [e] m R ->
    exists es, (m w (h ++ [e])).2 = h ++ e :: es /\ each_after (op_rule r server) [] (e :: es) /\ R (m w (h ++ [e])).1 (e :: es)) as Hfirst.
  { intros A m server R Hm. destruct (Hm w (h ++ [e])) as (es & Hes & He & HR). exists es. rewrite Hes, <- app_assoc.
    split_and!; [done| |done]. apply (each_after_app _ [] [e] es); [|done].
    intros x y z Hx. destruct x as [|? [|]]; [|done..]. by injection Hx as <- _. }
  destruct (w _ h () (OGet KServer namespace name)) as [o|err] eqn:Ew.
  2: { exists [e]. split; [done|]. discriminate. }
  assert (Ev () (OGet KServer namespace name) (Ok o) ∈ [e]) as Ho by (unfold e; by left).
  destruct (so_Deleting o) eqn:Ed.
  { destruct (Hfirst _ (finalize o) (Default (so_Server o)) _ (finalize_runs [e] namespace name o Ho Ed)) as (es & Hes & He & _).
    exists (e :: es). split; [done|]. intros o' [= <-]. split; [done|]. by rewrite Ed. }
  case_bool_decide as Hf; cbn [negb].
  - destruct (Hfirst _ _ _ _ (reconcile_live_runs [e] namespace name o)) as (es & Hes & He & HR).
    exists (e :: es). split; [done|]. intros o' [= <-]. split; [done|]. by intros _ _.
  - edestruct (Hfirst _ (kbind (ask (OUpdate KServer (with_finalizers o (so_Finalizers o ++ [serverFinalizer]))))
      (fun updated => kret match updated with Err err => Err err | Ok _ => Ok {| Requeue := true; RequeueAfter := 0 |} end))
      (Default (so_Server o)) (fun _ _ => True)) as (es & Hes & He & _).
    { apply runs_ask; [|intros; by apply runs_ret]. intros a. exists o. split_and!; [by exists namespace, name|by rewrite Ed|]. by rewrite Ed. }
    exists (e :: es). split; [done|]. intros o' [= <-]. split; [done|]. intros _ Hin. done.
Qed.
End reconcile.

(** ** Properties *)

Section properties.
Context {G : GoLib} {Q : QuantityLib} {C : ControllerLib} {X : X509Lib} {T : ConfigText}.
Context (r : KubernetesMCPServerReconciler).

(** A request that stays with the objects of one server, given the requests before it.
    A ClusterRoleBinding is cluster-scoped and carries no owner: it goes by its name, which is
    derived from the server's, and by its content. *)
Definition stays_with (server : KubernetesMCPServer) (pre : list op_event) (e : op_event) : Prop :=
  match ev_call e with
  | OCreateOrUpdate KClusterRoleBinding b mutate =>
    (Forall honest pre -> om_Name (cb_Meta b) = clusterBindingName server) /\
    (forall b0 b', mutate b0 = Ok b' -> binds_own_account server b') /\ binding_rule server pre
  | OCreateOrUpdate k o mutate =>
    (Forall honest pre -> in_place server k (meta_of k o)) /\
    (forall o0 o', mutate o0 = Ok o' -> mine server (meta_of k o0) /\ controlled server (meta_of k o'))
  | OPatch before after =>
    Ev () (OGet KDeployment (Namespace server) (Name server)) (Ok before) ∈ pre /\ mine server (dp_Meta before) /\ after = scaled_to_zero before
  | ODelete KNetworkPolicy ns name uid => exists policy,
    Ev () (OGet KNetworkPolicy (Namespace server) (Name server)) (Ok policy) ∈ pre /\ mine server (np_Meta policy) /\
    ns = om_Namespace (np_Meta policy) /\ name = om_Name (np_Meta policy) /\ uid = Some (om_UID (np_Meta policy))
  | ODelete KClusterRoleBinding _ name _ => Forall honest pre -> name = clusterBindingName server
  | ODelete _ _ _ _ => False
  | OCreate KSecret s => se_Meta s = new_meta (OperatorNamespace r) rootCASecretName
  | OCreate _ _ => False
  | OUpdate KServer o' => exists o, (exists ns name, Ev () (OGet KServer ns name) (Ok o) ∈ pre) /\
      o' = with_finalizers o (if so_Deleting o then filter (fun f => f <> serverFinalizer) (so_Finalizers o)
                              else so_Finalizers o ++ [serverFinalizer])
  | OUpdate _ _ => False
  | _ => True
  end.

Lemma op_rule_stays {L : ControllerLaws} server pre e : op_rule r server pre e -> stays_with server pre e.
Proof.
  unfold op_rule, stays_with.
  assert (forall k (mutate : obj k -> result go_error (obj k)), guarded server k mutate ->
    forall o o', mutate o = Ok o' -> mine server (meta_of k o) /\ controlled server (meta_of k o')) as Hg.
  { intros k mutate H o o' Ho. destruct (H o o' Ho) as (Hm & _ & ns & refs & Hs). split; [done|]. by eapply set_controller. }
  destruct (ev_call e) as [|k o mutate|k o|k o| |k ? ? uid| | | |]; cbn [call_rule]; try done.
  - intros [Hw Hp]. revert Hw Hp. destruct k; cbn [write_rule]; try done; try (intros Hw Hp; split; [exact Hp|by apply Hg]).
    + intros (data & -> & _) Hp. split; [exact Hp|]. apply Hg, guarded_configMap.
    + intros (rev & -> & _) Hp. split; [exact Hp|]. apply Hg, guarded_service.
    + intros [-> Hb] Hp. split_and!; [exact Hp| |done]. by intros b0 b' [= <-].
    + intros (text & cm & ca & material & _ & _ & ->) Hp. split; [exact Hp|]. apply Hg, guarded_deployment.
  - destruct k; try done. intros (o0 & Ho & -> & _). by exists o0.
  - intros (? & ? & ?). by split_and!.
Qed.


(** *** What a Service selects and what a Deployment runs *)

(** The revision among the labels a Service selects, and among those of the Pods of a Deployment. *)
Definition selects_revision (s : Service) (rev : string) : Prop :=
  obj_get (ss_Selector (sv_Spec s)) serverRevisionLabel = Some rev.
Definition runs_revision (d : Deployment) (rev : string) : Prop :=
  exists spec, dp_Spec d = Some spec /\ obj_get (pt_Labels (ds_Template spec)) serverRevisionLabel = Some rev.
Definition made_for (s : Service) (policyRev : string) : Prop :=
  default "" (obj_get (om_Annotations (sv_Meta s)) serverPolicyRevision) = policyRev.

Lemma mutate_service_selects server policyRev rev s s' :
  mutate_service server (ServerLabels server) policyRev rev s = Ok s' -> selects_revision s' rev /\ made_for s' policyRev.
Proof.
  intros H. apply bind_unit_ok in H as [_ H]. apply bind_ok in H as (owners & _ & [= <-]). unfold selects_revision, made_for, serverPodLabels.
  cbn [sv_Spec ss_Selector sv_Meta om_Annotations relabel]. by rewrite !obj_get_set_eq.
Qed.

Lemma mutate_deployment_runs server rev crev trev d d' :
  mutate_deployment (ServerImage r) server (ServerLabels server) rev crev trev d = Ok d' -> runs_revision d' rev.
Proof.
  intros H. apply bind_unit_ok in H as [_ H]. apply bind_ok in H as (owners & _ & [= <-]). eexists. split; [done|].
  cbn [deployment_spec ds_Template pt_Labels]. unfold serverPodLabels. by rewrite obj_get_set_eq.
Qed.

Lemma length_hex_digest parts : String.length (digestParts parts) = 64.
Proof. unfold digestParts. by rewrite length_hex_EncodeToString, length_Sum256. Qed.

Lemma length_substring n (s : string) : n <= String.length s -> String.length (substring 0 n s) = n.
Proof. revert s. induction n as [|n IH]; intros [|c s] Hn; cbn in *; try done; [lia|]. rewrite IH; lia. Qed.

Lemma workloadRevision_enabled policyRev crev trev : workloadRevision_of r policyRev crev trev <> "disabled".
Proof.
  intros E. apply (f_equal String.length) in E. unfold workloadRevision_of in E.
  rewrite length_substring in E by (rewrite length_hex_digest; lia). done.
Qed.

(** C14: Traffic follows the policy.  Whenever a reconciliation writes the Service, it makes the
    Service select one revision label and records the current policy revision on it; and the label is
    the disabled one, or the one the Service was found to select in this reconciliation, recorded for the same
    policy revision, or the one of the Pods of a Deployment written successfully before in this
    reconciliation.  No Deployment that is written has Pods with the disabled label. *)
Theorem service_follows_policy namespace name (w : op_env) h o :
  w _ h () (OGet KServer namespace name) = Ok o ->
  let server := Default (so_Server o) in
  exists es, (Reconcile r namespace name w h).2 = h ++ es /\
    (forall pre s mutate answer post, es = pre ++ Ev () (OCreateOrUpdate KService s mutate) answer :: post ->
      exists rev, (forall s0 s', mutate s0 = Ok s' -> selects_revision s' rev /\ made_for s' (policyRevision server)) /\
        (rev = "disabled" \/
         (exists s0, Ev () (OGet KService (Namespace server) (Name server)) (Ok s0) ∈ pre /\
            made_for s0 (policyRevision server) /\ selects_revision s0 rev) \/
         (exists d mutate_d written, Ev () (OCreateOrUpdate KDeployment d mutate_d) (Ok written) ∈ pre /\
            forall d0 d', mutate_d d0 = Ok d' -> runs_revision d' rev))) /\
    (forall pre d mutate answer post, es = pre ++ Ev () (OCreateOrUpdate KDeployment d mutate) answer :: post ->
      forall d0 d', mutate d0 = Ok d' -> exists rev, runs_revision d' rev /\ rev <> "disabled").
Proof.
  intros Ho server. destruct (Reconcile_runs r namespace name w h) as (es & Hes & Hrun). destruct (Hrun o Ho) as [Hrule _].
  exists es. split_and!; [done| |].
  - intros pre s mutate answer post Hp. destruct (Hrule _ _ _ Hp) as [(rev & -> & Hr) _]. exists rev.
    split; [by apply mutate_service_selects|]. destruct Hr as [->|[Hr|(crev & trev & d & Hd)]]; [by left|right; by left|right; right].
    eexists _, _, d. split; [exact Hd|]. intros d0 d' H'. by eapply mutate_deployment_runs.
  - intros pre d mutate answer post Hp d0 d' Hm. destruct (Hrule _ _ _ Hp) as [(text & cm & ca & material & _ & _ & ->) _].
    eexists. split; [by eapply mutate_deployment_runs|apply workloadRevision_enabled].
Qed.

(** C15: The right to review tokens is bound only to this server's own service account,
    to the role that grants nothing else, after both were read and checked in this
    reconciliation, and under this server's own name for it; and a server that is
    being deleted loses its finalizer only after its binding was deleted or found
    gone. *)
Theorem token_review_is_confined namespace name (w : op_env) h o :
  w _ h () (OGet KServer namespace name) = Ok o ->
  exists es, (Reconcile r namespace name w h).2 = h ++ es /\
    let server := Default (so_Server o) in
    (forall pre b mutate answer post, es = pre ++ Ev () (OCreateOrUpdate KClusterRoleBinding b mutate) answer :: post ->
       (forall b0 b', mutate b0 = Ok b' -> binds_own_account server b') /\ binding_rule server pre /\
       (Forall honest pre -> om_Name (cb_Meta b) = clusterBindingName server)) /\
    (forall pre o' answer post, es = pre ++ Ev () (OUpdate KServer o') answer :: post -> so_Deleting o' = true ->
       exists deleted, Ev () (ODelete KClusterRoleBinding "" (clusterBindingName (so_Server o')) None) deleted ∈ pre /\
         match deleted with Ok _ => True | Err err => IsNotFound err = true end).
Proof.
  intros Ho. destruct (Reconcile_runs r namespace name w h) as (es & Hes & Hrun). destruct (Hrun o Ho) as [Hrule _].
  exists es. split; [done|]. split.
  - intros pre b mutate answer post Hp. destruct (Hrule _ _ _ Hp) as [[-> Hb] Hn].
    split_and!; [|done..]. by intros b0 b' [= <-].
  - intros pre o' answer post Hp Hd. destruct (Hrule _ _ _ Hp) as (o1 & _ & -> & Hdel). by apply Hdel.
Qed.

(** The last word of the reconciliation: a Deployment and then the Service were written, both
    successfully, under the server's name; the Service selects exactly the labels of the Deployment's Pods, among them
    a revision that is not the disabled one. *)
Definition gate_opened (server : KubernetesMCPServer) (es : list op_event) : Prop :=
  exists before d mutate_d written s mutate_s written_s after rev,
    es = before ++ Ev () (OCreateOrUpdate KDeployment d mutate_d) (Ok written) ::
                   Ev () (OCreateOrUpdate KService s mutate_s) (Ok written_s) :: after /\
    Forall quiet after /\ rev <> "disabled" /\
    dp_Meta d = new_meta (Namespace server) (Name server) /\ sv_Meta s = new_meta (Namespace server) (Name server) /\
    (forall d0 d', mutate_d d0 = Ok d' -> runs_revision d' rev) /\ (forall s0 s', mutate_s s0 = Ok s' -> selects_revision s' rev) /\
    (forall d0 d' s0 s', mutate_d d0 = Ok d' -> mutate_s s0 = Ok s' ->
       (fun spec => pt_Labels (ds_Template spec)) <$> dp_Spec d' = Some (ss_Selector (sv_Spec s'))).

(** The reconciliation fails, and its last word is to make the Service select the disabled revision; if
    that write failed too, the error that is returned says so. *)
Definition gate_shut (server : KubernetesMCPServer) (res : result go_error ctrl_Result) (es : list op_event) : Prop :=
  exists err before s mutate answer after, res = Err err /\
    es = before ++ Ev () (OCreateOrUpdate KService s mutate) answer :: after /\ Forall quiet after /\
    sv_Meta s = new_meta (Namespace server) (Name server) /\
    (forall s0 s', mutate s0 = Ok s' -> selects_revision s' "disabled") /\
    match answer with
    | Ok _ => True
    | Err e => mentions (error_string err) ("disable Server Service: reconcile Service: " +:+ error_string e)
    end.

Lemma routed_opened server es : routed r server es -> gate_opened server es.
Proof.
  intros (crev & trev & before & d & s & after & -> & Hq). eexists before, _, _, d, _, _, s, after, _.
  split; [done|]. split; [done|]. split; [apply workloadRevision_enabled|]. split_and!; [done..| | |].
  - intros d0 d' H. by eapply mutate_deployment_runs.
  - intros s0 s' H. by eapply mutate_service_selects in H as [? _].
  - intros d0 d' s0 s' Hd Hs.
    apply bind_unit_ok in Hs as [_ Hs]. apply bind_ok in Hs as (? & _ & [= <-]).
    apply bind_unit_ok in Hd as [_ Hd]. apply bind_ok in Hd as (? & _ & [= <-]). done.
Qed.

Lemma closed_shut server res es : closed server res es -> gate_shut server res es.
Proof.
  intros (err & before & answer & after & -> & -> & Hq & Ha). eexists err, before, _, _, answer, after. split_and!; [done..| |].
  - intros s0 s' H. by eapply mutate_service_selects in H as [? _].
  - destruct answer; [done|]. exact Ha.
Qed.

(** C13: Open or shut.  A reconciliation of a live server that has its finalizer ends opened: the Service selects
    exactly the labels of the Pods of the Deployment written just before it, with an enabled revision; or it
    fails, and its last word to the Service was to select the disabled revision, which no Deployment
    of the operator has: this write succeeded, or the returned error reports its failure too.  Neither Service nor Deployment is written
    afterwards.  A live server without its finalizer gets that first, and nothing else happens. *)
Theorem reconcile_opens_or_closes namespace name (w : op_env) h o :
  w _ h () (OGet KServer namespace name) = Ok o -> so_Deleting o = false ->
  let server := Default (so_Server o) in
  let res := (Reconcile r namespace name w h).1 in
  exists es, (Reconcile r namespace name w h).2 = h ++ es /\
    (serverFinalizer ∈ so_Finalizers o -> gate_opened server es \/ gate_shut server res es) /\
    (serverFinalizer ∉ so_Finalizers o -> exists answer,
       es = [Ev () (OGet KServer namespace name) (Ok o);
             Ev () (OUpdate KServer (with_finalizers o (so_Finalizers o ++ [serverFinalizer]))) answer] /\
       res = match answer with Ok _ => Ok {| Requeue := true; RequeueAfter := 0 |} | Err err => Err err end).
Proof.
  intros Ho Hd server res. destruct (Reconcile_runs r namespace name w h) as (es & Hes & Hrun).
  destruct (Hrun o Ho) as [_ Hend]. exists es. split_and!; [done| |].
  - intros Hf. destruct (Hend Hd Hf) as [H|H]; [left; by apply routed_opened|right; by apply closed_shut].
  - intros Hf. revert Hes. unfold res, Reconcile. rewrite kbind_ask, Ho, Hd, bool_decide_false by done. cbn [negb]. rewrite kbind_ask.
    cbn [kret fst snd]. rewrite <- app_assoc. intros Hes%app_inv_head. eexists. split; [by rewrite <- Hes|]. by case_match.
Qed.
End properties.

(** ** Witnesses *)

Module OperatorWitness.
Export CertificatesWitness.

(** One text, and its configuration. *)
#[export] Instance plain_ConfigText : ConfigText :=
  {| MarshalIndent _ := Ok "{}"; UnmarshalConfig _ := Ok (demo_config ModeReadOnly) |}.

Definition demo_reconciler : KubernetesMCPServerReconciler := {| ServerImage := "supek8smcp:demo"; OperatorNamespace := "operators" |}.
Definition demo_object : ServerObject := {|
  so_Server := demo_server ModeReadOnly; so_ResourceVersion := "5"; so_Deleting := false; so_Finalizers := [serverFinalizer];
  so_Status := {| st_ObservedGeneration := 0; st_Endpoint := ""; st_CAConfigMapName := ""; st_Conditions := [] |} |}.
Definition own_account : ServiceAccount := {|
  sa_Meta := {| om_Name := "gw"; om_Namespace := "mcp"; om_UID := "9"; om_ResourceVersion := "8"; om_Generation := 1; om_Labels := [];
                om_Annotations := []; om_OwnerReferences := [{| ow_Kind := "KubernetesMCPServer"; ow_Name := "gw"; ow_UID := "1"; ow_Controller := true |}] |};
  sa_AutomountServiceAccountToken := Some true; sa_Other := VNull |}.
Definition reviewer_role : ClusterRole := {|
  cr_Meta := new_meta "" tokenReviewerClusterRole; cr_AggregationRule := None;
  cr_Rules := [{| pr_APIGroups := ["authentication.k8s.io"]; pr_Resources := ["tokenreviews"]; pr_Verbs := ["create"];
                  pr_ResourceNames := []; pr_NonResourceURLs := [] |}] |}.

(** A cluster with the server, its account and the role, that accepts every write;
    the server's Secret may be there, with the given owners. *)
Definition cluster (o : ServerObject) (secret : option Secret) : op_env := fun A _ _ c =>
  match c in op_call A return A with
  | OGet k _ name =>
    match k return result go_error (obj k) with
    | KServer => Ok o
    | KServiceAccount => Ok own_account
    | KClusterRole => Ok reviewer_role
    | KSecret => match secret with
                 | Some s => if bool_decide (name = om_Name (se_Meta s)) then Ok s else Err (StatusError NotFound "")
                 | None => Err (StatusError NotFound "")
                 end
    | _ => Err (StatusError NotFound "")
    end
  | OCreateOrUpdate k o mutate => mutate o
  | OCreate k o => Ok o
  | OUpdate k o => Ok o
  | OUpdateStatus o => Ok o
  | ODelete _ _ _ _ => Ok ()
  | OPatch _ after => Ok after
  | OGenerateKey => Ok "key"
  | OSerial => 2%Z
  | ONow => 0%Z
  end.

(** Two certificates are enough here: the encoding of a certificate says only
    whether it is the root. *)
Definition short_der (t : Certificate) : string := if x_IsCA t then "root" else "leaf".
Definition short_parse (s : string) : Certificate :=
  let t := if bool_decide (s = "root") then ca_template 2 0 else server_template (Default (so_Server demo_object)) 2 0 in
  {| x_SerialNumber := 2; x_CommonName := x_CommonName t; x_DNSNames := x_DNSNames t; x_NotBefore := x_NotBefore t;
     x_NotAfter := x_NotAfter t; x_KeyUsage := x_KeyUsage t; x_ServerAuth := x_ServerAuth t;
     x_BasicConstraintsValid := x_BasicConstraintsValid t; x_IsCA := x_IsCA t; x_PublicKey := Some "key" |}.
#[local] Instance short_X509 : X509Lib := {|
  public_key k := k;
  pem_Decode s := Some (TrimPrefix s cert_prefix);
  pem_Encode type s := type +:+ (":" +:+ s);
  ParseCertificate s := Ok (short_parse s);
  ParsePKCS8PrivateKey s := Ok (Some s);
  MarshalPKCS8PrivateKey k := Ok k;
  CreateCertificate t _ pub _ := Ok (short_der t);
  X509KeyPair c _ := Ok [TrimPrefix c cert_prefix];
  CertsFromPEM s := [short_parse (TrimPrefix s cert_prefix)];
  Verify leaf host roots _ now :=
    if bool_decide (host ∈ x_DNSNames leaf) && x_ServerAuth leaf && in_time leaf now
       && existsb (fun root => x_IsCA root && in_time root now) roots
    then Ok () else Err (OtherError "certificate is not valid")
|}.

(** The first reconciliation succeeds and waits for the Deployment. *)
Example first_reconciliation :
  (Reconcile demo_reconciler "mcp" "gw" (cluster demo_object None) []).1 = Ok {| Requeue := false; RequeueAfter := 5 * second |}.
Proof. vm_compute. reflexivity. Qed.


Lemma service_follows_policy_witness :
  let server := Default (so_Server demo_object) in
  exists es, (Reconcile demo_reconciler "mcp" "gw" (cluster demo_object None) []).2 = [] ++ es /\
    (forall pre s mutate answer post, es = pre ++ Ev () (OCreateOrUpdate KService s mutate) answer :: post ->
      exists rev, (forall s0 s', mutate s0 = Ok s' -> selects_revision s' rev /\ made_for s' (policyRevision server)) /\
        (rev = "disabled" \/
         (exists s0, Ev () (OGet KService (Namespace server) (Name server)) (Ok s0) ∈ pre /\
            made_for s0 (policyRevision server) /\ selects_revision s0 rev) \/
         (exists d mutate_d written, Ev () (OCreateOrUpdate KDeployment d mutate_d) (Ok written) ∈ pre /\
            forall d0 d', mutate_d d0 = Ok d' -> runs_revision d' rev))) /\
    (forall pre d mutate answer post, es = pre ++ Ev () (OCreateOrUpdate KDeployment d mutate) answer :: post ->
      forall d0 d', mutate d0 = Ok d' -> exists rev, runs_revision d' rev /\ rev <> "disabled").
Proof. apply (service_follows_policy demo_reconciler "mcp" "gw" (cluster demo_object None) [] demo_object). reflexivity. Defined.

Lemma token_review_is_confined_witness :
  exists es, (Reconcile demo_reconciler "mcp" "gw" (cluster demo_object None) []).2 = [] ++ es /\
    let server := Default (so_Server demo_object) in
    (forall pre b mutate answer post, es = pre ++ Ev () (OCreateOrUpdate KClusterRoleBinding b mutate) answer :: post ->
       (forall b0 b', mutate b0 = Ok b' -> binds_own_account server b') /\ binding_rule server pre /\
       (Forall honest pre -> om_Name (cb_Meta b) = clusterBindingName server)) /\
    (forall pre o' answer post, es = pre ++ Ev () (OUpdate KServer o') answer :: post -> so_Deleting o' = true ->
       exists deleted, Ev () (ODelete KClusterRoleBinding "" (clusterBindingName (so_Server o')) None) deleted ∈ pre /\
         match deleted with Ok _ => True | Err err => IsNotFound err = true end).
Proof. apply (token_review_is_confined demo_reconciler "mcp" "gw" (cluster demo_object None) [] demo_object). reflexivity. Defined.

(** A foreign Secret in the place of the server's own makes the reconciliation
    fail, with the gate shut. *)
Definition foreign_secret : Secret := {|
  se_Meta := {| om_Name := "gw-tls"; om_Namespace := "mcp"; om_UID := "77"; om_ResourceVersion := "3"; om_Generation := 1;
                om_Labels := []; om_Annotations := []; om_OwnerReferences := [] |};
  se_Type := SecretTypeTLS; se_Data := []; se_Other := VNull |}.
Definition blocked : op_env := cluster demo_object (Some foreign_secret).

Lemma reconcile_opens_or_closes_witness :
  let server := Default (so_Server demo_object) in
  let res := (Reconcile demo_reconciler "mcp" "gw" blocked []).1 in
  is_ok res = false /\
  exists es, (Reconcile demo_reconciler "mcp" "gw" blocked []).2 = [] ++ es /\ (gate_opened server es \/ gate_shut server res es).
Proof.
  intros server res. split; [vm_compute; reflexivity|].
  destruct (reconcile_opens_or_closes demo_reconciler "mcp" "gw" blocked [] demo_object) as (es & Hes & H & _); [reflexivity..|].
  exists es. split; [exact Hes|]. apply H. by left.
Defined.
End OperatorWitness.
