(* ===== verification/Lifecycle.v ===== *)
(** * The life of a server process ([Serve] in src/internal/server/run.go)

    Two HTTP servers, a channel for the errors they end with, and a select
    between the end of the process's context and the first error.  The
    goroutines interleave freely, so this is a step relation; the shutdown
    has a deadline, so there is a clock. *)

From Stdlib Require Import String Ascii.
From S2P Require Import Prelude GoStrings Json Errors Config Admission.

(** ** The servers *)

(** The settings of an [http.Server] that bound a connection. *)
Record http_server := {
  hs_Addr : string; hs_ReadTimeout : Z; hs_ReadHeaderTimeout : Z; hs_WriteTimeout : Z; hs_IdleTimeout : Z;
  hs_MinTLS : option string
}.

Definition mcpHTTP {Q : QuantityLib} (config : Config) (listenAddress : string) : http_server := {|
  hs_Addr := listenAddress; hs_ReadTimeout := RequestTimeout (Limits (cfg_Spec config)); hs_ReadHeaderTimeout := 10 * second;
  hs_WriteTimeout := serverWriteTimeout config; hs_IdleTimeout := 90 * second; hs_MinTLS := Some "1.2" |}.
Definition metricsHTTP (metricsAddress : string) : http_server := {|
  hs_Addr := metricsAddress; hs_ReadTimeout := 10 * second; hs_ReadHeaderTimeout := 5 * second; hs_WriteTimeout := 15 * second;
  hs_IdleTimeout := 30 * second; hs_MinTLS := None |}.

(** The paths of the metrics address. *)
Inductive metrics_page := MetricsPage | HealthPage | ReadyPage.
Definition metricsMux (path : string) : option metrics_page :=
  if bool_decide (path = "/metrics") then Some MetricsPage
  else if bool_decide (path = "/healthz") then Some HealthPage
  else if bool_decide (path = "/readyz") then Some ReadyPage
  else None.

(** ** The state *)

(** [http.ErrServerClosed], and [errors.Is] of it. *)
Definition ErrServerClosed : go_error := OtherError "http: Server closed".
Fixpoint is_closed (err : go_error) : bool :=
  match err with
  | OtherError message => bool_decide (message = "http: Server closed")
  | Wrapped _ cause | ToolErrorWithDetails cause _ => is_closed cause
  | AuthenticationError _ (Some cause) => is_closed cause
  | _ => false
  end.

(** A goroutine [errorsCh <- server.ListenAndServe()]: it serves, has an error to
    send, or has sent it. *)
Inductive listener := Serving | Ended (err : go_error) | Reported (err : go_error).

Inductive main_state :=
| Selecting
| ClosingMCP (since : Z)
| ClosingMetrics (since : Z)
| Returned (err : option go_error).

Record process := {
  pr_mcp : listener;
  pr_metrics : listener;
  pr_errors : list go_error;
  pr_cancelled : bool;
  pr_main : main_state;
  pr_clock : Z
}.

Definition errors_capacity : nat := 2.
Definition shutdown_timeout : Z := 10 * second.

Definition launched (clock : Z) : process := {|
  pr_mcp := Serving; pr_metrics := Serving; pr_errors := []; pr_cancelled := false; pr_main := Selecting; pr_clock := clock |}.

(** [Shutdown]: [ListenAndServe] of a running server returns [ErrServerClosed] at once. *)
Definition shut (l : listener) : listener := match l with Serving => Ended ErrServerClosed | _ => l end.

Definition with_main (p : process) (m : main_state) : process := {|
  pr_mcp := pr_mcp p; pr_metrics := pr_metrics p; pr_errors := pr_errors p; pr_cancelled := pr_cancelled p; pr_main := m;
  pr_clock := pr_clock p |}.
Definition with_listeners (p : process) (mcp metrics : listener) (errors : list go_error) : process := {|
  pr_mcp := mcp; pr_metrics := metrics; pr_errors := errors; pr_cancelled := pr_cancelled p; pr_main := pr_main p;
  pr_clock := pr_clock p |}.

(** The steps of the main goroutine.  [Shutdown] returns when the connections are
    idle or at the deadline it shares with the other server. *)
Inductive main_step (p : process) : process -> Prop :=
| select_cancelled : pr_main p = Selecting -> pr_cancelled p = true ->
    main_step p (with_main (with_listeners p (shut (pr_mcp p)) (pr_metrics p) (pr_errors p)) (ClosingMCP (pr_clock p)))
| select_error err rest : pr_main p = Selecting -> pr_errors p = err :: rest ->
    main_step p (with_main (with_listeners p (pr_mcp p) (pr_metrics p) rest) (Returned (if is_closed err then None else Some err)))
| mcp_closed since : pr_main p = ClosingMCP since ->
    main_step p (with_main (with_listeners p (pr_mcp p) (shut (pr_metrics p)) (pr_errors p)) (ClosingMetrics since))
| metrics_closed since : pr_main p = ClosingMetrics since -> main_step p (with_main p (Returned None)).

(** Whether the main goroutine may still be waiting after [d] more. *)
Definition may_wait (p : process) (d : Z) : Prop :=
  match pr_main p with
  | ClosingMCP since | ClosingMetrics since => (pr_clock p + d <= since + shutdown_timeout)%Z
  | _ => True
  end.

Inductive process_step (p : process) : process -> Prop :=
| step_main p' : main_step p p' -> process_step p p'
| mcp_fails err : pr_mcp p = Serving -> is_closed err = false ->
    process_step p (with_listeners p (Ended err) (pr_metrics p) (pr_errors p))
| metrics_fails err : pr_metrics p = Serving -> is_closed err = false ->
    process_step p (with_listeners p (pr_mcp p) (Ended err) (pr_errors p))
| mcp_reports err : pr_mcp p = Ended err -> length (pr_errors p) < errors_capacity ->
    process_step p (with_listeners p (Reported err) (pr_metrics p) (pr_errors p ++ [err]))
| metrics_reports err : pr_metrics p = Ended err -> length (pr_errors p) < errors_capacity ->
    process_step p (with_listeners p (pr_mcp p) (Reported err) (pr_errors p ++ [err]))
| cancelled : process_step p {| pr_mcp := pr_mcp p; pr_metrics := pr_metrics p; pr_errors := pr_errors p; pr_cancelled := true;
                                pr_main := pr_main p; pr_clock := pr_clock p |}
| time_passes d : (0 <= d)%Z -> may_wait p d ->
    process_step p {| pr_mcp := pr_mcp p; pr_metrics := pr_metrics p; pr_errors := pr_errors p; pr_cancelled := pr_cancelled p;
                      pr_main := pr_main p; pr_clock := pr_clock p + d |}.

(** ** The invariant *)

Definition reported (l : listener) : nat := match l with Reported _ => 1 | _ => 0 end.
Definition error_of_listener (l : listener) : option go_error := match l with Serving => None | Ended e | Reported e => Some e end.
Definition ended_with (p : process) (err : go_error) : Prop :=
  error_of_listener (pr_mcp p) = Some err \/ error_of_listener (pr_metrics p) = Some err.

Record process_inv (p : process) : Prop := {
  (** what is in the channel was sent by the listeners, once each *)
  pi_channel : length (pr_errors p) <= reported (pr_mcp p) + reported (pr_metrics p);
  pi_errors : forall err, err ∈ pr_errors p -> ended_with p err;
  pi_selecting : pr_main p = Selecting -> forall err, ended_with p err -> is_closed err = false;
  pi_closing : forall since, pr_main p = ClosingMCP since \/ pr_main p = ClosingMetrics since ->
    pr_cancelled p = true /\ pr_mcp p <> Serving /\ (since <= pr_clock p <= since + shutdown_timeout)%Z;
  pi_closing_metrics : forall since, pr_main p = ClosingMetrics since -> pr_metrics p <> Serving;
  pi_failed : forall err, pr_main p = Returned (Some err) -> ended_with p err /\ is_closed err = false;
  pi_returned : pr_main p = Returned None -> pr_cancelled p = true /\ pr_mcp p <> Serving /\ pr_metrics p <> Serving
}.

Lemma shut_ended l : shut l <> Serving.
Proof. by destruct l. Qed.
Lemma shut_reported l : reported (shut l) = reported l.
Proof. by destruct l. Qed.
Lemma shut_error l err : error_of_listener l = Some err -> error_of_listener (shut l) = Some err.
Proof. by destruct l. Qed.

(** Clauses about another state of the main goroutine. *)
Ltac other_state := solve [intros; discriminate | intros ? [?|?]; discriminate].

Lemma main_step_inv p p' : main_step p p' -> process_inv p -> process_inv p'.
Proof.
  intros [Hm Hc|err rest Hm He|since Hm|since Hm] [I1 I2 I3 I4 I5 I6 I7].
  - constructor; cbn; rewrite ?shut_reported; try done; try other_state.
    + intros err He. destruct (I2 err He); [left; by apply shut_error|by right].
    + intros since [[= <-]|?]; [|done]. split_and!; [done|apply shut_ended|unfold shutdown_timeout, second; lia..].
  - specialize (I3 Hm). rewrite He in *. assert (is_closed err = false) as Hn by (apply I3, I2; by left).
    rewrite Hn. constructor; cbn in *; try done; try other_state.
    + lia.
    + intros e Hi. apply I2. by right.
    + intros e [= <-]. split; [apply I2; by left|done].
  - destruct (I4 since) as (Hc & Hs & Ht); [by left|].
    constructor; cbn; rewrite ?shut_reported; try done; try other_state.
    + intros err He. destruct (I2 err He); [by left|right; by apply shut_error].
    + intros t [?|[= <-]]; [done|]. split_and!; [done|done|lia..].
    + intros ? _. apply shut_ended.
  - destruct (I4 since) as (Hc & Hs & Ht); [by right|]. pose proof (I5 since Hm).
    constructor; cbn; try done; try other_state.
Qed.

(** A listener that ends by itself or sends its error leaves the rest alone. *)
Lemma listeners_inv p mcp metrics errors :
  process_inv p -> (pr_mcp p <> Serving -> mcp <> Serving) -> (pr_metrics p <> Serving -> metrics <> Serving) ->
  (forall err, error_of_listener (pr_mcp p) = Some err -> error_of_listener mcp = Some err) ->
  (forall err, error_of_listener (pr_metrics p) = Some err -> error_of_listener metrics = Some err) ->
  length errors <= reported mcp + reported metrics ->
  (forall err, err ∈ errors -> err ∈ pr_errors p \/ error_of_listener mcp = Some err \/ error_of_listener metrics = Some err) ->
  (pr_main p = Selecting -> forall err, error_of_listener mcp = Some err \/ error_of_listener metrics = Some err -> is_closed err = false) ->
  process_inv (with_listeners p mcp metrics errors).
Proof.
  intros [I1 I2 I3 I4 I5 I6 I7] Hmcp Hmet Emcp Emet Hl He Hs.
  assert (forall err, ended_with p err -> ended_with (with_listeners p mcp metrics errors) err) as Hup.
  { intros err [H|H]; [left; by apply Emcp|right; by apply Emet]. }
  constructor; cbn.
  - done.
  - intros err Hin. destruct (He err Hin) as [H|H]; [by apply Hup, I2|done].
  - exact Hs.
  - intros since Hm. destruct (I4 since Hm) as (? & ? & ?). split_and!; [done|by apply Hmcp|lia..].
  - intros since Hm. by apply Hmet, (I5 since).
  - intros err Hm. destruct (I6 err Hm). split; [by apply Hup|done].
  - intros Hm. destruct (I7 Hm) as (? & ? & ?). split_and!; [done|by apply Hmcp|by apply Hmet].
Qed.

Lemma process_step_inv p p' : process_step p p' -> process_inv p -> process_inv p'.
Proof.
  intros Hstep Hi. pose proof Hi as [I1 I2 I3 I4 I5 I6 I7]. unfold ended_with in *.
  destruct Hstep as [p1 Hm|err Hs Hn|err Hs Hn|err He Hl|err He Hl| |d Hd Hw]; [by eapply main_step_inv|..].
  - apply listeners_inv; rewrite ?Hs in *; cbn in *; try done; [by left|]. intros Hm e [[= <-]|H]; [done|]. apply I3; auto.
  - apply listeners_inv; rewrite ?Hs in *; cbn in *; try done; [by left|]. intros Hm e [H|[= <-]]; [|done]. apply I3; auto.
  - apply listeners_inv; rewrite ?He in *; cbn in *; try done; [rewrite length_app; cbn; lia|].
    intros e [H|H]%elem_of_app; [by left|right; left]. by apply list_elem_of_singleton in H as ->.
  - apply listeners_inv; rewrite ?He in *; cbn in *; try done; [rewrite length_app; cbn; lia|].
    intros e [H|H]%elem_of_app; [by left|right; right]. by apply list_elem_of_singleton in H as ->.
  - constructor; cbn; try done.
    + intros since Hm. destruct (I4 since Hm) as (_ & ? & ?). split_and!; [done|done|lia..].
    + intros Hm. destruct (I7 Hm) as (_ & ? & ?). by split_and!.
  - constructor; cbn; try done.
    intros since Hm. destruct (I4 since Hm) as (? & ? & ?). split; [done|]. split; [done|].
    unfold may_wait in Hw. destruct Hm as [Hm|Hm]; rewrite Hm in Hw; lia.
Qed.

Lemma launched_inv clock : process_inv (launched clock).
Proof.
  constructor; unfold ended_with; cbn; try other_state.
  - done.
  - by intros err Hin%elem_of_nil.
  - by intros _ err [?|?].
Qed.

Definition runs_process (p : process) : Prop := exists clock, rtc process_step (launched clock) p.

Lemma runs_process_inv p : runs_process p -> process_inv p.
Proof.
  intros [clock H]. pose proof (launched_inv clock) as H0. induction H as [|p1 p2 p3 H12 _ IH]; [done|].
  apply IH. by eapply process_step_inv.
Qed.

(** How many steps the main goroutine has left at most. *)
Definition steps_left (m : main_state) : nat :=
  match m with Selecting => 3 | ClosingMCP _ => 2 | ClosingMetrics _ => 1 | Returned _ => 0 end.
Definition finished (m : main_state) : bool := match m with Returned _ => true | _ => false end.

(** The deadline is set once. *)
Definition closing_since (t : Z) (p : process) : Prop :=
  pr_main p = ClosingMCP t \/ pr_main p = ClosingMetrics t \/ finished (pr_main p) = true.

Lemma closing_since_step t p p' : process_step p p' -> closing_since t p -> closing_since t p'.
Proof.
  unfold closing_since. intros Hs Hp. destruct Hs as [p1 Hm| | | | | |]; try exact Hp.
  destruct Hm as [Hm Hc|err rest Hm He|since Hm|since Hm]; rewrite Hm in Hp; cbn in Hp |- *.
  - by destruct Hp as [?|[?|?]].
  - auto.
  - destruct Hp as [[= ->]|[?|?]]; [auto|done..].
  - auto.
Qed.

Lemma closing_since_bound t p p' :
  process_inv p -> closing_since t p -> rtc process_step p p' -> finished (pr_main p') = false -> (pr_clock p' <= t + shutdown_timeout)%Z.
Proof.
  intros Hi Hc Hr Hf. induction Hr as [p|p1 p2 p3 H12 _ IH].
  - destruct Hc as [Hm|[Hm|Hm]]; [| |congruence]; edestruct (pi_closing p Hi t) as (_ & _ & ?); auto; lia.
  - apply IH; [by eapply process_step_inv|by eapply closing_since_step|done].
Qed.

(** ** Properties *)

(** C23: Shutting down: in every run of a process, whatever the listeners do and in
    whatever order, no listener ever waits for room in the channel; once the
    process is told to stop, its main goroutine can always take its next step and
    has at most three left; from the moment it begins to shut the servers down, it has returned
    after ten seconds in all, both servers together.  It returns
    without an error, with both servers shut down, unless a listener failed by itself
    first, and then with that listener's error. *)
Theorem shutdown_is_orderly p :
  runs_process p ->
  (forall err, pr_mcp p = Ended err \/ pr_metrics p = Ended err -> length (pr_errors p) < errors_capacity) /\
  (forall p', main_step p p' -> steps_left (pr_main p') < steps_left (pr_main p) <= 3) /\
  (pr_cancelled p = true -> finished (pr_main p) = false -> exists p', main_step p p') /\
  (forall p1 p2, pr_main p = Selecting -> main_step p p1 -> rtc process_step p1 p2 ->
     finished (pr_main p2) = false -> (pr_clock p2 <= pr_clock p + 10 * second)%Z) /\
  (pr_main p = Returned None -> pr_cancelled p = true /\ pr_mcp p <> Serving /\ pr_metrics p <> Serving) /\
  (forall err, pr_main p = Returned (Some err) -> ended_with p err /\ is_closed err = false).
Proof.
  intros Hi%runs_process_inv. pose proof Hi as [I1 I2 I3 I4 I5 I6 I7]. split_and!.
  - intros err [He|He]; rewrite He in I1; cbn in I1; unfold errors_capacity;
      [destruct (pr_metrics p)|destruct (pr_mcp p)]; cbn in I1; lia.
  - intros p' [Hm Hc|err rest Hm He|since Hm|since Hm]; rewrite Hm; cbn; lia.
  - intros Hc Hf. destruct (pr_main p) as [|since|since|] eqn:Hm; [| | |done]; eexists.
    + by apply select_cancelled.
    + by apply mcp_closed.
    + by eapply metrics_closed.
  - intros p1 p2 Hm H1 H2 Hf. apply (closing_since_bound (pr_clock p) p1); [by eapply main_step_inv| |done..].
    destruct H1 as [_ _|err rest _ _|since Hs|since Hs]; [by left|by right; right|congruence..].
  - done.
  - done.
Qed.

(** The connection outlives the call: what a server is allowed to write takes longer
    than any call of a tool may, with ten seconds to spare, and never wraps. *)
Theorem writes_outlast_calls {G : GoLib} {Q : QuantityLib} config listen :
  Validate config = Ok () ->
  let l := Limits (cfg_Spec config) in let s := mcpHTTP config listen in
  (0 < hs_ReadTimeout s)%Z /\ (hs_WriteTimeout s <= int64_max)%Z /\
  (hs_WriteTimeout s = int64_max \/
   forall timeout, timeout ∈ [RequestTimeout l; StreamTimeout l; ExecTimeout l] ->
     (hs_ReadTimeout s + RequestTimeout l + timeout + 10 * second <= hs_WriteTimeout s)%Z).
Proof.
  intros Hv%Validate_ok_iff. destruct (vl_timeouts _ (vc_limits _ Hv)) as (H1 & H2 & H3). cbn zeta. cbn [mcpHTTP hs_ReadTimeout hs_WriteTimeout].
  rewrite write_timeout_covers by lia. unfold second. split_and!; [done|lia|].
  destruct (Z.le_gt_cases int64_max (2 * RequestTimeout (Limits (cfg_Spec config)) +
    Z.max (Z.max (RequestTimeout (Limits (cfg_Spec config))) (StreamTimeout (Limits (cfg_Spec config)))) (ExecTimeout (Limits (cfg_Spec config))) + 10 * 1000000000)) as [Hle|Hgt];
    [left; lia|right].
  intros timeout Ht. rewrite Z.min_r by lia. repeat (apply elem_of_cons in Ht as [->|Ht]; [lia|]). by apply elem_of_nil in Ht.
Qed.

(** ** Witnesses *)

Module LifecycleWitness.
Export ConfigWitness.

Definition stopping : process :=
  {| pr_mcp := Serving; pr_metrics := Serving; pr_errors := []; pr_cancelled := true; pr_main := Selecting; pr_clock := 5 |}.
Definition closing : process := with_main (with_listeners stopping (shut Serving) Serving []) (ClosingMCP 5).

Lemma stopping_runs : runs_process stopping.
Proof. exists 5%Z. apply rtc_once. exact (cancelled (launched 5)). Qed.

(** The MCP server takes four seconds to close; then the metrics server is closed. *)
Definition waited : process := {|
  pr_mcp := pr_mcp closing; pr_metrics := Serving; pr_errors := []; pr_cancelled := true; pr_main := ClosingMCP 5; pr_clock := 5 + 4 * second |}.
Definition second_closing : process := with_main (with_listeners waited (pr_mcp waited) (shut Serving) []) (ClosingMetrics 5).

Lemma shutdown_is_orderly_witness :
  (exists p', main_step stopping p') /\ (pr_clock second_closing <= pr_clock stopping + 10 * second)%Z.
Proof.
  destruct (shutdown_is_orderly stopping stopping_runs) as (_ & _ & Hnext & Htime & _).
  split; [apply Hnext; reflexivity|]. apply (Htime closing); [reflexivity|by apply (select_cancelled stopping)| |reflexivity].
  apply (rtc_l _ _ waited); [apply (time_passes closing (4 * second)); [done|vm_compute; discriminate]|].
  apply rtc_once. apply step_main. by apply (mcp_closed waited 5).
Defined.
End LifecycleWitness.
