(* ===== verification/ToolList.v ===== *)
(** * The tools a client is shown ([newMCPServer] and [newCommitInputSchema] in src/internal/server/run.go)

    The hints of a tool are pointers to local variables of [newMCPServer],
    some of them shared by several tools, and one is assigned to after a tool
    that points to it was added.  So the variables are a store, and what a
    client is shown is read from the store when the function has returned.
    The schema package is a parameter. *)

From Stdlib Require Import String Ascii.
From S2P Require Import Prelude GoStrings Crypto Json Errors Config Trace Kube Policy Capability PlanStore Admission Regex Redaction.
From S2P Require Import SafeWrite Auth Remote Operations AuditTrail Catalog ReadOutput Reads Schema Manual Server.

(** ** Tools with hints in a store *)

(** The address of a local variable. *)
Definition var := nat.

Record property := { jp_Type : string; jp_Pattern : string }.
Record json_schema := { js_Type : string; js_Properties : list (string * property) }.

(** [jsonschema.For] of the input and the output of [k8s.commit]. *)
Class JsonSchemaLib := {
  For_CommitInput : result go_error json_schema;
  For_CommitOutput : result go_error json_schema
}.

(** A struct gives an object with one property for each field, under its JSON name. *)
Class JsonSchemaLaws {J : JsonSchemaLib} : Prop := {
  commit_input_schema : exists s, For_CommitInput = Ok s /\ js_Type s = "object" /\
    jp_Type <$> obj_get (js_Properties s) "planId" = Some "string" /\
    jp_Type <$> obj_get (js_Properties s) "confirmationCode" = Some "string";
  commit_output_schema : exists s, For_CommitOutput = Ok s
}.

Record ToolAnnotations := {
  ta_ReadOnlyHint : bool;
  ta_DestructiveHint : option var;
  ta_OpenWorldHint : option var
}.
Record Tool := {
  t_Name : string; t_Title : string; t_Description : string; t_Annotations : ToolAnnotations;
  t_InputSchema : option json_schema; t_OutputSchema : option json_schema
}.

(** The variables of the function and the tools it has added. *)
Record building := { bd_vars : list bool; bd_tools : list Tool }.

Definition declare (value : bool) (b : building) : var * building :=
  (length (bd_vars b), {| bd_vars := bd_vars b ++ [value]; bd_tools := bd_tools b |}).
Definition assign (v : var) (value : bool) (b : building) : building :=
  {| bd_vars := <[v := value]> (bd_vars b); bd_tools := bd_tools b |}.
Definition AddTool (t : Tool) (b : building) : building :=
  {| bd_vars := bd_vars b; bd_tools := bd_tools b ++ [t] |}.

(** ** The published schema of [k8s.commit] *)

Definition confirmationCodePattern : string := "^[0-9]{6}$".

(** [schema.Properties] holds pointers: the pattern is set in the schema itself. *)
Definition newCommitInputSchema {J : JsonSchemaLib} : result go_error json_schema :=
  match For_CommitInput with
  | Err err => Err err
  | Ok schema =>
    match obj_get (js_Properties schema) "confirmationCode" with
    | None => Err (OtherError "confirmationCode property is missing")
    | Some confirmation =>
      Ok {| js_Type := js_Type schema;
            js_Properties := obj_set (js_Properties schema) "confirmationCode"
              {| jp_Type := jp_Type confirmation; jp_Pattern := confirmationCodePattern |} |}
    end
  end.

(** ** [newMCPServer] *)

Definition plain_tool (name title description : string) (hints : ToolAnnotations) : Tool := {|
  t_Name := name; t_Title := title; t_Description := description; t_Annotations := hints;
  t_InputSchema := None; t_OutputSchema := None |}.

Section new_server.
Context {J : JsonSchemaLib}.

(** The tools of every mode. *)
Definition add_read_tools (readOnly closedWorld : var) (b : building) : building :=
  let hints world := {| ta_ReadOnlyHint := true; ta_DestructiveHint := None; ta_OpenWorldHint := Some world |} in
  let b := AddTool (plain_tool toolHelp "Kubernetes MCP tool manual"
    "Load the built-in tool manual progressively: omit tool for a compact index, then request one exact tool name for detailed usage."
    (hints closedWorld)) b in
  let b := AddTool (plain_tool toolSearch "Search Kubernetes capabilities"
    "Search API resources and actions with optional exact kind/resource/group/version filters; results are within server policy and caller RBAC and use compact cap_ handles."
    (hints closedWorld)) b in
  let b := AddTool (plain_tool toolDescribe "Describe Kubernetes capability"
    "Load a bounded OpenAPI v3 schema fragment for a capability returned by k8s.search."
    (hints closedWorld)) b in
  AddTool (plain_tool toolRead "Read Kubernetes resource"
    "Run an authorized get, list, watch, or Pod log capability with bounded summary, table, projected, or full output; annotations and managedFields are omitted by default."
    (hints readOnly)) b.

(** The tools of a mode that permits writes; an error is a panic. *)
Definition add_write_tools (readOnly : var) (b : building) : result go_error building :=
  let '(destructive, b) := declare false b in
  let b := AddTool (plain_tool toolPlan "Plan Kubernetes change"
    "Authorize and preview a write without persisting it. Returns a one-time plan and six-digit code; stop and wait until a human repeats the code in a later user message."
    {| ta_ReadOnlyHint := true; ta_DestructiveHint := Some destructive; ta_OpenWorldHint := Some readOnly |}) b in
  let b := assign destructive true b in
  match newCommitInputSchema with
  | Err err => Err (Wrapped "build k8s.commit input schema" err)
  | Ok commitInputSchema =>
    match For_CommitOutput with
    | Err err => Err (Wrapped "build k8s.commit output schema" err)
    | Ok commitOutputSchema =>
      Ok (AddTool {|
        t_Name := toolCommit; t_Title := "Commit Kubernetes change";
        t_Description := "Execute an unexpired one-time plan only after a human has repeated its six-digit confirmation code; policy, RBAC, identity, and resource preconditions are rechecked.";
        t_Annotations := {| ta_ReadOnlyHint := false; ta_DestructiveHint := Some destructive; ta_OpenWorldHint := Some readOnly |};
        t_InputSchema := Some commitInputSchema; t_OutputSchema := Some commitOutputSchema |} b)
    end
  end.

Definition newMCPServer (mode : string) : result go_error building :=
  let b := {| bd_vars := []; bd_tools := [] |} in
  let '(readOnly, b) := declare true b in
  let '(closedWorld, b) := declare false b in
  let b := add_read_tools readOnly closedWorld b in
  if bool_decide (mode <> ModeReadOnly) then add_write_tools readOnly b else Ok b.
End new_server.

(** What a client that lists the tools is shown: the hints as the variables are then. *)
Record listed_tool := {
  lt_Name : string; lt_ReadOnly : bool; lt_Destructive : option bool; lt_OpenWorld : option bool; lt_InputSchema : option json_schema
}.
Definition list_tool (vars : list bool) (t : Tool) : listed_tool := {|
  lt_Name := t_Name t; lt_ReadOnly := ta_ReadOnlyHint (t_Annotations t);
  lt_Destructive := ta_DestructiveHint (t_Annotations t) ≫= fun v => vars !! v;
  lt_OpenWorld := ta_OpenWorldHint (t_Annotations t) ≫= fun v => vars !! v;
  lt_InputSchema := t_InputSchema t |}.
Definition list_tools (b : building) : list listed_tool := list_tool (bd_vars b) <$> bd_tools b.

(** ** The pattern *)

(** [^r$]: [r] matches the whole text. *)
Definition MatchWhole (r : regex) (s : string) : bool :=
  existsb (fun e => match e.2 with [] => true | _ => false end) (ends r true (runes s)).

Fixpoint exactly (n : nat) (r : regex) : regex :=
  match n with O => Empty_ | S k => Seq r (exactly k r) end.

(** A reader of anchored patterns: a sequence of letters, digits and ranges such as [[a-f]], each
    of them once or, followed by a number in braces, that many times.  It answers nothing for other patterns. *)
Definition read_atom (s : list N) : option (regex * list N) :=
  match s with
  | 91%N :: lo :: 45%N :: hi :: 93%N :: rest => Some (Class (fun r => between lo r hi), rest)
  | c :: rest => if between 48 c 57 || between 65 c 90 || between 97 c 122 then Some (Class (fun r => (r =? c)%N), rest) else None
  | [] => None
  end.
Definition read_count (s : list N) : option (nat * list N) :=
  match s with
  | 123%N :: d :: 125%N :: rest => if between 48 d 57 then Some (N.to_nat (d - 48), rest) else None
  | 123%N :: _ => None
  | _ => Some (1, s)
  end.
Fixpoint read_items (fuel : nat) (s : list N) : option regex :=
  match fuel, s with
  | _, [36%N] => Some Empty_
  | S fuel, _ =>
    atom ← read_atom s;
    count ← read_count atom.2;
    rest ← read_items fuel count.2;
    Some (Seq (exactly count.1 atom.1) rest)
  | O, _ => None
  end.
Definition read_pattern (pattern : string) : option regex :=
  match bytes_of pattern with
  | 94%N :: rest => read_items (length rest) rest
  | _ => None
  end.

Lemma ends_exactly p n start text :
  ends (exactly n (Class p)) start text =
    if decide (n <= length text) then if forallb p (take n text) then [(match n with O => start | _ => false end, drop n text)] else [] else [].
Proof.
  revert start text. induction n as [|n IH]; intros start text; [done|]. cbn [exactly ends].
  destruct text as [|x text]; [done|]. cbn [take forallb drop length]. destruct (p x); cbn [flat_map fst snd andb].
  - rewrite IH, app_nil_r. destruct (decide (n <= length text)), (decide (S n <= S (length text))); try lia; [|done].
    by destruct n.
  - by destruct (decide _).
Qed.

Lemma MatchWhole_exactly p n s :
  MatchWhole (Seq (exactly n (Class p)) Empty_) s = true <-> length (runes s) = n /\ forallb p (runes s) = true.
Proof.
  unfold MatchWhole. cbn [ends]. assert (forall l : list (bool * list N), flat_map (fun e => [(e.1, e.2)]) l = l) as ->.
  { induction l as [|[] l IH]; [done|]. cbn. by rewrite IH. }
  rewrite ends_exactly. destruct (decide (n <= length (runes s))) as [Hn|Hn]; [|cbn; split; [done|lia]].
  split.
  - destruct (forallb p (take n (runes s))) eqn:Ep; [|done]. cbn [existsb snd orb].
    destruct (drop n (runes s)) as [|x l] eqn:Ed; [|done]. intros _.
    assert (length (runes s) = n) as Hl. { apply (f_equal length) in Ed. rewrite length_drop in Ed. cbn in Ed. lia. }
    split; [done|]. by rewrite take_ge in Ep by lia.
  - intros [Hl Hp]. rewrite take_ge by lia. rewrite Hp. cbn. by rewrite drop_ge by lia.
Qed.

Lemma DecodeRune_ascii c (s : string) : ((DecodeRune (String c s)).1 < 128)%N -> (byte_of c < 128)%N.
Proof.
  unfold DecodeRune, cont, between, RuneError. cbv zeta.
  destruct (N.ltb_spec (byte_of c) 0x80); [done|].
  repeat first
    [ progress cbn [fst]
    | match goal with |- context [match ?x with EmptyString => _ | String _ _ => _ end] => destruct x end
    | match goal with |- context [if ?b then _ else _] => destruct b eqn:? end
    | match goal with H : context [if ?b then _ else _] |- _ => destruct b eqn:? end ].
  all: rewrite ?andb_true_iff, ?N.leb_le, ?N.eqb_eq, ?N.eqb_neq in *; lia.
Qed.

Lemma ascii_runes (s : string) : Forall (fun r => (r < 128)%N) (runes s) -> is_ascii s = true.
Proof.
  induction s as [|c s IH]; [done|]. intros H.
  assert (byte_of c < 128)%N as Hc.
  { apply (DecodeRune_ascii c s). revert H. unfold runes, chunks. cbn [chunks_from].
    destruct (DecodeRune (String c s)) as [r n]. cbn. by intros [? _]%Forall_cons. }
  apply N.ltb_lt in Hc. cbn [is_ascii]. rewrite Hc. apply IH. rewrite runes_ascii_cons in H by done.
  by apply Forall_cons in H as [_ H].
Qed.

(** What the published pattern accepts is what [k8s.commit] accepts. *)
Lemma pattern_is_check :
  exists r, read_pattern confirmationCodePattern = Some r /\ forall s, MatchWhole r s = validConfirmationCode s.
Proof.
  exists (Seq (exactly 6 (Class is_digit)) Empty_). split; [reflexivity|]. intros s. apply eq_true_iff_eq. rewrite MatchWhole_exactly. unfold validConfirmationCode.
  assert (forall l, forallb (fun r => negb ((r <? 48)%N || (57 <? r)%N)) l = forallb is_digit l) as E.
  { intros l. induction l as [|x l IH]; [done|]. cbn. rewrite IH. f_equal. unfold is_digit, between.
    by destruct (N.ltb_spec x 48), (N.ltb_spec 57 x), (N.leb_spec 48 x), (N.leb_spec x 57); try lia. }
  rewrite E. destruct (forallb is_digit (runes s)) eqn:Hd; [|by split; [intros [_ ?]|destruct (Nat.eqb _ _)]].
  assert (is_ascii s = true) as Ha.
  { apply ascii_runes. rewrite Forall_forall. intros x Hx. rewrite forallb_forall in Hd. apply list_elem_of_In in Hx.
    specialize (Hd x Hx). unfold is_digit, between in Hd. rewrite andb_true_iff, !N.leb_le in Hd. lia. }
  rewrite runes_ascii by done. assert (forall t, length (bytes_of t) = String.length t) as Hl by (induction t; cbn; auto).
  rewrite Hl. by destruct (Nat.eqb_spec (String.length s) 6) as [|Hne]; cbn; split; try done; intros [? _].
Qed.

(** ** Properties *)

Section properties.
Context {G : GoLib} {Q : QuantityLib} {U : UnstructuredLib} {F : FieldsLib} {T : TimeLib} {V : GroupVersionLib} {S : SortLib}.
Context {R : RateLib} {J : JsonSchemaLib}.

Lemma newMCPServer_read_only : exists b, newMCPServer ModeReadOnly = Ok b /\
  (fun t => (lt_Name t, lt_ReadOnly t, lt_Destructive t, lt_OpenWorld t)) <$> list_tools b =
    [(toolHelp, true, None, Some false); (toolSearch, true, None, Some false); (toolDescribe, true, None, Some false);
     (toolRead, true, None, Some true)].
Proof. eexists. split; reflexivity. Qed.

Lemma newMCPServer_writes {L : JsonSchemaLaws} mode : mode <> ModeReadOnly ->
  exists b schema, newMCPServer mode = Ok b /\ newCommitInputSchema = Ok schema /\
  (fun t => (lt_Name t, lt_ReadOnly t, lt_Destructive t, lt_OpenWorld t, lt_InputSchema t)) <$> list_tools b =
    [(toolHelp, true, None, Some false, None); (toolSearch, true, None, Some false, None);
     (toolDescribe, true, None, Some false, None); (toolRead, true, None, Some true, None);
     (toolPlan, true, Some true, Some true, None); (toolCommit, false, Some true, Some true, Some schema)].
Proof.
  intros Hm. destruct commit_input_schema as (s & Hs & _ & _ & Hc), commit_output_schema as (s' & Hs').
  destruct (obj_get (js_Properties s) "confirmationCode") as [p|] eqn:Hp; [|done].
  unfold newMCPServer. rewrite bool_decide_true by done. unfold add_write_tools, newCommitInputSchema. rewrite Hs, Hp, Hs'.
  eexists _, _. split_and!; reflexivity.
Qed.

(** C22: The hints shown to a client can be relied on: a server lists exactly the tools it
    registers for its mode; no call of a tool listed as read-only sends a request
    that changes the cluster; the only other tool is marked destructive and its
    published schema restricts the code by a pattern that, read as a regular expression, accepts exactly the
    codes [k8s.commit] accepts.  Building the list never fails. *)
Theorem tool_hints_are_true {L : JsonSchemaLaws} mode :
  exists b, newMCPServer mode = Ok b /\ lt_Name <$> list_tools b = registered mode /\
    (forall t, t ∈ list_tools b ->
      (lt_ReadOnly t = true -> forall a x p i, tool_name i = lt_Name t -> emits (harmless p) (call_tool a x p i)) /\
      (lt_ReadOnly t = false -> lt_Destructive t = Some true /\ exists schema code,
         lt_InputSchema t = Some schema /\ obj_get (js_Properties schema) "confirmationCode" = Some code /\
         exists r, read_pattern (jp_Pattern code) = Some r /\ forall text, MatchWhole r text = validConfirmationCode text)).
Proof.
  assert (forall t, lt_Name t <> toolCommit ->
    forall a x p i, tool_name i = lt_Name t -> emits (harmless p) (call_tool a x p i)) as Hread.
  { intros t Ht a x p i Hi. apply call_tool_harmless. intros arguments ->. by rewrite <- Hi in Ht. }
  destruct (decide (mode = ModeReadOnly)) as [->|Hm].
  - destruct newMCPServer_read_only as (b & Hb & Hl). exists b. split_and!; [done| |].
    + apply (f_equal (fmap (fun t : string * bool * option bool * option bool => t.1.1.1))) in Hl. by rewrite <- list_fmap_compose in Hl.
    + intros t Ht. apply (list_elem_of_fmap_2 (fun t => (lt_Name t, lt_ReadOnly t, lt_Destructive t, lt_OpenWorld t))) in Ht.
      rewrite Hl in Ht. split; intros Hr; rewrite Hr in Ht; [|set_solver].
      apply Hread. intros Hn. rewrite Hn in Ht. set_solver.
  - destruct (newMCPServer_writes mode Hm) as (b & schema & Hb & Hs & Hl). exists b. split_and!; [done| |].
    + apply (f_equal (fmap (fun t : string * bool * option bool * option bool * option json_schema => t.1.1.1.1))) in Hl.
      rewrite <- list_fmap_compose in Hl. unfold registered. by rewrite bool_decide_true.
    + intros t Ht.
      apply (list_elem_of_fmap_2 (fun t => (lt_Name t, lt_ReadOnly t, lt_Destructive t, lt_OpenWorld t, lt_InputSchema t))) in Ht.
      rewrite Hl in Ht. split; intros Hr; rewrite Hr in Ht.
      * apply Hread. intros Hn. rewrite Hn in Ht. set_solver.
      * assert (lt_Destructive t = Some true /\ lt_InputSchema t = Some schema) as [Hd Hi] by set_solver.
        split; [done|]. exists schema. unfold newCommitInputSchema in Hs. split_result Hs.
        eexists. split_and!; [done|by apply obj_get_set_eq|apply pattern_is_check].
Qed.

(** The hint of [k8s.plan] is not what the code gives it: [destructive] is false when
    the tool is added, but the tool points to the variable, which is set to true for
    [k8s.commit] before anyone can list the tools. *)
Theorem plan_is_listed_as_destructive {L : JsonSchemaLaws} mode :
  mode <> ModeReadOnly ->
  exists b t, newMCPServer mode = Ok b /\ t ∈ list_tools b /\ lt_Name t = toolPlan /\ lt_ReadOnly t = true /\
    lt_Destructive t = Some true.
Proof.
  intros Hm. destruct (newMCPServer_writes mode Hm) as (b & schema & Hb & _ & Hl). exists b.
  assert ((toolPlan, true, Some true, Some true, @None json_schema) ∈
    (fun t => (lt_Name t, lt_ReadOnly t, lt_Destructive t, lt_OpenWorld t, lt_InputSchema t)) <$> list_tools b) as Ht
    by (rewrite Hl; set_solver).
  apply list_elem_of_fmap in Ht as (t & [= Hn Hr Hd _ _] & Ht). by exists t.
Qed.
End properties.

(** ** Witnesses *)

Module ToolListWitness.
Export ServerWitness.

Definition string_property : property := {| jp_Type := "string"; jp_Pattern := "" |}.
#[export] Instance struct_schemas : JsonSchemaLib := {|
  For_CommitInput := Ok {| js_Type := "object"; js_Properties := [("planId", string_property); ("confirmationCode", string_property)] |};
  For_CommitOutput := Ok {| js_Type := "object"; js_Properties := [] |} |}.
#[export] Instance struct_schemas_laws : JsonSchemaLaws.
Proof. split; eexists; [split_and!|]; reflexivity. Qed.

Lemma tool_hints_are_true_witness :
  exists b, newMCPServer ModeSafeWrite = Ok b /\ lt_Name <$> list_tools b = registered ModeSafeWrite /\
    (forall t, t ∈ list_tools b ->
      (lt_ReadOnly t = true -> forall a x p i, tool_name i = lt_Name t -> emits (harmless p) (call_tool a x p i)) /\
      (lt_ReadOnly t = false -> lt_Destructive t = Some true /\ exists schema code,
         lt_InputSchema t = Some schema /\ obj_get (js_Properties schema) "confirmationCode" = Some code /\
         exists r, read_pattern (jp_Pattern code) = Some r /\ forall text, MatchWhole r text = validConfirmationCode text)).
Proof. apply (tool_hints_are_true ModeSafeWrite). Defined.

Lemma plan_is_listed_as_destructive_witness :
  exists b t, newMCPServer ModeDangerous = Ok b /\ t ∈ list_tools b /\ lt_Name t = toolPlan /\ lt_ReadOnly t = true /\
    lt_Destructive t = Some true.
Proof. apply (plan_is_listed_as_destructive ModeDangerous). discriminate. Defined.
End ToolListWitness.
