(* ===== verification/Session.v ===== *)
(** * Whole sessions of a server

    A session is the sequence of tool calls a server answers from its start,
    by any callers, each with its answer and the requests it sent.  A call
    touches the plan store in one critical section, so a session lists the
    calls in the order of these sections; what other requests do to all other
    parts of the state in between is left open ([session_other]).  The theorems
    here join several calls: the plan that was announced, and the commit that
    spends it. *)

From Stdlib Require Import String Ascii.
From S2P Require Import Prelude GoStrings Crypto Json Errors Config Trace Kube Policy Capability PlanStore Admission Redaction.
From S2P Require Import SafeWrite Auth Remote Operations AuditTrail Catalog ReadOutput Reads Schema Manual Server.

#[local] Opaque Sum256 SubjectKey confirmationHash Format_RFC3339 operationSummary boundedValue.

(** ** Where a plan in the store comes from *)

Section origins.
Context {G : GoLib}.

(** The parts of a plan that a failed attempt leaves alone. *)
Definition same_plan (p q : storedPlan) : Prop :=
  sp_Operation p = sp_Operation q /\ sp_SubjectKey p = sp_SubjectKey q /\ sp_ExpiresAt p = sp_ExpiresAt q /\
  sp_ConfirmationHash p = sp_ConfirmationHash q.

Lemma delete_origin s i p id q : plans (delete_ s i p) !! id = Some q -> id <> i /\ plans s !! id = Some q.
Proof. cbn. rewrite lookup_delete_Some. by intros [? ?]. Qed.

Lemma prune_origin now s id q : plans (prune now s) !! id = Some q -> plans s !! id = Some q.
Proof.
  unfold prune, prune_in. generalize (map_to_list (plans s)) as order. intros order. revert s.
  induction order as [|e order IH]; intros s; [done|]. cbn [foldl]. intros H%IH. revert H.
  unfold prune_one. destruct (After _ _); [|done]. by intros [_ ?]%delete_origin.
Qed.

Lemma create_origin s d subject op id q :
  plans (PlanStore_Create s d subject op).1 !! id = Some q ->
  plans s !! id = Some q \/
  exists code t bytes, (PlanStore_Create s d subject op).2 = Ok (id, code, t) /\ q = new_plan id code subject op bytes t.
Proof.
  destruct (create_cases s d subject op) as [(e & -> & _)|[(m & ->)|(data & i & code & _ & _ & _ & H)]].
  - by left.
  - intros H%prune_origin. by left.
  - cbn zeta in H. destruct H as (_ & _ & _ & _ & ->). cbn [fst snd plans with_plans].
    destruct (decide (i = id)) as [->|Hne].
    + rewrite lookup_insert_eq. intros [= <-]. right. by repeat eexists.
    + rewrite lookup_insert_ne by done. intros H%prune_origin. by left.
Qed.

Lemma consume_origin s now i subject code id q :
  plans (PlanStore_Consume s now i subject code).1 !! id = Some q ->
  (exists p, plans s !! id = Some p /\ same_plan p q) /\
  (id = i -> forall op, (PlanStore_Consume s now i subject code).2 <> Ok op).
Proof.
  assert (forall p, same_plan p p) as Hsame by done.
  unfold PlanStore_Consume. destruct (bool_decide _); [by intros; split; eauto|]. destruct (negb _); [by intros; split; eauto|].
  destruct (plans s !! i) as [p|] eqn:E; [|by intros; split; eauto].
  destruct (After _ _); [intros [? ?]%delete_origin; split; [by eauto|done]|].
  destruct (bool_decide (_ <> subject)); [by intros; split; eauto|].
  destruct (bool_decide _); [|intros [? ?]%delete_origin; split; [by eauto|done]].
  destruct (_ <=? _)%Z; [intros [? ?]%delete_origin; split; [by eauto|done]|]. cbn [fst snd plans with_plans].
  destruct (decide (i = id)) as [->|Hne]; [|rewrite lookup_insert_ne by done; by intros; split; eauto].
  rewrite lookup_insert_eq. intros [= <-]. split; [|done]. by exists p.
Qed.
End origins.

(** ** Sessions *)

Section session.
Context {G : GoLib} {Q : QuantityLib} {U : UnstructuredLib} {F : FieldsLib} {T : TimeLib} {V : GroupVersionLib} {S : SortLib}.
Context {R : RateLib}.

(** A call and what came of it. *)
Record exchange := {
  ex_principal : Principal;
  ex_input : tool_input;
  ex_now : Z;
  ex_answer : tool_answer;
  ex_events : list event
}.

Definition exchanged (x : around) (p : Principal) (i : tool_input) (r : called) (es : list event) : exchange :=
  {| ex_principal := p; ex_input := i; ex_now := ar_now x; ex_answer := cl_answer r; ex_events := es |}.

Inductive session : App -> list exchange -> Prop :=
| session_start config base_ client random a : NewApp config base_ client random = Ok a -> session a []
| session_other a a' log : session a log -> app_config a' = app_config a -> app_plans a' = app_plans a -> session a' log
| session_call a log x p i w h es r :
    session a log -> call_tool a x p i w h = (r, h ++ es) -> session (cl_app r) (log ++ [exchanged x p i r es]).

(** The exchange is a [k8s.plan] that announced [stored] under [id]: its operation
    is what the input of this call asks for, checked and previewed by this call's requests. *)
Definition announces (config : Config) (y : exchange) (id : string) (stored : storedPlan) : Prop :=
  exists i out codec, ex_input y = PlanCall i /\ ex_answer y = Answered (PlanAnswer out) /\ po_PlanID out = id /\
    plan_checks config codec (ex_principal y) i (sp_Operation stored) (ex_events y) /\
    po_Operation out = operationSummary (sp_Operation stored) /\ SubjectKey (ex_principal y) = sp_SubjectKey stored /\
    po_ExpiresAt out = Format_RFC3339 (sp_ExpiresAt stored) /\
    confirmationHash id (po_ConfirmationCode out) = sp_ConfirmationHash stored.

(** The exchange changed the cluster. *)
Definition changes (y : exchange) : Prop := Exists (fun e => ev_persists e = true) (ex_events y).

(** The exchange is a [k8s.commit] of the plan [id] that changed the cluster. *)
Definition spends (y : exchange) (id : string) : Prop :=
  changes y /\ exists arguments input,
    ex_input y = CommitCall arguments /\ decodeCommitInput arguments = Ok input /\ ci_PlanID input = id.

(** Every plan in the store was announced and has not been spent since. *)
Definition store_announced (config : Config) (log : list exchange) (s : PlanStore) : Prop :=
  forall id stored, plans s !! id = Some stored ->
    exists i y, log !! i = Some y /\ announces config y id stored /\
      forall k z, i < k -> log !! k = Some z -> ~ spends z id.

Lemma announces_same config y id p q : same_plan p q -> announces config y id p -> announces config y id q.
Proof. unfold announces. by intros (-> & -> & -> & ->). Qed.

(** One more exchange: its own plan, if it is one, and the older ones. *)
Lemma store_announced_snoc config log s s' y :
  store_announced config log s ->
  (forall id stored, plans s' !! id = Some stored ->
     announces config y id stored \/ (exists p, plans s !! id = Some p /\ same_plan p stored) /\ ~ spends y id) ->
  store_announced config (log ++ [y]) s'.
Proof.
  intros Hlog Hs' id stored Hid. destruct (Hs' id stored Hid) as [Ha|[(p & Hp & Hsame) Hns]].
  - exists (length log), y. split; [by rewrite list_lookup_middle|]. split; [done|].
    intros k z Hk Hz%lookup_lt_Some. rewrite length_app in Hz. cbn in Hz. lia.
  - destruct (Hlog id p Hp) as (i & z & Hi & Ha & Hk). exists i, z. split; [by apply lookup_app_l_Some|].
    split; [by eapply announces_same|]. intros k z' Hik [Hz|[Hl Hz]]%lookup_app_Some; [by eapply Hk|].
    apply list_lookup_singleton_Some in Hz as [_ <-]. done.
Qed.

(** Only a commit changes the cluster. *)
Lemma harmless_changes p es : Forall (harmless p) es -> ~ Exists (fun e => ev_persists e = true) es.
Proof. intros Hf (e & He & Hp)%Exists_exists. rewrite Forall_forall in Hf. destruct (Hf e He) as [_ H]. congruence. Qed.

Lemma plan_announces {L : UnstructuredLaws} config codec store d p i w h store' r es id stored :
  plan config codec store d p i w h = ((store', r), h ++ es) -> plans store' !! id = Some stored ->
  plans store !! id = Some stored \/
  exists out, r = Ok out /\ po_PlanID out = id /\ plan_checks config codec p i (sp_Operation stored) es /\
    po_Operation out = operationSummary (sp_Operation stored) /\
    SubjectKey p = sp_SubjectKey stored /\ po_ExpiresAt out = Format_RFC3339 (sp_ExpiresAt stored) /\
    confirmationHash id (po_ConfirmationCode out) = sp_ConfirmationHash stored.
Proof.
  unfold plan, kbind, kret. destruct (plan_prepare_checks config codec p i w h) as (es1 & Hes & Hc).
  destruct (plan_prepare _ _ _ _ _ _) as [[[[op preview] warnings]|err] h1]; cbn [fst snd] in Hes, Hc; subst h1;
    [|intros E; injection E as -> _ _; by left].
  pose proof (create_origin store d (SubjectKey p) op id stored) as Ho.
  destruct (PlanStore_Create _ _ _ _) as [s [[[id' code] t]|err]]; cbn [fst snd] in Ho; intros E; injection E as <- <- Eh; intros Hs;
    (destruct (Ho Hs) as [?|(c & t' & bytes & E & ->)]; [by left|]); [|discriminate E].
  apply app_inv_head in Eh as ->. injection E as -> -> ->. right. eexists. split; [reflexivity|]. split; [reflexivity|].
  split; [by eapply Hc|]. split_and!; reflexivity.
Qed.

Lemma call_plan_announces {L : UnstructuredLaws} a x p i w h r es id stored :
  call_plan a x p i w h = (r, h ++ es) -> plans (app_plans (cl_app r)) !! id = Some stored ->
  plans (app_plans a) !! id = Some stored \/ announces (app_config a) (exchanged x p (PlanCall i) r es) id stored.
Proof.
  unfold call_plan, kbind, kret. destruct (plan _ _ _ _ _ _ _ _) as [[s r'] h1] eqn:E. cbn [fst snd]. intros H.
  injection H as <- ->. cbn [cl_app conclude with_store app_plans].
  intros Hs. destruct (plan_announces _ _ _ _ _ _ _ _ _ _ _ _ _ E Hs) as [?|(out & -> & H)]; [by left|right].
  exists i, out, (app_capabilities a). split; [reflexivity|]. split; [reflexivity|exact H].
Qed.

Lemma call_commit_store a x p arguments w h r h' :
  call_commit a x p arguments w h = (r, h') ->
  app_plans (cl_app r) = app_plans a \/ exists input, decodeCommitInput arguments = Ok input /\
    app_plans (cl_app r) = (PlanStore_Consume (app_plans a) (ar_now x) (ci_PlanID input) (SubjectKey p) (ci_ConfirmationCode input)).1.
Proof.
  unfold call_commit, commit, kbind, kret. destruct (decodeCommitInput arguments) as [input|].
  2: { intros E. injection E as <- _. left. reflexivity. }
  destruct (if isRemote _ _ _ then _ else _).
  2: { intros E. injection E as <- _. left. reflexivity. }
  destruct (PlanStore_Consume _ _ _ _ _) as [s' [op|err]] eqn:Ec.
  - destruct (commit_operation _ _ _ _ _) as [[out err] h1]. intros E. injection E as <- _. right. exists input. by rewrite Ec.
  - intros E. injection E as <- _. right. exists input. by rewrite Ec.
Qed.

Lemma other_or_commit (i : tool_input) : (forall arguments, i <> CommitCall arguments) \/ exists arguments, i = CommitCall arguments.
Proof. destruct i; first [by left|right; by eexists]. Qed.

Lemma call_tool_plans a x p i w h r h' :
  call_tool a x p i w h = (r, h') ->
  app_plans (cl_app r) = app_plans a \/ (exists j, i = PlanCall j /\ call_plan a x p j w h = (r, h')) \/
  (exists arguments, i = CommitCall arguments /\ call_commit a x p arguments w h = (r, h')).
Proof.
  unfold call_tool. destruct (negb _). { intros E. injection E as <- _. by left. }
  destruct i as [i|i|i|i|i|i].
  - intros E. injection E as <- _. by left.
  - unfold call_search, kbind, kret. destruct (catalog_list _ _ _ _ _ _ _) as [[[[c codec] listed]|] h1].
    + destruct (search _ _ _ _ _ _ _ _) as [found h2]. intros E. injection E as <- _. by left.
    + intros E. injection E as <- _. by left.
  - unfold call_describe, kbind, kret. destruct (describe _ _ _ _ _ _ _ _ _ _) as [[c d] h1]. intros E. injection E as <- _. by left.
  - unfold call_read, kbind, kret. destruct (read _ _ _ _ _ _ _ _) as [d h1]. intros E. injection E as <- _. by left.
  - intros E. right. left. by exists i.
  - intros E. right. right. by exists i.
Qed.

(** A call leaves the configuration alone. *)
Lemma call_tool_config a x p i w h r h' : call_tool a x p i w h = (r, h') -> app_config (cl_app r) = app_config a.
Proof.
  unfold call_tool. destruct (negb _). { intros E. by injection E as <- _. }
  destruct i as [i|i|i|i|i|i].
  - intros E. by injection E as <- _.
  - unfold call_search, kbind, kret. destruct (catalog_list _ _ _ _ _ _ _) as [[[[c codec] listed]|] h1].
    + destruct (search _ _ _ _ _ _ _ _) as [found h2]. intros E. by injection E as <- _.
    + intros E. by injection E as <- _.
  - unfold call_describe, kbind, kret. destruct (describe _ _ _ _ _ _ _ _ _ _) as [[c d] h1]. intros E. by injection E as <- _.
  - unfold call_read, kbind, kret. destruct (read _ _ _ _ _ _ _ _) as [d h1]. intros E. by injection E as <- _.
  - unfold call_plan, kbind, kret. destruct (plan _ _ _ _ _ _ _ _) as [[s d] h1]. intros E. by injection E as <- _.
  - unfold call_commit, kbind, kret. destruct (decodeCommitInput i) as [input|]; [|intros E; by injection E as <- _].
    destruct (commit _ _ _ _ _ _ _ _ _) as [[s [out err]] h1]. intros E. by injection E as <- _.
Qed.

Lemma same_plan_refl q : same_plan q q.
Proof. done. Qed.

Lemma NewApp_plans config base_ client random a : NewApp config base_ client random = Ok a -> plans (app_plans a) = ∅.
Proof.
  unfold NewApp. destruct (Validate config) as [[]|]; [|done]. by intros (auth & _ & (codec & _ & [= <-])%bind_ok)%bind_ok.
Qed.

Lemma nothing_sent (h es : list event) : h = h ++ es -> es = [].
Proof. intros H. apply (app_inv_head h). by rewrite app_nil_r. Qed.

Lemma call_commit_spends {L : UnstructuredLaws} a x p arguments w h r es :
  call_tool a x p (CommitCall arguments) w h = (r, h ++ es) -> Exists (fun e => ev_persists e = true) es ->
  exists input stored, decodeCommitInput arguments = Ok input /\ plans (app_plans a) !! ci_PlanID input = Some stored /\
    (ar_now x <= sp_ExpiresAt stored)%Z /\ sp_SubjectKey stored = SubjectKey p /\
    sp_ConfirmationHash stored = confirmationHash (ci_PlanID input) (ci_ConfirmationCode input) /\
    plans (app_plans (cl_app r)) !! ci_PlanID input = None /\ committed (app_config a) p (sp_Operation stored) es.
Proof.
  unfold call_tool. destruct (negb _). { intros [= _ E%nothing_sent] He. subst es. by apply Exists_nil in He. }
  unfold call_commit, kbind. destruct (decodeCommitInput arguments) as [input|].
  2: { intros [= _ E%nothing_sent] He. subst es. by apply Exists_nil in He. }
  destruct (commit _ _ _ _ _ _ _ w h) as [[store [out err]] h1] eqn:E. unfold kret. intros H He. injection H as <- Hh. subst h1.
  apply commit_needs_plan in E as (es' & Hes & Hc). apply app_inv_head in Hes as <-.
  destruct Hc as [Hf|(stored & Hp & Hn & Hs & _ & Hhash & Hgone & Hc)]; [by eapply harmless_changes in Hf|].
  exists input, stored. by split_and!.
Qed.

Lemma call_tool_announced {L : UnstructuredLaws} a log x p i w h r es :
  call_tool a x p i w h = (r, h ++ es) -> store_announced (app_config a) log (app_plans a) ->
  store_announced (app_config a) (log ++ [exchanged x p i r es]) (app_plans (cl_app r)).
Proof.
  intros Hc Hlog. apply (store_announced_snoc _ _ _ _ _ Hlog). intros id stored Hid.
  destruct (other_or_commit i) as [Ho|[arguments ->]].
  - assert (~ spends (exchanged x p i r es) id) as Hns by (intros (_ & arguments & input & E & _); by apply (Ho arguments)).
    destruct (call_tool_plans _ _ _ _ _ _ _ _ Hc) as [E|[(j & -> & Hp)|(arguments & -> & _)]]; [| |by destruct (Ho arguments)].
    + right. split; [|done]. exists stored. by rewrite <- E.
    + destruct (call_plan_announces _ _ _ _ _ _ _ _ _ _ Hp Hid) as [Hold|Hnew]; [right; eauto using same_plan_refl|by left].
  - right. split.
    + destruct (call_tool_plans _ _ _ _ _ _ _ _ Hc) as [E|[(j & Hj & _)|(args & [= <-] & Hp)]]; [|done|].
      * exists stored. by rewrite <- E.
      * destruct (call_commit_store _ _ _ _ _ _ _ _ Hp) as [E|(input & _ & E)]; rewrite E in Hid; [by exists stored|].
        by apply consume_origin in Hid as [? _].
    + intros (He & args & input & [= <-] & Hd & <-). destruct (call_commit_spends _ _ _ _ _ _ _ _ Hc He)
        as (input' & ? & Hd' & _ & _ & _ & _ & Hgone & _). congruence.
Qed.

Lemma session_announced {L : UnstructuredLaws} a log : session a log -> store_announced (app_config a) log (app_plans a).
Proof.
  induction 1 as [config base_ client random a Hn|a a' log _ IH -> ->|a log x p i w h es r _ IH Hc]; [|done|].
  2: { rewrite (call_tool_config _ _ _ _ _ _ _ _ Hc). by eapply call_tool_announced. }
  intros id stored. rewrite (NewApp_plans _ _ _ _ _ Hn). by rewrite lookup_empty.
Qed.

(** [x] is the commit of what [y] planned: [y] is a plan that asks for [op], which
    passed every check and whose dry run was accepted in [y]; it answered the same subject with the
    plan's ID, code and lifetime and a summary of [op]; [x] gave the ID and a
    code of the same hash back in time, and the only change it made, with its last
    request and after every check was made again, is the request that stands for [op]. *)
Record commits (config : Config) (y x : exchange) (out : PlanOutput) (op : Operation) : Prop := {
  cm_plan : exists i codec, ex_input y = PlanCall i /\ plan_checks config codec (ex_principal y) i op (ex_events y);
  cm_answer : ex_answer y = Answered (PlanAnswer out);
  cm_subject : SubjectKey (ex_principal y) = SubjectKey (ex_principal x);
  cm_shown : po_Operation out = operationSummary op;
  cm_code : exists arguments input, ex_input x = CommitCall arguments /\ decodeCommitInput arguments = Ok input /\
    ci_PlanID input = po_PlanID out /\
    confirmationHash (po_PlanID out) (ci_ConfirmationCode input) = confirmationHash (po_PlanID out) (po_ConfirmationCode out);
  cm_alive : exists t, po_ExpiresAt out = Format_RFC3339 t /\ (ex_now x <= t)%Z;
  cm_change : exists pre e, ex_events x = pre ++ [e] /\ Forall (harmless (ex_principal x)) pre /\
    ev_principal e = ex_principal x /\ planned_request false op (ev_call e) /\ write_checks config (ex_principal x) op pre
}.

Lemma announced_commits y x id stored arguments input config :
  announces config y id stored -> ex_input x = CommitCall arguments -> decodeCommitInput arguments = Ok input -> ci_PlanID input = id ->
  (ex_now x <= sp_ExpiresAt stored)%Z -> sp_SubjectKey stored = SubjectKey (ex_principal x) ->
  sp_ConfirmationHash stored = confirmationHash id (ci_ConfirmationCode input) ->
  committed config (ex_principal x) (sp_Operation stored) (ex_events x) -> changes x ->
  exists out, po_PlanID out = id /\ commits config y x out (sp_Operation stored).
Proof.
  intros (i & out & codec & Hi & Ha & Hid & Hck & Ho & Hs & Ht & Hh) Hx Hd <- Hn Hsx Hhx Hc Hch. exists out. split; [done|].
  constructor; [by exists i, codec|done|by rewrite Hs, Hsx|done| | |].
  - exists arguments, input. rewrite Hid. split_and!; [done..|]. by rewrite Hh, <- Hhx.
  - by exists (sp_ExpiresAt stored).
  - destruct Hc as [Hf|(pre & e & -> & Hpre & Hp & _ & Hb & Hw)]; [by eapply harmless_changes in Hf|]. by exists pre, e.
Qed.
End session.

(** ** Properties *)

Section properties.
Context {G : GoLib} {Q : QuantityLib} {U : UnstructuredLib} {F : FieldsLib} {T : TimeLib} {V : GroupVersionLib} {S : SortLib}.
Context {R : RateLib}.

(** C2: Every change was planned, once: in a session of a server, whatever its callers
    ask and whatever happens to the cluster and to the rest of its state, a call
    that changes the cluster is the commit of an earlier answered plan of the same
    subject.  There is one operation that the input of the plan asks for, that the plan
    checked and previewed, and that the commit carries out: its only change, its last request, is the
    request that stands for this operation (kind, target, body, preconditions).
    It is made within the announced lifetime, with
    the announced code (up to a SHA-256 collision); and no call in between spent
    the same plan, so one plan gives at most one change. *)
Theorem every_change_was_planned {L : UnstructuredLaws} a log j x :
  session a log -> log !! j = Some x -> changes x ->
  exists i y out op, i < j /\ log !! i = Some y /\ commits (app_config a) y x out op /\
    forall k z, i < k < j -> log !! k = Some z -> ~ spends z (po_PlanID out).
Proof.
  intros Hs. revert j x. induction Hs as [|a a' log _ IH -> _|a log x p i w h es r Hs IH Hc]; [done|done|].
  intros j y [Hj|[Hj Hy]]%lookup_app_Some Hch.
  - destruct (IH j y Hj Hch) as (k & z & out & op & Hk & Hz & Hcm & Hno). exists k, z, out, op.
    rewrite (call_tool_config _ _ _ _ _ _ _ _ Hc).
    split_and!; [done|by apply lookup_app_l_Some|done|]. intros k' z' Hk' Hz'. apply (Hno k' z' Hk').
    rewrite lookup_app_l in Hz'; [done|]. apply lookup_lt_Some in Hj. lia.
  - apply list_lookup_singleton_Some in Hy as [Hj' <-]. assert (j = length log) as -> by lia. clear Hj Hj'.
    destruct (other_or_commit i) as [Ho|[arguments ->]].
    { exfalso. destruct (call_tool_harmless a x p i Ho w h) as (es' & He & Hf). rewrite Hc in He. apply app_inv_head in He as <-.
      by apply harmless_changes in Hf. }
    destruct (call_commit_spends _ _ _ _ _ _ _ _ Hc Hch) as (input & stored & Hd & Hp & Hn & Hsub & Hh & _ & Hcm).
    destruct (session_announced a log Hs _ _ Hp) as (k & z & Hk & Ha & Hno).
    destruct (announced_commits z (exchanged x p (CommitCall arguments) r es) _ stored arguments input _ Ha eq_refl Hd eq_refl Hn Hsub Hh Hcm Hch)
      as (out & Hid & Hcm'). exists k, z, out, (sp_Operation stored). pose proof (lookup_lt_Some _ _ _ Hk) as Hlt.
    rewrite (call_tool_config _ _ _ _ _ _ _ _ Hc). split_and!; [done|by apply lookup_app_l_Some|done|]. rewrite Hid. intros k' z' [Hlo Hhi] Hz'. apply (Hno k' z' Hlo).
    by rewrite lookup_app_l in Hz'.
Qed.
End properties.

(** ** Witnesses *)

Module SessionWitness.
Export ServerWitness.

Definition fresh_app : App :=
  match started ModeSafeWrite with Ok a => a | Err _ => demo_app ModeSafeWrite end.
Lemma fresh_app_starts : NewApp (demo_config ModeSafeWrite) in_cluster (fun _ => Ok ()) (Ok demo_key) = Ok fresh_app.
Proof. unfold fresh_app, started, NewApp. by rewrite demo_config_checked by set_solver. Qed.

(** After a search of someone else. *)
Definition searched_app : App := with_catalog fresh_app (app_catalog fresh_app) issued.2.
Definition plan_run : called * list event :=
  call_tool searched_app demo_around alice (PlanCall paused) live_cluster [].
Definition commit_run : called * list event :=
  call_tool (cl_app plan_run.1) demo_around alice commit_call live_cluster [].
Definition planning : exchange := exchanged demo_around alice (PlanCall paused) plan_run.1 plan_run.2.
Definition committing : exchange := exchanged demo_around alice commit_call commit_run.1 commit_run.2.

Lemma demo_session : session (cl_app commit_run.1) [planning; committing].
Proof.
  apply (session_call (cl_app plan_run.1) [planning] demo_around alice commit_call live_cluster [] commit_run.2 commit_run.1);
    [|apply surjective_pairing].
  apply (session_call searched_app [] demo_around alice (PlanCall paused) live_cluster [] plan_run.2 plan_run.1);
    [|apply surjective_pairing].
  apply (session_other fresh_app); [|done|done]. eapply session_start. exact fresh_app_starts.
Qed.

Lemma commit_run_changes : existsb ev_persists commit_run.2 = true.
Proof. vm_compute. reflexivity. Qed.

Lemma every_change_was_planned_witness :
  exists i y out op, i < 1 /\ [planning; committing] !! i = Some y /\ commits (app_config (cl_app commit_run.1)) y committing out op /\
    forall k z, i < k < 1 -> [planning; committing] !! k = Some z -> ~ spends z (po_PlanID out).
Proof.
  apply (every_change_was_planned (cl_app commit_run.1) [planning; committing] 1 committing); [exact demo_session|reflexivity|].
  apply Exists_exists. pose proof commit_run_changes as H. apply existsb_exists in H as (e & He & Hp).
  exists e. split; [by apply list_elem_of_In|exact Hp].
Defined.
End SessionWitness.
