(* ===== verification/CommandLine.v ===== *)
(** * The command line (src/cmd/supek8smcp/main.go)

    One binary is both programs.  [main] picks a command, parses its flags with
    Go's [flag] package, whose rules are written out here, and runs it. *)

From Stdlib Require Import String Ascii.
From S2P Require Import Prelude GoStrings Json Errors.

(** ** The [flag] package *)

Inductive flag_value := FString (s : string) | FBool (b : bool).

(** A flag set: the flags with their current values. *)
Definition flag_set := list (string * flag_value).

(** [strconv.ParseBool]. *)
Definition ParseBool (s : string) : option bool :=
  if bool_decide (s ∈ ["1"; "t"; "T"; "TRUE"; "true"; "True"]) then Some true
  else if bool_decide (s ∈ ["0"; "f"; "F"; "FALSE"; "false"; "False"]) then Some false
  else None.

(** How parsing under [ExitOnError] ends: with the values, or with the exit code. *)
Abbreviation parsed := (result Z flag_set).

(** What an argument is: not a flag, the end of the flags, a malformed flag, or the
    text after the dashes. *)
Inductive argument := NotFlag | EndOfFlags | BadFlag | FlagText (text : string).
Definition classify (arg : string) : argument :=
  match arg with
  | String "-" (String "-" "") => EndOfFlags
  | String "-" (String "-" (String c rest)) =>
    if bool_decide (c = "-"%char) || bool_decide (c = "="%char) then BadFlag else FlagText (String c rest)
  | String "-" (String c rest) => if bool_decide (c = "="%char) then BadFlag else FlagText (String c rest)
  | _ => NotFlag
  end.

(** [FlagSet.Parse]; what follows the flags is ignored by the program. *)
Fixpoint Parse (flags : flag_set) (args : list string) : parsed :=
  match args with
  | [] => Ok flags
  | arg :: rest =>
    match classify arg with
    | NotFlag | EndOfFlags => Ok flags
    | BadFlag => Err 2%Z
    | FlagText text =>
      let '(name, value) := SplitN2 text "="%char in
      match obj_get flags name, value with
      | None, _ => if bool_decide (name ∈ ["help"; "h"]) then Err 0%Z else Err 2%Z
      | Some (FBool _), None => Parse (obj_set flags name (FBool true)) rest
      | Some (FBool _), Some v =>
        match ParseBool v with
        | Some b => Parse (obj_set flags name (FBool b)) rest
        | None => Err 2%Z
        end
      | Some (FString _), Some v => Parse (obj_set flags name (FString v)) rest
      | Some (FString _), None =>
        match rest with
        | [] => Err 2%Z
        | v :: rest' => Parse (obj_set flags name (FString v)) rest'
        end
      end
    end
  end.

Definition string_flag (flags : flag_set) (name : string) : string :=
  match obj_get flags name with Some (FString s) => s | _ => "" end.
Definition bool_flag (flags : flag_set) (name : string) : bool :=
  match obj_get flags name with Some (FBool b) => b | _ => false end.

(** ** The commands *)

Record operator_options := {
  oo_ServerImage : string; oo_OperatorNamespace : string; oo_MetricsAddress : string; oo_HealthAddress : string;
  oo_LeaderElection : bool
}.
Record server_options := {
  so_ConfigPath : string; so_ListenAddress : string; so_MetricsAddress : string; so_CertFile : string; so_KeyFile : string;
  so_Version : string
}.

(** What [main] does: stop with an exit code, print the version, or run a command. *)
Inductive command :=
| Exit (code : Z)
| Failed (err : go_error)
| PrintVersion
| RunOperator (o : operator_options)
| RunServer (o : server_options).

(** An unset variable reads as the empty string. *)
Definition envOr (getenv : string -> string) (name fallback : string) : string :=
  let value := getenv name in if bool_decide (value <> "") then value else fallback.

Definition version : string := "0.5.1".

Definition operator_flags (getenv : string -> string) : flag_set :=
  [("server-image", FString (getenv "SUPEK8SMCP_SERVER_IMAGE"));
   ("namespace", FString (envOr getenv "POD_NAMESPACE" "supek8smcp-system"));
   ("metrics-bind-address", FString ":8080"); ("health-probe-bind-address", FString ":8081"); ("leader-elect", FBool true)].

Definition serve_flags : flag_set :=
  [("config", FString "/etc/supek8smcp/config/config.json"); ("listen", FString ":8443"); ("metrics-listen", FString ":9090");
   ("tls-cert", FString "/etc/supek8smcp/tls/tls.crt"); ("tls-key", FString "/etc/supek8smcp/tls/tls.key")].

Definition operator_command (getenv : string -> string) (args : list string) : command :=
  match Parse (operator_flags getenv) args with
  | Err code => Exit code
  | Ok fs =>
    if bool_decide (string_flag fs "server-image" = "") then
      Failed (OtherError "--server-image or SUPEK8SMCP_SERVER_IMAGE is required")
    else RunOperator {|
      oo_ServerImage := string_flag fs "server-image"; oo_OperatorNamespace := string_flag fs "namespace";
      oo_MetricsAddress := string_flag fs "metrics-bind-address"; oo_HealthAddress := string_flag fs "health-probe-bind-address";
      oo_LeaderElection := bool_flag fs "leader-elect" |}
  end.

Definition serve_command (args : list string) : command :=
  match Parse serve_flags args with
  | Err code => Exit code
  | Ok fs => RunServer {|
      so_ConfigPath := string_flag fs "config"; so_ListenAddress := string_flag fs "listen";
      so_MetricsAddress := string_flag fs "metrics-listen"; so_CertFile := string_flag fs "tls-cert";
      so_KeyFile := string_flag fs "tls-key"; so_Version := version |}
  end.

(** [args] is [os.Args], the name of the program first. *)
Definition main (getenv : string -> string) (args : list string) : command :=
  match args with
  | _ :: name :: rest =>
    if bool_decide (name = "operator") then operator_command getenv rest
    else if bool_decide (name = "serve") then serve_command rest
    else if bool_decide (name = "version") then PrintVersion
    else Exit 2
  | _ => Exit 2
  end.

(** The exit code of the process, given how the command it ran ended. *)
Definition exit_code (c : command) (ended : option go_error) : Z :=
  match c with
  | Exit code => code
  | Failed _ => 1
  | PrintVersion => 0
  | RunOperator _ | RunServer _ => match ended with None => 0 | Some _ => 1 end
  end.

(** ** Printing options as arguments *)

Definition assignment (name value : string) : string := "--" +:+ (name +:+ ("=" +:+ value)).
Definition serve_arguments (o : server_options) : list string :=
  [assignment "config" (so_ConfigPath o); assignment "listen" (so_ListenAddress o); assignment "metrics-listen" (so_MetricsAddress o);
   assignment "tls-cert" (so_CertFile o); assignment "tls-key" (so_KeyFile o)].
Definition operator_arguments (o : operator_options) : list string :=
  [assignment "server-image" (oo_ServerImage o); assignment "namespace" (oo_OperatorNamespace o);
   assignment "metrics-bind-address" (oo_MetricsAddress o); assignment "health-probe-bind-address" (oo_HealthAddress o);
   assignment "leader-elect" (if oo_LeaderElection o then "true" else "false")].

(** ** Lemmas *)

Lemma SplitN2_app (a b : string) sep : has_char sep a = false -> SplitN2 (a +:+ String sep b) sep = (a, Some b).
Proof.
  induction a as [|c a IH]; intros Ha.
  - change ("" +:+ String sep b) with (String sep b). cbn. by rewrite bool_decide_true.
  - rewrite append_cons. cbn [has_char] in Ha. apply orb_false_iff in Ha as [Hc Ha]. apply bool_decide_eq_false in Hc.
    cbn [SplitN2]. rewrite bool_decide_false by congruence. by rewrite IH.
Qed.

(** The name of a flag: it starts with neither a dash nor an equals sign, and
    holds no equals sign. *)
Definition flag_name (name : string) : bool :=
  match name with
  | String c _ => negb (bool_decide (c = "-"%char) || bool_decide (c = "="%char))
  | EmptyString => false
  end && negb (has_char "="%char name).

(** One assignment among the arguments. *)
Lemma Parse_assignment flags name value rest :
  flag_name name = true ->
  Parse flags (assignment name value :: rest) =
    match obj_get flags name with
    | None => if bool_decide (name ∈ ["help"; "h"]) then Err 0%Z else Err 2%Z
    | Some (FString _) => Parse (obj_set flags name (FString value)) rest
    | Some (FBool _) =>
      match ParseBool value with Some b => Parse (obj_set flags name (FBool b)) rest | None => Err 2%Z end
    end.
Proof.
  intros [Hn He]%andb_prop. apply negb_true_iff in He. unfold assignment.
  assert (classify ("--" +:+ (name +:+ ("=" +:+ value))) = FlagText (name +:+ String "=" value)) as Hc.
  { destruct name as [|c name]; [done|]. apply negb_true_iff in Hn. rewrite !append_cons.
    change ("" +:+ ?s) with s. cbn [classify]. by rewrite Hn. }
  cbn [Parse]. rewrite Hc, SplitN2_app by done. by destruct (obj_get flags name) as [[]|].
Qed.

(** ** Properties *)

(** Round trip: every choice of options, whatever characters they hold, can be
    given on the command line and arrives unchanged; the environment counts only
    for flags that are not given. *)
Theorem options_round_trip getenv program so oo :
  so_Version so = version -> oo_ServerImage oo <> "" ->
  main getenv (program :: "serve" :: serve_arguments so) = RunServer so /\
  main getenv (program :: "operator" :: operator_arguments oo) = RunOperator oo /\
  main getenv [program; "operator"] =
    (if bool_decide (getenv "SUPEK8SMCP_SERVER_IMAGE" = "")
     then Failed (OtherError "--server-image or SUPEK8SMCP_SERVER_IMAGE is required")
     else RunOperator {| oo_ServerImage := getenv "SUPEK8SMCP_SERVER_IMAGE";
            oo_OperatorNamespace := envOr getenv "POD_NAMESPACE" "supek8smcp-system";
            oo_MetricsAddress := ":8080"; oo_HealthAddress := ":8081"; oo_LeaderElection := true |}).
Proof.
  intros Hv Hi. split_and!; [| |done].
  - destruct so as [config listen metrics cert key v]; cbn in Hv; subst v.
    unfold main, serve_command, serve_arguments. decide_closed. cbn [so_ConfigPath so_ListenAddress so_MetricsAddress so_CertFile so_KeyFile].
    by do 5 (rewrite Parse_assignment by done; cbn [obj_get obj_set serve_flags]; decide_closed).
  - destruct oo as [image namespace metrics health elect]. cbn [oo_ServerImage] in Hi.
    unfold main, operator_command, operator_arguments. decide_closed.
    cbn [oo_ServerImage oo_OperatorNamespace oo_MetricsAddress oo_HealthAddress oo_LeaderElection].
    do 5 (rewrite Parse_assignment by done; cbn [obj_get obj_set operator_flags]; decide_closed).
    replace (ParseBool (if elect then "true" else "false")) with (Some elect) by (by destruct elect).
    cbn [Parse]. by rewrite bool_decide_false.
Qed.

(** ** Witnesses *)

Module CommandLineWitness.
Definition no_environment (name : string) : string := "".
Definition demo_server_options : server_options := {|
  so_ConfigPath := "/tmp/a=b.json"; so_ListenAddress := ":1"; so_MetricsAddress := ""; so_CertFile := "--config"; so_KeyFile := "-";
  so_Version := version |}.
Definition demo_operator_options : operator_options := {|
  oo_ServerImage := "registry/supek8smcp:0.5.1"; oo_OperatorNamespace := "ops"; oo_MetricsAddress := ":8080";
  oo_HealthAddress := ":8081"; oo_LeaderElection := false |}.

Lemma options_round_trip_witness :
  main no_environment ("supek8smcp" :: "serve" :: serve_arguments demo_server_options) = RunServer demo_server_options /\
  main no_environment ("supek8smcp" :: "operator" :: operator_arguments demo_operator_options) = RunOperator demo_operator_options.
Proof.
  destruct (options_round_trip no_environment "supek8smcp" demo_server_options demo_operator_options) as (H1 & H2 & _);
    [reflexivity|discriminate|]. exact (conj H1 H2).
Defined.

(** A value as the next argument, one dash, a Boolean without a value, and the
    ways to go wrong. *)
Example parse_cases :
  main no_environment ["p"; "serve"; "-listen"; ":9"; "rest"; "-x"] =
    RunServer {| so_ConfigPath := "/etc/supek8smcp/config/config.json"; so_ListenAddress := ":9"; so_MetricsAddress := ":9090";
                 so_CertFile := "/etc/supek8smcp/tls/tls.crt"; so_KeyFile := "/etc/supek8smcp/tls/tls.key"; so_Version := version |} /\
  main no_environment ["p"; "serve"; "--listen"] = Exit 2 /\ main no_environment ["p"; "serve"; "-h"] = Exit 0 /\
  main no_environment ["p"; "operator"; "-leader-elect=no"] = Exit 2 /\ main no_environment ["p"; "serve"; "---x"] = Exit 2 /\
  main no_environment ["p"; "run"] = Exit 2 /\ main no_environment ["p"] = Exit 2.
Proof. vm_compute. split_and!; reflexivity. Qed.
End CommandLineWitness.
