(* ===== verification/Manager.v ===== *)
(** * The operator's process (src/internal/operator/run.go, [SetupWithManager] in reconciler.go,
      src/api/v1alpha1/groupversion_info.go)

    The operator runs its reconciler in a manager of controller-runtime: it
    says which kinds are cached, which are read from the API server each
    time, and which changes wake it up.  The manager itself is a parameter;
    here is what it is told, and that this fits what the reconciler does. *)

From Stdlib Require Import String Ascii.
From S2P Require Import Prelude GoStrings Crypto Json Errors Config Trace OperatorClient Certificates Operator CommandLine.

(** ** The API group *)

Definition GroupName : string := "mcp.supek8smcp.io".
Definition GroupVersion : string * string := (GroupName, "v1alpha1").

(** A scheme as the kinds it knows; [AddToGroupVersion] adds the common kinds of
    every group. *)
Definition scheme := list ((string * string) * string).
Definition addKnownTypes (addToGroupVersion : string * string -> scheme -> scheme) (s : scheme) : scheme :=
  addToGroupVersion GroupVersion
    (s ++ [(GroupVersion, "KubernetesMCPServer"); (GroupVersion, "KubernetesMCPServerList")]).

(** ** What the manager is told *)

#[global] Instance kind_eq_dec : EqDecision kind.
Proof. solve_decision. Defined.

Definition managedSelector : list (string * string) := [("app.kubernetes.io/managed-by", "supek8smcp-operator")].

Definition uncachedObjects : list kind :=
  [KSecret; KClusterRole; KClusterRoleBinding; KServiceAccount; KService; KConfigMap; KDeployment; KNetworkPolicy].

Record manager_options := {
  mo_ByObject : list (kind * list (string * string));
  mo_DisableFor : list kind;
  mo_MetricsAddress : string;
  mo_HealthProbeAddress : string;
  mo_LeaderElection : bool;
  mo_LeaderElectionID : string
}.
Definition manager_of (opts : operator_options) : manager_options := {|
  mo_ByObject := (fun k => (k, managedSelector)) <$> [KServiceAccount; KService; KConfigMap; KDeployment; KNetworkPolicy];
  mo_DisableFor := uncachedObjects;
  mo_MetricsAddress := oo_MetricsAddress opts; mo_HealthProbeAddress := oo_HealthAddress opts;
  mo_LeaderElection := oo_LeaderElection opts; mo_LeaderElectionID := "operator.mcp.supek8smcp.io" |}.

(** The controller: the kind it reconciles and the kinds of the objects it owns. *)
Record controller := { ctl_For : kind; ctl_Owns : list kind }.
Definition SetupWithManager : controller :=
  {| ctl_For := KServer; ctl_Owns := [KDeployment; KService; KServiceAccount; KConfigMap; KNetworkPolicy] |}.

Definition reconciler_of (opts : operator_options) : KubernetesMCPServerReconciler :=
  {| ServerImage := oo_ServerImage opts; OperatorNamespace := oo_OperatorNamespace opts |}.

(** What happens when the parts are put together, and how the manager ends.  That
    no configuration for a cluster is found ([GetConfigOrDie]) ends the process
    before. *)
Record run_answers := {
  ra_scheme : result go_error unit;
  ra_manager : result go_error unit;
  ra_setup : result go_error unit;
  ra_healthz : result go_error unit;
  ra_readyz : result go_error unit;
  ra_start : manager_options -> controller -> KubernetesMCPServerReconciler -> result go_error unit
}.
Definition wrapping {A} (what : string) (r : result go_error A) : result go_error A :=
  match r with Ok a => Ok a | Err err => Err (Wrapped what err) end.
Definition operator_Run (opts : operator_options) (a : run_answers) : result go_error unit :=
  _ ← wrapping "register MCP API" (ra_scheme a);
  _ ← wrapping "create manager" (ra_manager a);
  _ ← wrapping "setup controller" (ra_setup a);
  _ ← wrapping "add health check" (ra_healthz a);
  _ ← wrapping "add readiness check" (ra_readyz a);
  ra_start a (manager_of opts) SetupWithManager (reconciler_of opts).

(** ** Lemmas *)

Section rules.
Context {G : GoLib} {Q : QuantityLib} {C : ControllerLib} {X : X509Lib} {T : ConfigText}.

Lemma uncached_kinds k : k <> KServer -> k ∈ uncachedObjects.
Proof. destruct k; try done; intros _; unfold uncachedObjects; rewrite !elem_of_cons; by auto 10. Qed.

Lemma owned_filtered opts k : k ∈ ctl_Owns SetupWithManager -> (k, managedSelector) ∈ mo_ByObject (manager_of opts).
Proof. cbn. rewrite !elem_of_cons. intros H. repeat (destruct H as [->|H]; [by auto 10|]). by apply elem_of_nil in H. Qed.

Lemma write_rule_guarded r server pre k (o : obj k) mutate :
  k ∈ ctl_Owns SetupWithManager -> write_rule r server pre k o mutate -> guarded server k mutate.
Proof.
  intros Hk. destruct k; cbn [write_rule]; try done.
  - intros (data & -> & _). apply guarded_configMap.
  - intros (rev & -> & _). apply guarded_service.
  - cbn in Hk. set_solver.
  - intros (text & cm & ca & material & _ & _ & ->). apply guarded_deployment.
Qed.

(** ** Properties *)

(** C19: What the operator's manager is told fits what its reconciler does.  A reconciliation reads
    (or reads and updates) objects of two sorts: first of all, and only once, the server resource; and
    objects of kinds for which the manager's client is told not to use its cache.  Every object it writes
    is of a kind whose changes the controller is told to watch, a Secret or a ClusterRoleBinding;
    and whatever it writes of a watched kind carries the labels by which that kind is filtered in the
    watch, and an owner reference to the server that makes this its controller. *)
Theorem operator_watches_its_objects {L : ControllerLaws} opts namespace name (w : op_env) h o :
  w _ h () (OGet KServer namespace name) = Ok o ->
  let m := manager_of opts in
  let server := Default (so_Server o) in
  exists es, (Reconcile (reconciler_of opts) namespace name w h).2 = h ++ es /\
    (forall pre k ns n answer post, es = pre ++ Ev () (OGet k ns n) answer :: post ->
       if bool_decide (k = ctl_For SetupWithManager) then pre = [] else k ∈ mo_DisableFor m) /\
    forall pre k x mutate answer post, es = pre ++ Ev () (OCreateOrUpdate k x mutate) answer :: post ->
      k ∈ mo_DisableFor m /\ (k ∈ ctl_Owns SetupWithManager \/ k = KSecret \/ k = KClusterRoleBinding) /\
      (k ∈ ctl_Owns SetupWithManager ->
        exists selector, (k, selector) ∈ mo_ByObject m /\
        forall before after, mutate before = Ok after ->
          (forall label, label ∈ selector -> obj_get (om_Labels (meta_of k after)) label.1 = Some label.2) /\
          IsControlledBy (om_OwnerReferences (meta_of k after)) (UID server) = true).
Proof.
  intros Ho m server. destruct (Reconcile_runs (reconciler_of opts) namespace name w h) as (es & Hes & Hrun).
  destruct (Hrun o Ho) as [Hrule _]. exists es. split_and!; [done| |].
  - intros pre k ns n answer post Hp. pose proof (Hrule _ _ _ Hp) as Hr. case_bool_decide as Hk.
    + cbn in Hk. subst k. exact Hr.
    + apply uncached_kinds, Hk.
  - intros pre k x mutate answer post Hp. destruct (Hrule _ _ _ Hp) as [Hw _]. split_and!.
    + apply uncached_kinds. intros ->. done.
    + destruct k; try done; first [by right; auto|left; cbn; rewrite !elem_of_cons; by auto 10].
    + intros Hk. exists managedSelector. split; [by apply owned_filtered|]. intros before after Hm.
      destruct (write_rule_guarded _ _ _ _ _ _ Hk Hw before after Hm) as (_ & Hl & ns & refs & Hs). split; [|by eapply set_controller].
      intros label ->%list_elem_of_singleton. by rewrite Hl.
Qed.

(** The command line reaches the reconciler: the operator that [main] starts runs a
    manager and a reconciler with exactly the options it was given, and any failure on
    the way is an error that says which step failed and exits with code 1. *)
Theorem operator_starts_as_told getenv args opts a :
  main getenv args = RunOperator opts ->
  (oo_ServerImage opts <> "") /\
  (operator_Run opts a = Ok () -> ra_start a (manager_of opts) SetupWithManager (reconciler_of opts) = Ok ()) /\
  (forall err, operator_Run opts a = Err err ->
     exit_code (RunOperator opts) (Some err) = 1%Z /\
     (ra_start a (manager_of opts) SetupWithManager (reconciler_of opts) = Err err \/
      exists what cause, err = Wrapped what cause /\
        what ∈ ["register MCP API"; "create manager"; "setup controller"; "add health check"; "add readiness check"])).
Proof.
  intros Hmain. split_and!.
  - unfold main in Hmain. destruct args as [|p [|c rest]]; [done..|]. repeat case_bool_decide; try done.
    + unfold operator_command in Hmain. destruct (Parse _ _); [|done]. case_bool_decide as Hi; [done|]. by injection Hmain as <-.
    + unfold serve_command in Hmain. by destruct (Parse _ _).
  - unfold operator_Run. destruct (ra_scheme a), (ra_manager a), (ra_setup a), (ra_healthz a), (ra_readyz a); cbn; done.
  - intros err He. split; [done|]. unfold operator_Run in He.
    destruct (ra_scheme a) as [[]|e1], (ra_manager a) as [[]|e2], (ra_setup a) as [[]|e3], (ra_healthz a) as [[]|e4], (ra_readyz a) as [[]|e5];
      cbn in He; try (by left); right; injection He as <-; eexists _, _; (split; [reflexivity|]); set_solver.
Qed.
End rules.

(** ** Witnesses *)

Module ManagerWitness.
Export OperatorWitness CommandLineWitness.

Lemma operator_watches_its_objects_witness :
  let m := manager_of demo_operator_options in
  let server := Default (so_Server demo_object) in
  exists es, (Reconcile (reconciler_of demo_operator_options) "mcp" "gw" (cluster demo_object None) []).2 = [] ++ es /\
    (forall pre k ns n answer post, es = pre ++ Ev () (OGet k ns n) answer :: post ->
       if bool_decide (k = ctl_For SetupWithManager) then pre = [] else k ∈ mo_DisableFor m) /\
    forall pre k x mutate answer post, es = pre ++ Ev () (OCreateOrUpdate k x mutate) answer :: post ->
      k ∈ mo_DisableFor m /\ (k ∈ ctl_Owns SetupWithManager \/ k = KSecret \/ k = KClusterRoleBinding) /\
      (k ∈ ctl_Owns SetupWithManager ->
        exists selector, (k, selector) ∈ mo_ByObject m /\
        forall before after, mutate before = Ok after ->
          (forall label, label ∈ selector -> obj_get (om_Labels (meta_of k after)) label.1 = Some label.2) /\
          IsControlledBy (om_OwnerReferences (meta_of k after)) (UID server) = true).
Proof.
  apply (operator_watches_its_objects demo_operator_options "mcp" "gw" (cluster demo_object None) [] demo_object). reflexivity.
Defined.

(** A start whose manager cannot be made. *)
Definition no_manager : run_answers := {|
  ra_scheme := Ok (); ra_manager := Err (OtherError "no cluster"); ra_setup := Ok (); ra_healthz := Ok (); ra_readyz := Ok ();
  ra_start := fun _ _ _ => Ok () |}.
Lemma operator_starts_as_told_witness :
  oo_ServerImage demo_operator_options <> "" /\ operator_Run demo_operator_options no_manager = Err (Wrapped "create manager" (OtherError "no cluster")).
Proof.
  destruct (operator_starts_as_told no_environment ("supek8smcp" :: "operator" :: operator_arguments demo_operator_options)
    demo_operator_options no_manager) as [H _]; [vm_compute; reflexivity|]. exact (conj H eq_refl).
Defined.
End ManagerWitness.
