(* ===== verification/Composition.v ===== *)
(** * Operator and server together

    The two programs meet in the cluster: the operator writes the
    configuration a server loads, and keeps objects for it that the
    server's own callers may not change.  The theorems here follow what one
    side writes into the code of the other. *)

From Stdlib Require Import String.
From S2P Require Import Prelude GoStrings Crypto Json Errors Config Trace Kube Policy Capability PlanStore Admission Auth.
From S2P Require Import Catalog Schema Server OperatorClient Certificates Operator Lifecycle CommandLine.

(** ** The objects of the operator as the policy sees them *)

(** The group, the resource and whether it is namespaced. *)
Definition resource_of (k : kind) : string * string * bool :=
  match k with
  | KServer => ("mcp.supek8smcp.io", "kubernetesmcpservers", true)
  | KServiceAccount => ("", "serviceaccounts", true)
  | KConfigMap => ("", "configmaps", true)
  | KSecret => ("", "secrets", true)
  | KService => ("", "services", true)
  | KDeployment => ("apps", "deployments", true)
  | KNetworkPolicy => ("networking.k8s.io", "networkpolicies", true)
  | KClusterRole => ("rbac.authorization.k8s.io", "clusterroles", false)
  | KClusterRoleBinding => ("rbac.authorization.k8s.io", "clusterrolebindings", false)
  end.

Definition action_on (k : kind) (a : Action) : Prop :=
  (Group (a_GVR a), Resource (a_GVR a), a_Namespaced a) = resource_of k.

Section protection.
Context {G : GoLib} {Q : QuantityLib} {C : ControllerLib} {X : X509Lib} {T : ConfigText}.

(** No write of this kind on this object passes the policy. *)
Definition denied (cfg : Config) (k : kind) (namespace name : string) : Prop :=
  forall a, Mutating a = true -> action_on k a -> Policy_CheckTarget cfg a namespace name <> Ok ().

(** What the operator changes is out of reach of the callers.  Besides the objects
    it keeps, it changes the server resource itself. *)
Definition out_of_reach (cfg : Config) (e : op_event) : Prop :=
  match ev_call e with
  | OCreateOrUpdate k o _ => denied cfg k (om_Namespace (meta_of k o)) (om_Name (meta_of k o))
  | OCreate k o => denied cfg k (om_Namespace (meta_of k o)) (om_Name (meta_of k o))
  | OPatch before _ => denied cfg KDeployment (om_Namespace (dp_Meta before)) (om_Name (dp_Meta before))
  | ODelete k namespace name _ => denied cfg k namespace name
  | OUpdate k _ => k = KServer
  | _ => True
  end.

Lemma denied_managed cfg k namespace name :
  name <> "" -> (forall a, action_on k a -> operator_managed cfg a namespace name) -> denied cfg k namespace name.
Proof.
  intros Hn Hm a Ha Hk. unfold Policy_CheckTarget. destruct (Policy_Check cfg a namespace) as [[]|]; [|done].
  by rewrite Ha, (operator_managed_detected _ _ _ _ (Hm a Hk)), bool_decide_true.
Qed.

Lemma append_not_empty (s t : string) : t <> "" -> (s +:+ t) <> "".
Proof. intros Ht E. apply Ht. destruct s; [done|]. by rewrite append_cons in E. Qed.

Lemma TLSSecretName_not_empty server : TLSSecretName server <> "".
Proof. unfold TLSSecretName. case_bool_decide; [done|by apply append_not_empty]. Qed.

Lemma or_string_TLS s : or_string (TLS_SecretName (cfg_Spec (FromResource s))) (cfg_Name (FromResource s) +:+ "-tls") = TLSSecretName (Default s).
Proof. unfold or_string, TLSSecretName. cbn. by repeat case_bool_decide. Qed.

(** Every object in its place is one the policy knows. *)
Lemma in_place_denied s k m :
  Name s <> "" -> in_place (Default s) k m -> denied (FromResource s) k (om_Namespace m) (om_Name m).
Proof.
  intros Hn Hp. assert (forall n, n ∈ [Name s; Name s +:+ "-config"; Name s +:+ "-ca"; TLSSecretName (Default s)] -> n <> "") as Hne.
  { intros n. rewrite !elem_of_cons. intros [->|[->|[->|[->|[]%elem_of_nil]]]]; [done| | |apply TLSSecretName_not_empty];
      by apply append_not_empty. }
  assert (forall (a : Action) group resource name, (group, resource, name) ∈ managed_objects (FromResource s) ->
    (Group (a_GVR a), Resource (a_GVR a), a_Namespaced a) = (group, resource, true) ->
    operator_managed (FromResource s) a (Namespace s) name) as Hm.
  { intros a group resource name Hin [= <- <- Hns]. left. by split_and!. }
  destruct k; cbn [in_place] in Hp; try done.
  - destruct Hp as [-> ->]. apply denied_managed; [done|]. intros a Ha. eapply Hm; [|exact Ha]. set_solver.
  - destruct Hp as [-> Hp]. apply denied_managed; [destruct Hp as [->| ->]; apply Hne; set_solver|].
    intros a Ha. eapply Hm; [|exact Ha]. unfold managed_objects. cbn. destruct Hp as [->| ->]; set_solver.
  - destruct Hp as [-> ->]. apply denied_managed; [apply Hne; set_solver|].
    intros a Ha. eapply Hm; [|exact Ha]. unfold managed_objects. cbn zeta. rewrite or_string_TLS. set_solver.
  - destruct Hp as [-> ->]. apply denied_managed; [done|]. intros a Ha. eapply Hm; [|exact Ha]. set_solver.
  - rewrite Hp. apply denied_managed; [done|]. intros a [= Hg Hr Hns]. right. right. right. left. by split_and!.
  - destruct Hp as [-> ->]. apply denied_managed; [done|]. intros a Ha. eapply Hm; [|exact Ha]. set_solver.
  - destruct Hp as [-> ->]. apply denied_managed; [done|]. intros a Ha. eapply Hm; [|exact Ha]. set_solver.
Qed.

Lemma honest_get k namespace name o (pre : list op_event) :
  Forall honest pre -> Ev () (OGet k namespace name) (Ok o) ∈ pre ->
  om_Namespace (meta_of k o) = namespace /\ om_Name (meta_of k o) = name.
Proof. intros Hh Hin. rewrite Forall_forall in Hh. exact (Hh _ Hin). Qed.

Lemma rule_out_of_reach r s pre e :
  Name s <> "" -> Forall honest pre -> op_rule r (Default s) pre e -> out_of_reach (FromResource s) e.
Proof.
  intros Hn Hh. unfold op_rule, out_of_reach.
  destruct (ev_call e) as [|k o mutate|k o|k o| |k ns name uid|before after| | |]; cbn [call_rule]; try done.
  - intros [_ Hp]. apply in_place_denied; [done|by apply Hp].
  - destruct k; try done. cbn [meta_of]. intros ->. apply denied_managed; [done|]. intros a [= Hg Hr Hns]. right. right. left. by split_and!.
  - by destruct k.
  - destruct k; try done.
    + intros Hb. rewrite (Hb Hh). apply denied_managed; [done|]. intros a [= Hg Hr Hns]. right. right. right. left. by split_and!.
    + intros (policy & Hin & _ & -> & -> & _). apply (in_place_denied s KNetworkPolicy); [done|]. by apply (honest_get KNetworkPolicy _ _ _ pre).
  - intros (_ & _ & Hin). apply (in_place_denied s KDeployment); [done|]. by apply (honest_get KDeployment _ _ _ pre).
Qed.
End protection.

(** ** The server as its container starts it *)

Section deployed.
Context {Q : QuantityLib}.

(** The path is that of the file [file] right under the place where the container mounts a volume
    with this source. *)
Definition mounted_file (pod : PodSpec) (c : Container) (path : string) (source : VolumeSource) (file : string) : Prop :=
  exists m v, m ∈ ct_VolumeMounts c /\ v ∈ po_Volumes pod /\ vo_Name v = vm_Name m /\ vo_Source v = source /\
    path = vm_MountPath m +:+ ("/" +:+ file).

(** The address is that of a port the container declares under this name. *)
Definition declared_port (c : Container) (name address : string) : Prop :=
  exists p, p ∈ ct_Ports c /\ cp_Name p = name /\ address = ":" +:+ Itoa (cp_ContainerPort p).

(** How the container is set up for the process that its arguments start. *)
Record well_deployed (server : KubernetesMCPServer) (pod : PodSpec) (c : Container) (opts : server_options) : Prop := {
  wd_config : exists mode, mounted_file pod c (so_ConfigPath opts) (ConfigMapVolume (Name server +:+ "-config") mode) "config.json";
  wd_cert : exists mode, mounted_file pod c (so_CertFile opts) (SecretVolume (TLSSecretName server) mode) "tls.crt";
  wd_key : exists mode, mounted_file pod c (so_KeyFile opts) (SecretVolume (TLSSecretName server) mode) "tls.key";
  wd_mounts : NoDup (vm_MountPath <$> ct_VolumeMounts c) /\ NoDup (vo_Name <$> po_Volumes pod) /\ NoDup (cp_Name <$> ct_Ports c);
  wd_listen : declared_port c "mcp" (so_ListenAddress opts);
  wd_metrics : declared_port c "metrics" (so_MetricsAddress opts);
  wd_probes : declared_port c (pb_Port (ct_ReadinessProbe c)) (so_MetricsAddress opts) /\
              declared_port c (pb_Port (ct_LivenessProbe c)) (so_MetricsAddress opts) /\
              metricsMux (pb_Path (ct_ReadinessProbe c)) = Some ReadyPage /\ metricsMux (pb_Path (ct_LivenessProbe c)) = Some HealthPage;
  wd_grace : exists grace, po_TerminationGracePeriodSeconds pod = Some grace /\ (shutdown_timeout < grace * second)%Z
}.

(** Every port of the Service leads to a declared port of the container. *)
Definition ports_reach (s : Service) (c : Container) : Prop :=
  Forall (fun p => exists q, q ∈ ct_Ports c /\ cp_ContainerPort q = sp_TargetPort p) (ss_Ports (sv_Spec s)).

Lemma pod_well_deployed image server getenv program :
  exists c opts, po_Containers (pod_spec image server) = [c] /\
    main getenv (program :: ct_Args c) = RunServer opts /\ well_deployed server (pod_spec image server) c opts /\
    (forall s, ss_Ports (sv_Spec s) = service_ports -> ports_reach s c).
Proof.
  eexists _, _. split; [reflexivity|]. split; [reflexivity|]. split.
  - constructor.
    + exists 288%Z. eexists _, _. split; [left|]. split; [left|]. by split_and!.
    + exists 288%Z. eexists _, _. split; [right; left|]. split; [right; left|]. by split_and!.
    + exists 288%Z. eexists _, _. split; [right; left|]. split; [right; left|]. by split_and!.
    + split_and!; apply (bool_decide_unpack _); reflexivity.
    + eexists. split; [left|]. by split.
    + eexists. split; [right; left|]. by split.
    + split_and!; [eexists; split; [right; left|]; by split..|done|done].
    + by exists 30%Z.
  - intros s Hs. unfold ports_reach. rewrite Hs. repeat constructor; [eexists; split; [left|done]|eexists; split; [right; left|done]].
Qed.
End deployed.

(** ** Properties *)

Section properties.
Context {G : GoLib} {Q : QuantityLib} {C : ControllerLib} {X : X509Lib} {T : ConfigText} {R : RateLib}.
Context (r : KubernetesMCPServerReconciler).

(** C16: Self-protection, end to end: whatever the cluster answers (as long as it
    answers a request for a name with an object of that name), every object a
    reconciliation creates, updates, scales or deletes is one that the policy of
    the very server it configures refuses to let callers write, in every mode and
    under all rules; so are all server resources. *)
Theorem operator_objects_are_protected namespace name (w : op_env) h o :
  w _ h () (OGet KServer namespace name) = Ok o -> Name (so_Server o) <> "" ->
  let cfg := FromResource (so_Server o) in
  exists es, (Reconcile r namespace name w h).2 = h ++ es /\
    (Forall honest es -> Forall (out_of_reach cfg) es) /\
    (forall ns n, n <> "" -> denied cfg KServer ns n).
Proof.
  intros Ho Hn cfg. destruct (Reconcile_runs r namespace name w h) as (es & Hes & Hrun). destruct (Hrun o Ho) as [Hrule _].
  exists es. split_and!; [done| |].
  - intros Hh. apply Forall_forall. intros e (a & b & ->)%list_elem_of_split. apply Forall_app in Hh as [Ha _].
    eapply rule_out_of_reach; [done|exact Ha|]. by apply (Hrule a e b).
  - intros ns n Hne. apply denied_managed; [done|]. intros a [= Hg Hr Hns]. right. left. by split_and!.
Qed.

(** C17: The operator and the server agree on what a good configuration is.  The text a reconciliation
    puts into the server's ConfigMap is the encoding of the defaulted specification of that server, and this configuration is valid;
    the server's own loading returns it unchanged (once the text is decoded, which is the JSON library's part), and the server can be made with it,
    as long as its TokenReview client can be made and a key was drawn: it then runs under exactly this configuration. *)
Theorem written_configuration_is_accepted namespace name (w : op_env) h o :
  w _ h () (OGet KServer namespace name) = Ok o ->
  let cfg := FromResource (so_Server o) in
  exists es, (Reconcile r namespace name w h).2 = h ++ es /\
    forall pre cm mutate answer post, es = pre ++ Ev () (OCreateOrUpdate KConfigMap cm mutate) answer :: post ->
      om_Name (cm_Meta cm) = Name (so_Server o) +:+ "-config" ->
      (exists text, MarshalConfig cfg = Ok text /\ forall x x', mutate x = Ok x' -> cm_Data x' = [("config.json", text)]) /\
      valid_config cfg /\ Load cfg = Ok cfg /\
      forall base_ client key, (forall c, client c = Ok ()) ->
        exists a, NewApp cfg base_ client (Ok key) = Ok a /\ app_config a = cfg.
Proof.
  intros Ho cfg. destruct (Reconcile_runs r namespace name w h) as (es & Hes & Hrun). destruct (Hrun o Ho) as [Hrule _].
  exists es. split; [done|]. intros pre cm mutate answer post Hp Hname.
  destruct (Hrule _ _ _ Hp) as [(data & -> & [(_ & text & Hm & ->)|(-> & _)]) _].
  2: { exfalso. cbn in Hname. by apply append_inj_l in Hname. }
  assert (FromResource (Default (so_Server o)) = cfg) as Hcfg.
  { unfold cfg, FromResource, Default. cbn. by rewrite default_spec_idem. }
  rewrite Hcfg in Hm. pose proof Hm as [Hv _]%bind_unit_ok. split_and!.
  - exists text. split; [done|]. intros x x' Hx. apply bind_unit_ok in Hx as [_ Hx]. by apply bind_ok in Hx as (owners & _ & [= <-]).
  - by apply Validate_ok_iff.
  - by apply Load_FromResource.
  - intros base_ client key Hc. unfold NewApp, NewAuthenticator. rewrite Hv, Hc. cbn. by eexists.
Qed.

(** C18: Deployment.  A reconciliation of a live server with its finalizer that succeeds writes the server's Deployment; and whenever
    one writes it, then before that, in the same reconciliation, the configuration of this very server was
    written successfully into its ConfigMap under config.json, and its certificate was checked or issued ([provenance]).
    The one container starts the server program, with these paths and
    addresses: its configuration is config.json in the volume of that ConfigMap, its certificate and key are tls.crt and
    tls.key in the volume of the server's Secret, it listens on the container's ports mcp and metrics, to which the probes go, on paths
    that the metrics server answers, and to which the Service leads; and it is given more time to shut down than it takes. *)
Theorem deployed_server_finds_its_files namespace name (w : op_env) h o getenv program :
  w _ h () (OGet KServer namespace name) = Ok o ->
  let server := Default (so_Server o) in
  exists es, (Reconcile r namespace name w h).2 = h ++ es /\
    (is_ok (Reconcile r namespace name w h).1 = true -> so_Deleting o = false -> serverFinalizer ∈ so_Finalizers o ->
       exists d mutate written, Ev () (OCreateOrUpdate KDeployment d mutate) (Ok written) ∈ es) /\
    forall pre d mutate answer post, es = pre ++ Ev () (OCreateOrUpdate KDeployment d mutate) answer :: post ->
      (exists cm mutate_cm written text, Ev () (OCreateOrUpdate KConfigMap cm mutate_cm) (Ok written) ∈ pre /\
         om_Namespace (cm_Meta cm) = Namespace server /\ om_Name (cm_Meta cm) = Name server +:+ "-config" /\
         MarshalConfig (FromResource server) = Ok text /\
         forall x x', mutate_cm x = Ok x' -> obj_get (cm_Data x') "config.json" = Some text) /\
      (exists ca material, provenance server ca pre material) /\
      (forall before after, mutate before = Ok after ->
        exists spec c opts, dp_Spec after = Some spec /\ po_Containers (pt_Spec (ds_Template spec)) = [c] /\
          main getenv (program :: ct_Args c) = RunServer opts /\ well_deployed server (pt_Spec (ds_Template spec)) c opts /\
          (forall sv mutate_sv answer_sv x x', Ev () (OCreateOrUpdate KService sv mutate_sv) answer_sv ∈ es -> mutate_sv x = Ok x' ->
             ports_reach x' c)).
Proof.
  intros Ho server. destruct (Reconcile_runs r namespace name w h) as (es & Hes & Hrun). destruct (Hrun o Ho) as [Hrule Hend].
  exists es. split_and!; [done| |].
  - intros Hok Hd Hf. destruct (Hend Hd Hf) as [(crev & trev & before & d & s & after & -> & _)|(err & ? & ? & ? & E & _)].
    + eexists _, _, d. rewrite elem_of_app. right. left.
    + by rewrite E in Hok.
  - intros pre d mutate answer post Hp. destruct (Hrule _ _ _ Hp) as [(text & cm & ca & material & [Hw Hm] & Hprov & ->) _]. split_and!.
    + eexists _, _, cm, text. split; [exact Hw|]. split_and!; [done..|]. intros x x' Hx.
      apply bind_unit_ok in Hx as [_ Hx]. by apply bind_ok in Hx as (owners & _ & [= <-]).
    + by exists ca, material.
    + intros before after Ha. apply bind_unit_ok in Ha as [_ Ha]. apply bind_ok in Ha as (owners & _ & [= <-]).
      destruct (pod_well_deployed (ServerImage r) server getenv program) as (c & opts & Hc & Hmain & Hwd & Hports).
      eexists _, c, opts. split_and!; [reflexivity|exact Hc|exact Hmain|exact Hwd|].
      intros sv mutate_sv answer_sv x x' (pre1 & post1 & H1)%list_elem_of_split Hx.
      destruct (Hrule _ _ _ H1) as [(rev1 & -> & _) _]. apply bind_unit_ok in Hx as [_ Hx].
      apply bind_ok in Hx as (? & _ & [= <-]). by apply Hports.
Qed.
End properties.

(** ** Witnesses *)

Module CompositionWitness.
Export OperatorWitness AdmissionWitness.
#[local] Existing Instance short_X509.

Lemma operator_objects_are_protected_witness :
  let cfg := demo_config ModeReadOnly in
  exists es, (Reconcile demo_reconciler "mcp" "gw" (cluster demo_object None) []).2 = [] ++ es /\
    (Forall honest es -> Forall (out_of_reach cfg) es) /\ (forall ns n, n <> "" -> denied cfg KServer ns n).
Proof.
  apply (operator_objects_are_protected demo_reconciler "mcp" "gw" (cluster demo_object None) [] demo_object);
    [reflexivity|discriminate].
Defined.

Lemma written_configuration_is_accepted_witness :
  let cfg := demo_config ModeReadOnly in
  exists es, (Reconcile demo_reconciler "mcp" "gw" (cluster demo_object None) []).2 = [] ++ es /\
    forall pre cm mutate answer post, es = pre ++ Ev () (OCreateOrUpdate KConfigMap cm mutate) answer :: post ->
      om_Name (cm_Meta cm) = Name (so_Server demo_object) +:+ "-config" ->
      (exists text, MarshalConfig cfg = Ok text /\ forall x x', mutate x = Ok x' -> cm_Data x' = [("config.json", text)]) /\
      valid_config cfg /\ Load cfg = Ok cfg /\
      forall base_ client key, (forall c, client c = Ok ()) ->
        exists a, NewApp cfg base_ client (Ok key) = Ok a /\ app_config a = cfg.
Proof.
  apply (written_configuration_is_accepted demo_reconciler "mcp" "gw" (cluster demo_object None) [] demo_object). reflexivity.
Defined.

Lemma deployed_server_finds_its_files_witness :
  exists es, (Reconcile demo_reconciler "mcp" "gw" (cluster demo_object None) []).2 = [] ++ es /\
    exists d mutate written, Ev () (OCreateOrUpdate KDeployment d mutate) (Ok written) ∈ es /\
    forall before after, mutate before = Ok after ->
      exists spec c opts, dp_Spec after = Some spec /\ po_Containers (pt_Spec (ds_Template spec)) = [c] /\
        main (fun _ => "") ("supek8smcp" :: ct_Args c) = RunServer opts /\
        well_deployed (Default (so_Server demo_object)) (pt_Spec (ds_Template spec)) c opts.
Proof.
  destruct (deployed_server_finds_its_files demo_reconciler "mcp" "gw" (cluster demo_object None) [] demo_object (fun _ => "") "supek8smcp")
    as (es & Hes & Hex & H); [reflexivity|].
  exists es. split; [exact Hes|]. destruct Hex as (d & mutate & written & Hin); [vm_compute; reflexivity|reflexivity|by left|].
  exists d, mutate, written. split; [exact Hin|]. intros before after Hm. apply list_elem_of_split in Hin as (pre & post & Hp).
  destruct (H pre d mutate (Ok written) post Hp) as (_ & _ & Hd).
  destruct (Hd before after Hm) as (spec & c & opts & H1 & H2 & H3 & H4 & _).
  exists spec, c, opts. exact (conj H1 (conj H2 (conj H3 H4))).
Defined.
End CompositionWitness.
